(** * Collaborative editor (collab_editor2.c, kilo.c): model and properties

    A shallow embedding of the two programs of the repository.

    The relay and file server of [collab_editor2.c]: the WebSocket frame
    codec ([ws_send_frame], [ws_read_frame]) and handshake
    ([base64_encode], [ws_handshake], [websocket_server]), the client list
    ([add_client], [remove_client]), the fan-out ([broadcast_message]), the
    per-connection dispatcher ([handle_websocket]) and the HTTP side
    ([handle_http_client] with [list_files], [read_file], [write_file],
    [delete_file_handler], [send_html]).

    The terminal editor of [kilo.c]: rows and their rendering, insertion
    and deletion, the cursor and the window, file text, formatting marks,
    undo and redo.

    Conventions.
    - A byte is a [Z] in [0, 255]; a C string is the [list Z] of its bytes
      up to (not including) the terminating NUL.
    - A [char*] into a string is the suffix it points to, so [p += k] is
      [skipn k p] and [e - p] is a difference of lengths.
    - [int] is 32 bits wide, two's complement ([wrap_int]).
    - Behaviour the C standard leaves undefined (a write past the end of a
      fixed-size array, arithmetic on a null pointer) is [Undef]: the model
      says nothing about what the machine does afterwards.
    - Output to stdout ([printf]) is not modelled. *)

From Stdlib Require Import ZArith Bool Lia String Ascii DecimalString List.
From Stdlib Require DecimalPos.
Import ListNotations.
Open Scope Z_scope.

(** ** Executions that may be undefined *)

Inductive exec (A : Type) : Type :=
| Ret (a : A)
| Undef.
Arguments Ret {A} a.
Arguments Undef {A}.

Definition bind {A B : Type} (m : exec A) (k : A -> exec B) : exec B :=
  match m with
  | Ret a => k a
  | Undef => Undef
  end.

Notation "x <- m ;; k" := (bind m (fun x => k))
  (at level 61, m at next level, right associativity).

(** ** C integers and strings *)

Module CString.

Definition wrap_int (z : Z) : Z := (z + 2 ^ 31) mod 2 ^ 32 - 2 ^ 31.

Definition INT_MAX : Z := 2 ^ 31 - 1.
Definition INT_MIN : Z := - 2 ^ 31.

Definition dquote : Z := 34.

(** Bytes of a Rocq string literal. The source's literals contain many
    double quotes and no apostrophe, so literals are written here with an
    apostrophe wherever the source has a double quote. *)
Definition byte_of_ascii (a : ascii) : Z :=
  let b := Z.of_N (N_of_ascii a) in
  if b =? 39 then dquote else b.

Definition lit (s : string) : list Z := map byte_of_ascii (list_ascii_of_string s).

(** The C string stored in a byte array: everything before the first NUL. *)
Fixpoint cstring (bs : list Z) : list Z :=
  match bs with
  | [] => []
  | b :: bs' => if b =? 0 then [] else b :: cstring bs'
  end.

Definition strlen (s : list Z) : Z := Z.of_nat (length s).

Fixpoint starts_with (needle hay : list Z) : bool :=
  match needle, hay with
  | [], _ => true
  | _ :: _, [] => false
  | a :: needle', b :: hay' => (a =? b) && starts_with needle' hay'
  end.

(** [strstr hay needle]: the suffix of [hay] at the first occurrence of
    [needle], [None] for a null result. *)
Fixpoint strstr (hay needle : list Z) {struct hay} : option (list Z) :=
  if starts_with needle hay then Some hay
  else match hay with
       | [] => None
       | _ :: hay' => strstr hay' needle
       end.

(** [strchr s c] for a non-NUL [c]. *)
Fixpoint strchr (s : list Z) (c : Z) : option (list Z) :=
  match s with
  | [] => None
  | b :: s' => if b =? c then Some s else strchr s' c
  end.

(** The [e - p] bytes starting at [p], where [e] points into [p]:
    what [strncpy (dst, p, e - p); dst[e - p] = 0] leaves in [dst]. *)
Definition span (p e : list Z) : list Z :=
  firstn (length p - length e) p.

(** Storing a string of [length s] bytes and its NUL into [char dst[cap]]. *)
Definition store (cap : Z) (s : list Z) : exec (list Z) :=
  if strlen s <? cap then Ret s else Undef.

(** [snprintf (dst, cap, ...)] truncates to [cap - 1] bytes. *)
Definition truncate (cap : Z) (s : list Z) : list Z :=
  firstn (Z.to_nat (cap - 1)) s.

Definition isspace (b : Z) : bool :=
  (b =? 32) || ((9 <=? b) && (b <=? 13)).

Definition isdigit (b : Z) : bool := (48 <=? b) && (b <=? 57).

Fixpoint skip_spaces (s : list Z) : list Z :=
  match s with
  | b :: s' => if isspace b then skip_spaces s' else s
  | [] => []
  end.

Fixpoint digits_value (acc : Z) (s : list Z) : Z :=
  match s with
  | b :: s' => if isdigit b then digits_value (10 * acc + (b - 48)) s' else acc
  | [] => acc
  end.

(** [atoi]: a result outside the range of [int] is undefined. *)
Definition atoi (s : list Z) : exec Z :=
  let s := skip_spaces s in
  let v := match s with
           | 45 :: s' => - digits_value 0 s'
           | 43 :: s' => digits_value 0 s'
           | _ => digits_value 0 s
           end in
  if (INT_MIN <=? v) && (v <=? INT_MAX) then Ret v else Undef.

(** [%d] of [printf]. *)
Definition fmt_int (z : Z) : list Z :=
  lit (NilZero.string_of_int (Z.to_int z)).

Definition no_quote (s : list Z) : bool :=
  forallb (fun b => negb (b =? dquote)) s.

End CString.
Import CString.

(** ** Frame codec *)

Module Frame.

Definition BUFFER_SIZE : Z := 65536.

Definition to_uchar (z : Z) : Z := z mod 256.

Definition byte_at (buffer : list Z) (i : Z) : Z := nth (Z.to_nat i) buffer 0.

(** The length header [ws_send_frame] writes after the [0x81] byte. In the
    third tier the source shifts an [int] by up to 56 bits; the shift is
    taken mathematically here. *)
Definition length_header (len : Z) : list Z :=
  if len <? 126 then [to_uchar len]
  else if len <? 65536 then
    [126; Z.land (Z.shiftr len 8) 255; Z.land len 255]
  else
    127 :: map (fun i => Z.land (Z.shiftr len (i * 8)) 255) [7; 6; 5; 4; 3; 2; 1; 0].

(** The bytes [ws_send_frame] hands to [send]: [frame[0 .. idx + len)].
    [frame] is [unsigned char frame[BUFFER_SIZE]]; the [memcpy] of [len]
    bytes of [message] at [frame + idx] must stay inside it. *)
Definition ws_frame (message : list Z) : exec (list Z) :=
  let len := wrap_int (strlen message) in
  let head := 129 :: length_header len in
  let idx := Z.of_nat (length head) in
  if (0 <=? len) && (idx + len <=? BUFFER_SIZE)
  then Ret (head ++ firstn (Z.to_nat len) message)
  else Undef.

(** [ws_read_frame (buffer, bytes, &out_len)] with [bytes = length buffer].
    [Ret None] is the null result; [Ret (Some m)] is the allocated message,
    [out_len = length m]. The 64-bit tier accumulates eight bytes into the
    [int len], which wraps; a negative [len], or one that passes the test
    on [bytes] only because [idx + len] wrapped, makes the copy loop or the
    store of the final NUL leave the buffers. *)
Definition ws_read_frame (buffer : list Z) : exec (option (list Z)) :=
  let bytes := Z.of_nat (length buffer) in
  if bytes <? 2 then Ret None else
  let opcode := Z.land (byte_at buffer 0) 15 in
  if opcode =? 8 then Ret None else
  let masked := Z.land (byte_at buffer 1) 128 in
  let len := Z.land (byte_at buffer 1) 127 in
  let tier : option (Z * Z) :=
    if len =? 126 then
      if bytes <? 4 then None
      else Some (Z.lor (Z.shiftl (byte_at buffer 2) 8) (byte_at buffer 3), 4)
    else if len =? 127 then
      if bytes <? 10 then None
      else Some (fold_left
                   (fun len i => wrap_int (Z.lor (Z.shiftl len 8) (byte_at buffer (2 + i))))
                   [0; 1; 2; 3; 4; 5; 6; 7] 0, 10)
    else Some (len, 2) in
  match tier with
  | None => Ret None
  | Some (len, idx) =>
    let keyed : option (list Z * Z) :=
      if negb (masked =? 0) then
        if bytes <? idx + 4 then None
        else Some (map (fun k => byte_at buffer (idx + k)) [0; 1; 2; 3], idx + 4)
      else Some ([], idx) in
    match keyed with
    | None => Ret None
    | Some (mask, idx) =>
      if bytes <? wrap_int (idx + len) then Ret None
      else if (len <? 0) || (bytes <? idx + len) then Undef
      else
        Ret (Some (map (fun i =>
                          if negb (masked =? 0)
                          then Z.lxor (byte_at buffer (idx + i)) (byte_at mask (i mod 4))
                          else byte_at buffer (idx + i))
                       (map Z.of_nat (seq 0 (Z.to_nat len)))))
    end
  end.

End Frame.
Import Frame.

(** ** Client list *)

Module Registry.

Record Client : Type := mkClient {
  socket : Z;
  username : list Z;
  current_file : list Z;
  cursor_pos : Z;
  color : list Z;
  active : Z
}.

Definition set_username (c : Client) (u : list Z) : Client :=
  mkClient (socket c) u (current_file c) (cursor_pos c) (color c) (active c).

Definition set_current_file (c : Client) (f : list Z) : Client :=
  mkClient (socket c) (username c) f (cursor_pos c) (color c) (active c).

Definition set_cursor_pos (c : Client) (p : Z) : Client :=
  mkClient (socket c) (username c) (current_file c) p (color c) (active c).

Definition set_color (c : Client) (k : list Z) : Client :=
  mkClient (socket c) (username c) (current_file c) (cursor_pos c) k (active c).

Definition set_active (c : Client) (a : Z) : Client :=
  mkClient (socket c) (username c) (current_file c) (cursor_pos c) (color c) a.

(** The two kinds of mutex: [clients_mutex] and a client's own [lock],
    named by the client's socket. *)
Inductive mutex : Type :=
| ClientsMutex
| ClientLock (sock : Z).

(** What a thread does to the outside: mutex operations, [send], [close]. *)
Inductive event : Type :=
| EvLock (m : mutex)
| EvUnlock (m : mutex)
| EvSend (sock : Z) (frame : list Z)
| EvClose (sock : Z).

Definition colors : list (list Z) := Eval cbv in
  map lit ["#FF6B6B"; "#4ECDC4"; "#45B7D1"; "#FFA07A"; "#98D8C8";
           "#F7DC6F"; "#BB8FCE"; "#85C1E2"; "#FF69B4"; "#20B2AA"]%string.

(** [add_client]: [r] is the value [rand ()] returns, [0 <= r]. The list
    is the linked list from its head [clients]. *)
Definition add_client (r : Z) (client : Client) (clients : list Client)
  : list Client * list event :=
  let client := set_active client 1 in
  let client := set_color client (nth (Z.to_nat (r mod 10)) colors []) in
  (client :: clients, [EvLock ClientsMutex; EvUnlock ClientsMutex]).

(** The walk of [remove_client]: unlink the first node with this socket. *)
Fixpoint unlink (sock : Z) (curr : list Client) : list Client * list event :=
  match curr with
  | [] => ([], [])
  | c :: next =>
    if socket c =? sock then (next, [EvClose (socket c)])
    else let (rest, evs) := unlink sock next in (c :: rest, evs)
  end.

Definition remove_client (sock : Z) (clients : list Client)
  : list Client * list event :=
  let (clients', evs) := unlink sock clients in
  (clients', [EvLock ClientsMutex] ++ evs ++ [EvUnlock ClientsMutex]).

Definition sockets (clients : list Client) : list Z := map socket clients.

End Registry.
Import Registry.

(** ** Fan-out *)

Module Relay.

Definition ws_send_frame (sock : Z) (message : list Z) : exec (list event) :=
  frame <- ws_frame message ;;
  Ret [EvSend sock frame].

(** The [while (curr)] loop of [broadcast_message]. *)
Fixpoint broadcast_walk (message : list Z) (exclude_socket : Z) (curr : list Client)
  : exec (list event) :=
  match curr with
  | [] => Ret []
  | c :: next =>
    here <- (if negb (socket c =? exclude_socket) && negb (active c =? 0)
             then sent <- ws_send_frame (socket c) message ;;
                  Ret ([EvLock (ClientLock (socket c))] ++ sent
                         ++ [EvUnlock (ClientLock (socket c))])
             else Ret []) ;;
    rest <- broadcast_walk message exclude_socket next ;;
    Ret (here ++ rest)
  end.

Definition broadcast_message (message : list Z) (exclude_socket : Z)
  (clients : list Client) : exec (list event) :=
  sent <- broadcast_walk message exclude_socket clients ;;
  Ret ([EvLock ClientsMutex] ++ sent ++ [EvUnlock ClientsMutex]).

(** The [send] calls of a trace, in order. *)
Fixpoint sends (evs : list event) : list (Z * list Z) :=
  match evs with
  | [] => []
  | EvSend s f :: evs' => (s, f) :: sends evs'
  | _ :: evs' => sends evs'
  end.

(** The mutexes a thread holds after a trace, most recent first. *)
Definition mutex_eqb (a b : mutex) : bool :=
  match a, b with
  | ClientsMutex, ClientsMutex => true
  | ClientLock s, ClientLock t => s =? t
  | _, _ => false
  end.

Fixpoint release (m : mutex) (held : list mutex) : list mutex :=
  match held with
  | [] => []
  | h :: held' => if mutex_eqb m h then held' else h :: release m held'
  end.

Fixpoint held_after (held : list mutex) (evs : list event) : list mutex :=
  match evs with
  | [] => held
  | EvLock m :: evs' => held_after (m :: held) evs'
  | EvUnlock m :: evs' => held_after (release m held) evs'
  | _ :: evs' => held_after held evs'
  end.

(** Does some [send] of the trace happen while [m] is held? *)
Fixpoint sends_holding (m : mutex) (held : list mutex) (evs : list event) : bool :=
  match evs with
  | [] => false
  | EvLock l :: evs' => sends_holding m (l :: held) evs'
  | EvUnlock l :: evs' => sends_holding m (release l held) evs'
  | EvSend _ _ :: evs' => existsb (mutex_eqb m) held || sends_holding m held evs'
  | EvClose _ :: evs' => sends_holding m held evs'
  end.

End Relay.
Import Relay.

(** ** Connection handler *)

Module Handler.

Definition TYPE_JOIN : list Z := Eval cbv in lit "'type':'join'".
Definition TYPE_CONTENT_CHANGE : list Z := Eval cbv in lit "'type':'content_change'".
Definition TYPE_CURSOR_MOVE : list Z := Eval cbv in lit "'type':'cursor_move'".
Definition TYPE_FILE_CHANGE : list Z := Eval cbv in lit "'type':'file_change'".

Definition KEY_USERNAME : list Z := Eval cbv in lit "'username':'".
Definition KEY_FILE : list Z := Eval cbv in lit "'file':'".
Definition KEY_CONTENT : list Z := Eval cbv in lit "'content':'".
Definition KEY_POSITION : list Z := Eval cbv in lit "'position':".

Definition SEP : list Z := Eval cbv in lit "','".
Definition CLOSER : list Z := Eval cbv in lit "'}".

Definition found (p : option (list Z)) : bool :=
  match p with Some _ => true | None => false end.

Definition own_lock (client : Client) : list event :=
  [EvLock (ClientLock (socket client)); EvUnlock (ClientLock (socket client))].

(** The [join] branch. *)
Definition on_join (client : Client) (message : list Z) : exec (Client * list event) :=
  match strstr message KEY_USERNAME with
  | Some name =>
    let name := skipn 12 name in
    match strchr name dquote with
    | Some e =>
      u <- store 64 (span name e) ;;
      Ret (set_username client u, own_lock client)
    | None => Ret (client, [])
    end
  | None => Ret (client, [])
  end.

Definition content_update (uname fname content : list Z) : list Z :=
  lit "{'type':'content_update','username':'" ++ uname
    ++ lit "','file':'" ++ fname
    ++ lit "','content':'" ++ content ++ lit "'}".

(** The [content_change] branch. A null [uend], [fend] or [cend] enters
    pointer arithmetic in the source. *)
Definition on_content_change (clients : list Client) (client : Client)
  (message : list Z) : exec (Client * list event) :=
  match strstr message KEY_USERNAME, strstr message KEY_FILE,
        strstr message KEY_CONTENT with
  | Some username, Some file, Some content =>
    let username := skipn 12 username in
    let file := skipn 8 file in
    match strchr username dquote, strchr file dquote with
    | Some uend, Some fend =>
      uname <- store 64 (span username uend) ;;
      fname <- store 256 (span file fend) ;;
      let content := skipn 11 content in
      let cend := match strstr content SEP with
                  | Some e => Some e
                  | None => strstr content CLOSER
                  end in
      match cend with
      | Some cend =>
        let head := truncate BUFFER_SIZE
                      (lit "{'type':'content_update','username':'" ++ uname
                         ++ lit "','file':'" ++ fname ++ lit "','content':'") in
        forward_msg <- store BUFFER_SIZE (head ++ span content cend ++ lit "'}") ;;
        evs <- broadcast_message forward_msg (socket client) clients ;;
        Ret (client, evs)
      | None => Undef
      end
    | _, _ => Undef
    end
  | _, _, _ => Ret (client, [])
  end.

Definition cursor_update (uname : list Z) (position : Z) (colour fname : list Z)
  : list Z :=
  lit "{'type':'cursor_update','username':'" ++ uname
    ++ lit "','position':" ++ fmt_int position
    ++ lit ",'color':'" ++ colour
    ++ lit "','file':'" ++ fname ++ lit "'}".

(** The [cursor_move] branch. *)
Definition on_cursor_move (clients : list Client) (client : Client)
  (message : list Z) : exec (Client * list event) :=
  match strstr message KEY_POSITION, strstr message KEY_FILE,
        strstr message KEY_USERNAME with
  | Some pos, Some file, Some username =>
    position <- atoi (skipn 11 pos) ;;
    let client1 := set_cursor_pos client position in
    let file := skipn 8 file in
    match strchr file dquote with
    | Some fend =>
      f <- store 256 (span file fend) ;;
      let client2 := set_current_file client1 f in
      let username := skipn 12 username in
      match strchr username dquote with
      | Some uend =>
        u <- store 64 (span username uend) ;;
        let client3 := set_username client2 u in
        let cursor_msg :=
          truncate 512 (cursor_update (Registry.username client3) position
                          (color client3) (current_file client3)) in
        evs <- broadcast_message cursor_msg (socket client) clients ;;
        Ret (client3, own_lock client ++ evs)
      | None => Undef
      end
    | None => Undef
    end
  | _, _, _ => Ret (client, [])
  end.

(** The [file_change] branch. *)
Definition on_file_change (client : Client) (message : list Z)
  : exec (Client * list event) :=
  match strstr message KEY_FILE with
  | Some file =>
    let file := skipn 8 file in
    match strchr file dquote with
    | Some fend =>
      f <- store 256 (span file fend) ;;
      Ret (set_current_file client f, own_lock client)
    | None => Undef
    end
  | None => Ret (client, [])
  end.

(** The [if / else if] chain on the message type. [client] is the value
    of the [Client] the thread's pointer refers to, [clients] the list it
    is linked into; the caller stores the returned value back. *)
Definition dispatch (clients : list Client) (client : Client) (message : list Z)
  : exec (Client * list event) :=
  if found (strstr message TYPE_JOIN) then on_join client message
  else if found (strstr message TYPE_CONTENT_CHANGE)
       then on_content_change clients client message
  else if found (strstr message TYPE_CURSOR_MOVE)
       then on_cursor_move clients client message
  else if found (strstr message TYPE_FILE_CHANGE)
       then on_file_change client message
  else Ret (client, []).

Inductive loop_status : Type := Continue | Break.

(** One turn of the [while (1)] loop: [received] holds the [bytes] bytes
    that [recv] stored, and is empty when [recv] returned [bytes <= 0]. *)
Definition loop_turn (clients : list Client) (client : Client) (received : list Z)
  : exec (loop_status * Client * list event) :=
  if Z.of_nat (length received) <=? 0 then Ret (Break, client, [])
  else
    decoded <- ws_read_frame received ;;
    match decoded with
    | None => Ret (Continue, client, [])
    | Some message =>
      r <- dispatch clients client (cstring message) ;;
      Ret (Continue, fst r, snd r)
    end.

(** [strcat (dst, s)] into [char dst[BUFFER_SIZE]]. *)
Definition strcat_buf (dst s : list Z) : exec (list Z) :=
  store BUFFER_SIZE (dst ++ s).

Definition user_data (c : Client) : list Z :=
  truncate 512
    (lit "{'username':'" ++ username c ++ lit "','color':'" ++ color c
       ++ lit "','file':'" ++ current_file c
       ++ lit "','cursor_pos':" ++ fmt_int (cursor_pos c) ++ lit "}").

Fixpoint users_walk (curr : list Client) (first : bool) (users_msg : list Z)
  : exec (list Z) :=
  match curr with
  | [] => Ret users_msg
  | c :: next =>
    if negb (active c =? 0) then
      m1 <- (if first then Ret users_msg else strcat_buf users_msg (lit ",")) ;;
      m2 <- strcat_buf m1 (user_data c) ;;
      users_walk next false m2
    else users_walk next first users_msg
  end.

(** What [handle_websocket] does before its loop. *)
Definition greet (clients : list Client) (client : Client) : exec (list event) :=
  let init_msg :=
    truncate 256 (lit "{'type':'init','color':'" ++ color client ++ lit "'}") in
  e1 <- ws_send_frame (socket client) init_msg ;;
  let join_msg :=
    truncate 512 (lit "{'type':'user_joined','username':'" ++ username client
                    ++ lit "'}") in
  e2 <- broadcast_message join_msg (socket client) clients ;;
  listed <- users_walk clients true (lit "{'type':'users_list','users':[") ;;
  users_msg <- strcat_buf listed (lit "]}") ;;
  e3 <- ws_send_frame (socket client) users_msg ;;
  Ret (e1 ++ e2 ++ [EvLock ClientsMutex; EvUnlock ClientsMutex] ++ e3).

(** What [handle_websocket] does after its loop. *)
Definition leave (clients : list Client) (client : Client)
  : exec (list Client * list event) :=
  let leave_msg :=
    truncate 512 (lit "{'type':'user_left','username':'" ++ username client
                    ++ lit "'}") in
  e1 <- broadcast_message leave_msg (socket client) clients ;;
  let (clients', e2) := remove_client (socket client) clients in
  Ret (clients', e1 ++ e2).

End Handler.
Import Handler.

(** ** The server as a transition system

    One action is what one thread does between two points where it can
    block: [websocket_server] accepting a connection and linking the new
    client, a handler greeting its peer, one turn of a handler's loop, and
    a handler leaving. Actions are taken as atomic, and a greeting is
    allowed at any time for a linked client; every interleaving of the
    threads at this grain is an execution of the model. *)

Module Server.

Inductive action : Type :=
| Accept (sock r_name r_color : Z)
| Greet (sock : Z)
| Receive (sock : Z) (received : list Z)
| Hangup (sock : Z).

(** The [Client] that [websocket_server] allocates and fills in; [color]
    and [active] are left for [add_client] to write. *)
Definition new_client (sock r_name : Z) : Client :=
  mkClient sock (lit "User" ++ fmt_int (r_name mod 10000)) [] 0 [] 0.

(** The client a handler thread's pointer refers to. *)
Definition client_of (sock : Z) (clients : list Client) : option Client :=
  find (fun c => socket c =? sock) clients.

(** Writing through that pointer. *)
Fixpoint store_back (client' : Client) (clients : list Client) : list Client :=
  match clients with
  | [] => []
  | c :: next =>
    if socket c =? socket client' then client' :: next
    else c :: store_back client' next
  end.

Definition linked (sock : Z) (clients : list Client) : bool :=
  match client_of sock clients with Some _ => true | None => false end.

(** [accept] returns a descriptor that is not open, hence not linked;
    [rand] returns a non-negative value; a handler runs on a linked
    client and receives at least one byte in a turn that dispatches. *)
Definition enabled (clients : list Client) (a : action) : bool :=
  match a with
  | Accept sock r_name r_color =>
    negb (existsb (Z.eqb sock) (sockets clients)) && (0 <=? r_name) && (0 <=? r_color)
  | Greet sock => linked sock clients
  | Receive sock received =>
    linked sock clients && negb (Z.of_nat (length received) <=? 0)
  | Hangup sock => linked sock clients
  end.

Definition perform (clients : list Client) (a : action)
  : exec (list Client * list event) :=
  match a with
  | Accept sock r_name r_color =>
    Ret (add_client r_color (new_client sock r_name) clients)
  | Greet sock =>
    match client_of sock clients with
    | Some client => evs <- greet clients client ;; Ret (clients, evs)
    | None => Undef
    end
  | Receive sock received =>
    match client_of sock clients with
    | Some client =>
      r <- loop_turn clients client received ;;
      Ret (store_back (snd (fst r)) clients, snd r)
    | None => Undef
    end
  | Hangup sock =>
    match client_of sock clients with
    | Some client => leave clients client
    | None => Undef
    end
  end.

(** [reach history state]: the server, started with an empty list, can
    be in [state] after the actions of [history], the most recent first.
    A state is the list of clients, or [Undef] once an enabled action has
    no defined result (a name overran its array, a frame its buffer): no
    action is taken from there. *)
Inductive reach : list action -> exec (list Client) -> Prop :=
| reach_start : reach [] (Ret [])
| reach_step history clients a :
    reach history (Ret clients) ->
    enabled clients a = true ->
    reach (a :: history) (r <- perform clients a ;; Ret (fst r)).

(** The palette entry drawn when the client now on [sock] was linked,
    read off the history. *)
Fixpoint chosen_color (history : list action) (sock : Z) : option (list Z) :=
  match history with
  | [] => None
  | Accept s _ r_color :: earlier =>
    if s =? sock then Some (nth (Z.to_nat (r_color mod 10)) colors [])
    else chosen_color earlier sock
  | Hangup s :: earlier =>
    if s =? sock then None else chosen_color earlier sock
  | _ :: earlier => chosen_color earlier sock
  end.

End Server.
Import Server.

(** * Vocabulary of the properties *)

Module Spec.

(** The test of the walk at one node. *)
Definition recipient (exclude_socket : Z) (c : Client) : bool :=
  negb (socket c =? exclude_socket) && negb (active c =? 0).

(** What the walk does at one node, given the frame that goes out. *)
Definition visit (exclude_socket : Z) (frame : list Z) (c : Client) : list event :=
  if recipient exclude_socket c
  then [EvLock (ClientLock (socket c)); EvSend (socket c) frame;
        EvUnlock (ClientLock (socket c))]
  else [].

(** The frames a trace sends to one socket, in order. *)
Definition sent_to (sock : Z) (evs : list event) : list (list Z) :=
  map snd (filter (fun p => fst p =? sock) (sends evs)).

(** Every send of the trace happens while [clients_mutex] and the
    target's own lock are both held. *)
Fixpoint sends_guarded (held : list mutex) (evs : list event) : bool :=
  match evs with
  | [] => true
  | EvLock l :: evs' => sends_guarded (l :: held) evs'
  | EvUnlock l :: evs' => sends_guarded (release l held) evs'
  | EvSend sock _ :: evs' =>
    existsb (mutex_eqb ClientsMutex) held
    && existsb (mutex_eqb (ClientLock sock)) held
    && sends_guarded held evs'
  | EvClose _ :: evs' => sends_guarded held evs'
  end.

(** The trace of a broadcast whose frame is [frame]. *)
Definition broadcast_trace (S : Z) (frame : list Z) (clients : list Client)
  : list event :=
  [EvLock ClientsMutex] ++ flat_map (visit S frame) clients
    ++ [EvUnlock ClientsMutex].

Definition same_identity (c c' : Client) : Prop :=
  socket c' = socket c /\ color c' = color c /\ active c' = active c.

(** The invariant of the server: one client per socket, every linked
    client active, and every linked client's colour the palette entry
    drawn when it was linked. *)
Definition well_formed (history : list action) (clients : list Client) : Prop :=
  NoDup (sockets clients)
  /\ forall c, In c clients ->
       active c = 1
       /\ In (color c) colors
       /\ chosen_color history (socket c) = Some (color c).

Inductive kind : Type :=
| KJoin | KContentChange | KCursorMove | KFileChange | KOther.

(** The branch of the [if / else if] chain a message takes. *)
Definition kind_of (message : list Z) : kind :=
  if found (strstr message TYPE_JOIN) then KJoin
  else if found (strstr message TYPE_CONTENT_CHANGE) then KContentChange
  else if found (strstr message TYPE_CURSOR_MOVE) then KCursorMove
  else if found (strstr message TYPE_FILE_CHANGE) then KFileChange
  else KOther.

(** The fields each kind of inbound message must carry, as the keys the
    handler looks for. *)
Definition required (k : kind) : list (list Z) :=
  match k with
  | KJoin => [KEY_USERNAME]
  | KContentChange => [KEY_USERNAME; KEY_FILE; KEY_CONTENT]
  | KCursorMove => [KEY_USERNAME; KEY_FILE; KEY_POSITION]
  | KFileChange => [KEY_FILE]
  | KOther => []
  end.

Definition lacks_required (message : list Z) : bool :=
  existsb (fun key => negb (found (strstr message key))) (required (kind_of message)).

(** What is left of a needle after its first double quote. *)
Fixpoint after_quote (s : list Z) : list Z :=
  match s with
  | [] => []
  | b :: s' => if b =? dquote then s' else after_quote s'
  end.

(** Inbound messages in the form the editor page sends them. *)
Definition file_change_msg (file : list Z) : list Z :=
  lit "{'type':'file_change','file':'" ++ file ++ lit "'}".

Definition content_change_msg (uname fname content : list Z) : list Z :=
  lit "{'type':'content_change','username':'" ++ uname
    ++ lit "','file':'" ++ fname
    ++ lit "','content':'" ++ content ++ lit "'}".

(** What follows the opening quote of each value of a [content_change]
    message. *)
Definition tail_content (content : list Z) : list Z := content ++ lit "'}".

Definition tail_file (fname content : list Z) : list Z :=
  fname ++ lit "','content':'" ++ tail_content content.

Definition tail_username (uname fname content : list Z) : list Z :=
  uname ++ lit "','file':'" ++ tail_file fname content.

(** Sample states and inputs. *)
Definition some_client (sock : Z) : Client :=
  mkClient sock (lit "User1") [] 0 (lit "#FF6B6B") 1.

Definition three_clients : list Client :=
  [some_client 9; some_client 7; some_client 5].

Definition first_history : list action :=
  [Receive 5 (129 :: 32 :: lit "{'type':'join','username':'ann'}");
   Greet 5; Accept 5 1234 3].

Definition first_client : Client :=
  mkClient 5 (lit "ann") [] 0 (lit "#FFA07A") 1.

Definition text_of_length (n : Z) : list Z := repeat 97 (Z.to_nat n).

Definition close_frame : list Z := [136; 2; 3; 232].

Definition cursor_move_without_username : list Z :=
  lit "{'type':'cursor_move','file':'a.txt','position':3}".

End Spec.
Import Spec.

(** ** Base64 and the opening handshake *)

Module Base64.

Definition b64 : list Z := Eval cbv in
  lit "ABCDEFGHIJKLMNOPQRSTUVWXYZabcdefghijklmnopqrstuvwxyz0123456789+/".

Definition b64_at (k : Z) : Z := nth (Z.to_nat k) b64 0.

Definition pad : Z := 61.

(** [base64_encode (input, length, output)]: the [for] loop takes the
    input three bytes at a time while [i < length - 2]; the [if] after it
    takes the one or two bytes left. The result is [output] up to its NUL. *)
Fixpoint base64_encode (input : list Z) : list Z :=
  match input with
  | a :: b :: c :: rest =>
    b64_at (Z.land (Z.shiftr a 2) 63)
      :: b64_at (Z.lor (Z.shiftl (Z.land a 3) 4) (Z.shiftr (Z.land b 240) 4))
      :: b64_at (Z.lor (Z.shiftl (Z.land b 15) 2) (Z.shiftr (Z.land c 192) 6))
      :: b64_at (Z.land c 63)
      :: base64_encode rest
  | [a] =>
    [b64_at (Z.land (Z.shiftr a 2) 63); b64_at (Z.shiftl (Z.land a 3) 4); pad; pad]
  | [a; b] =>
    [b64_at (Z.land (Z.shiftr a 2) 63);
     b64_at (Z.lor (Z.shiftl (Z.land a 3) 4) (Z.shiftr (Z.land b 240) 4));
     b64_at (Z.shiftl (Z.land b 15) 2); pad]
  | [] => []
  end.

End Base64.
Import Base64.

Module Base64Spec.

Definition is_byte (b : Z) : bool := (0 <=? b) && (b <? 256).

(** Position of a character in the alphabet, 64 when it is not there. *)
Fixpoint index_in (alphabet : list Z) (c : Z) : Z :=
  match alphabet with
  | [] => 0
  | a :: alphabet' => if a =? c then 0 else 1 + index_in alphabet' c
  end.

Definition b64_index (c : Z) : Z := index_in b64 c.

(** Reading four characters back into bytes; only used to state that
    the encoder loses nothing. *)
Fixpoint base64_decode (s : list Z) : option (list Z) :=
  match s with
  | [] => Some []
  | w :: x :: y :: z :: rest =>
    let i := b64_index w in
    let j := b64_index x in
    let k := b64_index y in
    let l := b64_index z in
    let b1 := Z.lor (Z.shiftl i 2) (Z.shiftr j 4) in
    let b2 := Z.lor (Z.shiftl (Z.land j 15) 4) (Z.shiftr k 2) in
    let b3 := Z.lor (Z.shiftl (Z.land k 3) 6) l in
    if z =? pad then
      match rest with
      | [] => if y =? pad then Some [b1] else Some [b1; b2]
      | _ => None
      end
    else
      match base64_decode rest with
      | Some t => Some (b1 :: b2 :: b3 :: t)
      | None => None
      end
  | _ => None
  end.

Definition bytes256 : list Z := Eval vm_compute in map Z.of_nat (seq 0 256).

(** The four sextets of three bytes, read back through the alphabet. *)
Definition s1 (a : Z) : Z := b64_index (b64_at (Z.land (Z.shiftr a 2) 63)).
Definition s2 (a b : Z) : Z :=
  b64_index (b64_at (Z.lor (Z.shiftl (Z.land a 3) 4) (Z.shiftr (Z.land b 240) 4))).
Definition s3 (b c : Z) : Z :=
  b64_index (b64_at (Z.lor (Z.shiftl (Z.land b 15) 2) (Z.shiftr (Z.land c 192) 6))).
Definition s4 (c : Z) : Z := b64_index (b64_at (Z.land c 63)).

Definition in_alphabet (c : Z) : bool := existsb (Z.eqb c) b64.

(** The number of [=] signs that close the encoding of [n] bytes. *)
Definition pads (n : nat) : nat := ((3 - n mod 3) mod 3)%nat.

End Base64Spec.
Import Base64Spec.

Module Handshake.

Definition crlf : list Z := [13; 10].

Definition GUID : list Z := Eval cbv in lit "258EAFA5-E914-47DA-95CA-C5AB0DC85B11".

Definition KEY_HEADER : list Z := Eval cbv in lit "Sec-WebSocket-Key: ".

Definition RESPONSE_HEAD : list Z :=
  lit "HTTP/1.1 101 Switching Protocols" ++ crlf
    ++ lit "Upgrade: websocket" ++ crlf
    ++ lit "Connection: Upgrade" ++ crlf
    ++ lit "Sec-WebSocket-Accept: ".

(** [sscanf (s, "%[^\r\n]", dst)]: the bytes of [s] before its first CR
    or LF. *)
Fixpoint scan_line (s : list Z) : list Z :=
  match s with
  | [] => []
  | b :: s' => if (b =? 13) || (b =? 10) then [] else b :: scan_line s'
  end.

Section WithSHA1.

(** OpenSSL's [SHA1 (data, len, hash)], as the digest it stores in
    [hash[SHA_DIGEST_LENGTH]]. *)
Variable SHA1 : list Z -> list Z.

(** [ws_handshake (key)]: the response it allocates. [combined] is
    [char[256]] filled by [snprintf], [base64] is [char[64]]. *)
Definition ws_handshake (key : list Z) : exec (list Z) :=
  let combined := truncate 256 (key ++ GUID) in
  let hash := SHA1 combined in
  base64 <- store 64 (base64_encode hash) ;;
  Ret (truncate 512 (RESPONSE_HEAD ++ base64 ++ crlf ++ crlf)).

(** What [websocket_server] does with one accepted connection, up to the
    creation of the handler thread: [received] holds the bytes of the
    first [recv], [r_name] and [r_color] are the two values of [rand ()].
    A key line that is empty leaves [ws_key] unwritten, one of 64 bytes or
    more overruns it. *)
Definition websocket_accept (client_socket : Z) (received : list Z)
  (r_name r_color : Z) (clients : list Client) : exec (list Client * list event) :=
  if Z.of_nat (length received) <=? 0 then Ret (clients, [EvClose client_socket])
  else
    let buffer := cstring received in
    match strstr buffer KEY_HEADER with
    | None => Ret (clients, [EvClose client_socket])
    | Some key =>
      let key := skipn 19 key in
      match scan_line key with
      | [] => Undef
      | line =>
        ws_key <- store 64 line ;;
        response <- ws_handshake ws_key ;;
        let (clients', evs) :=
          add_client r_color (new_client client_socket r_name) clients in
        Ret (clients', [EvSend client_socket (cstring response)] ++ evs)
      end
    end.

End WithSHA1.

End Handshake.
Import Handshake.

Module HandshakeSpec.

Definition no_nul (s : list Z) : bool := forallb (fun b => negb (b =? 0)) s.

(** A stand-in digest, for examples only. *)
Definition sample_digest (m : list Z) : list Z := repeat (strlen m mod 256) 20.

Definition sample_request : list Z :=
  lit "GET /chat HTTP/1.1" ++ crlf
    ++ lit "Upgrade: websocket" ++ crlf
    ++ lit "Sec-WebSocket-Key: dGhlIHNhbXBsZSBub25jZQ==" ++ crlf
    ++ lit "Sec-WebSocket-Version: 13" ++ crlf ++ crlf.

End HandshakeSpec.
Import HandshakeSpec.

(** ** Vocabulary for the handler's other branches *)

Module HandlerSpec.

Definition join_msg (uname : list Z) : list Z :=
  lit "{'type':'join','username':'" ++ uname ++ lit "'}".

Definition cursor_move_msg (uname fname : list Z) (position : Z) : list Z :=
  lit "{'type':'cursor_move','username':'" ++ uname
    ++ lit "','file':'" ++ fname
    ++ lit "','position':" ++ fmt_int position ++ lit "}".

Definition init_msg (colour : list Z) : list Z :=
  lit "{'type':'init','color':'" ++ colour ++ lit "'}".


Definition user_left_msg (uname : list Z) : list Z :=
  lit "{'type':'user_left','username':'" ++ uname ++ lit "'}".



(** A text [atoi] stops at: empty, or starting with a byte that is no
    digit. *)
Definition stops_number (rest : list Z) : bool :=
  match rest with
  | [] => true
  | b :: _ => negb (isdigit b)
  end.

Definition others (sock : Z) (clients : list Client) : list Client :=
  filter (fun c => negb (socket c =? sock)) clients.

End HandlerSpec.
Import HandlerSpec.



Module NumberSpec.

(** The decimal digits of [d] as bytes. *)
Definition uint_text (d : Decimal.uint) : list Z := lit (NilEmpty.string_of_uint d).

End NumberSpec.
Import NumberSpec.

Module FrameSpec.

(** A payload as a client masks it: byte [i], counted from [k], is
    xored with byte [i mod 4] of the mask. *)
Fixpoint mask_from (k : nat) (mask payload : list Z) : list Z :=
  match payload with
  | [] => []
  | b :: payload' =>
    Z.lxor b (byte_at mask (Z.of_nat k mod 4)) :: mask_from (S k) mask payload'
  end.

(** The frames a client sends: masked, with the 7-bit or the 16-bit
    length form. *)
Definition masked_frame (mask payload : list Z) : list Z :=
  let n := Z.of_nat (length payload) in
  (if n <? 126 then [129; 128 + n]
   else [129; 254; Z.land (Z.shiftr n 8) 255; Z.land n 255])
    ++ mask ++ mask_from 0 mask payload.

Definition all_bytes (s : list Z) : bool := forallb is_byte s.

End FrameSpec.
Import FrameSpec.

(** ** The HTTP side: file store and static page *)

Module Http.

(** What the handler finds outside the program: the content of the
    regular file at a path, when there is one and [fopen (path, "r")]
    succeeds on it; for a path that holds a directory, which
    [fopen (path, "r")] opens as well, the value [ftell] returns after the
    [fseek] to its end, [fread] delivering nothing there; whether
    [fopen (path, "w")] and [remove (path)] succeed; the entries
    [readdir] yields for [./files] with whether each is a regular file;
    and the content of [editor.html] when it can be opened. A path with
    neither a file nor a directory cannot be opened. [malloc] is taken to
    succeed. *)
Record world : Type := mkWorld {
  file_at : list Z -> option (list Z);
  dir_at : list Z -> option Z;
  writable : list Z -> bool;
  removable : list Z -> bool;
  entries : list (list Z * bool);
  editor_html : option (list Z)
}.

(** What a request does: network events, and changes to the store. *)
Inductive effect : Type :=
| Net (e : event)
| WriteFile (path content : list Z)
| RemoveFile (path : list Z).

Definition streq (a b : list Z) : bool :=
  starts_with a b && starts_with b a.

(** [send_response]: the header goes through [snprintf] into
    [char header[BUFFER_SIZE]]; header and body are sent in turn. *)
Definition response_header (status content_type body : list Z) : list Z :=
  truncate BUFFER_SIZE
    (lit "HTTP/1.1 " ++ status ++ crlf
       ++ lit "Content-Type: " ++ content_type ++ crlf
       ++ lit "Content-Length: " ++ fmt_int (strlen body) ++ crlf
       ++ lit "Access-Control-Allow-Origin: *" ++ crlf
       ++ lit "Access-Control-Allow-Methods: GET, POST, PUT, DELETE, OPTIONS" ++ crlf
       ++ lit "Access-Control-Allow-Headers: Content-Type" ++ crlf
       ++ lit "Connection: close" ++ crlf ++ crlf).

Definition send_response (sock : Z) (status content_type body : list Z)
  : list effect :=
  [Net (EvSend sock (response_header status content_type body));
   Net (EvSend sock body)].

Definition OK_200 : list Z := lit "200 OK".
Definition JSON : list Z := lit "application/json".

Definition files_path (filename : list Z) : list Z :=
  truncate 512 (lit "./files/" ++ filename).

(** [list_files]: the [strcat] calls into [char json[BUFFER_SIZE]]. *)
Fixpoint list_walk (dir : list (list Z * bool)) (first : bool) (json : list Z)
  : exec (list Z) :=
  match dir with
  | [] => Ret json
  | (d_name, regular) :: dir' =>
    if regular then
      j1 <- (if first then Ret json else strcat_buf json (lit ",")) ;;
      j2 <- strcat_buf j1 (lit "'") ;;
      j3 <- strcat_buf j2 d_name ;;
      j4 <- strcat_buf j3 (lit "'") ;;
      list_walk dir' false j4
    else list_walk dir' first json
  end.

Definition list_files (w : world) (sock : Z) : exec (list effect) :=
  listed <- list_walk (entries w) true (lit "[") ;;
  json <- strcat_buf listed (lit "]") ;;
  Ret (send_response sock OK_200 JSON json).

(** The escaping loop of [read_file], over the file content up to its
    first NUL. *)
Fixpoint escape (content : list Z) : list Z :=
  match content with
  | [] => []
  | c :: content' =>
    (if (c =? 34) || (c =? 92) then [92; c]
     else if c =? 10 then [92; 110]
     else if c =? 13 then [92; 114]
     else if c =? 9 then [92; 116]
     else [c]) ++ escape content'
  end.

(** [read_file]: [content] is an allocation of [size + 1] bytes and
    [escaped] one of [size * 2 + 1024]. The source tests [fopen] only. On
    a directory nothing is read into [content]: with [size] zero the NUL
    stored at [content[size]] makes it the empty string; with [size]
    positive the escaping loop reads bytes that were never written, and
    with [size] negative the NUL is stored outside the allocation. *)
Definition read_file (w : world) (sock : Z) (filename : list Z) : exec (list effect) :=
  let path := files_path filename in
  match file_at w path with
  | Some bytes =>
    let size := Z.of_nat (length bytes) in
    let content := cstring bytes in
    escaped <- store (size * 2 + 1024)
                 (lit "{'content':'" ++ escape content ++ lit "'}") ;;
    Ret (send_response sock OK_200 JSON escaped)
  | None =>
    match dir_at w path with
    | Some size =>
      if size =? 0 then
        escaped <- store (size * 2 + 1024)
                     (lit "{'content':'" ++ escape [] ++ lit "'}") ;;
        Ret (send_response sock OK_200 JSON escaped)
      else Undef
    | None =>
      Ret (send_response sock (lit "404 Not Found") JSON (lit "{'content':''}"))
    end
  end.

(** What follows a backslash, when [write_file] takes the two bytes
    together. *)
Definition escape_code (rest : list Z) : option (Z * list Z) :=
  match rest with
  | c :: rest' =>
    if c =? 110 then Some (10, rest')
    else if c =? 114 then Some (13, rest')
    else if c =? 116 then Some (9, rest')
    else if (c =? 34) || (c =? 92) then Some (c, rest')
    else None
  | [] => None
  end.

(** The writing loop of [write_file]: [p] runs from [content_start] and
    [n] is [content_end - p]; a pair taken at the last byte steps [p] past
    [content_end]. *)
Fixpoint unescape (n : nat) (p : list Z) {struct n} : list Z :=
  match n, p with
  | S n', b :: rest =>
    match (if b =? 92 then escape_code rest else None) with
    | Some (decoded, rest') => decoded :: unescape (Nat.pred n') rest'
    | None => b :: unescape n' rest
    end
  | _, _ => []
  end.

(** [write_file]. A null [filename_end] enters pointer arithmetic, and a
    null [content_end] a pointer comparison. *)
Definition write_file (w : world) (sock : Z) (body : list Z) : exec (list effect) :=
  match strstr body (lit "'content':'"), strstr body (lit "'filename':'") with
  | Some content_start, Some filename_start =>
    let filename_start := skipn 12 filename_start in
    match strchr filename_start dquote with
    | None => Undef
    | Some filename_end =>
      filename <- store 256 (span filename_start filename_end) ;;
      let content_start := skipn 11 content_start in
      let content_end := strstr content_start (lit "'}") in
      let path := files_path filename in
      if writable w path then
        match content_end with
        | None => Undef
        | Some content_end =>
          let n := (length content_start - length content_end)%nat in
          Ret (WriteFile path (unescape n content_start)
                 :: send_response sock OK_200 JSON (lit "{'success':true}"))
        end
      else
        Ret (send_response sock (lit "500 Internal Server Error") JSON
               (lit "{'error':'Could not write file'}"))
    end
  | _, _ =>
    Ret (send_response sock (lit "400 Bad Request") JSON
           (lit "{'error':'Invalid request'}"))
  end.

Definition delete_file_handler (w : world) (sock : Z) (filename : list Z)
  : list effect :=
  let path := files_path filename in
  if removable w path then
    RemoveFile path :: send_response sock OK_200 JSON (lit "{'success':true}")
  else
    send_response sock (lit "404 Not Found") JSON (lit "{'error':'File not found'}").

Definition FALLBACK_PAGE : list Z :=
  lit "<!DOCTYPE html><html><head><title>Collaborative Editor</title></head><body><h1>Real-time Collaborative Text Editor</h1><p>WebSocket collaboration enabled!</p></body></html>".

Definition send_html (w : world) (sock : Z) : list effect :=
  match editor_html w with
  | Some html => send_response sock OK_200 (lit "text/html") (cstring html)
  | None => send_response sock OK_200 (lit "text/html") FALLBACK_PAGE
  end.

End Http.
Import Http.

Module HttpSpec.

(** No double quote of [s] is followed by a closing brace. *)
Fixpoint quote_brace_free (s : list Z) : bool :=
  match s with
  | [] => true
  | b :: s' =>
    negb ((b =? 34) && match s' with c :: _ => c =? 125 | [] => false end)
    && quote_brace_free s'
  end.

(** The body of a save request, with the content already escaped. *)
Definition save_body (filename escaped : list Z) : list Z :=
  lit "{'filename':'" ++ filename ++ lit "','content':'" ++ escaped ++ lit "'}".

Definition writes (effs : list effect) : list (list Z * list Z) :=
  flat_map (fun e => match e with WriteFile p c => [(p, c)] | _ => [] end) effs.

Definition removes (effs : list effect) : list (list Z) :=
  flat_map (fun e => match e with RemoveFile p => [p] | _ => [] end) effs.

Definition net (effs : list effect) : list event :=
  flat_map (fun e => match e with Net ev => [ev] | _ => [] end) effs.

Definition LONG_MAX : Z := 2 ^ 63 - 1.

(** A store with the file [notes.md] and the directory [tmp], on a file
    system that gives [LONG_MAX] as the end of a directory. *)
Definition sample_world : world :=
  mkWorld (fun path => if streq path (lit "./files/notes.md")
                       then Some (lit "say 'hi'" ++ [10]) else None)
    (fun path => if streq path (lit "./files/tmp") then Some LONG_MAX else None)
    (fun _ => true) (fun _ => false) [(lit "notes.md", true); (lit "tmp", false)]
    None.

End HttpSpec.
Import HttpSpec.

Module HttpSpec2.




End HttpSpec2.
Import HttpSpec2.

(** ** The HTTP request handler *)

Module HttpHandler.

(** [%s]: the bytes up to the next white space. *)
Fixpoint take_word (s : list Z) : list Z * list Z :=
  match s with
  | [] => ([], [])
  | b :: s' =>
    if isspace b then ([], s)
    else let (word, rest) := take_word s' in (b :: word, rest)
  end.

(** One [%s] conversion: [None] when the input ends before any byte of
    the word, which leaves the destination unwritten. *)
Definition scan_word (s : list Z) : option (list Z) * list Z :=
  match take_word (skip_spaces s) with
  | ([], rest) => (None, rest)
  | (word, rest) => (Some word, rest)
  end.

(** [%[^&]]: the bytes before the first ampersand. *)
Fixpoint scan_name (s : list Z) : list Z :=
  match s with
  | [] => []
  | b :: s' => if b =? 38 then [] else b :: scan_name s'
  end.

Definition hex_value (c : Z) : option Z :=
  if (48 <=? c) && (c <=? 57) then Some (c - 48)
  else if (97 <=? c) && (c <=? 102) then Some (c - 87)
  else if (65 <=? c) && (c <=? 70) then Some (c - 55)
  else None.

Definition hex_or_zero (c : Z) : Z :=
  match hex_value c with Some v => v | None => 0 end.

(** [strtol (hex, NULL, 16)] for [char hex[3] = {h1, h2, 0}] with [h1]
    and [h2] not NUL: optional white space, optional sign, then the hex
    digits there are. *)
Definition strtol_hex2 (h1 h2 : Z) : Z :=
  if isspace h1 then hex_or_zero h2
  else if h1 =? 43 then hex_or_zero h2
  else if h1 =? 45 then - hex_or_zero h2
  else match hex_value h1 with
       | Some v1 =>
         match hex_value h2 with
         | Some v2 => 16 * v1 + v2
         | None => v1
         end
       | None => 0
       end.

(** The decoding loop over [filename]: what the array holds when the
    loop ends. A decoded NUL ends the string for whoever reads it next. *)
Fixpoint url_decode (p : list Z) : list Z :=
  match p with
  | [] => []
  | c :: rest =>
    let c := if c =? 43 then 32 else c in
    if c =? 37 then
      match rest with
      | h1 :: h2 :: rest' => to_uchar (strtol_hex2 h1 h2) :: url_decode rest'
      | _ => c :: url_decode rest
      end
    else c :: url_decode rest
  end.

(** [sscanf (path + 15, "%[^&]", filename)] and the loop after it;
    [filename] is [char[256]] and stays unwritten when the name is empty. *)
Definition requested_name (path : list Z) : exec (list Z) :=
  match scan_name (skipn 15 path) with
  | [] => Undef
  | name =>
    filename <- store 256 name ;;
    Ret (cstring (url_decode filename))
  end.


Definition not_found (sock : Z) : list effect :=
  send_response sock (lit "404 Not Found") (lit "text/html")
    (lit "<h1>404 Not Found</h1>").

(** The [if / else if] chain of [handle_http_client] on the method and
    the path. [read_path] is the reading of [path], which the chain does
    only behind a test on the method that succeeded. *)
Definition route (w : world) (sock : Z) (buffer method : list Z)
  (read_path : exec (list Z)) : exec (list effect) :=
  if streq method (lit "OPTIONS")
  then Ret (send_response sock OK_200 (lit "text/plain") [])
  else if streq method (lit "GET") then
    path <- read_path ;;
    if streq path (lit "/") then Ret (send_html w sock)
    else if starts_with (lit "/api/files") path then list_files w sock
    else if starts_with (lit "/api/file?name=") path then
      filename <- requested_name path ;;
      read_file w sock filename
    else Ret (not_found sock)
  else if streq method (lit "POST") then
    path <- read_path ;;
    if starts_with (lit "/api/file") path then
      match strstr buffer (crlf ++ crlf) with
      | Some body => write_file w sock (skipn 4 body)
      | None => Ret []
      end
    else Ret (not_found sock)
  else if streq method (lit "DELETE") then
    path <- read_path ;;
    if starts_with (lit "/api/file?name=") path then
      filename <- requested_name path ;;
      Ret (delete_file_handler w sock filename)
    else Ret (not_found sock)
  else Ret (not_found sock).

(** [handle_http_client]. [method] is [char[16]] and [path] is
    [char[512]]; a word the request does not have leaves its array
    unwritten, which matters when the array is read. *)
Definition handle_http_client (w : world) (sock : Z) (received : list Z)
  : exec (list effect) :=
  if Z.of_nat (length received) <=? 0 then Ret [Net (EvClose sock)]
  else
    let buffer := cstring received in
    let (first_word, after) := scan_word buffer in
    let second_word := fst (scan_word after) in
    scanned <- match first_word with
               | None => Ret (None, None)
               | Some word =>
                 method <- store 16 word ;;
                 match second_word with
                 | None => Ret (Some method, None)
                 | Some word' =>
                   path <- store 512 word' ;;
                   Ret (Some method, Some path)
                 end
               end ;;
    match fst scanned with
    | None => Undef
    | Some method =>
      answer <- route w sock buffer method
                  (match snd scanned with
                   | Some path => Ret path
                   | None => Undef
                   end) ;;
      Ret (answer ++ [Net (EvClose sock)])
    end.

End HttpHandler.
Import HttpHandler.

Module HttpHandlerSpec.

Definition hex_char (v : Z) : Z := nth (Z.to_nat v) (lit "0123456789ABCDEF") 0.

(** Every byte written as a percent sign and two hex digits. *)
Definition percent_encode (s : list Z) : list Z :=
  flat_map (fun b => [37; hex_char (b / 16); hex_char (b mod 16)]) s.

Definition no_space (s : list Z) : bool := forallb (fun b => negb (isspace b)) s.

End HttpHandlerSpec.
Import HttpHandlerSpec.

Module HttpHandlerSpec2.

(** A string of bytes 1 to 255. *)
Definition text_bytes (s : list Z) : bool :=
  forallb (fun b => is_byte b && negb (b =? 0)) s.

(** A request line: method, path, and what follows the path. *)
Definition request (method path rest : list Z) : list Z :=
  method ++ 32 :: path ++ 32 :: rest.

Definition file_url (name : list Z) : list Z :=
  lit "/api/file?name=" ++ percent_encode name.

(** The shapes of what one request does before its socket is closed:
    one response, with at most one file written or removed before it. *)
Definition one_answer (sock : Z) (effs : list effect) : Prop :=
  exists status content_type body,
    effs = send_response sock status content_type body
    \/ (exists path content,
          effs = WriteFile path content
                   :: send_response sock status content_type body)
    \/ (exists path,
          effs = RemoveFile path :: send_response sock status content_type body).

End HttpHandlerSpec2.
Import HttpHandlerSpec2.

Module ServerSpec.

(** Whether, by the history, a connection on [sock] was accepted and
    has not hung up since. *)
Fixpoint connected (history : list action) (sock : Z) : bool :=
  match history with
  | [] => false
  | Accept s _ _ :: earlier => (s =? sock) || connected earlier sock
  | Hangup s :: earlier => negb (s =? sock) && connected earlier sock
  | _ :: earlier => connected earlier sock
  end.

End ServerSpec.
Import ServerSpec.

(** ** The terminal editor ([kilo.c]): rows, cursor, undo and redo

    Conventions of this part.
    - A [char] is a [Z] in [-128, 127]; [(char)c] keeps the low byte
      ([to_char]).
    - A row's [chars] is the list of its [size] characters; the NUL that
      the code keeps behind them is not in the list, and [size] is the
      length of the list.
    - A pointer [&E.row[y]] is the index [y]; using it outside the array
      is [Undef].
    - An [int] sum or product that can leave the range of [int] for values
      the program can hold goes through [checked]: signed overflow is
      [Undef].
    - [malloc] and [realloc] are taken to succeed; the terminal, the
      screen drawing and the clock are not modelled. *)

Module Kilo.

Definition TAB_STOP : Z := 8.
Definition TAB : Z := 9.
Definition SPACE : Z := 32.
Definition NEWLINE : Z := 10.
Definition RETURN : Z := 13.

Definition ARROW_LEFT : Z := 1000.
Definition ARROW_RIGHT : Z := 1001.
Definition ARROW_UP : Z := 1002.
Definition ARROW_DOWN : Z := 1003.

Definition checked (z : Z) : exec Z :=
  if (INT_MIN <=? z) && (z <=? INT_MAX) then Ret z else Undef.

Definition to_char (c : Z) : Z := (c + 128) mod 256 - 128.

(** *** Rows *)

Record erow : Type := mkRow {
  idx : Z;
  chars : list Z;
  rsize : Z;
  render : list Z
}.

Definition size (r : erow) : Z := Z.of_nat (length (chars r)).

Definition set_idx (r : erow) (i : Z) : erow :=
  mkRow i (chars r) (rsize r) (render r).

Definition set_chars (r : erow) (cs : list Z) : erow :=
  mkRow (idx r) cs (rsize r) (render r).

(** One round of the loop of [editorRowCxToRx]. *)
Definition next_rx (rx c : Z) : exec Z :=
  if c =? TAB then checked (rx + ((TAB_STOP - 1) - Z.rem rx TAB_STOP + 1))
  else checked (rx + 1).

(** [for (j = 0; j < cx; j++)] with [n] rounds to go and [cs] the
    characters from [row->chars[j]] on. Behind the last character lies the
    NUL, and behind that the buffer ends. *)
Fixpoint rx_walk (cs : list Z) (n : nat) (rx : Z) {struct n} : exec Z :=
  match n with
  | O => Ret rx
  | S n' =>
    match cs with
    | c :: rest => rx' <- next_rx rx c ;; rx_walk rest n' rx'
    | [] =>
      match n' with
      | O => next_rx rx 0
      | S _ => Undef
      end
    end
  end.

Definition editorRowCxToRx (r : erow) (cx : Z) : exec Z :=
  rx_walk (chars r) (Z.to_nat cx) 0.

Definition count_tabs (cs : list Z) : Z :=
  fold_left (fun tabs c => if c =? TAB then tabs + 1 else tabs) cs 0.

(** [while (idx % TAB_STOP) row->render[idx++] = ' ';] into a buffer of
    [cap] bytes. The loop makes fewer than [TAB_STOP] rounds; a walk that
    were to need more is [Undef]. *)
Fixpoint fill_to_stop (rounds : nat) (cap i : Z) : exec (list Z) :=
  if Z.rem i TAB_STOP =? 0 then Ret []
  else
    match rounds with
    | O => Undef
    | S rounds' =>
      if i <? cap
      then more <- fill_to_stop rounds' cap (i + 1) ;; Ret (SPACE :: more)
      else Undef
    end.

(** The second loop of [editorUpdateRow], from [row->chars[j]] on with
    [idx = i], and the final [row->render[idx] = 0], into a buffer of
    [cap] bytes. The result is the rendered text without its NUL. *)
Fixpoint render_walk (cs : list Z) (cap i : Z) : exec (list Z) :=
  match cs with
  | [] => if i <? cap then Ret [] else Undef
  | c :: rest =>
    if i <? cap then
      if c =? TAB then
        fill <- fill_to_stop (Z.to_nat TAB_STOP) cap (i + 1) ;;
        tail <- render_walk rest cap (i + 1 + Z.of_nat (length fill)) ;;
        Ret (SPACE :: fill ++ tail)
      else
        tail <- render_walk rest cap (i + 1) ;;
        Ret (c :: tail)
    else Undef
  end.

Definition editorUpdateRow (r : erow) : exec erow :=
  let tabs := count_tabs (chars r) in
  extra <- checked (tabs * (TAB_STOP - 1)) ;;
  rsize' <- checked (size r + extra) ;;
  cap <- checked (rsize' + 1) ;;
  rendered <- render_walk (chars r) cap 0 ;;
  Ret (mkRow (idx r) (chars r) rsize' rendered).

(** *** The editor *)

Inductive ActionType : Type := ACT_INSERT | ACT_DELETE | ACT_MOVE.

Record EditorAction : Type := mkAction {
  type : ActionType;
  ay : Z;
  ax : Z;
  data : option (list Z);
  data_len : Z;
  prev_cy : Z;
  prev_cx : Z
}.

(** The global [E] with the two global stacks, the top of a stack first. *)
Record editorConfig : Type := mkEditor {
  cx : Z;
  cy : Z;
  rx : Z;
  rowoff : Z;
  coloff : Z;
  screenrows : Z;
  screencols : Z;
  row : list erow;
  dirty : Z;
  statusmsg : list Z;
  undoStack : list EditorAction;
  redoStack : list EditorAction
}.

Definition numrows (E : editorConfig) : Z := Z.of_nat (length (row E)).

Definition set_cx (E : editorConfig) (v : Z) : editorConfig :=
  mkEditor v (cy E) (rx E) (rowoff E) (coloff E) (screenrows E) (screencols E)
    (row E) (dirty E) (statusmsg E) (undoStack E) (redoStack E).

Definition set_cy (E : editorConfig) (v : Z) : editorConfig :=
  mkEditor (cx E) v (rx E) (rowoff E) (coloff E) (screenrows E) (screencols E)
    (row E) (dirty E) (statusmsg E) (undoStack E) (redoStack E).

Definition set_rx (E : editorConfig) (v : Z) : editorConfig :=
  mkEditor (cx E) (cy E) v (rowoff E) (coloff E) (screenrows E) (screencols E)
    (row E) (dirty E) (statusmsg E) (undoStack E) (redoStack E).

Definition set_rowoff (E : editorConfig) (v : Z) : editorConfig :=
  mkEditor (cx E) (cy E) (rx E) v (coloff E) (screenrows E) (screencols E)
    (row E) (dirty E) (statusmsg E) (undoStack E) (redoStack E).

Definition set_coloff (E : editorConfig) (v : Z) : editorConfig :=
  mkEditor (cx E) (cy E) (rx E) (rowoff E) v (screenrows E) (screencols E)
    (row E) (dirty E) (statusmsg E) (undoStack E) (redoStack E).

Definition set_row (E : editorConfig) (v : list erow) : editorConfig :=
  mkEditor (cx E) (cy E) (rx E) (rowoff E) (coloff E) (screenrows E) (screencols E)
    v (dirty E) (statusmsg E) (undoStack E) (redoStack E).

Definition set_dirty (E : editorConfig) (v : Z) : editorConfig :=
  mkEditor (cx E) (cy E) (rx E) (rowoff E) (coloff E) (screenrows E) (screencols E)
    (row E) v (statusmsg E) (undoStack E) (redoStack E).

Definition set_undo (E : editorConfig) (v : list EditorAction) : editorConfig :=
  mkEditor (cx E) (cy E) (rx E) (rowoff E) (coloff E) (screenrows E) (screencols E)
    (row E) (dirty E) (statusmsg E) v (redoStack E).

Definition set_redo (E : editorConfig) (v : list EditorAction) : editorConfig :=
  mkEditor (cx E) (cy E) (rx E) (rowoff E) (coloff E) (screenrows E) (screencols E)
    (row E) (dirty E) (statusmsg E) (undoStack E) v.

Definition editorSetStatusMessage (msg : list Z) (E : editorConfig) : editorConfig :=
  mkEditor (cx E) (cy E) (rx E) (rowoff E) (coloff E) (screenrows E) (screencols E)
    (row E) (dirty E) (truncate 80 msg) (undoStack E) (redoStack E).

(** [E.row[y]] read through a pointer or an index. *)
Definition row_at (E : editorConfig) (y : Z) : exec erow :=
  if y <? 0 then Undef
  else
    match nth_error (row E) (Z.to_nat y) with
    | Some r => Ret r
    | None => Undef
    end.

(** [*(&E.row[y]) = r] for a row that exists. *)
Definition put_row (E : editorConfig) (y : Z) (r : erow) : editorConfig :=
  set_row E (firstn (Z.to_nat y) (row E) ++ r :: skipn (S (Z.to_nat y)) (row E)).

(** [E.dirty++] *)
Definition touch (E : editorConfig) : exec editorConfig :=
  d <- checked (dirty E + 1) ;;
  Ret (set_dirty E d).

(** [for (j = at; j < E.numrows - 1; j++) E.row[j].idx = j;] *)
Fixpoint renumber (j : Z) (rs : list erow) : list erow :=
  match rs with
  | [] => []
  | r :: rest => set_idx r j :: renumber (j + 1) rest
  end.

Definition editorInsertRow (at_ : Z) (s : list Z) (E : editorConfig)
  : exec editorConfig :=
  if (at_ <? 0) || (numrows E <? at_) then Ret E
  else
    let n := Z.to_nat at_ in
    r <- editorUpdateRow (mkRow at_ s 0 []) ;;
    touch (set_row E (firstn n (row E) ++ r
                        :: map (fun r' => set_idx r' (idx r' + 1)) (skipn n (row E)))).

Definition editorDelRow (at_ : Z) (E : editorConfig) : exec editorConfig :=
  if (at_ <? 0) || (numrows E <=? at_) then Ret E
  else
    let n := Z.to_nat at_ in
    touch (set_row E (firstn n (row E) ++ renumber at_ (skipn (S n) (row E)))).

(** The row functions take [row = &E.row[y]]. *)
Definition editorRowInsertChar (y at_ c : Z) (E : editorConfig) : exec editorConfig :=
  r <- row_at E y ;;
  let at' := if (at_ <? 0) || (size r <? at_) then size r else at_ in
  let n := Z.to_nat at' in
  r' <- editorUpdateRow (set_chars r (firstn n (chars r) ++ to_char c :: skipn n (chars r))) ;;
  touch (put_row E y r').

Definition editorRowAppendString (y : Z) (s : list Z) (E : editorConfig)
  : exec editorConfig :=
  r <- row_at E y ;;
  r' <- editorUpdateRow (set_chars r (chars r ++ s)) ;;
  touch (put_row E y r').

Definition editorRowDelChar (y at_ : Z) (E : editorConfig) : exec editorConfig :=
  r <- row_at E y ;;
  if (at_ <? 0) || (size r <=? at_) then Ret E
  else
    let n := Z.to_nat at_ in
    r' <- editorUpdateRow (set_chars r (firstn n (chars r) ++ skipn (S n) (chars r))) ;;
    touch (put_row E y r').

(** *** Undo records *)

(** [s] is the [len] bytes that the code copies. *)
Definition push_undo_insert (y x : Z) (s : list Z) (E : editorConfig) : editorConfig :=
  set_redo
    (set_undo E (mkAction ACT_INSERT y x (Some s) (Z.of_nat (length s)) (cy E) (cx E)
                   :: undoStack E))
    [].

Definition push_undo_delete (y x : Z) (s : list Z) (E : editorConfig) : editorConfig :=
  set_redo
    (set_undo E (mkAction ACT_DELETE y x (Some s) (Z.of_nat (length s)) (cy E) (cx E)
                   :: undoStack E))
    [].

Definition push_undo_move (prev_y prev_x : Z) (E : editorConfig) : editorConfig :=
  set_redo
    (set_undo E (mkAction ACT_MOVE (cy E) (cx E) None 0 prev_y prev_x :: undoStack E))
    [].

(** *** Editing at a position *)

(** [for (i = 0; i < len; i++) editorRowInsertChar(row, x + i, s[i]);]
    from round [i] on. *)
Fixpoint insert_from (y x i : Z) (s : list Z) (E : editorConfig) : exec editorConfig :=
  match s with
  | [] => Ret E
  | c :: rest =>
    at_ <- checked (x + i) ;;
    E' <- editorRowInsertChar y at_ c E ;;
    insert_from y x (i + 1) rest E'
  end.

Definition editorInsertCharsAt (y x : Z) (s : list Z) (E : editorConfig)
  : exec editorConfig :=
  if (y <? 0) || (numrows E <? y) then Ret E
  else
    E1 <- (if y =? numrows E then editorInsertRow (numrows E) [] E else Ret E) ;;
    insert_from y x 0 s E1.

(** [for (i = 0; i < len; i++) editorRowDelChar(row, x);] *)
Fixpoint delete_times (y x : Z) (n : nat) (E : editorConfig) : exec editorConfig :=
  match n with
  | O => Ret E
  | S n' => E' <- editorRowDelChar y x E ;; delete_times y x n' E'
  end.

(** The result is the buffer returned, [None] for [NULL]. *)
Definition editorDelCharsAt (y x len : Z) (E : editorConfig)
  : exec (option (list Z) * editorConfig) :=
  if (y <? 0) || (numrows E <=? y) then Ret (None, E)
  else
    r <- row_at E y ;;
    if (x <? 0) || (size r <=? x) then Ret (None, E)
    else if len <=? 0 then Ret (None, E)
    else
      e <- checked (x + len) ;;
      let len' := if size r <? e then size r - x else len in
      E' <- delete_times y x (Z.to_nat len') E ;;
      Ret (Some (firstn (Z.to_nat len') (skipn (Z.to_nat x) (chars r))), E').

Definition editorInsertChar (c : Z) (E : editorConfig) : exec editorConfig :=
  E1 <- (if cy E =? numrows E then editorInsertRow (numrows E) [] E else Ret E) ;;
  E2 <- editorRowInsertChar (cy E1) (cx E1) c E1 ;;
  let E3 := push_undo_insert (cy E2) (cx E2) [to_char c] E2 in
  x <- checked (cx E3 + 1) ;;
  Ret (set_cx E3 x).

Definition editorDelChar (E : editorConfig) : exec editorConfig :=
  if cy E =? numrows E then Ret E
  else if (cx E =? 0) && (cy E =? 0) then Ret E
  else if 0 <? cx E then
    x <- checked (cx E - 1) ;;
    d <- editorDelCharsAt (cy E) x 1 E ;;
    let E1 :=
      match fst d with
      | Some deleted => push_undo_delete (cy E) x (firstn 1 deleted) (snd d)
      | None => snd d
      end in
    Ret (set_cx E1 x)
  else
    r <- row_at E (cy E) ;;
    y <- checked (cy E - 1) ;;
    prev <- row_at E y ;;
    E1 <- editorRowAppendString y (chars r) E ;;
    let E2 := push_undo_delete (cy E1) 0 [] E1 in
    E3 <- editorDelRow (cy E2) E2 ;;
    Ret (set_cx (set_cy E3 y) (size prev)).

(** *** File text *)

(** The buffer of [editorRowsToString]; its length is [*buflen]. *)
Definition editorRowsToString (E : editorConfig) : exec (list Z) :=
  totlen <- fold_left (fun acc r => t <- acc ;; n <- checked (size r + 1) ;; checked (t + n))
              (row E) (Ret 0) ;;
  Ret (concat (map (fun r => chars r ++ [NEWLINE]) (row E))).

(** What the calls of [getline] return until the end of the file: the
    lines of [bytes], each with its newline when it has one; [cur] is the
    part of the current line read so far, last byte first. *)
Fixpoint getlines (cur bytes : list Z) : list (list Z) :=
  match bytes with
  | [] =>
    match cur with
    | [] => []
    | _ :: _ => [rev cur]
    end
  | b :: rest =>
    if b =? NEWLINE then rev (b :: cur) :: getlines [] rest
    else getlines (b :: cur) rest
  end.

(** [while (linelen > 0 && (line[linelen-1] == '\n' || line[linelen-1] == '\r')) linelen--;]
    on the line with its last byte first. *)
Fixpoint drop_line_end (reversed : list Z) : list Z :=
  match reversed with
  | [] => []
  | b :: rest =>
    if (b =? NEWLINE) || (b =? RETURN) then drop_line_end rest else reversed
  end.

Fixpoint insert_lines (lines : list (list Z)) (E : editorConfig) : exec editorConfig :=
  match lines with
  | [] => Ret E
  | line :: rest =>
    E' <- editorInsertRow (numrows E) (rev (drop_line_end (rev line))) E ;;
    insert_lines rest E'
  end.

(** [editorOpen] on a file that holds [content], or that [fopen] cannot
    open ([None]). The file name is not kept in the model. *)
Definition editorOpen (content : option (list Z)) (E : editorConfig)
  : exec editorConfig :=
  match content with
  | None => Ret E
  | Some bytes =>
    E' <- insert_lines (getlines [] bytes) E ;;
    Ret (set_dirty E' 0)
  end.

(** *** Cursor and window *)

Definition editorScroll (E : editorConfig) : exec editorConfig :=
  E1 <- (if cy E <? numrows E
         then r <- row_at E (cy E) ;;
              x <- editorRowCxToRx r (cx E) ;;
              Ret (set_rx E x)
         else Ret (set_rx E 0)) ;;
  let E2 := if cy E1 <? rowoff E1 then set_rowoff E1 (cy E1) else E1 in
  bottom <- checked (rowoff E2 + screenrows E2) ;;
  E3 <- (if bottom <=? cy E2
         then d <- checked (cy E2 - screenrows E2) ;;
              o <- checked (d + 1) ;;
              Ret (set_rowoff E2 o)
         else Ret E2) ;;
  let E4 := if rx E3 <? coloff E3 then set_coloff E3 (rx E3) else E3 in
  right <- checked (coloff E4 + screencols E4) ;;
  if right <=? rx E4
  then d <- checked (rx E4 - screencols E4) ;;
       o <- checked (d + 1) ;;
       Ret (set_coloff E4 o)
  else Ret E4.

(** [row ? row->size : 0] for [row = (y >= E.numrows) ? NULL : &E.row[y]]. *)
Definition row_size_or_0 (E : editorConfig) (y : Z) : exec Z :=
  if numrows E <=? y then Ret 0
  else r <- row_at E y ;; Ret (size r).

Definition editorMoveCursor (key : Z) (E : editorConfig) : exec editorConfig :=
  let prev_y := cy E in
  let prev_x := cx E in
  E1 <-
    (if key =? ARROW_LEFT then
       if negb (cx E =? 0) then x <- checked (cx E - 1) ;; Ret (set_cx E x)
       else if 0 <? cy E then
         y <- checked (cy E - 1) ;;
         r <- row_at E y ;;
         Ret (set_cx (set_cy E y) (size r))
       else Ret E
     else if key =? ARROW_RIGHT then
       if numrows E <=? cy E then Ret E
       else
         r <- row_at E (cy E) ;;
         if cx E <? size r then x <- checked (cx E + 1) ;; Ret (set_cx E x)
         else if cx E =? size r then
           y <- checked (cy E + 1) ;; Ret (set_cx (set_cy E y) 0)
         else Ret E
     else if key =? ARROW_UP then
       if negb (cy E =? 0) then y <- checked (cy E - 1) ;; Ret (set_cy E y)
       else Ret E
     else if key =? ARROW_DOWN then
       if cy E <? numrows E then y <- checked (cy E + 1) ;; Ret (set_cy E y)
       else Ret E
     else Ret E) ;;
  rowlen <- row_size_or_0 E1 (cy E1) ;;
  let E2 := if rowlen <? cx E1 then set_cx E1 rowlen else E1 in
  Ret (push_undo_move prev_y prev_x E2).

(** *** Undo and redo *)

(** The [len] bytes that [memcpy] or the insertion loop reads from a
    buffer: none from [NULL], and no more than the buffer holds. *)
Definition read_bytes (buf : option (list Z)) (len : Z) : exec (list Z) :=
  match buf with
  | None => Undef
  | Some s =>
    if len <=? Z.of_nat (length s) then Ret (firstn (Z.to_nat len) s) else Undef
  end.

Definition editorUndo (E : editorConfig) : exec editorConfig :=
  match undoStack E with
  | [] => Ret (editorSetStatusMessage (lit "Nothing to undo") E)
  | a :: below =>
    let E0 := set_undo E below in
    r <-
      match type a with
      | ACT_INSERT =>
        d <- editorDelCharsAt (ay a) (ax a) (data_len a) E0 ;;
        match fst d with
        | Some deleted =>
          copy <- read_bytes (Some deleted) (data_len a) ;;
          Ret (mkAction ACT_DELETE (ay a) (ax a) (Some copy) (data_len a)
                 (prev_cy a) (prev_cx a), snd d)
        | None =>
          Ret (mkAction ACT_DELETE (ay a) (ax a) None 0 (prev_cy a) (prev_cx a), snd d)
        end
      | ACT_DELETE =>
        if 0 <? data_len a then
          s <- read_bytes (data a) (data_len a) ;;
          E1 <- editorInsertCharsAt (ay a) (ax a) s E0 ;;
          Ret (mkAction ACT_INSERT (ay a) (ax a) (Some s) (data_len a)
                 (prev_cy a) (prev_cx a), E1)
        else
          Ret (mkAction ACT_INSERT (ay a) (ax a) None (data_len a)
                 (prev_cy a) (prev_cx a), E0)
      | ACT_MOVE =>
        Ret (mkAction ACT_MOVE (cy E0) (cx E0) None 0 (prev_cy a) (prev_cx a),
             set_cx (set_cy E0 (prev_cy a)) (prev_cx a))
      end ;;
    Ret (set_redo (snd r) (fst r :: redoStack (snd r)))
  end.

Definition editorRedo (E : editorConfig) : exec editorConfig :=
  match redoStack E with
  | [] => Ret (editorSetStatusMessage (lit "Nothing to redo") E)
  | a :: below =>
    let E0 := set_redo E below in
    r <-
      match type a with
      | ACT_INSERT =>
        if 0 <? data_len a then
          s <- read_bytes (data a) (data_len a) ;;
          E1 <- editorInsertCharsAt (ay a) (ax a) s E0 ;;
          Ret (mkAction ACT_DELETE (ay a) (ax a) (Some s) (data_len a)
                 (prev_cy a) (prev_cx a), E1)
        else
          Ret (mkAction ACT_DELETE (ay a) (ax a) None (data_len a)
                 (prev_cy a) (prev_cx a), E0)
      | ACT_DELETE =>
        d <- editorDelCharsAt (ay a) (ax a) (data_len a) E0 ;;
        match fst d with
        | Some deleted =>
          copy <- read_bytes (Some deleted) (data_len a) ;;
          Ret (mkAction ACT_INSERT (ay a) (ax a) (Some copy) (data_len a)
                 (prev_cy a) (prev_cx a), snd d)
        | None =>
          Ret (mkAction ACT_INSERT (ay a) (ax a) None (data_len a)
                 (prev_cy a) (prev_cx a), snd d)
        end
      | ACT_MOVE =>
        Ret (mkAction ACT_MOVE (cy E0) (cx E0) None 0 (prev_cy a) (prev_cx a),
             set_cx (set_cy E0 (prev_cy a)) (prev_cx a))
      end ;;
    Ret (set_undo (snd r) (fst r :: undoStack (snd r)))
  end.

(** [initEditor]; [ws] is the window size that [ioctl] reports, rows
    first, or [None] when it fails. *)
Definition initEditor (ws : option (Z * Z)) : editorConfig :=
  match ws with
  | None => mkEditor 0 0 0 0 0 24 80 [] 0 [] [] []
  | Some (ws_row, ws_col) => mkEditor 0 0 0 0 0 (ws_row - 2) ws_col [] 0 [] [] []
  end.

End Kilo.
Import Kilo.

Module KiloSpec.

(** The text that rendering gives for [cs] when it starts in column [i]:
    each tab becomes spaces up to the next tab stop. *)
Fixpoint expand (i : Z) (cs : list Z) : list Z :=
  match cs with
  | [] => []
  | c :: rest =>
    if c =? TAB then
      let n := TAB_STOP - i mod TAB_STOP in
      repeat SPACE (Z.to_nat n) ++ expand (i + n) rest
    else c :: expand (i + 1) rest
  end.

Definition no_tab (s : list Z) : bool := forallb (fun c => negb (c =? TAB)) s.

(** The row's [rsize] and [render] are those of its [chars]. *)
Definition rendered (r : erow) : Prop := editorUpdateRow r = Ret r.

(** The row that [editorUpdateRow] leaves. *)
Definition updated (r : erow) : erow :=
  mkRow (idx r) (chars r) (size r + count_tabs (chars r) * (TAB_STOP - 1))
    (expand 0 (chars r)).

End KiloSpec.
Import KiloSpec.

Module KiloSpec2.

(** The editor after the row at [y] has had its characters replaced by
    [cs] and been rendered, [k] changes having been counted. *)
Definition edited (E : editorConfig) (y : Z) (cs : list Z) (k : Z) : editorConfig :=
  match nth_error (row E) (Z.to_nat y) with
  | Some r => set_dirty (put_row E y (updated (set_chars r cs))) (dirty E + k)
  | None => E
  end.

(** Keys typed one after the other, and undo asked for [n] times. *)
Fixpoint type_all (s : list Z) (E : editorConfig) : exec editorConfig :=
  match s with
  | [] => Ret E
  | c :: rest => E' <- editorInsertChar c E ;; type_all rest E'
  end.

Fixpoint undo_times (n : nat) (E : editorConfig) : exec editorConfig :=
  match n with
  | O => Ret E
  | S n' => E' <- editorUndo E ;; undo_times n' E'
  end.

(** The records that undoing the typing of [s] at row [y] from column
    [x] on leaves for redo. *)
Fixpoint undone (y x : Z) (s : list Z) : list EditorAction :=
  match s with
  | [] => []
  | c :: rest =>
    mkAction ACT_DELETE y x (Some [to_char c]) 1 y x :: undone y (x + 1) rest
  end.

End KiloSpec2.
Import KiloSpec2.

Module KiloSample.

Definition sample_row : erow := updated (mkRow 0 [104; 9; 105] 0 []).

(** An editor with the one row [h<TAB>i] and the cursor behind the [h]. *)
Definition sample_editor : editorConfig :=
  mkEditor 1 0 0 0 0 22 80 [sample_row] 0 [] [] [].

End KiloSample.
Import KiloSample.

Module KiloSpec3.

(** Row [k] of the list has [idx = i + k]. *)
Fixpoint numbered (i : Z) (rs : list erow) : Prop :=
  match rs with
  | [] => True
  | r :: rest => idx r = i /\ numbered (i + 1) rest
  end.

(** A row's text that a file line can hold as it is: no newline in it,
    and no carriage return at its end. *)
Definition line_text (cs : list Z) : bool :=
  forallb (fun c => negb (c =? NEWLINE)) cs
  && match rev cs with
     | [] => true
     | b :: _ => negb (b =? RETURN)
     end.

(** The bytes that saving the rows takes: each row and its newline. *)
Definition saved_length (rs : list erow) : Z :=
  fold_right (fun r n => size r + 1 + n) 0 rs.

End KiloSpec3.
Import KiloSpec3.

Module KiloSpec4.

(** The length of row [y], 0 for the line behind the last row. *)
Definition line_length (E : editorConfig) (y : Z) : Z :=
  match nth_error (row E) (Z.to_nat y) with
  | Some r => size r
  | None => 0
  end.

(** The cursor is on a row or on the line behind the last row, and at a
    column of that line. *)
Definition cursor_inside (E : editorConfig) : Prop :=
  0 <= cy E <= numrows E /\ 0 <= cx E <= line_length E (cy E).

(** The sizes that the code keeps in [int]s fit. *)
Definition representable (E : editorConfig) : Prop :=
  numrows E <= INT_MAX /\ Forall (fun r => 8 * size r < INT_MAX) (row E).

End KiloSpec4.
Import KiloSpec4.

Module KiloSpec5.

(** The text of the rows as it is saved, and the place of the cursor in
    it. *)
Definition text_of (rs : list erow) : list Z :=
  concat (map (fun r => chars r ++ [NEWLINE]) rs).

Definition offset (E : editorConfig) : Z :=
  saved_length (firstn (Z.to_nat (cy E)) (row E)) + cx E.

End KiloSpec5.
Import KiloSpec5.

(** *** Formatting marks *)

Module KiloFormat.

(** [row->chars[j]]: a character of the row, or the NUL behind them. *)
Definition char_at (r : erow) (j : Z) : exec Z :=
  if j <? 0 then Undef
  else
    match nth_error (chars r) (Z.to_nat j) with
    | Some c => Ret c
    | None => if j =? size r then Ret 0 else Undef
    end.

(** [while (left >= 0 && !isspace((unsigned char)row->chars[left])) left--; left++;]
    with [n = left + 1]; the result is [left] after the increment. *)
Fixpoint word_start (r : erow) (n : nat) : exec Z :=
  match n with
  | O => Ret 0
  | S k =>
    c <- char_at r (Z.of_nat k) ;;
    if isspace (to_uchar c) then Ret (Z.of_nat (S k)) else word_start r k
  end.

(** [while (right < L && !isspace(row->chars[right])) right++;] with
    [rest] the characters from [row->chars[right]] on. *)
Fixpoint word_end (rest : list Z) (right : Z) : Z :=
  match rest with
  | [] => right
  | c :: rest' => if isspace (to_uchar c) then right else word_end rest' (right + 1)
  end.

(** [strncmp(p, m, n) == 0]; behind the last character of either lies
    its NUL. *)
Fixpoint strncmp_eq (p m : list Z) (n : nat) : bool :=
  match n with
  | O => true
  | S n' =>
    let a := hd 0 p in
    let b := hd 0 m in
    if a =? b then
      if a =? 0 then true else strncmp_eq (tl p) (tl m) n'
    else false
  end.

(** The [mlen] bytes read from [close] in the branch for a cursor behind
    the last row: only the first is set unless the mark is two bytes
    starting with a star or a tilde. *)
Definition close_behind (mark : list Z) : exec (list Z) :=
  let mlen := Z.of_nat (length mark) in
  if (mlen =? 2) && (hd 0 mark =? 42) then Ret [42; 42]
  else if (mlen =? 2) && (hd 0 mark =? 126) then Ret [126; 126]
  else if mlen <=? 1 then Ret (firstn (Z.to_nat mlen) [hd 0 mark])
  else Undef.

(** [memcpy(close, open_mark, mlen)] into [char close[8]]. *)
Definition close_copy (mark : list Z) : exec (list Z) :=
  if Z.of_nat (length mark) <=? 8 then Ret mark else Undef.

(** [editorToggleFormat (open_mark, mlen)] with [mark] the [mlen] bytes
    of [open_mark]. *)
Definition editorToggleFormat (mark : list Z) (E : editorConfig) : exec editorConfig :=
  let mlen := Z.of_nat (length mark) in
  if numrows E <=? cy E then
    E1 <- editorInsertCharsAt (cy E) (cx E) mark E ;;
    close <- close_behind mark ;;
    x1 <- checked (cx E1 + mlen) ;;
    E2 <- editorInsertCharsAt (cy E1) x1 close E1 ;;
    let E3 := push_undo_insert (cy E2) (cx E2) mark E2 in
    x3 <- checked (cx E3 + mlen) ;;
    let E4 := push_undo_insert (cy E3) x3 close E3 in
    x4 <- checked (cx E4 + mlen) ;;
    Ret (set_cx E4 x4)
  else
    r <- row_at E (cy E) ;;
    let L := size r in
    if cx E <? 0 then Undef
    else
      left <- word_start r (Z.to_nat (cx E)) ;;
      let right := word_end (skipn (Z.to_nat (cx E)) (chars r)) (cx E) in
      if left <? right then
        lo <- checked (left - mlen) ;;
        let has_open :=
          if 0 <=? lo then strncmp_eq (skipn (Z.to_nat lo) (chars r)) mark (length mark)
          else false in
        hi <- checked (right + mlen) ;;
        let has_close :=
          if hi <=? L then strncmp_eq (skipn (Z.to_nat right) (chars r)) mark (length mark)
          else false in
        if has_open && has_close then
          d1 <- editorDelCharsAt (cy E) lo mlen E ;;
          x2 <- checked (right - mlen - mlen) ;;
          d2 <- editorDelCharsAt (cy E) x2 mlen (snd d1) ;;
          E1 <- match fst d1 with
                | Some del1 =>
                  s <- read_bytes (Some del1) mlen ;;
                  Ret (push_undo_delete (cy E) lo s (snd d2))
                | None => Ret (snd d2)
                end ;;
          E2 <- match fst d2 with
                | Some del2 =>
                  s <- read_bytes (Some del2) mlen ;;
                  Ret (push_undo_delete (cy E) x2 s E1)
                | None => Ret E1
                end ;;
          Ret (set_cx E2 lo)
        else
          E1 <- editorInsertCharsAt (cy E) right mark E ;;
          E2 <- editorInsertCharsAt (cy E1) left mark E1 ;;
          let E3 := push_undo_insert (cy E2) left mark E2 in
          let E4 := push_undo_insert (cy E3) hi mark E3 in
          Ret (set_cx E4 hi)
      else
        E1 <- editorInsertCharsAt (cy E) (cx E) mark E ;;
        close <- close_copy mark ;;
        x1 <- checked (cx E1 + mlen) ;;
        E2 <- editorInsertCharsAt (cy E1) x1 close E1 ;;
        let E3 := push_undo_insert (cy E2) (cx E2) mark E2 in
        x3 <- checked (cx E3 + mlen) ;;
        let E4 := push_undo_insert (cy E3) x3 close E3 in
        x4 <- checked (cx E4 + mlen) ;;
        Ret (set_cx E4 x4).

End KiloFormat.
Import KiloFormat.

Module KiloFormatSpec.

Definition not_space (c : Z) : bool := negb (isspace (to_uchar c)).

(** A mark that [editorToggleFormat] can be given: at most the 8 bytes
    of [close], the first of them no white space. *)
Definition is_mark (mark : list Z) : bool :=
  match mark with
  | [] => false
  | m0 :: _ => not_space m0 && (Z.of_nat (length mark) <=? 8)
  end.

End KiloFormatSpec.
Import KiloFormatSpec.

Module KiloFormatSpec2.

(** The characters of a row with [mark] put before column [left] and
    before column [right]. *)
Definition marked (cs mark : list Z) (left right : nat) : list Z :=
  firstn left cs ++ map to_char mark
    ++ firstn (right - left) (skipn left cs)
    ++ map to_char mark ++ skipn right cs.

(** The editor after the marks have been put around columns [left] to
    [right] of the cursor's row: both insertions recorded for undo, the
    cursor before the second mark. *)
Definition toggled (E : editorConfig) (mark : list Z) (r : erow) (left right : nat)
  : editorConfig :=
  let mlen := Z.of_nat (length mark) in
  set_cx
    (push_undo_insert (cy E) (Z.of_nat right + mlen) mark
       (push_undo_insert (cy E) (Z.of_nat left) mark
          (edited E (cy E) (marked (chars r) mark left right) (2 * mlen))))
    (Z.of_nat right + mlen).

End KiloFormatSpec2.
Import KiloFormatSpec2.

(** * Properties *)

Example lit_apostrophe : lit "{'a':1}" = [123; 34; 97; 34; 58; 49; 125].
Proof. reflexivity. Qed.

Example ws_frame_hi : ws_frame (lit "hi") = Ret [129; 2; 104; 105].
Proof. reflexivity. Qed.

Example ws_read_frame_hi : ws_read_frame [129; 2; 104; 105] = Ret (Some (lit "hi")).
Proof. reflexivity. Qed.

Example ws_read_frame_masked :
  ws_read_frame [129; 130; 1; 2; 3; 4; 105; 107] = Ret (Some (lit "hi")).
Proof. reflexivity. Qed.

(** ** Executions *)

Lemma bind_ret_inv {A B : Type} (m : exec A) (k : A -> exec B) (b : B) :
  bind m k = Ret b -> exists a, m = Ret a /\ k a = Ret b.
Proof.
  destruct m as [a|]; simpl; intros H; [now exists a | discriminate].
Qed.

Ltac exec_inv H :=
  let a := fresh "a" in
  let Ha := fresh "Ha" in
  apply bind_ret_inv in H; destruct H as (a & Ha & H).

Lemma ret_inj (A : Type) (x y : A) : Ret x = Ret y -> x = y.
Proof. intros H. now injection H. Qed.

(** ** The fan-out *)

Section Broadcast.

Variable message : list Z.
Variable exclude_socket : Z.

Lemma broadcast_walk_framed (frame : list Z) (clients : list Client) :
  ws_frame message = Ret frame ->
  broadcast_walk message exclude_socket clients = Ret (flat_map (visit exclude_socket frame) clients).
Proof.
  intros Hframe. induction clients as [|c next IH]; simpl; [reflexivity|].
  rewrite IH. unfold visit, recipient, ws_send_frame.
  destruct (negb (socket c =? exclude_socket) && negb (active c =? 0)); simpl.
  - rewrite Hframe. reflexivity.
  - reflexivity.
Qed.

Lemma broadcast_walk_unframed (clients : list Client) (evs : list event) :
  ws_frame message = Undef ->
  broadcast_walk message exclude_socket clients = Ret evs ->
  evs = flat_map (visit exclude_socket []) clients.
Proof.
  intros Hframe. revert evs.
  induction clients as [|c next IH]; simpl; intros evs H.
  - now inversion H.
  - exec_inv H. exec_inv H. inversion H; subst; clear H.
    rewrite (IH _ Ha0). f_equal.
    unfold visit, recipient.
    destruct (negb (socket c =? exclude_socket) && negb (active c =? 0)).
    + unfold ws_send_frame in Ha. rewrite Hframe in Ha. discriminate.
    + now inversion Ha.
Qed.

Lemma broadcast_walk_shape (clients : list Client) (evs : list event) :
  broadcast_walk message exclude_socket clients = Ret evs ->
  exists frame, evs = flat_map (visit exclude_socket frame) clients.
Proof.
  intros H. destruct (ws_frame message) as [frame|] eqn:Hframe.
  - exists frame. rewrite (broadcast_walk_framed frame) in H by assumption.
    now inversion H.
  - exists []. now apply broadcast_walk_unframed.
Qed.

Lemma mutex_eqb_refl (m : mutex) : mutex_eqb m m = true.
Proof. destruct m; simpl; [reflexivity | apply Z.eqb_refl]. Qed.

Lemma sends_visits (frame : list Z) (clients : list Client) :
  sends (flat_map (visit exclude_socket frame) clients)
  = map (fun c => (socket c, frame)) (filter (recipient exclude_socket) clients).
Proof.
  induction clients as [|c next IH]; simpl; [reflexivity|].
  unfold visit at 1. destruct (recipient exclude_socket c); simpl; now rewrite IH.
Qed.

Lemma held_after_app (held : list mutex) (e1 e2 : list event) :
  held_after held (e1 ++ e2) = held_after (held_after held e1) e2.
Proof.
  revert held. induction e1 as [|e e1 IH]; intros held; simpl; [reflexivity|].
  destruct e; apply IH.
Qed.

Lemma held_after_visits (frame : list Z) (clients : list Client) (held : list mutex) :
  held_after held (flat_map (visit exclude_socket frame) clients) = held.
Proof.
  revert held. induction clients as [|c next IH]; intros held; simpl; [reflexivity|].
  rewrite held_after_app, IH. unfold visit.
  destruct (recipient exclude_socket c); simpl; [|reflexivity].
  now rewrite Z.eqb_refl.
Qed.

End Broadcast.

Lemma sends_app (e1 e2 : list event) : sends (e1 ++ e2) = sends e1 ++ sends e2.
Proof.
  induction e1 as [|e e1 IH]; simpl; [reflexivity|].
  destruct e; simpl; now rewrite ?IH.
Qed.

Lemma sent_to_absent (sock : Z) (frame : list Z) (clients : list Client) :
  ~ In sock (sockets clients) ->
  map snd (filter (fun p => fst p =? sock)
             (map (fun c => (socket c, frame)) clients)) = [].
Proof.
  induction clients as [|c next IH]; simpl; intros Hnot; [reflexivity|].
  destruct (socket c =? sock) eqn:E.
  - exfalso. apply Hnot. left. now apply Z.eqb_eq.
  - apply IH. intros Hin. apply Hnot. now right.
Qed.

Lemma sockets_filter_incl (p : Client -> bool) (clients : list Client) (sock : Z) :
  In sock (sockets (filter p clients)) -> In sock (sockets clients).
Proof.
  unfold sockets. rewrite !in_map_iff. intros (c & Hc & Hin).
  exists c. split; [assumption|]. apply filter_In in Hin. tauto.
Qed.

Lemma sent_to_unique (frame : list Z) (p : Client -> bool) (clients : list Client)
  (c : Client) :
  NoDup (sockets clients) ->
  In c clients ->
  map snd (filter (fun q => fst q =? socket c)
             (map (fun c => (socket c, frame)) (filter p clients)))
  = if p c then [frame] else [].
Proof.
  induction clients as [|d next IH]; simpl; intros Hnd Hin; [contradiction|].
  inversion Hnd as [|? ? Hfresh Hnd']; subst.
  destruct Hin as [->|Hin].
  - destruct (p c) eqn:Hp; simpl.
    + rewrite Z.eqb_refl. simpl. f_equal.
      apply sent_to_absent. intros H. apply Hfresh.
      now apply sockets_filter_incl in H.
    + apply sent_to_absent. intros H. apply Hfresh.
      now apply sockets_filter_incl in H.
  - assert (Hne : (socket d =? socket c) = false).
    { apply Z.eqb_neq. intros E. apply Hfresh. rewrite E.
      unfold sockets. now apply in_map. }
    destruct (p d); simpl; rewrite ?Hne; now apply IH.
Qed.

Lemma sends_guarded_visits (S : Z) (frame : list Z) (clients : list Client)
  (held : list mutex) :
  existsb (mutex_eqb ClientsMutex) held = true ->
  sends_guarded held (flat_map (visit S frame) clients ++ [EvUnlock ClientsMutex]) = true.
Proof.
  intros Hheld. induction clients as [|c next IH]; simpl; [reflexivity|].
  unfold visit at 1. destruct (recipient S c); simpl; [|exact IH].
  rewrite !Z.eqb_refl, Hheld. simpl. exact IH.
Qed.

Lemma broadcast_message_framed (message : list Z) (S : Z)
  (clients : list Client) (frame : list Z) :
  ws_frame message = Ret frame ->
  broadcast_message message S clients = Ret (broadcast_trace S frame clients).
Proof.
  intros Hframe. unfold broadcast_message.
  now rewrite (broadcast_walk_framed message S frame).
Qed.

Lemma broadcast_trace_sends (S : Z) (frame : list Z) (clients : list Client) :
  Forall (fun c => active c <> 0) clients ->
  sends (broadcast_trace S frame clients)
  = map (fun c => (socket c, frame))
      (filter (fun c => negb (socket c =? S)) clients).
Proof.
  intros Hactive. unfold broadcast_trace. simpl.
  rewrite sends_app, sends_visits. simpl. rewrite app_nil_r. f_equal.
  apply filter_ext_in. intros c Hin. unfold recipient.
  rewrite Forall_forall in Hactive. specialize (Hactive c Hin).
  apply Z.eqb_neq in Hactive. rewrite Hactive. apply andb_true_r.
Qed.

Lemma broadcast_trace_not_to_sender (S : Z) (frame : list Z)
  (clients : list Client) :
  Forall (fun c => active c <> 0) clients ->
  sent_to S (broadcast_trace S frame clients) = [].
Proof.
  intros Hactive. unfold sent_to. rewrite broadcast_trace_sends by assumption.
  apply sent_to_absent.
  intros Hin. unfold sockets in Hin. apply in_map_iff in Hin.
  destruct Hin as (c & Hc & Hin). apply filter_In in Hin.
  destruct Hin as [_ Hne]. rewrite Hc, Z.eqb_refl in Hne. discriminate.
Qed.

Lemma broadcast_trace_once_each (S : Z) (frame : list Z)
  (clients : list Client) (c : Client) :
  Forall (fun c => active c <> 0) clients ->
  NoDup (sockets clients) ->
  In c clients ->
  sent_to (socket c) (broadcast_trace S frame clients)
  = if socket c =? S then [] else [frame].
Proof.
  intros Hactive Hnd Hin. unfold sent_to.
  rewrite broadcast_trace_sends by assumption.
  rewrite (sent_to_unique frame (fun c => negb (socket c =? S)) clients c Hnd Hin).
  now destruct (socket c =? S).
Qed.



(** C3, as the code has it. [broadcast_message] takes [clients_mutex]
    first and gives it back last; every send of the call happens while
    [clients_mutex] and the target's own lock are both held, and the call
    ends holding nothing. *)
Theorem broadcast_message_sends_under_clients_mutex (message : list Z) (S : Z)
  (clients : list Client) (evs : list event) :
  broadcast_message message S clients = Ret evs ->
  hd_error evs = Some (EvLock ClientsMutex)
  /\ last evs (EvLock ClientsMutex) = EvUnlock ClientsMutex
  /\ sends_guarded [] evs = true
  /\ held_after [] evs = []
  /\ (sends evs <> [] -> sends_holding ClientsMutex [] evs = true).
Proof.
  unfold broadcast_message. intros H. exec_inv H.
  inversion H; subst; clear H.
  apply broadcast_walk_shape in Ha. destruct Ha as (frame & ->).
  split; [reflexivity|]. split.
  { change ([EvLock ClientsMutex] ++ flat_map (visit S frame) clients
              ++ [EvUnlock ClientsMutex])
      with (EvLock ClientsMutex
              :: (flat_map (visit S frame) clients ++ [EvUnlock ClientsMutex])).
    rewrite app_comm_cons. apply last_last. }
  split.
  { simpl. now apply sends_guarded_visits. }
  split.
  { simpl. rewrite held_after_app, held_after_visits. reflexivity. }
  simpl. intros Hsome.
  induction clients as [|c next IH]; simpl in *; [contradiction|].
  unfold visit in *. destruct (recipient S c); simpl in *; [reflexivity|].
  now apply IH.
Qed.

Lemma broadcast_message_sends_under_clients_mutex_witness :
  sends_guarded []
    [EvLock ClientsMutex; EvLock (ClientLock 7); EvSend 7 [129; 2; 104; 105];
     EvUnlock (ClientLock 7); EvUnlock ClientsMutex] = true.
Proof.
  apply (broadcast_message_sends_under_clients_mutex (lit "hi") 5
           [some_client 7; some_client 5]).
  reflexivity.
Defined.

(** C3, as stated, fails: with one other client linked, the send of a
    broadcast happens while [clients_mutex] is held. *)
Lemma broadcast_message_holds_clients_mutex_across_send :
  exists evs,
    broadcast_message (lit "hi") 5 [some_client 7; some_client 5] = Ret evs
    /\ sends_holding ClientsMutex [] evs = true.
Proof.
  eexists. split; reflexivity.
Qed.

(** ** The client list *)

Lemma unlink_absent (sock : Z) (clients : list Client) :
  ~ In sock (sockets clients) -> unlink sock clients = (clients, []).
Proof.
  induction clients as [|c next IH]; simpl; intros Hnot; [reflexivity|].
  destruct (socket c =? sock) eqn:E.
  - exfalso. apply Hnot. left. now apply Z.eqb_eq.
  - rewrite IH; [reflexivity|]. intros Hin. apply Hnot. now right.
Qed.

Lemma unlink_sockets_incl (sock s : Z) (clients : list Client) :
  In s (sockets (fst (unlink sock clients))) -> In s (sockets clients).
Proof.
  induction clients as [|c next IH]; simpl; [tauto|].
  destruct (socket c =? sock).
  - simpl. tauto.
  - destruct (unlink sock next) as [rest evs]. simpl in *. tauto.
Qed.

Lemma unlink_removes (sock : Z) (clients : list Client) :
  NoDup (sockets clients) -> ~ In sock (sockets (fst (unlink sock clients))).
Proof.
  induction clients as [|c next IH]; simpl; intros Hnd; [tauto|].
  inversion Hnd as [|? ? Hfresh Hnd']; subst.
  destruct (socket c =? sock) eqn:E.
  - apply Z.eqb_eq in E. subst. exact Hfresh.
  - specialize (IH Hnd'). destruct (unlink sock next) as [rest evs]. simpl in *.
    apply Z.eqb_neq in E. tauto.
Qed.

Lemma unlink_NoDup (sock : Z) (clients : list Client) :
  NoDup (sockets clients) -> NoDup (sockets (fst (unlink sock clients))).
Proof.
  induction clients as [|c next IH]; simpl; intros Hnd; [constructor|].
  inversion Hnd as [|? ? Hfresh Hnd']; subst.
  destruct (socket c =? sock); [exact Hnd'|].
  specialize (IH Hnd').
  pose proof (unlink_sockets_incl sock (socket c) next) as Hincl.
  destruct (unlink sock next) as [rest evs]. simpl in *.
  constructor; tauto.
Qed.

Lemma remove_client_fst (sock : Z) (clients : list Client) :
  fst (remove_client sock clients) = fst (unlink sock clients).
Proof.
  unfold remove_client. now destruct (unlink sock clients).
Qed.

(** C7. [remove_client] on a socket that no linked client has leaves the
    list as it is and does nothing but take and give back [clients_mutex];
    so, with one client per socket, a second [remove_client] on the same
    socket is such a call: it changes nothing and closes nothing. *)
Theorem remove_client_absent_is_noop (sock : Z) (clients : list Client) :
  (~ In sock (sockets clients) ->
   remove_client sock clients
   = (clients, [EvLock ClientsMutex; EvUnlock ClientsMutex]))
  /\ (NoDup (sockets clients) ->
      let once := fst (remove_client sock clients) in
      remove_client sock once
      = (once, [EvLock ClientsMutex; EvUnlock ClientsMutex])).
Proof.
  assert (Habsent : forall l, ~ In sock (sockets l) ->
            remove_client sock l = (l, [EvLock ClientsMutex; EvUnlock ClientsMutex])).
  { intros l Hnot. unfold remove_client. now rewrite unlink_absent. }
  split; [apply Habsent|].
  intros Hnd once. apply Habsent. subst once.
  rewrite remove_client_fst. now apply unlink_removes.
Qed.

Lemma remove_client_absent_is_noop_witness :
  remove_client 9 [some_client 7; some_client 5]
  = ([some_client 7; some_client 5], [EvLock ClientsMutex; EvUnlock ClientsMutex])
  /\ remove_client 5 (fst (remove_client 5 [some_client 7; some_client 5]))
     = ([some_client 7], [EvLock ClientsMutex; EvUnlock ClientsMutex]).
Proof.
  split.
  - apply (proj1 (remove_client_absent_is_noop 9 [some_client 7; some_client 5])).
    cbv. intuition discriminate.
  - apply (proj2 (remove_client_absent_is_noop 5 [some_client 7; some_client 5])).
    repeat constructor; cbv; intuition discriminate.
Defined.

(** ** What the dispatcher never writes *)

Arguments lit : simpl never.
Arguments fmt_int : simpl never.
Arguments greet : simpl never.
Arguments leave : simpl never.
Arguments loop_turn : simpl never.
Arguments dispatch : simpl never.
Arguments broadcast_message : simpl never.
Arguments ws_frame : simpl never.
Arguments ws_read_frame : simpl never.
Arguments new_client : simpl never.
Arguments add_client : simpl never.
Arguments remove_client : simpl never.

Ltac break_match_in H :=
  repeat match type of H with
         | context [match ?x with _ => _ end] =>
           let E := fresh "E" in destruct x eqn:E; try discriminate H
         end.

Lemma dispatch_same_identity (clients : list Client) (client client' : Client)
  (message : list Z) (evs : list event) :
  dispatch clients client message = Ret (client', evs) ->
  same_identity client client'.
Proof.
  unfold dispatch, on_join, on_content_change, on_cursor_move, on_file_change,
    bind, same_identity.
  intros H. break_match_in H; inversion H; subst; simpl; auto.
Qed.

Lemma loop_turn_same_identity (clients : list Client) (client client' : Client)
  (received : list Z) (st : loop_status) (evs : list event) :
  loop_turn clients client received = Ret (st, client', evs) ->
  same_identity client client'.
Proof.
  unfold loop_turn, bind. intros H.
  destruct (Z.of_nat (length received) <=? 0).
  { inversion H; subst. unfold same_identity; auto. }
  destruct (ws_read_frame received) as [[message|]|]; try discriminate.
  - destruct (dispatch clients client (cstring message)) as [[c e]|] eqn:E;
      [|discriminate].
    inversion H; subst. simpl. now apply dispatch_same_identity in E.
  - inversion H; subst. unfold same_identity; auto.
Qed.

Lemma client_of_some (sock : Z) (clients : list Client) (client : Client) :
  client_of sock clients = Some client -> In client clients /\ socket client = sock.
Proof.
  unfold client_of. intros H. apply find_some in H.
  destruct H as [Hin E]. apply Z.eqb_eq in E. auto.
Qed.

Lemma store_back_sockets (client' : Client) (clients : list Client) :
  sockets (store_back client' clients) = sockets clients.
Proof.
  induction clients as [|c next IH]; simpl; [reflexivity|].
  destruct (socket c =? socket client') eqn:E; simpl.
  - apply Z.eqb_eq in E. now rewrite E.
  - now rewrite IH.
Qed.

Lemma store_back_In (client' d : Client) (clients : list Client) :
  In d (store_back client' clients) ->
  In d clients \/ (d = client' /\ In (socket client') (sockets clients)).
Proof.
  induction clients as [|c next IH]; simpl; [tauto|].
  destruct (socket c =? socket client') eqn:E; simpl.
  - apply Z.eqb_eq in E. intros [<-|Hin]; auto.
  - intros [<-|Hin]; auto. destruct (IH Hin) as [H|[H1 H2]]; auto.
Qed.

Lemma unlink_In (sock : Z) (d : Client) (clients : list Client) :
  In d (fst (unlink sock clients)) -> In d clients.
Proof.
  induction clients as [|c next IH]; simpl; [tauto|].
  destruct (socket c =? sock).
  - simpl. tauto.
  - destruct (unlink sock next) as [rest evs]. simpl in *. tauto.
Qed.

Lemma palette_entry (r : Z) : 0 <= r -> In (nth (Z.to_nat (r mod 10)) colors []) colors.
Proof.
  intros Hr. apply nth_In.
  assert (0 <= r mod 10 < 10) by (apply Z.mod_pos_bound; lia).
  change (length colors) with 10%nat. lia.
Qed.

Lemma existsb_eqb_false (x : Z) (l : list Z) :
  existsb (Z.eqb x) l = false -> ~ In x l.
Proof.
  intros H Hin.
  assert (existsb (Z.eqb x) l = true).
  { apply existsb_exists. exists x. split; [assumption | apply Z.eqb_refl]. }
  congruence.
Qed.

Lemma perform_well_formed (history : list action) (clients clients' : list Client)
  (a : action) (evs : list event) :
  well_formed history clients ->
  enabled clients a = true ->
  perform clients a = Ret (clients', evs) ->
  well_formed (a :: history) clients'.
Proof.
  intros [Hnd Hall] Hen Hrun. destruct a as [sock r_name r_color|sock|sock received|sock];
    cbn [perform enabled] in Hen, Hrun.
  - (* Accept *)
    apply andb_prop in Hen. destruct Hen as [Hen Hcol].
    apply andb_prop in Hen. destruct Hen as [Hfresh _].
    apply negb_true_iff, existsb_eqb_false in Hfresh. apply Z.leb_le in Hcol.
    unfold add_client in Hrun. inversion Hrun; subst; clear Hrun. split.
    + simpl. constructor; assumption.
    + intros c [<-|Hin]; simpl.
      * rewrite Z.eqb_refl. split; [reflexivity|]. split; [|reflexivity].
        now apply palette_entry.
      * destruct (Hall c Hin) as (Ha & Hc & Hch).
        assert (Hne : (sock =? socket c) = false).
        { apply Z.eqb_neq. intros ->. apply Hfresh. unfold sockets. now apply in_map. }
        rewrite Hne. auto.
  - (* Greet *)
    destruct (client_of sock clients) as [client|]; [|discriminate].
    unfold bind in Hrun. destruct (greet clients client); [|discriminate].
    inversion Hrun; subst. split; [assumption|]. intros c Hin. simpl. auto.
  - (* Receive *)
    destruct (client_of sock clients) as [client|] eqn:Hc; [|discriminate].
    apply client_of_some in Hc. destruct Hc as [Hin Hsock].
    unfold bind in Hrun.
    destruct (loop_turn clients client received) as [[[st client'] e]|] eqn:Hturn;
      [|discriminate].
    inversion Hrun; subst; clear Hrun. simpl.
    apply loop_turn_same_identity in Hturn. destruct Hturn as (Hs & Hcol & Hact).
    split; [now rewrite store_back_sockets|].
    intros d Hd. apply store_back_In in Hd. destruct Hd as [Hd|[-> _]].
    + apply Hall, Hd.
    + rewrite Hs, Hcol, Hact. apply Hall, Hin.
  - (* Hangup *)
    destruct (client_of sock clients) as [client|] eqn:Hc; [|discriminate].
    apply client_of_some in Hc. destruct Hc as [Hin Hsock].
    unfold leave, bind in Hrun.
    destruct (broadcast_message _ _ clients); [|discriminate].
    pose proof (remove_client_fst (socket client) clients) as Hfst.
    destruct (remove_client (socket client) clients) as [rest e2].
    simpl in Hfst. inversion Hrun; subst; clear Hrun.
    split; [now apply unlink_NoDup|].
    intros d Hd. simpl.
    assert (Hne : (socket client =? socket d) = false).
    { apply Z.eqb_neq. intros E.
      apply (unlink_removes (socket client) clients Hnd).
      apply (in_map socket) in Hd. rewrite <- E in Hd. exact Hd. }
    rewrite Hne. apply Hall. now apply unlink_In in Hd.
Qed.

(** A step with a defined result leads to the state it returns, and one
    without to [Undef]. *)
Lemma reach_ret (history : list action) (clients clients' : list Client)
  (a : action) (evs : list event) :
  reach history (Ret clients) ->
  enabled clients a = true ->
  perform clients a = Ret (clients', evs) ->
  reach (a :: history) (Ret clients').
Proof.
  intros Hreach Hen Hrun. pose proof (reach_step history clients a Hreach Hen) as H.
  rewrite Hrun in H. exact H.
Qed.

Lemma reach_undef (history : list action) (clients : list Client) (a : action) :
  reach history (Ret clients) ->
  enabled clients a = true ->
  perform clients a = Undef ->
  reach (a :: history) Undef.
Proof.
  intros Hreach Hen Hrun. pose proof (reach_step history clients a Hreach Hen) as H.
  rewrite Hrun in H. exact H.
Qed.

Lemma reach_well_formed (history : list action) (clients : list Client) :
  reach history (Ret clients) -> well_formed history clients.
Proof.
  intros Hreach. remember (Ret clients) as state eqn:Hstate.
  revert clients Hstate.
  induction Hreach as [|history clients0 a Hreach IH Hen]; intros clients Hstate.
  - apply ret_inj in Hstate. subst clients.
    split; [constructor | intros c []].
  - destruct (perform clients0 a) as [[clients' evs]|] eqn:Hrun; [|discriminate].
    cbn [bind fst] in Hstate. apply ret_inj in Hstate. subst clients'.
    eapply perform_well_formed; [apply IH; reflexivity | eassumption | eassumption].
Qed.

Lemma reach_first : reach first_history (Ret [first_client]).
Proof.
  unfold first_history.
  eapply reach_ret; [eapply reach_ret; [eapply reach_ret; [apply reach_start|..]|..]|..];
    reflexivity.
Qed.

(** ** The frame codec *)

Lemma land_127_small (n : Z) : 0 <= n < 128 -> Z.land n 127 = n.
Proof.
  intros Hn. change 127 with (Z.ones 7). rewrite Z.land_ones by lia.
  apply Z.mod_small. simpl. lia.
Qed.

Lemma land_128_small (n : Z) : 0 <= n < 128 -> Z.land n 128 = 0.
Proof.
  intros Hn. apply Z.bits_inj'. intros i Hi.
  rewrite Z.land_spec, Z.bits_0.
  change 128 with (2 ^ 7). rewrite Z.pow2_bits_eqb by lia.
  destruct (Z.eqb_spec 7 i) as [<-|Hne]; [|apply andb_false_r].
  rewrite Z.testbit_odd, Z.shiftr_div_pow2 by lia.
  now rewrite Z.div_small.
Qed.

Lemma join_16 (n : Z) :
  0 <= n < 65536 ->
  Z.lor (Z.shiftl (Z.land (Z.shiftr n 8) 255) 8) (Z.land n 255) = n.
Proof.
  intros Hn. apply Z.bits_inj'. intros i Hi.
  rewrite Z.lor_spec.
  change 255 with (Z.ones 8).
  destruct (Z.ltb_spec i 8) as [Hlt|Hge].
  - rewrite Z.shiftl_spec_low by assumption.
    rewrite Z.land_spec, Z.testbit_ones_nonneg by lia.
    replace (i <? 8) with true by (symmetry; apply Z.ltb_lt; lia).
    simpl. apply andb_true_r.
  - rewrite Z.shiftl_spec by assumption.
    rewrite !Z.land_spec, Z.shiftr_spec by lia.
    rewrite !Z.testbit_ones_nonneg by lia.
    replace (i - 8 + 8) with i by lia.
    replace (i <? 8) with false by (symmetry; apply Z.ltb_ge; lia).
    rewrite andb_false_r, orb_false_r.
    destruct (Z.ltb_spec (i - 8) 8) as [Hlt'|Hge'].
    + apply andb_true_r.
    + rewrite andb_false_r. symmetry.
      apply Z.bits_above_log2; [lia|].
      destruct (Z.eq_dec n 0) as [->|Hnz]; [simpl; lia|].
      apply Z.log2_lt_pow2; [lia|].
      apply Z.lt_le_trans with (2 ^ 16); [simpl; lia|].
      apply Z.pow_le_mono_r; lia.
Qed.

(** Reading back the bytes that follow a header of [length pre] bytes. *)
Lemma payload_after (pre text : list Z) :
  map (fun i => byte_at (pre ++ text) (Z.of_nat (length pre) + i))
    (map Z.of_nat (seq 0 (length text))) = text.
Proof.
  revert pre. induction text as [|b text IH]; intros pre; [reflexivity|].
  cbn [length seq map]. f_equal.
  - unfold byte_at. rewrite Z.add_0_r, Nat2Z.id. apply nth_middle.
  - rewrite <- seq_shift, !map_map.
    specialize (IH (pre ++ [b])). rewrite map_map in IH.
    rewrite <- IH at 2. apply map_ext. intros i.
    rewrite <- app_assoc. simpl. f_equal.
    rewrite length_app. simpl. lia.
Qed.

Lemma wrap_int_small (z : Z) : -2147483648 <= z < 2147483648 -> wrap_int z = z.
Proof.
  intros Hz. unfold wrap_int.
  change (2 ^ 31) with 2147483648. change (2 ^ 32) with 4294967296.
  rewrite Z.mod_small; lia.
Qed.

Lemma ws_read_frame_short (text : list Z) :
  Z.of_nat (length text) < 126 ->
  ws_read_frame (129 :: Z.of_nat (length text) :: text) = Ret (Some text).
Proof.
  intros Hn. set (n := Z.of_nat (length text)) in *.
  assert (Hn0 : 0 <= n) by (subst n; lia).
  unfold ws_read_frame. cbv zeta.
  replace (Z.of_nat (length (129 :: n :: text))) with (n + 2)
    by (subst n; cbn [length]; lia).
  change (byte_at (129 :: n :: text) 0) with 129.
  change (byte_at (129 :: n :: text) 1) with n.
  change (Z.land 129 15 =? 8) with false. cbv iota.
  rewrite land_128_small, land_127_small by lia.
  change (negb (0 =? 0)) with false. cbv iota.
  destruct (Z.ltb_spec (n + 2) 2); [lia|].
  destruct (Z.eqb_spec n 126); [lia|].
  destruct (Z.eqb_spec n 127); [lia|].
  rewrite wrap_int_small by lia.
  destruct (Z.ltb_spec (n + 2) (2 + n)); [lia|].
  destruct (Z.ltb_spec n 0); [lia|]. cbn [orb].
  do 2 f_equal. subst n. rewrite Nat2Z.id.
  exact (payload_after [129; Z.of_nat (length text)] text).
Qed.

Lemma ws_read_frame_medium (text : list Z) :
  126 <= Z.of_nat (length text) < 65536 ->
  ws_read_frame (129 :: 126 :: Z.land (Z.shiftr (Z.of_nat (length text)) 8) 255
                   :: Z.land (Z.of_nat (length text)) 255 :: text)
  = Ret (Some text).
Proof.
  intros Hn. set (n := Z.of_nat (length text)) in *.
  unfold ws_read_frame. cbv zeta.
  set (hi := Z.land (Z.shiftr n 8) 255). set (lo := Z.land n 255).
  replace (Z.of_nat (length (129 :: 126 :: hi :: lo :: text))) with (n + 4)
    by (subst n; cbn [length]; lia).
  change (byte_at (129 :: 126 :: hi :: lo :: text) 0) with 129.
  change (byte_at (129 :: 126 :: hi :: lo :: text) 1) with 126.
  change (byte_at (129 :: 126 :: hi :: lo :: text) 2) with hi.
  change (byte_at (129 :: 126 :: hi :: lo :: text) 3) with lo.
  change (Z.land 129 15 =? 8) with false.
  change (Z.land 126 128) with 0. change (Z.land 126 127) with 126.
  change (126 =? 126) with true. change (negb (0 =? 0)) with false. cbv iota.
  subst hi lo. rewrite join_16 by lia.
  destruct (Z.ltb_spec (n + 4) 2); [lia|].
  destruct (Z.ltb_spec (n + 4) 4); [lia|].
  rewrite wrap_int_small by lia.
  destruct (Z.ltb_spec (n + 4) (4 + n)); [lia|].
  destruct (Z.ltb_spec n 0); [lia|]. cbn [orb].
  do 2 f_equal. subst n. rewrite Nat2Z.id.
  exact (payload_after [129; 126; Z.land (Z.shiftr (Z.of_nat (length text)) 8) 255;
                        Z.land (Z.of_nat (length text)) 255] text).
Qed.

(** Within the send buffer the codec round-trips: a text of at most
    65532 bytes is framed, and reading the frame gives the text back. *)
Lemma ws_frame_round_trip (text : list Z) :
  Z.of_nat (length text) <= 65532 ->
  exists frame, ws_frame text = Ret frame /\ ws_read_frame frame = Ret (Some text).
Proof.
  intros Hn. unfold ws_frame, strlen. cbv zeta.
  rewrite wrap_int_small by lia.
  unfold length_header.
  destruct (Z.ltb_spec (Z.of_nat (length text)) 126) as [Hshort|Hlong].
  - cbn [length]. 
    destruct (Z.leb_spec 0 (Z.of_nat (length text))); [|lia].
    destruct (Z.leb_spec (Z.of_nat 2 + Z.of_nat (length text)) BUFFER_SIZE) as [_|Hbig];
      [|unfold BUFFER_SIZE in Hbig; lia].
    cbn [andb]. eexists. split; [reflexivity|].
    rewrite Nat2Z.id, firstn_all.
    unfold to_uchar. rewrite Z.mod_small by lia.
    now apply ws_read_frame_short.
  - destruct (Z.ltb_spec (Z.of_nat (length text)) 65536); [|lia].
    cbn [length].
    destruct (Z.leb_spec 0 (Z.of_nat (length text))); [|lia].
    destruct (Z.leb_spec (Z.of_nat 4 + Z.of_nat (length text)) BUFFER_SIZE) as [_|Hbig];
      [|unfold BUFFER_SIZE in Hbig; lia].
    cbn [andb]. eexists. split; [reflexivity|].
    rewrite Nat2Z.id, firstn_all.
    apply ws_read_frame_medium. lia.
Qed.

Example round_trip_0 :
  exists frame, ws_frame [] = Ret frame /\ ws_read_frame frame = Ret (Some []).
Proof. apply ws_frame_round_trip. simpl. lia. Qed.

Example round_trip_125_126_65532 :
  forall n, In n [125; 126; 65532] ->
  exists frame, ws_frame (text_of_length n) = Ret frame
                /\ ws_read_frame frame = Ret (Some (text_of_length n)).
Proof.
  intros n Hn. apply ws_frame_round_trip.
  unfold text_of_length. rewrite repeat_length.
  simpl in Hn. lia.
Qed.

(** C2 at its last two lengths. For a text of 65535 bytes the header takes
    4 bytes and for one of 65536 bytes it takes 10, so the copy of the text
    into [frame[BUFFER_SIZE]] runs past the end of the array: 65533 is the
    first length at which [ws_send_frame] has no defined result, and no
    frame exists for [ws_read_frame] to read back. *)
Theorem ws_frame_overruns_its_buffer :
  ws_frame (text_of_length 65532) = Ret (129 :: 126 :: 255 :: 252 :: text_of_length 65532)
  /\ ws_frame (text_of_length 65533) = Undef
  /\ ws_frame (text_of_length 65535) = Undef
  /\ ws_frame (text_of_length 65536) = Undef.
Proof.
  repeat split; vm_compute; reflexivity.
Qed.

Lemma ws_read_frame_close (buffer : list Z) :
  Z.land (byte_at buffer 0) 15 = 8 -> ws_read_frame buffer = Ret None.
Proof.
  intros Hop. unfold ws_read_frame. cbv zeta. rewrite Hop.
  change (8 =? 8) with true. cbv iota.
  now destruct (Z.of_nat (length buffer) <? 2).
Qed.

(** C4, as the code has it. A frame with the close opcode makes
    [ws_read_frame] return null, which is also what it returns for a
    buffer too short to hold a frame; the loop of [handle_websocket] then
    takes its [continue]: the client is unchanged, nothing is sent and the
    loop goes on. A turn of the loop ends the loop exactly when [recv]
    returned no byte. *)
Theorem close_frame_is_read_as_null (clients : list Client) (client : Client)
  (buffer : list Z) :
  buffer <> [] ->
  Z.land (byte_at buffer 0) 15 = 8 ->
  ws_read_frame buffer = Ret None
  /\ ws_read_frame buffer = ws_read_frame [129]
  /\ loop_turn clients client buffer = Ret (Continue, client, [])
  /\ loop_turn clients client [] = Ret (Break, client, [])
  /\ (forall received st client' evs,
        loop_turn clients client received = Ret (st, client', evs) ->
        (st = Break <-> received = [])).
Proof.
  intros Hne Hop. pose proof (ws_read_frame_close buffer Hop) as Hnull.
  split; [exact Hnull|]. split; [rewrite Hnull; reflexivity|]. split.
  { unfold loop_turn. destruct buffer as [|b rest]; [contradiction|].
    destruct (Z.leb_spec (Z.of_nat (length (b :: rest))) 0) as [H|_];
      [cbn [length] in H; lia|].
    rewrite Hnull. reflexivity. }
  split; [reflexivity|].
  intros received st client' evs. unfold loop_turn, bind.
  destruct received as [|b rest].
  - intros H. inversion H. tauto.
  - destruct (Z.leb_spec (Z.of_nat (length (b :: rest))) 0) as [H|_];
      [cbn [length] in H; lia|].
    intros H.
    destruct (ws_read_frame (b :: rest)) as [[message|]|]; [| |discriminate].
    + destruct (dispatch clients client (cstring message)); [|discriminate].
      inversion H. split; [discriminate|discriminate].
    + inversion H. split; discriminate.
Qed.

Lemma close_frame_is_read_as_null_witness :
  ws_read_frame close_frame = Ret None
  /\ loop_turn [first_client] first_client close_frame
     = Ret (Continue, first_client, []).
Proof.
  destruct (close_frame_is_read_as_null [first_client] first_client close_frame)
    as (H1 & _ & H3 & _).
  - discriminate.
  - reflexivity.
  - split; [exact H1 | exact H3].
Defined.

(** C4, as stated, fails: a close frame gives the result an incomplete
    frame gives, and the turn of the loop that reads it does not end the
    loop. *)
Lemma close_frame_does_not_end_the_loop :
  Z.land (byte_at close_frame 0) 15 = 8
  /\ ws_read_frame close_frame = ws_read_frame [129]
  /\ exists client' evs,
       loop_turn [first_client] first_client close_frame
       = Ret (Continue, client', evs).
Proof.
  split; [reflexivity|]. split; [reflexivity|].
  exists first_client, []. reflexivity.
Qed.

(** ** Messages without a required field *)

Lemma dispatch_lacking (clients : list Client) (client : Client) (message : list Z) :
  lacks_required message = true ->
  dispatch clients client message = Ret (client, []).
Proof.
  unfold lacks_required, kind_of, dispatch.
  destruct (found (strstr message TYPE_JOIN)).
  { unfold on_join. cbn [required existsb].
    destruct (strstr message KEY_USERNAME); [discriminate | reflexivity]. }
  destruct (found (strstr message TYPE_CONTENT_CHANGE)).
  { unfold on_content_change. cbn [required existsb].
    destruct (strstr message KEY_USERNAME); [|reflexivity].
    destruct (strstr message KEY_FILE); [|reflexivity].
    destruct (strstr message KEY_CONTENT); [discriminate | reflexivity]. }
  destruct (found (strstr message TYPE_CURSOR_MOVE)).
  { unfold on_cursor_move. cbn [required existsb].
    destruct (strstr message KEY_POSITION); [|reflexivity].
    destruct (strstr message KEY_FILE); [|reflexivity].
    destruct (strstr message KEY_USERNAME); [discriminate | reflexivity]. }
  destruct (found (strstr message TYPE_FILE_CHANGE)).
  { unfold on_file_change. cbn [required existsb].
    destruct (strstr message KEY_FILE); [discriminate | reflexivity]. }
  discriminate.
Qed.

(** C5. When the message read from a frame lacks a field its kind
    requires, the turn of the loop leaves the client as it was (user name,
    current file, cursor position and all), sends nothing, and the loop
    goes on. *)
Theorem message_lacking_a_field_is_ignored (clients : list Client)
  (client : Client) (received payload : list Z) :
  received <> [] ->
  ws_read_frame received = Ret (Some payload) ->
  lacks_required (cstring payload) = true ->
  loop_turn clients client received = Ret (Continue, client, []).
Proof.
  intros Hne Hread Hlack. unfold loop_turn.
  destruct received as [|b rest]; [contradiction|].
  destruct (Z.leb_spec (Z.of_nat (length (b :: rest))) 0) as [H|_];
    [cbn [length] in H; lia|].
  rewrite Hread. cbn [bind].
  now rewrite dispatch_lacking.
Qed.

Lemma message_lacking_a_field_is_ignored_witness :
  loop_turn [first_client] first_client (129 :: 50 :: cursor_move_without_username)
  = Ret (Continue, first_client, []).
Proof.
  apply (message_lacking_a_field_is_ignored [first_client] first_client
           (129 :: 50 :: cursor_move_without_username)
           cursor_move_without_username).
  - discriminate.
  - reflexivity.
  - reflexivity.
Defined.

(** ** Scanning a message whose values hold no double quote *)

Lemma strstr_skip (a : Z) (hay needle : list Z) :
  starts_with needle (a :: hay) = false ->
  strstr (a :: hay) needle = strstr hay needle.
Proof. intros H. cbn [strstr]. now rewrite H. Qed.

Lemma strstr_here (hay needle : list Z) :
  starts_with needle hay = true -> strstr hay needle = Some hay.
Proof. intros H. destruct hay; cbn [strstr]; now rewrite H. Qed.

Lemma strstr_skip_value (u rest needle : list Z) :
  no_quote u = true ->
  strstr (u ++ rest) (dquote :: needle) = strstr rest (dquote :: needle).
Proof.
  intros Hu. induction u as [|b u IH]; [reflexivity|].
  cbn [no_quote forallb] in Hu. apply andb_prop in Hu. destruct Hu as [Hb Hu].
  cbn [app]. rewrite strstr_skip; [now apply IH|].
  cbn [starts_with]. apply negb_true_iff in Hb.
  rewrite Z.eqb_sym, Hb. reflexivity.
Qed.

Lemma starts_with_value (needle u rest : list Z) :
  no_quote u = true ->
  no_quote needle = false ->
  starts_with (after_quote needle) rest = false ->
  starts_with needle (u ++ dquote :: rest) = false.
Proof.
  revert u. induction needle as [|a needle IH]; intros u Hu Hq Hrest;
    [discriminate|].
  cbn [no_quote forallb after_quote] in Hq, Hrest.
  destruct u as [|b u]; cbn [app starts_with].
  - destruct (a =? dquote) eqn:Ea; [|reflexivity]. now rewrite Hrest.
  - cbn [no_quote forallb] in Hu. apply andb_prop in Hu. destruct Hu as [Hb Hu].
    apply negb_true_iff in Hb.
    destruct (a =? dquote) eqn:Ea.
    + apply Z.eqb_eq in Ea. subst a. rewrite Z.eqb_sym, Hb. reflexivity.
    + cbn [negb andb] in Hq. rewrite (IH u Hu Hq Hrest). apply andb_false_r.
Qed.

Lemma starts_with_at_value (needle u rest : list Z) :
  no_quote u = true ->
  no_quote needle = false ->
  starts_with (after_quote needle) rest = false ->
  starts_with (dquote :: needle) (dquote :: u ++ dquote :: rest) = false.
Proof.
  intros Hu Hq Hrest. cbn [starts_with].
  rewrite (starts_with_value needle u rest Hu Hq Hrest). apply andb_false_r.
Qed.

Lemma strchr_value (u rest : list Z) :
  no_quote u = true ->
  strchr (u ++ dquote :: rest) dquote = Some (dquote :: rest).
Proof.
  intros Hu. induction u as [|b u IH]; [reflexivity|].
  cbn [no_quote forallb] in Hu. apply andb_prop in Hu. destruct Hu as [Hb Hu].
  apply negb_true_iff in Hb. cbn [app strchr]. rewrite Hb. now apply IH.
Qed.

Lemma span_value (u rest : list Z) : span (u ++ rest) rest = u.
Proof.
  unfold span. rewrite length_app.
  replace (length u + length rest - length rest)%nat with (length u) by lia.
  rewrite firstn_app, Nat.sub_diag, firstn_all. simpl. apply app_nil_r.
Qed.

Lemma store_fits (cap : Z) (s : list Z) :
  Z.of_nat (length s) < cap -> store cap s = Ret s.
Proof.
  intros H. unfold store, strlen.
  destruct (Z.ltb_spec (Z.of_nat (length s)) cap); [reflexivity | lia].
Qed.

Ltac eval_lits :=
  repeat match goal with
         | |- context [lit ?s] =>
           let v := eval vm_compute in (lit s) in change (lit s) with v
         end.

(** One step of a search: the needle does not start here, either because
    the literal text at this place already differs from it, or because
    this place is the quote that opens a value. *)
Ltac scan_step :=
  first
    [ rewrite strstr_skip by reflexivity
    | rewrite strstr_skip
        by (apply starts_with_at_value; [assumption | reflexivity | reflexivity])
    | match goal with
      | Hu : no_quote ?u = true |- context [strstr (?u ++ ?rest) (dquote :: ?n)] =>
        rewrite (strstr_skip_value u rest n Hu)
      end ].

Ltac scan := cbn [app]; repeat scan_step.

(** ** file_change *)

Section FileChange.

Variable file : list Z.
Hypothesis file_plain : no_quote file = true.

Lemma file_change_not_join : strstr (file_change_msg file) TYPE_JOIN = None.
Proof.
  unfold file_change_msg, TYPE_JOIN. eval_lits. fold dquote. scan. reflexivity.
Qed.

Lemma file_change_not_content_change :
  strstr (file_change_msg file) TYPE_CONTENT_CHANGE = None.
Proof.
  unfold file_change_msg, TYPE_CONTENT_CHANGE. eval_lits. fold dquote. scan.
  reflexivity.
Qed.

Lemma file_change_not_cursor_move :
  strstr (file_change_msg file) TYPE_CURSOR_MOVE = None.
Proof.
  unfold file_change_msg, TYPE_CURSOR_MOVE. eval_lits. fold dquote. scan.
  reflexivity.
Qed.

Lemma file_change_is_file_change :
  found (strstr (file_change_msg file) TYPE_FILE_CHANGE) = true.
Proof.
  unfold file_change_msg, TYPE_FILE_CHANGE. eval_lits. scan.
  rewrite strstr_here by reflexivity. reflexivity.
Qed.

Lemma file_change_file_key :
  strstr (file_change_msg file) KEY_FILE
  = Some (KEY_FILE ++ file ++ lit "'}").
Proof.
  unfold file_change_msg, KEY_FILE. eval_lits. scan.
  now rewrite strstr_here by reflexivity.
Qed.

Lemma dispatch_file_change (clients : list Client) (client : Client) :
  Z.of_nat (length file) < 256 ->
  dispatch clients client (file_change_msg file)
  = Ret (set_current_file client file, own_lock client).
Proof.
  intros Hlen. unfold dispatch.
  rewrite file_change_not_join, file_change_not_content_change,
    file_change_not_cursor_move. cbn [found].
  rewrite file_change_is_file_change.
  unfold on_file_change. rewrite file_change_file_key.
  unfold KEY_FILE. cbn [app skipn]. eval_lits. fold dquote.
  rewrite strchr_value by assumption.
  rewrite span_value, store_fits by assumption.
  reflexivity.
Qed.

End FileChange.

(** The [file_change] branch, whatever the message: if it has a result,
    only the current file may differ and nothing is sent. *)
Lemma on_file_change_frame (client client' : Client) (message : list Z)
  (evs : list event) :
  on_file_change client message = Ret (client', evs) ->
  client' = set_current_file client (current_file client') /\ sends evs = [].
Proof.
  unfold on_file_change, bind. intros H.
  break_match_in H; inversion H; subst; clear H; split; try reflexivity.
  match goal with |- ?c = _ => now destruct c end.
Qed.

Lemma store_overrun (cap : Z) (s : list Z) :
  cap <= Z.of_nat (length s) -> store cap s = Undef.
Proof.
  intros H. unfold store, strlen.
  destruct (Z.ltb_spec (Z.of_nat (length s)) cap); [lia | reflexivity].
Qed.

Lemma kind_file_change (message : list Z) :
  kind_of message = KFileChange ->
  found (strstr message TYPE_JOIN) = false
  /\ found (strstr message TYPE_CONTENT_CHANGE) = false
  /\ found (strstr message TYPE_CURSOR_MOVE) = false
  /\ found (strstr message TYPE_FILE_CHANGE) = true.
Proof.
  unfold kind_of.
  destruct (found (strstr message TYPE_JOIN)); [discriminate|].
  destruct (found (strstr message TYPE_CONTENT_CHANGE)); [discriminate|].
  destruct (found (strstr message TYPE_CURSOR_MOVE)); [discriminate|].
  destruct (found (strstr message TYPE_FILE_CHANGE)); [auto | discriminate].
Qed.

(** The [file_change] branch on a message whose [file] key is followed by
    [file] and a double quote: the name goes into [current_file[256]]. *)
Lemma dispatch_file_change_value (clients : list Client) (client : Client)
  (message file post : list Z) :
  kind_of message = KFileChange ->
  strstr message KEY_FILE = Some (KEY_FILE ++ file ++ dquote :: post) ->
  no_quote file = true ->
  dispatch clients client message
  = (f <- store 256 file ;; Ret (set_current_file client f, own_lock client)).
Proof.
  intros Hkind Hkey Hplain.
  destruct (kind_file_change message Hkind) as (H1 & H2 & H3 & H4).
  unfold dispatch. rewrite H1, H2, H3, H4.
  unfold on_file_change. rewrite Hkey.
  unfold KEY_FILE. cbn [app skipn].
  rewrite strchr_value by assumption.
  now rewrite span_value.
Qed.

(** C8. Take a message of kind [file_change] in which the [file] key is
    followed by a name and the double quote that closes it. When the name
    has fewer than 256 bytes the handler processes the message to the end:
    the name is the client's current file, the client's socket, user name,
    cursor position, colour and [active] are what they were, the list of
    linked sockets is what it was, and nothing is sent. When the name has
    256 bytes or more, the copy into [current_file[256]] has no bound and
    runs past the end of the array, into the fields that follow it in the
    client: the turn has no defined result. *)
Theorem file_change_sets_the_file_or_overruns (clients : list Client)
  (client : Client) (message file post : list Z) :
  kind_of message = KFileChange ->
  strstr message KEY_FILE = Some (KEY_FILE ++ file ++ dquote :: post) ->
  no_quote file = true ->
  (Z.of_nat (length file) < 256 ->
   exists client',
     dispatch clients client message = Ret (client', own_lock client)
     /\ current_file client' = file
     /\ socket client' = socket client
     /\ username client' = username client
     /\ cursor_pos client' = cursor_pos client
     /\ color client' = color client
     /\ active client' = active client
     /\ sockets (store_back client' clients) = sockets clients
     /\ sends (own_lock client) = [])
  /\ (256 <= Z.of_nat (length file) ->
      dispatch clients client message = Undef).
Proof.
  intros Hkind Hkey Hplain.
  rewrite (dispatch_file_change_value clients client message file post)
    by assumption.
  split; intros Hlen.
  - rewrite store_fits by assumption. cbn [bind].
    exists (set_current_file client file).
    split; [reflexivity|]. repeat split. apply store_back_sockets.
  - now rewrite store_overrun.
Qed.

Lemma file_change_sets_the_file_or_overruns_witness :
  (exists client',
     dispatch [first_client] first_client (file_change_msg (lit "notes.md"))
     = Ret (client', own_lock first_client)
     /\ current_file client' = lit "notes.md"
     /\ username client' = lit "ann")
  /\ dispatch [first_client] first_client (file_change_msg (text_of_length 276))
     = Undef.
Proof.
  split.
  - destruct (file_change_sets_the_file_or_overruns [first_client] first_client
                (file_change_msg (lit "notes.md")) (lit "notes.md") (lit "}"))
      as [Hshort _].
    + reflexivity.
    + reflexivity.
    + reflexivity.
    + destruct Hshort as (client' & Hrun & Hfile & _ & Hname & _).
      * vm_compute. reflexivity.
      * exists client'. split; [exact Hrun|]. split; [exact Hfile | exact Hname].
  - apply (file_change_sets_the_file_or_overruns [first_client] first_client
             (file_change_msg (text_of_length 276)) (text_of_length 276) (lit "}")).
    + reflexivity.
    + reflexivity.
    + reflexivity.
    + vm_compute. discriminate.
Defined.

(** ** content_change *)

Lemma truncate_fits (cap : Z) (s : list Z) :
  Z.of_nat (length s) < cap -> truncate cap s = s.
Proof.
  intros H. unfold truncate. apply firstn_all2. lia.
Qed.

Lemma ws_frame_fits (message : list Z) :
  Z.of_nat (length message) <= 65532 -> exists frame, ws_frame message = Ret frame.
Proof.
  intros H. destruct (ws_frame_round_trip message H) as (frame & Hframe & _).
  now exists frame.
Qed.

Section ContentChange.

Variables uname fname content : list Z.
Hypothesis uname_plain : no_quote uname = true.
Hypothesis fname_plain : no_quote fname = true.
Hypothesis content_plain : no_quote content = true.

Ltac open_message :=
  unfold content_change_msg, tail_username, tail_file, tail_content;
  eval_lits; fold dquote.

Lemma content_change_not_join :
  strstr (content_change_msg uname fname content) TYPE_JOIN = None.
Proof. unfold TYPE_JOIN. open_message. scan. reflexivity. Qed.

Lemma content_change_is_content_change :
  found (strstr (content_change_msg uname fname content) TYPE_CONTENT_CHANGE) = true.
Proof.
  unfold TYPE_CONTENT_CHANGE. open_message. scan.
  rewrite strstr_here by reflexivity. reflexivity.
Qed.

Lemma content_change_username_key :
  strstr (content_change_msg uname fname content) KEY_USERNAME
  = Some (KEY_USERNAME ++ (tail_username uname fname content)).
Proof.
  unfold KEY_USERNAME. open_message. scan. now rewrite strstr_here by reflexivity.
Qed.

Lemma content_change_file_key :
  strstr (content_change_msg uname fname content) KEY_FILE
  = Some (KEY_FILE ++ (tail_file fname content)).
Proof.
  unfold KEY_FILE. open_message. scan. now rewrite strstr_here by reflexivity.
Qed.

Lemma content_change_content_key :
  strstr (content_change_msg uname fname content) KEY_CONTENT
  = Some (KEY_CONTENT ++ (tail_content content)).
Proof.
  unfold KEY_CONTENT. open_message. scan. now rewrite strstr_here by reflexivity.
Qed.

Lemma content_has_no_separator : strstr (tail_content content) SEP = None.
Proof. unfold SEP. open_message. scan. reflexivity. Qed.

Lemma content_ends_at_closer : strstr (tail_content content) CLOSER = Some (lit "'}").
Proof.
  unfold CLOSER. open_message. scan. now rewrite strstr_here by reflexivity.
Qed.

Lemma dispatch_content_change (clients : list Client) (client : Client) (frame : list Z) :
  Z.of_nat (length uname) < 64 ->
  Z.of_nat (length fname) < 256 ->
  ws_frame (content_update uname fname content) = Ret frame ->
  Z.of_nat (length (content_update uname fname content)) < BUFFER_SIZE ->
  dispatch clients client (content_change_msg uname fname content)
  = Ret (client, broadcast_trace (socket client) frame clients).
Proof.
  intros Hu Hf Hframe Hlen. unfold dispatch.
  rewrite content_change_not_join. cbn [found].
  rewrite content_change_is_content_change.
  unfold on_content_change.
  rewrite content_change_username_key, content_change_file_key,
    content_change_content_key.
  unfold KEY_USERNAME, KEY_FILE, KEY_CONTENT. cbn [app skipn].
  assert (Hup : strchr (tail_username uname fname content) dquote
                = Some (lit "','file':'" ++ (tail_file fname content))).
  { unfold tail_username. eval_lits. cbn [app]. fold dquote.
    now apply strchr_value. }
  assert (Hfp : strchr (tail_file fname content) dquote
                = Some (lit "','content':'" ++ (tail_content content))).
  { unfold tail_file. eval_lits. cbn [app]. fold dquote.
    now apply strchr_value. }
  rewrite Hup, Hfp.
  unfold tail_username at 1. rewrite span_value.
  unfold tail_file at 1. rewrite span_value.
  rewrite !store_fits by assumption. cbn [bind].
  rewrite content_has_no_separator, content_ends_at_closer.
  unfold tail_content at 1. rewrite span_value.
  assert (Hlen' : Z.of_nat
            (length (lit "{'type':'content_update','username':'" ++ uname
                       ++ lit "','file':'" ++ fname ++ lit "','content':'"))
          < BUFFER_SIZE).
  { unfold content_update in Hlen. rewrite !length_app in *. lia. }
  rewrite truncate_fits by exact Hlen'.
  replace ((lit "{'type':'content_update','username':'" ++ uname
              ++ lit "','file':'" ++ fname ++ lit "','content':'")
             ++ content ++ lit "'}")
    with (content_update uname fname content)
    by (unfold content_update; now rewrite <- !app_assoc).
  rewrite store_fits by exact Hlen. cbn [bind].
  rewrite (broadcast_message_framed _ _ _ frame Hframe). reflexivity.
Qed.

End ContentChange.

(** A [content_change] message in the form the editor page sends it,
    with values that hold no double quote: relayed with the same user
    name, file name and content. *)
Lemma content_change_without_quotes_is_relayed (clients : list Client)
  (client : Client) (uname fname content : list Z) :
  no_quote uname = true ->
  no_quote fname = true ->
  no_quote content = true ->
  Z.of_nat (length uname) < 64 ->
  Z.of_nat (length fname) < 256 ->
  Z.of_nat (length (content_update uname fname content)) <= 65532 ->
  Forall (fun c => active c <> 0) clients ->
  exists frame evs,
    ws_frame (content_update uname fname content) = Ret frame
    /\ ws_read_frame frame = Ret (Some (content_update uname fname content))
    /\ dispatch clients client (content_change_msg uname fname content)
       = Ret (client, evs)
    /\ sends evs
       = map (fun d => (socket d, frame))
           (filter (fun d => negb (socket d =? socket client)) clients)
    /\ sent_to (socket client) evs = []
    /\ (NoDup (sockets clients) ->
        forall d, In d clients ->
          sent_to (socket d) evs
          = if socket d =? socket client then [] else [frame]).
Proof.
  intros Hu Hf Hc Hulen Hflen Hlen Hactive.
  destruct (ws_frame_round_trip _ Hlen) as (frame & Hframe & Hback).
  exists frame, (broadcast_trace (socket client) frame clients).
  split; [exact Hframe|]. split; [exact Hback|]. split.
  { apply dispatch_content_change; try assumption. unfold BUFFER_SIZE. lia. }
  split; [now apply broadcast_trace_sends|].
  split; [now apply broadcast_trace_not_to_sender|].
  intros Hnd d Hin. now apply broadcast_trace_once_each.
Qed.

Lemma kind_content_change (message : list Z) :
  kind_of message = KContentChange ->
  found (strstr message TYPE_JOIN) = false
  /\ found (strstr message TYPE_CONTENT_CHANGE) = true.
Proof.
  unfold kind_of.
  destruct (found (strstr message TYPE_JOIN)); [discriminate|].
  destruct (found (strstr message TYPE_CONTENT_CHANGE)); [auto|].
  destruct (found (strstr message TYPE_CURSOR_MOVE)); [discriminate|].
  destruct (found (strstr message TYPE_FILE_CHANGE)); discriminate.
Qed.

(** The [content_change] branch on a message whose [username] and [file]
    keys are each followed by a value and its closing double quote, and
    whose [content] key is followed by [sent ++ rest], where [rest] is
    where the handler ends the content: at the first quote-comma-quote
    ([SEP]), and without one at the first quote-brace ([CLOSER]). *)
Lemma dispatch_content_change_value (clients : list Client) (client : Client)
  (message uname fname post_u post_f sent rest frame : list Z) :
  kind_of message = KContentChange ->
  strstr message KEY_USERNAME = Some (KEY_USERNAME ++ uname ++ dquote :: post_u) ->
  strstr message KEY_FILE = Some (KEY_FILE ++ fname ++ dquote :: post_f) ->
  strstr message KEY_CONTENT = Some (KEY_CONTENT ++ sent ++ rest) ->
  (strstr (sent ++ rest) SEP = Some rest
   \/ (strstr (sent ++ rest) SEP = None
       /\ strstr (sent ++ rest) CLOSER = Some rest)) ->
  no_quote uname = true ->
  no_quote fname = true ->
  Z.of_nat (length uname) < 64 ->
  Z.of_nat (length fname) < 256 ->
  Z.of_nat (length (content_update uname fname sent)) < BUFFER_SIZE ->
  ws_frame (content_update uname fname sent) = Ret frame ->
  dispatch clients client message
  = Ret (client, broadcast_trace (socket client) frame clients).
Proof.
  intros Hkind Hukey Hfkey Hckey Hend Hu Hf Hulen Hflen Hlen Hframe.
  destruct (kind_content_change message Hkind) as [H1 H2].
  unfold dispatch. rewrite H1, H2.
  unfold on_content_change. rewrite Hukey, Hfkey, Hckey.
  unfold KEY_USERNAME, KEY_FILE, KEY_CONTENT. cbn [app skipn].
  rewrite !strchr_value by assumption.
  rewrite !span_value, !store_fits by assumption. cbn [bind].
  assert (Hcend : match strstr (sent ++ rest) SEP with
                  | Some e => Some e
                  | None => strstr (sent ++ rest) CLOSER
                  end = Some rest).
  { destruct Hend as [Hsep|[Hsep Hclo]]; rewrite Hsep; [reflexivity | exact Hclo]. }
  rewrite Hcend, span_value.
  assert (Hlen' : Z.of_nat
            (length (lit "{'type':'content_update','username':'" ++ uname
                       ++ lit "','file':'" ++ fname ++ lit "','content':'"))
          < BUFFER_SIZE).
  { unfold content_update in Hlen. rewrite !length_app in *. lia. }
  rewrite truncate_fits by exact Hlen'.
  replace ((lit "{'type':'content_update','username':'" ++ uname
              ++ lit "','file':'" ++ fname ++ lit "','content':'")
             ++ sent ++ lit "'}")
    with (content_update uname fname sent)
    by (unfold content_update; now rewrite <- !app_assoc).
  rewrite store_fits by exact Hlen. cbn [bind].
  rewrite (broadcast_message_framed _ _ _ frame Hframe). reflexivity.
Qed.

(** C6. Take a message of kind [content_change] in which the [username]
    and [file] keys are each followed by a name (under 64 and under 256
    bytes) and the double quote that closes it. The handler knows nothing
    of JSON escapes: it ends the content at the first quote-comma-quote
    ([SEP]) of what follows the [content] key, and without one at the
    first quote-brace ([CLOSER]). What
    stands before that place, [sent], is what it relays: it sends the frame
    of the [content_update] message carrying the two names and [sent] once
    to each linked client on another socket, in list order, and nothing to
    the sender, and leaves the client unchanged. So a content is relayed
    whole only when its text as sent holds neither of the two sequences;
    one that holds an escaped double quote before a closing brace, or
    before a comma and a quote, is relayed cut short. *)
Theorem content_change_is_relayed_up_to_the_first_closer (clients : list Client)
  (client : Client) (message uname fname post_u post_f sent rest : list Z) :
  kind_of message = KContentChange ->
  strstr message KEY_USERNAME = Some (KEY_USERNAME ++ uname ++ dquote :: post_u) ->
  strstr message KEY_FILE = Some (KEY_FILE ++ fname ++ dquote :: post_f) ->
  strstr message KEY_CONTENT = Some (KEY_CONTENT ++ sent ++ rest) ->
  (strstr (sent ++ rest) SEP = Some rest
   \/ (strstr (sent ++ rest) SEP = None
       /\ strstr (sent ++ rest) CLOSER = Some rest)) ->
  no_quote uname = true ->
  no_quote fname = true ->
  Z.of_nat (length uname) < 64 ->
  Z.of_nat (length fname) < 256 ->
  Z.of_nat (length (content_update uname fname sent)) <= 65532 ->
  Forall (fun c => active c <> 0) clients ->
  exists frame evs,
    ws_frame (content_update uname fname sent) = Ret frame
    /\ ws_read_frame frame = Ret (Some (content_update uname fname sent))
    /\ dispatch clients client message = Ret (client, evs)
    /\ sends evs
       = map (fun d => (socket d, frame))
           (filter (fun d => negb (socket d =? socket client)) clients)
    /\ sent_to (socket client) evs = []
    /\ (NoDup (sockets clients) ->
        forall d, In d clients ->
          sent_to (socket d) evs
          = if socket d =? socket client then [] else [frame]).
Proof.
  intros Hkind Hukey Hfkey Hckey Hend Hu Hf Hulen Hflen Hlen Hactive.
  destruct (ws_frame_round_trip _ Hlen) as (frame & Hframe & Hback).
  exists frame, (broadcast_trace (socket client) frame clients).
  split; [exact Hframe|]. split; [exact Hback|]. split.
  { apply (dispatch_content_change_value clients client message uname fname
             post_u post_f sent rest frame); try assumption.
    unfold BUFFER_SIZE. lia. }
  split; [now apply broadcast_trace_sends|].
  split; [now apply broadcast_trace_not_to_sender|].
  intros Hnd d Hin. now apply broadcast_trace_once_each.
Qed.

(** The content x, double quote, closing brace, y goes out JSON-escaped
    as x, backslash, double quote, closing brace, y; what is relayed
    carries x and the backslash only. *)
Lemma content_change_is_relayed_up_to_the_first_closer_witness :
  exists frame evs,
    dispatch three_clients (some_client 5)
      (content_change_msg (lit "A") (lit "notes.md") (lit "x\'}y"))
    = Ret (some_client 5, evs)
    /\ ws_read_frame frame
       = Ret (Some (content_update (lit "A") (lit "notes.md") (lit "x\")))
    /\ sends evs = [(9, frame); (7, frame)].
Proof.
  destruct (content_change_is_relayed_up_to_the_first_closer three_clients
              (some_client 5)
              (content_change_msg (lit "A") (lit "notes.md") (lit "x\'}y"))
              (lit "A") (lit "notes.md")
              (lit ",'file':'notes.md','content':'x\'}y'}")
              (lit ",'content':'x\'}y'}")
              (lit "x\") (lit "'}y'}"))
    as (frame & evs & _ & Hback & Hrun & Hsends & _).
  - reflexivity.
  - reflexivity.
  - reflexivity.
  - reflexivity.
  - right. split; reflexivity.
  - reflexivity.
  - reflexivity.
  - vm_compute. reflexivity.
  - vm_compute. reflexivity.
  - vm_compute. discriminate.
  - repeat constructor; vm_compute; discriminate.
  - exists frame, evs. split; [exact Hrun|]. split; [exact Hback | exact Hsends].
Defined.

(** The same content, set beside what a whole relay would have sent. *)
Lemma content_change_with_escaped_quote_is_cut :
  let content := lit "x\'}y" in
  exists evs frame sent,
    dispatch three_clients (some_client 5)
      (content_change_msg (lit "A") (lit "notes.md") content)
    = Ret (some_client 5, evs)
    /\ ws_frame (content_update (lit "A") (lit "notes.md") content) = Ret frame
    /\ sends evs = [(9, sent); (7, sent)]
    /\ ws_read_frame sent
       = Ret (Some (content_update (lit "A") (lit "notes.md") (lit "x\")))
    /\ sent <> frame.
Proof.
  cbv zeta. do 3 eexists.
  split; [vm_compute; reflexivity|].
  split; [vm_compute; reflexivity|].
  split; [reflexivity|].
  split; [vm_compute; reflexivity|].
  intros H. discriminate H.
Qed.

(** Escaped double quotes that neither a closing brace nor a comma and a
    quote follow do no harm: the content is relayed as it came. *)
Lemma content_change_with_escaped_quotes_is_relayed :
  let content := lit "say \'hi\' now" in
  exists evs frame,
    dispatch three_clients (some_client 5)
      (content_change_msg (lit "A") (lit "notes.md") content)
    = Ret (some_client 5, evs)
    /\ ws_frame (content_update (lit "A") (lit "notes.md") content) = Ret frame
    /\ sends evs = [(9, frame); (7, frame)].
Proof.
  cbv zeta. do 2 eexists.
  split; [vm_compute; reflexivity|].
  split; [vm_compute; reflexivity|].
  reflexivity.
Qed.

(** The order of the keys does not matter to the handler: with the
    content first, it ends at the quote-comma-quote before the next key. *)
Lemma content_change_with_content_first_is_relayed :
  let message :=
    lit "{'content':'hi','type':'content_change','username':'A','file':'notes.md'}" in
  exists evs frame,
    dispatch three_clients (some_client 5) message = Ret (some_client 5, evs)
    /\ ws_frame (content_update (lit "A") (lit "notes.md") (lit "hi")) = Ret frame
    /\ sends evs = [(9, frame); (7, frame)].
Proof.
  cbv zeta. do 2 eexists.
  split; [vm_compute; reflexivity|].
  split; [vm_compute; reflexivity|].
  reflexivity.
Qed.

(** The type test is a search for the bytes of ['type':'content_change']:
    the same message written with a space after each colon is of no kind
    the handler knows, and nothing is relayed. *)
Lemma content_change_with_spaces_is_not_relayed :
  let message :=
    lit "{'type': 'content_change', 'username': 'A', 'file': 'notes.md', 'content': 'hi'}" in
  kind_of message = KOther
  /\ dispatch three_clients (some_client 5) message = Ret (some_client 5, []).
Proof. cbv zeta. split; vm_compute; reflexivity. Qed.

(** ** Base64 *)

Lemma list_ind3 (A : Type) (P : list A -> Prop) :
  P [] -> (forall a, P [a]) -> (forall a b, P [a; b]) ->
  (forall a b c rest, P rest -> P (a :: b :: c :: rest)) ->
  forall l, P l.
Proof.
  intros H0 H1 H2 H3 l.
  assert (H : P l /\ (forall a, P (a :: l)) /\ (forall a b, P (a :: b :: l))).
  { induction l as [|x l (IH0 & IH1 & IH2)].
    - auto.
    - split; [apply IH1|]. split; [intros a; apply IH2|].
      intros a b. now apply H3. }
  apply H.
Qed.

Lemma base64_encode_length (input : list Z) :
  Z.of_nat (length (base64_encode input)) = 4 * ((Z.of_nat (length input) + 2) / 3).
Proof.
  induction input as [|a|a b|a b c rest IH] using list_ind3; try reflexivity.
  cbn [base64_encode length]. rewrite !Nat2Z.inj_succ, IH.
  replace (Z.succ (Z.succ (Z.succ (Z.of_nat (length rest)))) + 2)
    with ((Z.of_nat (length rest) + 2) + 1 * 3) by lia.
  rewrite Z.div_add by lia. lia.
Qed.

Lemma in_bytes256 (b : Z) : is_byte b = true -> In b bytes256.
Proof.
  unfold is_byte. intros H. apply andb_prop in H. destruct H as [H0 H1].
  apply Z.leb_le in H0. apply Z.ltb_lt in H1.
  change bytes256 with (map Z.of_nat (seq 0 256)).
  apply in_map_iff. exists (Z.to_nat b). split; [lia|].
  apply in_seq. lia.
Qed.

Lemma forall_bytes (P : Z -> bool) :
  forallb P bytes256 = true -> forall b, is_byte b = true -> P b = true.
Proof.
  intros H b Hb. rewrite forallb_forall in H. now apply H, in_bytes256.
Qed.

Lemma forall_bytes2 (P : Z -> Z -> bool) :
  forallb (fun a => forallb (P a) bytes256) bytes256 = true ->
  forall a b, is_byte a = true -> is_byte b = true -> P a b = true.
Proof.
  intros H a b Ha Hb.
  apply (forall_bytes (fun a => forallb (P a) bytes256) H) in Ha.
  now apply (forall_bytes (P a) Ha).
Qed.

(** The sextets of the encoder, read back through the alphabet: checked
    on every byte, or pair of bytes, they are computed from. *)

Lemma first_byte_back (a b : Z) :
  is_byte a = true -> is_byte b = true ->
  Z.lor (Z.shiftl (s1 a) 2) (Z.shiftr (s2 a b) 4) = a.
Proof.
  intros Ha Hb. apply Z.eqb_eq.
  apply (forall_bytes2
           (fun a b => Z.lor (Z.shiftl (s1 a) 2) (Z.shiftr (s2 a b) 4) =? a));
    [vm_compute; reflexivity | assumption | assumption].
Qed.

Lemma second_high_back (a b : Z) :
  is_byte a = true -> is_byte b = true -> Z.land (s2 a b) 15 = Z.shiftr b 4.
Proof.
  intros Ha Hb. apply Z.eqb_eq.
  apply (forall_bytes2 (fun a b => Z.land (s2 a b) 15 =? Z.shiftr b 4));
    [vm_compute; reflexivity | assumption | assumption].
Qed.

Lemma second_low_back (b c : Z) :
  is_byte b = true -> is_byte c = true -> Z.shiftr (s3 b c) 2 = Z.land b 15.
Proof.
  intros Hb Hc. apply Z.eqb_eq.
  apply (forall_bytes2 (fun b c => Z.shiftr (s3 b c) 2 =? Z.land b 15));
    [vm_compute; reflexivity | assumption | assumption].
Qed.

Lemma third_high_back (b c : Z) :
  is_byte b = true -> is_byte c = true -> Z.land (s3 b c) 3 = Z.shiftr c 6.
Proof.
  intros Hb Hc. apply Z.eqb_eq.
  apply (forall_bytes2 (fun b c => Z.land (s3 b c) 3 =? Z.shiftr c 6));
    [vm_compute; reflexivity | assumption | assumption].
Qed.

Lemma nibbles_back (b : Z) :
  is_byte b = true -> Z.lor (Z.shiftl (Z.shiftr b 4) 4) (Z.land b 15) = b.
Proof.
  intros Hb. apply Z.eqb_eq.
  apply (forall_bytes
           (fun b => Z.lor (Z.shiftl (Z.shiftr b 4) 4) (Z.land b 15) =? b));
    [vm_compute; reflexivity | assumption].
Qed.

Lemma third_byte_back (c : Z) :
  is_byte c = true -> Z.lor (Z.shiftl (Z.shiftr c 6) 6) (s4 c) = c.
Proof.
  intros Hc. apply Z.eqb_eq.
  apply (forall_bytes (fun c => Z.lor (Z.shiftl (Z.shiftr c 6) 6) (s4 c) =? c));
    [vm_compute; reflexivity | assumption].
Qed.

Lemma fourth_char_not_pad (c : Z) :
  is_byte c = true -> (b64_at (Z.land c 63) =? pad) = false.
Proof.
  intros Hc.
  apply (forall_bytes (fun c => negb (b64_at (Z.land c 63) =? pad))) in Hc;
    [now apply negb_true_iff in Hc | vm_compute; reflexivity].
Qed.

Lemma one_byte_back (a : Z) :
  is_byte a = true ->
  Z.lor (Z.shiftl (s1 a) 2)
    (Z.shiftr (b64_index (b64_at (Z.shiftl (Z.land a 3) 4))) 4) = a.
Proof.
  intros Ha. apply Z.eqb_eq.
  apply (forall_bytes
           (fun a => Z.lor (Z.shiftl (s1 a) 2)
                       (Z.shiftr (b64_index (b64_at (Z.shiftl (Z.land a 3) 4))) 4)
                     =? a));
    [vm_compute; reflexivity | assumption].
Qed.

Lemma two_bytes_back (a b : Z) :
  is_byte a = true -> is_byte b = true ->
  Z.lor (Z.shiftl (Z.land (s2 a b) 15) 4)
    (Z.shiftr (b64_index (b64_at (Z.shiftl (Z.land b 15) 2))) 2) = b
  /\ (b64_at (Z.shiftl (Z.land b 15) 2) =? pad) = false.
Proof.
  intros Ha Hb.
  assert (H : (Z.lor (Z.shiftl (Z.land (s2 a b) 15) 4)
                 (Z.shiftr (b64_index (b64_at (Z.shiftl (Z.land b 15) 2))) 2) =? b)
              && negb (b64_at (Z.shiftl (Z.land b 15) 2) =? pad) = true).
  { apply (forall_bytes2
             (fun a b =>
                (Z.lor (Z.shiftl (Z.land (s2 a b) 15) 4)
                   (Z.shiftr (b64_index (b64_at (Z.shiftl (Z.land b 15) 2))) 2) =? b)
                && negb (b64_at (Z.shiftl (Z.land b 15) 2) =? pad)));
      [vm_compute; reflexivity | assumption | assumption]. }
  apply andb_prop in H. destruct H as [H1 H2].
  split; [now apply Z.eqb_eq | now apply negb_true_iff].
Qed.

Lemma base64_decode_encode (input : list Z) :
  forallb is_byte input = true ->
  base64_decode (base64_encode input) = Some input.
Proof.
  induction input as [|a|a b|a b c rest IH] using list_ind3; intros Hbytes.
  - reflexivity.
  - cbn [forallb] in Hbytes. apply andb_prop in Hbytes. destruct Hbytes as [Ha _].
    cbn [base64_encode base64_decode]. change (pad =? pad) with true. cbv iota.
    fold (s1 a). now rewrite one_byte_back.
  - cbn [forallb] in Hbytes. apply andb_prop in Hbytes. destruct Hbytes as [Ha Hb].
    apply andb_prop in Hb. destruct Hb as [Hb _].
    cbn [base64_encode base64_decode]. change (pad =? pad) with true. cbv iota.
    fold (s1 a) (s2 a b).
    destruct (two_bytes_back a b Ha Hb) as [H2 Hnp]. rewrite Hnp, H2.
    now rewrite first_byte_back.
  - cbn [forallb] in Hbytes. apply andb_prop in Hbytes. destruct Hbytes as [Ha Hb].
    apply andb_prop in Hb. destruct Hb as [Hb Hc].
    apply andb_prop in Hc. destruct Hc as [Hc Hrest].
    cbn [base64_encode base64_decode].
    rewrite fourth_char_not_pad by assumption. rewrite (IH Hrest).
    fold (s1 a) (s2 a b) (s3 b c) (s4 c).
    rewrite first_byte_back, second_high_back, second_low_back,
      third_high_back, nibbles_back, third_byte_back by assumption.
    reflexivity.
Qed.

(** X1. [base64_encode] loses nothing: two byte strings with the same
    encoding are the same string. *)
Theorem base64_encode_injective (x y : list Z) :
  forallb is_byte x = true ->
  forallb is_byte y = true ->
  base64_encode x = base64_encode y ->
  x = y.
Proof.
  intros Hx Hy H.
  apply base64_decode_encode in Hx. apply base64_decode_encode in Hy.
  rewrite H in Hx. congruence.
Qed.

Lemma in_alphabet_12 (a b : Z) :
  is_byte a = true -> is_byte b = true ->
  in_alphabet (b64_at (Z.land (Z.shiftr a 2) 63))
  && in_alphabet (b64_at (Z.lor (Z.shiftl (Z.land a 3) 4) (Z.shiftr (Z.land b 240) 4)))
  && in_alphabet (b64_at (Z.shiftl (Z.land a 3) 4)) = true.
Proof.
  apply (forall_bytes2
           (fun a b =>
              in_alphabet (b64_at (Z.land (Z.shiftr a 2) 63))
              && in_alphabet (b64_at (Z.lor (Z.shiftl (Z.land a 3) 4)
                                        (Z.shiftr (Z.land b 240) 4)))
              && in_alphabet (b64_at (Z.shiftl (Z.land a 3) 4)))).
  vm_compute. reflexivity.
Qed.

Lemma in_alphabet_34 (b c : Z) :
  is_byte b = true -> is_byte c = true ->
  in_alphabet (b64_at (Z.lor (Z.shiftl (Z.land b 15) 2) (Z.shiftr (Z.land c 192) 6)))
  && in_alphabet (b64_at (Z.land c 63))
  && in_alphabet (b64_at (Z.shiftl (Z.land b 15) 2)) = true.
Proof.
  apply (forall_bytes2
           (fun b c =>
              in_alphabet (b64_at (Z.lor (Z.shiftl (Z.land b 15) 2)
                                     (Z.shiftr (Z.land c 192) 6)))
              && in_alphabet (b64_at (Z.land c 63))
              && in_alphabet (b64_at (Z.shiftl (Z.land b 15) 2)))).
  vm_compute. reflexivity.
Qed.

Lemma pads_add3 (n : nat) : pads (3 + n) = pads n.
Proof.
  unfold pads.
  replace ((3 + n) mod 3)%nat with (n mod 3)%nat; [reflexivity|].
  replace (3 + n)%nat with (n + 1 * 3)%nat by lia.
  now rewrite Nat.Div0.mod_add.
Qed.

Lemma base64_encode_body (input : list Z) :
  forallb is_byte input = true ->
  exists body,
    base64_encode input = body ++ repeat pad (pads (length input))
    /\ forallb in_alphabet body = true.
Proof.
  intros Hbytes.
  induction input as [|a|a b|a b c rest IH] using list_ind3.
  - exists []. split; reflexivity.
  - cbn [forallb] in Hbytes. apply andb_prop in Hbytes. destruct Hbytes as [Ha _].
    pose proof (in_alphabet_12 a a Ha Ha) as H.
    apply andb_prop in H. destruct H as [H H3].
    apply andb_prop in H. destruct H as [H1 _].
    eexists [_; _]. split; [reflexivity|].
    cbn [forallb]. now rewrite H1, H3.
  - cbn [forallb] in Hbytes. apply andb_prop in Hbytes. destruct Hbytes as [Ha Hb].
    apply andb_prop in Hb. destruct Hb as [Hb _].
    pose proof (in_alphabet_12 a b Ha Hb) as H.
    apply andb_prop in H. destruct H as [H _].
    apply andb_prop in H. destruct H as [H1 H2].
    pose proof (in_alphabet_34 b b Hb Hb) as H.
    apply andb_prop in H. destruct H as [_ H3].
    eexists [_; _; _]. split; [reflexivity|].
    cbn [forallb]. now rewrite H1, H2, H3.
  - cbn [forallb] in Hbytes. apply andb_prop in Hbytes. destruct Hbytes as [Ha Hb].
    apply andb_prop in Hb. destruct Hb as [Hb Hc].
    apply andb_prop in Hc. destruct Hc as [Hc Hrest].
    destruct (IH Hrest) as (body & Hbody & Halpha).
    pose proof (in_alphabet_12 a b Ha Hb) as H.
    apply andb_prop in H. destruct H as [H _].
    apply andb_prop in H. destruct H as [H1 H2].
    pose proof (in_alphabet_34 b c Hb Hc) as H.
    apply andb_prop in H. destruct H as [H _].
    apply andb_prop in H. destruct H as [H3 H4].
    eexists (_ :: _ :: _ :: _ :: body). split.
    + cbn [base64_encode]. rewrite Hbody.
      change (length (a :: b :: c :: rest)) with (3 + length rest)%nat.
      rewrite pads_add3. reflexivity.
    + cbn [forallb]. now rewrite H1, H2, H3, H4.
Qed.

(** X2. The encoding of [n] bytes is characters of the alphabet followed
    by [pads n] signs [=], four characters for every three bytes begun. *)
Theorem base64_encode_shape (input : list Z) :
  forallb is_byte input = true ->
  exists body,
    base64_encode input = body ++ repeat pad (pads (length input))
    /\ forallb in_alphabet body = true
    /\ Z.of_nat (length (base64_encode input))
       = 4 * ((Z.of_nat (length input) + 2) / 3).
Proof.
  intros Hbytes. destruct (base64_encode_body input Hbytes) as (body & H1 & H2).
  exists body. split; [assumption|]. split; [assumption | apply base64_encode_length].
Qed.

Lemma base64_encode_shape_witness :
  exists body,
    base64_encode (lit "hello") = body ++ [pad]
    /\ forallb in_alphabet body = true.
Proof.
  destruct (base64_encode_shape (lit "hello")) as (body & H1 & H2 & _).
  - reflexivity.
  - exists body. split; [exact H1 | exact H2].
Defined.

Lemma base64_encode_injective_witness : lit "ab" = [97; 98].
Proof.
  apply (base64_encode_injective (lit "ab") [97; 98]); reflexivity.
Defined.

(** ** The opening handshake *)

Lemma cstring_no_nul (s : list Z) : no_nul s = true -> cstring s = s.
Proof.
  induction s as [|b s IH]; [reflexivity|].
  cbn [no_nul forallb cstring]. intros H. apply andb_prop in H. destruct H as [Hb Hs].
  apply negb_true_iff in Hb. rewrite Hb. f_equal. now apply IH.
Qed.

Lemma no_nul_app (s t : list Z) : no_nul (s ++ t) = no_nul s && no_nul t.
Proof. apply forallb_app. Qed.

Lemma in_alphabet_no_nul (c : Z) : in_alphabet c = true -> negb (c =? 0) = true.
Proof.
  intros H. destruct (Z.eqb_spec c 0) as [->|]; [|reflexivity].
  vm_compute in H. discriminate.
Qed.

Lemma base64_no_nul (input : list Z) :
  forallb is_byte input = true -> no_nul (base64_encode input) = true.
Proof.
  intros Hbytes. destruct (base64_encode_body input Hbytes) as (body & H & Halpha).
  rewrite H. clear H. rewrite no_nul_app. apply andb_true_intro. split.
  - unfold no_nul. rewrite forallb_forall in *. intros c Hc.
    now apply in_alphabet_no_nul, Halpha.
  - unfold no_nul. rewrite forallb_forall. intros c Hc.
    apply repeat_spec in Hc. now subst.
Qed.

Section Handshake.

Variable SHA1 : list Z -> list Z.
Hypothesis digest_length : forall m, length (SHA1 m) = 20%nat.
Hypothesis digest_bytes : forall m, forallb is_byte (SHA1 m) = true.

Lemma token_length (m : list Z) : length (base64_encode (SHA1 m)) = 28%nat.
Proof.
  pose proof (base64_encode_length (SHA1 m)) as H.
  rewrite digest_length in H. change (4 * ((Z.of_nat 20 + 2) / 3)) with 28 in H. lia.
Qed.

Lemma ws_handshake_whole (key : list Z) :
  Z.of_nat (length key) < 220 ->
  ws_handshake SHA1 key
  = Ret (RESPONSE_HEAD ++ base64_encode (SHA1 (key ++ GUID)) ++ crlf ++ crlf).
Proof.
  intros Hkey. unfold ws_handshake.
  rewrite truncate_fits
    by (rewrite length_app; change (length GUID) with 36%nat; lia).
  rewrite store_fits by (rewrite token_length; lia). cbn [bind].
  rewrite truncate_fits; [reflexivity|].
  rewrite !length_app, token_length.
  change (length RESPONSE_HEAD) with 97%nat. cbn [length crlf]. lia.
Qed.

Lemma response_no_nul (m : list Z) :
  no_nul (RESPONSE_HEAD ++ base64_encode (SHA1 m) ++ crlf ++ crlf) = true.
Proof.
  rewrite !no_nul_app, base64_no_nul by apply digest_bytes. reflexivity.
Qed.

End Handshake.

(** X3. For a key of fewer than 220 bytes, [ws_handshake] returns the
    101 response whole: the fixed header lines, the accept token, which is
    the Base64 encoding of the digest of the key followed by the GUID, and
    the closing blank line. The token is 28 characters, the last one its
    only [=]; the response is 129 bytes and holds no NUL, so all of it is
    sent. *)
Theorem ws_handshake_response (SHA1 : list Z -> list Z) (key : list Z) :
  (forall m, length (SHA1 m) = 20%nat) ->
  (forall m, forallb is_byte (SHA1 m) = true) ->
  Z.of_nat (length key) < 220 ->
  exists body response,
    ws_handshake SHA1 key = Ret response
    /\ response = RESPONSE_HEAD ++ base64_encode (SHA1 (key ++ GUID)) ++ crlf ++ crlf
    /\ base64_encode (SHA1 (key ++ GUID)) = body ++ [pad]
    /\ length body = 27%nat
    /\ forallb in_alphabet body = true
    /\ length response = 129%nat
    /\ cstring response = response.
Proof.
  intros Hlen Hbytes Hkey.
  destruct (base64_encode_body (SHA1 (key ++ GUID)) (Hbytes _)) as (body & Hbody & Halpha).
  rewrite Hlen in Hbody. change (repeat pad (pads 20)) with [pad] in Hbody.
  pose proof (token_length SHA1 Hlen (key ++ GUID)) as Htok.
  exists body, (RESPONSE_HEAD ++ base64_encode (SHA1 (key ++ GUID)) ++ crlf ++ crlf).
  split; [now apply ws_handshake_whole|]. split; [reflexivity|].
  split; [exact Hbody|]. split.
  { rewrite Hbody, length_app in Htok. cbn [length] in Htok. lia. }
  split; [exact Halpha|]. split.
  { rewrite !length_app, Htok. reflexivity. }
  apply cstring_no_nul. now apply response_no_nul.
Qed.

Lemma sample_digest_length (m : list Z) : length (sample_digest m) = 20%nat.
Proof. apply repeat_length. Qed.

Lemma sample_digest_bytes (m : list Z) : forallb is_byte (sample_digest m) = true.
Proof.
  unfold sample_digest. apply forallb_forall. intros b Hb.
  apply repeat_spec in Hb. subst b. unfold is_byte.
  pose proof (Z.mod_pos_bound (strlen m) 256 ltac:(lia)) as H.
  apply andb_true_intro. split; [apply Z.leb_le | apply Z.ltb_lt]; lia.
Qed.

Lemma ws_handshake_response_witness :
  exists response,
    ws_handshake sample_digest (lit "dGhlIHNhbXBsZSBub25jZQ==") = Ret response
    /\ length response = 129%nat.
Proof.
  destruct (ws_handshake_response sample_digest (lit "dGhlIHNhbXBsZSBub25jZQ=="))
    as (body & response & H1 & _ & _ & _ & _ & H6 & _).
  - exact sample_digest_length.
  - exact sample_digest_bytes.
  - vm_compute. reflexivity.
  - exists response. split; [exact H1 | exact H6].
Defined.

(** A connection whose first bytes hold no [Sec-WebSocket-Key: ]
    header, or that delivers no bytes, is closed: nothing is sent and the
    client list is left as it was. *)
Lemma websocket_accept_without_key (SHA1 : list Z -> list Z)
  (client_socket : Z) (received : list Z) (r_name r_color : Z)
  (clients : list Client) :
  received = [] \/ strstr (cstring received) KEY_HEADER = None ->
  exists evs,
    websocket_accept SHA1 client_socket received r_name r_color clients
    = Ret (clients, evs)
    /\ sends evs = []
    /\ evs = [EvClose client_socket].
Proof.
  intros H. exists [EvClose client_socket]. split; [|split; reflexivity].
  unfold websocket_accept. destruct H as [->|H]; [reflexivity|].
  rewrite H. now destruct (Z.of_nat (length received) <=? 0).
Qed.

Lemma websocket_accept_without_key_witness :
  exists evs,
    websocket_accept sample_digest 7 (lit "GET / HTTP/1.1" ++ crlf ++ crlf) 1 2
      three_clients = Ret (three_clients, evs)
    /\ sends evs = [].
Proof.
  destruct (websocket_accept_without_key sample_digest 7
              (lit "GET / HTTP/1.1" ++ crlf ++ crlf) 1 2 three_clients)
    as (evs & H1 & H2 & _).
  - right. reflexivity.
  - exists evs. split; [exact H1 | exact H2].
Defined.

(** X4. When the first bytes of a connection hold the key header and the
    key line after it has between 1 and 63 bytes, the whole 101 response
    for that key is sent on the socket and one client is linked at the head
    of the list: on that socket, named [User] and a number below 10000,
    with no file, cursor 0, a colour of the palette and [active = 1]. The
    clients already linked are untouched. *)
Theorem websocket_accept_links_client (SHA1 : list Z -> list Z)
  (client_socket : Z) (received p key : list Z) (r_name r_color : Z)
  (clients : list Client) :
  (forall m, length (SHA1 m) = 20%nat) ->
  (forall m, forallb is_byte (SHA1 m) = true) ->
  0 <= r_name -> 0 <= r_color ->
  strstr (cstring received) KEY_HEADER = Some p ->
  scan_line (skipn 19 p) = key ->
  key <> [] ->
  Z.of_nat (length key) < 64 ->
  exists client,
    websocket_accept SHA1 client_socket received r_name r_color clients
    = Ret (client :: clients,
           [EvSend client_socket
              (RESPONSE_HEAD ++ base64_encode (SHA1 (key ++ GUID)) ++ crlf ++ crlf);
            EvLock ClientsMutex; EvUnlock ClientsMutex])
    /\ socket client = client_socket
    /\ username client = lit "User" ++ fmt_int (r_name mod 10000)
    /\ 0 <= r_name mod 10000 < 10000
    /\ current_file client = []
    /\ cursor_pos client = 0
    /\ In (color client) colors
    /\ active client = 1.
Proof.
  intros Hlen Hbytes Hname Hcolor Hfound Hline Hne Hkey.
  eexists. split.
  - unfold websocket_accept.
    destruct (Z.leb_spec (Z.of_nat (length received)) 0) as [H0|_].
    { destruct received; [discriminate Hfound | cbn [length] in H0; lia]. }
    rewrite Hfound. rewrite Hline.
    destruct key as [|k key']; [contradiction|].
    rewrite store_fits by lia. cbn [bind].
    rewrite (ws_handshake_whole SHA1 Hlen) by lia. cbn [bind].
    rewrite cstring_no_nul by now apply response_no_nul.
    unfold add_client. reflexivity.
  - cbn [socket username current_file cursor_pos color active set_color set_active
           new_client].
    repeat split; try reflexivity.
    + apply Z.mod_pos_bound. lia.
    + apply Z.mod_pos_bound. lia.
    + now apply palette_entry.
Qed.

Lemma websocket_accept_links_client_witness :
  exists client,
    websocket_accept sample_digest 7 sample_request 1234 3 three_clients
    = Ret (client :: three_clients,
           [EvSend 7 (RESPONSE_HEAD
                        ++ base64_encode
                             (sample_digest (lit "dGhlIHNhbXBsZSBub25jZQ==" ++ GUID))
                        ++ crlf ++ crlf);
            EvLock ClientsMutex; EvUnlock ClientsMutex])
    /\ username client = lit "User1234".
Proof.
  destruct (websocket_accept_links_client sample_digest 7 sample_request
              (skipn 40 sample_request) (lit "dGhlIHNhbXBsZSBub25jZQ==")
              1234 3 three_clients)
    as (client & H1 & _ & H3 & _).
  - exact sample_digest_length.
  - exact sample_digest_bytes.
  - lia.
  - lia.
  - reflexivity.
  - reflexivity.
  - discriminate.
  - vm_compute. reflexivity.
  - exists client. split; [exact H1 | exact H3].
Defined.

(** ** Leaving *)

Lemma others_absent (sock : Z) (clients : list Client) :
  ~ In sock (sockets clients) -> others sock clients = clients.
Proof.
  induction clients as [|c next IH]; [reflexivity|].
  cbn [sockets map others filter]. intros Hnot.
  destruct (Z.eqb_spec (socket c) sock) as [E|_].
  - exfalso. apply Hnot. now left.
  - cbn [negb]. f_equal. apply IH. intros H. apply Hnot. now right.
Qed.

Lemma unlink_others (sock : Z) (clients : list Client) :
  NoDup (sockets clients) ->
  In sock (sockets clients) ->
  unlink sock clients = (others sock clients, [EvClose sock]).
Proof.
  induction clients as [|c next IH]; [intros _ []|].
  cbn [sockets map unlink others filter]. intros Hnd Hin.
  inversion Hnd as [|? ? Hfresh Hnd']; subst.
  destruct (Z.eqb_spec (socket c) sock) as [E|Hne].
  - cbn [negb]. subst sock.
    pose proof (others_absent (socket c) next Hfresh) as H. unfold others in H.
    now rewrite H.
  - cbn [negb]. destruct Hin as [E|Hin]; [contradiction|].
    specialize (IH Hnd' Hin). unfold others in IH. rewrite IH. reflexivity.
Qed.

Lemma truncate_length (cap : Z) (s : list Z) :
  0 < cap -> Z.of_nat (length (truncate cap s)) < cap.
Proof.
  intros Hcap. unfold truncate. rewrite length_firstn. lia.
Qed.

(** X5. Leaving always completes. The [user_left] message, cut to 511
    bytes, is sent once to every other linked client and not to the one
    leaving; then the leaving client alone is unlinked, the others keeping
    their order, and its socket is closed once, after the last send. *)
Theorem leave_notifies_then_unlinks (clients : list Client) (client : Client) :
  NoDup (sockets clients) ->
  In client clients ->
  Forall (fun c => active c <> 0) clients ->
  exists frame evs,
    ws_frame (truncate 512 (user_left_msg (username client))) = Ret frame
    /\ leave clients client = Ret (others (socket client) clients, evs)
    /\ evs = broadcast_trace (socket client) frame clients
             ++ [EvLock ClientsMutex; EvClose (socket client); EvUnlock ClientsMutex]
    /\ sends evs
       = map (fun c => (socket c, frame)) (others (socket client) clients)
    /\ ~ In (socket client) (sockets (others (socket client) clients))
    /\ (Z.of_nat (length (username client)) < 64 ->
        ws_read_frame frame = Ret (Some (user_left_msg (username client)))).
Proof.
  intros Hnd Hin Hactive.
  assert (Hshort : Z.of_nat (length (truncate 512 (user_left_msg (username client))))
                   <= 65532).
  { pose proof (truncate_length 512 (user_left_msg (username client))). lia. }
  destruct (ws_frame_round_trip _ Hshort) as (frame & Hframe & Hback).
  assert (Hsock : In (socket client) (sockets clients)).
  { unfold sockets. now apply in_map. }
  exists frame.
  exists (broadcast_trace (socket client) frame clients
            ++ [EvLock ClientsMutex; EvClose (socket client); EvUnlock ClientsMutex]).
  split; [exact Hframe|]. split.
  { unfold leave. fold (user_left_msg (username client)).
    rewrite (broadcast_message_framed _ _ _ frame Hframe). cbn [bind].
    unfold remove_client. rewrite (unlink_others _ _ Hnd Hsock). reflexivity. }
  split; [reflexivity|]. split.
  { rewrite sends_app, broadcast_trace_sends by assumption.
    cbn [sends]. apply app_nil_r. }
  split.
  { pose proof (unlink_removes (socket client) clients Hnd) as H.
    now rewrite (unlink_others _ _ Hnd Hsock) in H. }
  intros Hname. rewrite truncate_fits in Hback; [exact Hback|].
  unfold user_left_msg. rewrite !length_app.
  change (length (lit "{'type':'user_left','username':'")) with 32%nat.
  change (length (lit "'}")) with 2%nat. lia.
Qed.

Lemma leave_notifies_then_unlinks_witness :
  exists frame evs,
    leave three_clients (some_client 7) = Ret ([some_client 9; some_client 5], evs)
    /\ sends evs = [(9, frame); (5, frame)].
Proof.
  destruct (leave_notifies_then_unlinks three_clients (some_client 7))
    as (frame & evs & _ & H2 & _ & H4 & _).
  - repeat constructor; cbv; intuition discriminate.
  - right. left. reflexivity.
  - repeat constructor; cbv; discriminate.
  - exists frame, evs. split; [exact H2 | exact H4].
Defined.

(** ** Greeting *)








(** ** Numbers in messages: [%d] and [atoi] *)

Lemma uint_text_cons (d : Decimal.uint) :
  match d with
  | Decimal.Nil => uint_text d = []
  | Decimal.D0 l => uint_text d = 48 :: uint_text l
  | Decimal.D1 l => uint_text d = 49 :: uint_text l
  | Decimal.D2 l => uint_text d = 50 :: uint_text l
  | Decimal.D3 l => uint_text d = 51 :: uint_text l
  | Decimal.D4 l => uint_text d = 52 :: uint_text l
  | Decimal.D5 l => uint_text d = 53 :: uint_text l
  | Decimal.D6 l => uint_text d = 54 :: uint_text l
  | Decimal.D7 l => uint_text d = 55 :: uint_text l
  | Decimal.D8 l => uint_text d = 56 :: uint_text l
  | Decimal.D9 l => uint_text d = 57 :: uint_text l
  end.
Proof. destruct d; reflexivity. Qed.

Lemma digits_value_stops (acc : Z) (rest : list Z) :
  stops_number rest = true -> digits_value acc rest = acc.
Proof.
  destruct rest as [|b rest]; [reflexivity|]. cbn [stops_number digits_value].
  intros H. apply negb_true_iff in H. now rewrite H.
Qed.

Lemma digits_value_acc (d : Decimal.uint) (acc : positive) (rest : list Z) :
  stops_number rest = true ->
  digits_value (Z.pos acc) (uint_text d ++ rest) = Z.pos (Pos.of_uint_acc d acc).
Proof.
  intros Hrest. revert acc.
  induction d as [|l IH|l IH|l IH|l IH|l IH|l IH|l IH|l IH|l IH|l IH]; intros acc;
    [now apply digits_value_stops| | | | | | | | | |];
    match goal with
    | |- context [uint_text ?d] => rewrite (uint_text_cons d)
    end;
    cbn [app digits_value isdigit Z.leb Z.compare Pos.compare Pos.compare_cont andb];
    cbn [Pos.of_uint_acc]; rewrite <- IH; f_equal; lia.
Qed.

Lemma digits_value_zero (d : Decimal.uint) (rest : list Z) :
  stops_number rest = true ->
  digits_value 0 (uint_text d ++ rest) = Z.of_N (Pos.of_uint d).
Proof.
  intros Hrest.
  induction d as [|l IH|l IH|l IH|l IH|l IH|l IH|l IH|l IH|l IH|l IH];
    [now apply digits_value_stops| | | | | | | | | |];
    match goal with
    | |- context [uint_text ?d] => rewrite (uint_text_cons d)
    end;
    cbn [app digits_value isdigit Z.leb Z.compare Pos.compare Pos.compare_cont andb];
    cbn [Pos.of_uint Z.of_N];
    [exact IH | now apply digits_value_acc ..].
Qed.

Lemma to_uint_not_nil (p : positive) : Pos.to_uint p <> Decimal.Nil.
Proof.
  intros H. pose proof (DecimalPos.Unsigned.of_to p) as E.
  rewrite H in E. discriminate.
Qed.

Lemma fmt_int_pos (p : positive) : fmt_int (Z.pos p) = uint_text (Pos.to_uint p).
Proof.
  unfold fmt_int, uint_text. cbn [Z.to_int NilZero.string_of_int].
  unfold NilZero.string_of_uint.
  pose proof (to_uint_not_nil p). now destruct (Pos.to_uint p).
Qed.

Lemma fmt_int_neg (p : positive) :
  fmt_int (Z.neg p) = 45 :: uint_text (Pos.to_uint p).
Proof.
  unfold fmt_int, uint_text. cbn [Z.to_int NilZero.string_of_int].
  unfold NilZero.string_of_uint.
  pose proof (to_uint_not_nil p). now destruct (Pos.to_uint p).
Qed.

Lemma atoi_digits (d : Decimal.uint) (rest : list Z) :
  d <> Decimal.Nil ->
  stops_number rest = true ->
  skip_spaces (uint_text d ++ rest) = uint_text d ++ rest
  /\ match uint_text d ++ rest with
     | 45 :: s' => - digits_value 0 s'
     | 43 :: s' => digits_value 0 s'
     | _ => digits_value 0 (uint_text d ++ rest)
     end = Z.of_N (Pos.of_uint d).
Proof.
  intros Hd Hrest. rewrite <- (digits_value_zero d rest Hrest).
  destruct d; [contradiction| | | | | | | | | |];
    match goal with
    | |- context [uint_text ?d] => rewrite (uint_text_cons d)
    end; split; reflexivity.
Qed.

Lemma atoi_fmt_int (z : Z) (rest : list Z) :
  stops_number rest = true ->
  INT_MIN <= z <= INT_MAX ->
  atoi (fmt_int z ++ rest) = Ret z.
Proof.
  intros Hrest Hrange.
  assert (Hin : (INT_MIN <=? z) && (z <=? INT_MAX) = true).
  { apply andb_true_intro. split; apply Z.leb_le; lia. }
  destruct z as [|p|p].
  - unfold atoi. change (fmt_int 0) with (uint_text (Decimal.D0 Decimal.Nil)).
    destruct (atoi_digits (Decimal.D0 Decimal.Nil) rest ltac:(discriminate) Hrest)
      as [Hs Hv].
    rewrite Hs. cbv zeta. rewrite Hv. cbn [Pos.of_uint Z.of_N]. now rewrite Hin.
  - unfold atoi. rewrite fmt_int_pos.
    destruct (atoi_digits (Pos.to_uint p) rest (to_uint_not_nil p) Hrest) as [Hs Hv].
    rewrite Hs. cbv zeta. rewrite Hv, DecimalPos.Unsigned.of_to.
    cbn [Z.of_N]. now rewrite Hin.
  - unfold atoi. rewrite fmt_int_neg. cbn [app skip_spaces].
    change (isspace 45) with false. cbv iota zeta.
    rewrite digits_value_zero by assumption.
    rewrite DecimalPos.Unsigned.of_to. cbn [Z.of_N Z.opp]. now rewrite Hin.
Qed.

Lemma uint_text_plain (d : Decimal.uint) : no_quote (uint_text d) = true.
Proof.
  induction d;
    match goal with
    | |- context [uint_text ?d] => rewrite (uint_text_cons d)
    end; [reflexivity | cbn [no_quote forallb]; exact IHd ..].
Qed.

Lemma fmt_int_plain (z : Z) : no_quote (fmt_int z) = true.
Proof.
  destruct z as [|p|p].
  - reflexivity.
  - rewrite fmt_int_pos. apply uint_text_plain.
  - rewrite fmt_int_neg. cbn [no_quote forallb]. apply uint_text_plain.
Qed.

(** ** join *)

Section Join.

Variable uname : list Z.
Hypothesis uname_plain : no_quote uname = true.

Lemma join_is_join : found (strstr (join_msg uname) TYPE_JOIN) = true.
Proof.
  unfold join_msg, TYPE_JOIN. eval_lits. scan.
  rewrite strstr_here by reflexivity. reflexivity.
Qed.

Lemma join_username_key :
  strstr (join_msg uname) KEY_USERNAME = Some (KEY_USERNAME ++ uname ++ lit "'}").
Proof.
  unfold join_msg, KEY_USERNAME. eval_lits. scan.
  now rewrite strstr_here by reflexivity.
Qed.

Lemma dispatch_join (clients : list Client) (client : Client) :
  Z.of_nat (length uname) < 64 ->
  dispatch clients client (join_msg uname)
  = Ret (set_username client uname, own_lock client).
Proof.
  intros Hlen. unfold dispatch. rewrite join_is_join.
  unfold on_join. rewrite join_username_key.
  unfold KEY_USERNAME. cbn [app skipn]. eval_lits. fold dquote.
  rewrite strchr_value by assumption.
  rewrite span_value, store_fits by assumption. reflexivity.
Qed.

End Join.

Lemma on_join_frame (client client' : Client) (message : list Z) (evs : list event) :
  on_join client message = Ret (client', evs) ->
  client' = set_username client (username client') /\ sends evs = [].
Proof.
  unfold on_join, bind. intros H.
  break_match_in H; inversion H; subst; clear H; split; try reflexivity;
    match goal with |- ?c = _ => now destruct c end.
Qed.

(** The [join] branch on a message whose [username] key is followed by
    [uname] and a double quote: the name goes into [username[64]]. *)
Lemma dispatch_join_value (clients : list Client) (client : Client)
  (message uname post : list Z) :
  kind_of message = KJoin ->
  strstr message KEY_USERNAME = Some (KEY_USERNAME ++ uname ++ dquote :: post) ->
  no_quote uname = true ->
  dispatch clients client message
  = (u <- store 64 uname ;; Ret (set_username client u, own_lock client)).
Proof.
  intros Hkind Hkey Hplain.
  assert (Hjoin : found (strstr message TYPE_JOIN) = true).
  { unfold kind_of in Hkind.
    destruct (found (strstr message TYPE_JOIN)); [reflexivity|].
    destruct (found (strstr message TYPE_CONTENT_CHANGE)); [discriminate|].
    destruct (found (strstr message TYPE_CURSOR_MOVE)); [discriminate|].
    destruct (found (strstr message TYPE_FILE_CHANGE)); discriminate. }
  unfold dispatch. rewrite Hjoin.
  unfold on_join. rewrite Hkey.
  unfold KEY_USERNAME. cbn [app skipn].
  rewrite strchr_value by assumption.
  now rewrite span_value.
Qed.

(** X7. Take a message of kind [join] in which the [username] key is
    followed by a name and the double quote that closes it. When the name
    has fewer than 64 bytes the handler processes the message to the end:
    the name is the client's user name, the client's socket, current file,
    cursor position, colour and [active] are what they were, and nothing
    is sent. When the name has 64 bytes or more, the copy into
    [username[64]] runs past the end of the array, into [current_file]:
    the turn has no defined result. *)
Theorem join_sets_the_name_only (clients : list Client) (client : Client)
  (message uname post : list Z) :
  kind_of message = KJoin ->
  strstr message KEY_USERNAME = Some (KEY_USERNAME ++ uname ++ dquote :: post) ->
  no_quote uname = true ->
  (Z.of_nat (length uname) < 64 ->
   exists client',
     dispatch clients client message = Ret (client', own_lock client)
     /\ username client' = uname
     /\ socket client' = socket client
     /\ current_file client' = current_file client
     /\ cursor_pos client' = cursor_pos client
     /\ color client' = color client
     /\ active client' = active client
     /\ sends (own_lock client) = [])
  /\ (64 <= Z.of_nat (length uname) ->
      dispatch clients client message = Undef).
Proof.
  intros Hkind Hkey Hplain.
  rewrite (dispatch_join_value clients client message uname post) by assumption.
  split; intros Hlen.
  - rewrite store_fits by assumption. cbn [bind].
    exists (set_username client uname). split; [reflexivity|]. repeat split.
  - now rewrite store_overrun.
Qed.

Lemma join_sets_the_name_only_witness :
  (exists client',
     dispatch three_clients (some_client 7) (join_msg (lit "ann"))
     = Ret (client', own_lock (some_client 7))
     /\ username client' = lit "ann"
     /\ color client' = lit "#FF6B6B")
  /\ dispatch three_clients (some_client 7) (join_msg (text_of_length 64)) = Undef.
Proof.
  split.
  - destruct (join_sets_the_name_only three_clients (some_client 7)
                (join_msg (lit "ann")) (lit "ann") (lit "}"))
      as [Hshort _].
    + reflexivity.
    + reflexivity.
    + reflexivity.
    + destruct Hshort as (client' & Hrun & Hname & _ & _ & _ & Hcolor & _).
      * vm_compute. reflexivity.
      * exists client'. split; [exact Hrun|]. split; [exact Hname | exact Hcolor].
  - apply (join_sets_the_name_only three_clients (some_client 7)
             (join_msg (text_of_length 64)) (text_of_length 64) (lit "}")).
    + reflexivity.
    + reflexivity.
    + reflexivity.
    + vm_compute. discriminate.
Defined.

(** ** cursor_move *)

Section CursorMove.

Variables uname fname : list Z.
Variable position : Z.
Hypothesis uname_plain : no_quote uname = true.
Hypothesis fname_plain : no_quote fname = true.

Hypothesis position_plain : no_quote (fmt_int position) = true.

Ltac open_cursor_move := unfold cursor_move_msg; eval_lits; fold dquote.

Lemma cursor_move_not_join :
  strstr (cursor_move_msg uname fname position) TYPE_JOIN = None.
Proof. unfold TYPE_JOIN. open_cursor_move. scan. reflexivity. Qed.

Lemma cursor_move_not_content_change :
  strstr (cursor_move_msg uname fname position) TYPE_CONTENT_CHANGE = None.
Proof. unfold TYPE_CONTENT_CHANGE. open_cursor_move. scan. reflexivity. Qed.

Lemma cursor_move_is_cursor_move :
  found (strstr (cursor_move_msg uname fname position) TYPE_CURSOR_MOVE) = true.
Proof.
  unfold TYPE_CURSOR_MOVE. open_cursor_move. scan.
  rewrite strstr_here by reflexivity. reflexivity.
Qed.

Lemma cursor_move_position_key :
  strstr (cursor_move_msg uname fname position) KEY_POSITION
  = Some (KEY_POSITION ++ fmt_int position ++ lit "}").
Proof.
  unfold KEY_POSITION. open_cursor_move. scan.
  now rewrite strstr_here by reflexivity.
Qed.

Lemma cursor_move_file_key :
  strstr (cursor_move_msg uname fname position) KEY_FILE
  = Some (KEY_FILE ++ fname ++ lit "','position':" ++ fmt_int position ++ lit "}").
Proof.
  unfold KEY_FILE. open_cursor_move. scan. now rewrite strstr_here by reflexivity.
Qed.

Lemma cursor_move_username_key :
  strstr (cursor_move_msg uname fname position) KEY_USERNAME
  = Some (KEY_USERNAME ++ uname ++ lit "','file':'" ++ fname
            ++ lit "','position':" ++ fmt_int position ++ lit "}").
Proof.
  unfold KEY_USERNAME. open_cursor_move. scan.
  now rewrite strstr_here by reflexivity.
Qed.


End CursorMove.



(** ** Reading masked frames *)

Lemma mask_from_length (k : nat) (mask payload : list Z) :
  length (mask_from k mask payload) = length payload.
Proof.
  revert k. induction payload as [|b payload IH]; intros k; [reflexivity|].
  cbn [mask_from length]. now rewrite IH.
Qed.

Lemma unmask_after (pre mask payload : list Z) (k : nat) :
  map (fun i => Z.lxor (byte_at (pre ++ mask_from k mask payload)
                          (Z.of_nat (length pre) + i))
                  (byte_at mask ((i + Z.of_nat k) mod 4)))
    (map Z.of_nat (seq 0 (length payload))) = payload.
Proof.
  revert pre k. induction payload as [|b payload IH]; intros pre k; [reflexivity|].
  cbn [length seq map mask_from]. f_equal.
  - unfold byte_at at 1. rewrite Z.add_0_r, Nat2Z.id, nth_middle.
    cbn [Z.of_nat Z.add]. rewrite Z.lxor_assoc, Z.lxor_nilpotent. apply Z.lxor_0_r.
  - rewrite <- seq_shift, !map_map.
    specialize (IH (pre ++ [Z.lxor b (byte_at mask (Z.of_nat k mod 4))]) (S k)).
    rewrite map_map in IH. rewrite <- IH at 2. apply map_ext. intros i.
    rewrite <- app_assoc. cbn [app]. f_equal.
    + f_equal. rewrite length_app. cbn [length]. lia.
    + f_equal. f_equal. lia.
Qed.

Lemma masked_length_byte (n : Z) :
  0 <= n < 126 ->
  Z.land (128 + n) 128 = 128 /\ Z.land (128 + n) 127 = n.
Proof.
  intros Hn.
  assert (Hb : is_byte n = true).
  { unfold is_byte. apply andb_true_intro. split; [apply Z.leb_le | apply Z.ltb_lt]; lia. }
  apply (forall_bytes
           (fun n => if n <? 126
                     then (Z.land (128 + n) 128 =? 128) && (Z.land (128 + n) 127 =? n)
                     else true)) in Hb; [|vm_compute; reflexivity].
  destruct (Z.ltb_spec n 126); [|lia].
  apply andb_prop in Hb. destruct Hb as [H1 H2].
  split; now apply Z.eqb_eq.
Qed.

Lemma unmask_payload (pre mask payload : list Z) (idx : Z) :
  idx = Z.of_nat (length pre) ->
  map (fun i => if negb (128 =? 0)
                then Z.lxor (byte_at (pre ++ mask_from 0 mask payload) (idx + i))
                       (byte_at mask (i mod 4))
                else byte_at (pre ++ mask_from 0 mask payload) (idx + i))
    (map Z.of_nat (seq 0 (length payload))) = payload.
Proof.
  intros ->. etransitivity; [|apply (unmask_after pre mask payload 0)].
  apply map_ext. intros i. change (negb (128 =? 0)) with true. cbv iota.
  now rewrite Z.add_0_r.
Qed.

Lemma ws_read_frame_masked_payload (mask payload : list Z) :
  length mask = 4%nat ->
  Z.of_nat (length payload) < 65536 ->
  ws_read_frame (masked_frame mask payload) = Ret (Some payload).
Proof.
  intros Hmask Hn.
  destruct mask as [|m0 [|m1 [|m2 [|m3 [|]]]]]; try discriminate Hmask. clear Hmask.
  set (mask := [m0; m1; m2; m3]).
  unfold masked_frame. cbv zeta. set (n := Z.of_nat (length payload)) in *.
  assert (Hn0 : 0 <= n) by (subst n; lia).
  set (body := mask_from 0 mask payload).
  assert (Hbody : Z.of_nat (length body) = n)
    by (subst body n; now rewrite mask_from_length).
  destruct (Z.ltb_spec n 126) as [Hshort|Hlong].
  - destruct (masked_length_byte n (conj Hn0 Hshort)) as [Hm Hl].
    unfold ws_read_frame. cbv zeta.
    replace (Z.of_nat (length ([129; 128 + n] ++ mask ++ body))) with (n + 6)
      by (cbn [app length mask]; lia).
    change (byte_at ([129; 128 + n] ++ mask ++ body) 0) with 129.
    change (byte_at ([129; 128 + n] ++ mask ++ body) 1) with (128 + n).
    change (Z.land 129 15 =? 8) with false. cbv iota.
    rewrite Hm, Hl. change (negb (128 =? 0)) with true at 1. cbv iota.
    destruct (Z.ltb_spec (n + 6) 2); [lia|].
    destruct (Z.eqb_spec n 126); [lia|].
    destruct (Z.eqb_spec n 127); [lia|].
    destruct (Z.ltb_spec (n + 6) (2 + 4)); [lia|].
    change (map (fun k => byte_at ([129; 128 + n] ++ mask ++ body) (2 + k)) [0; 1; 2; 3])
      with mask.
    rewrite wrap_int_small by lia.
    destruct (Z.ltb_spec (n + 6) (2 + 4 + n)); [lia|].
    destruct (Z.ltb_spec n 0); [lia|]. cbn [orb].
    do 2 f_equal. subst n. rewrite Nat2Z.id.
    exact (unmask_payload [129; 128 + Z.of_nat (length payload); m0; m1; m2; m3]
             mask payload (2 + 4) eq_refl).
  - set (hi := Z.land (Z.shiftr n 8) 255). set (lo := Z.land n 255).
    unfold ws_read_frame. cbv zeta.
    replace (Z.of_nat (length ([129; 254; hi; lo] ++ mask ++ body))) with (n + 8)
      by (cbn [app length mask]; lia).
    change (byte_at ([129; 254; hi; lo] ++ mask ++ body) 0) with 129.
    change (byte_at ([129; 254; hi; lo] ++ mask ++ body) 1) with 254.
    change (byte_at ([129; 254; hi; lo] ++ mask ++ body) 2) with hi.
    change (byte_at ([129; 254; hi; lo] ++ mask ++ body) 3) with lo.
    change (Z.land 129 15 =? 8) with false.
    change (Z.land 254 128) with 128. change (Z.land 254 127) with 126.
    change (126 =? 126) with true. change (negb (128 =? 0)) with true at 1. cbv iota.
    subst hi lo. rewrite join_16 by lia.
    destruct (Z.ltb_spec (n + 8) 2); [lia|].
    destruct (Z.ltb_spec (n + 8) 4); [lia|].
    destruct (Z.ltb_spec (n + 8) (4 + 4)); [lia|].
    change (map (fun k => byte_at ([129; 254; Z.land (Z.shiftr n 8) 255; Z.land n 255]
                                     ++ mask ++ body) (4 + k)) [0; 1; 2; 3])
      with mask.
    rewrite wrap_int_small by lia.
    destruct (Z.ltb_spec (n + 8) (4 + 4 + n)); [lia|].
    destruct (Z.ltb_spec n 0); [lia|]. cbn [orb].
    do 2 f_equal. subst n. rewrite Nat2Z.id.
    exact (unmask_payload
             [129; 254; Z.land (Z.shiftr (Z.of_nat (length payload)) 8) 255;
              Z.land (Z.of_nat (length payload)) 255; m0; m1; m2; m3]
             mask payload (4 + 4) eq_refl).
Qed.

(** X9. [ws_read_frame] undoes the masking of a client frame: for every
    4-byte mask and every payload of fewer than 65536 bytes, the masked
    frame, with the 7-bit length form below 126 bytes and the 16-bit form
    from there on, reads back as the payload. *)
Theorem ws_read_frame_unmasks (mask payload : list Z) :
  length mask = 4%nat ->
  Z.of_nat (length payload) < 65536 ->
  ws_read_frame (masked_frame mask payload) = Ret (Some payload).
Proof. apply ws_read_frame_masked_payload. Qed.

Lemma ws_read_frame_unmasks_witness :
  ws_read_frame (masked_frame [1; 2; 3; 4] (lit "hello")) = Ret (Some (lit "hello")).
Proof.
  apply (ws_read_frame_unmasks [1; 2; 3; 4] (lit "hello")).
  - reflexivity.
  - vm_compute. reflexivity.
Defined.

(** ** What [ws_read_frame] returns and when *)

Lemma ret_some_inj (A : Type) (x y : A) : Ret (Some x) = Ret (Some y) -> x = y.
Proof. intros H. now injection H. Qed.

Ltac split_tests H :=
  repeat match type of H with
         | context [if ?c then _ else _] =>
           let E := fresh "E" in
           destruct c eqn:E; cbv beta iota in H; try discriminate H
         end.

(** X10. A message returned by [ws_read_frame] was wholly inside the
    buffer: behind the 2 header bytes, and behind the 4 mask bytes as well
    when the frame is masked; and its frame was not a close frame. *)
Theorem ws_read_frame_stays_inside (buffer message : list Z) :
  ws_read_frame buffer = Ret (Some message) ->
  Z.land (byte_at buffer 0) 15 <> 8
  /\ Z.of_nat (length message) + 2 <= Z.of_nat (length buffer)
  /\ (Z.land (byte_at buffer 1) 128 <> 0 ->
      Z.of_nat (length message) + 6 <= Z.of_nat (length buffer)).
Proof.
  unfold ws_read_frame. cbv zeta. intros H.
  split_tests H;
    repeat match goal with
           | E : (_ <? _) = false |- _ => apply Z.ltb_ge in E
           | E : (_ <? _) = true |- _ => apply Z.ltb_lt in E
           | E : (_ =? _) = false |- _ => apply Z.eqb_neq in E
           | E : (_ =? _) = true |- _ => apply Z.eqb_eq in E
           | E : negb _ = true |- _ => apply negb_true_iff in E
           | E : negb _ = false |- _ => apply negb_false_iff in E
           | E : _ || _ = false |- _ =>
             apply orb_false_iff in E; destruct E
           end;
    apply ret_some_inj in H; rewrite <- H;
    rewrite !length_map, length_seq, Z2Nat.id by lia;
    (split; [assumption|]; split; [lia|]; intros Hmask; try lia; try contradiction).
Qed.

Lemma byte_at_is_byte (buffer : list Z) (i : Z) :
  all_bytes buffer = true -> is_byte (byte_at buffer i) = true.
Proof.
  intros H. unfold byte_at.
  destruct (nth_in_or_default (Z.to_nat i) buffer 0) as [Hin| ->]; [|reflexivity].
  unfold all_bytes in H. rewrite forallb_forall in H. now apply H.
Qed.

Lemma length_16_range (a b : Z) :
  is_byte a = true -> is_byte b = true ->
  0 <= Z.lor (Z.shiftl a 8) b < 65536.
Proof.
  intros Ha Hb.
  assert (H : (0 <=? Z.lor (Z.shiftl a 8) b) && (Z.lor (Z.shiftl a 8) b <? 65536) = true).
  { apply (forall_bytes2
             (fun a b => (0 <=? Z.lor (Z.shiftl a 8) b)
                         && (Z.lor (Z.shiftl a 8) b <? 65536)));
      [vm_compute; reflexivity | assumption | assumption]. }
  apply andb_prop in H. destruct H as [H1 H2].
  apply Z.leb_le in H1. apply Z.ltb_lt in H2. lia.
Qed.

Lemma length_7_range (b : Z) : is_byte b = true -> 0 <= Z.land b 127 < 128.
Proof.
  intros Hb.
  assert (H : (0 <=? Z.land b 127) && (Z.land b 127 <? 128) = true).
  { apply (forall_bytes (fun b => (0 <=? Z.land b 127) && (Z.land b 127 <? 128)));
      [vm_compute; reflexivity | assumption]. }
  apply andb_prop in H. destruct H as [H1 H2].
  apply Z.leb_le in H1. apply Z.ltb_lt in H2. lia.
Qed.

Ltac split_goal_tests :=
  repeat match goal with
         | |- context [if ?c then _ else _] =>
           let E := fresh "E" in destruct c eqn:E; cbv beta iota
         end.

Ltac read_tests :=
  repeat match goal with
         | E : (_ <? _) = false |- _ => apply Z.ltb_ge in E
         | E : (_ <? _) = true |- _ => apply Z.ltb_lt in E
         | E : (_ =? _) = false |- _ => apply Z.eqb_neq in E
         | E : (_ =? _) = true |- _ => apply Z.eqb_eq in E
         | E : _ || _ = true |- _ => apply orb_prop in E; destruct E
         end.

(** X11. On a buffer of bytes whose length byte does not announce the
    64-bit form, [ws_read_frame] stays within its buffers whatever the
    bytes are: it returns a message or null. *)
Theorem ws_read_frame_defined_below_64_bit_form (buffer : list Z) :
  all_bytes buffer = true ->
  Z.land (byte_at buffer 1) 127 <> 127 ->
  exists result, ws_read_frame buffer = Ret result.
Proof.
  intros Hbytes Hform.
  pose proof (length_7_range _ (byte_at_is_byte buffer 1 Hbytes)) as H7.
  pose proof (length_16_range _ _ (byte_at_is_byte buffer 2 Hbytes)
                (byte_at_is_byte buffer 3 Hbytes)) as H16.
  unfold ws_read_frame. cbv zeta.
  set (len7 := Z.land (byte_at buffer 1) 127) in *.
  set (len16 := Z.lor (Z.shiftl (byte_at buffer 2) 8) (byte_at buffer 3)) in *.
  split_goal_tests; try (eexists; reflexivity); exfalso; read_tests;
    try contradiction;
    match goal with
    | E : context [wrap_int _] |- _ => rewrite wrap_int_small in E by lia
    end; lia.
Qed.

Lemma ws_read_frame_defined_below_64_bit_form_witness :
  exists result, ws_read_frame [129; 254; 255; 255; 1; 2; 3; 4; 5] = Ret result.
Proof.
  apply (ws_read_frame_defined_below_64_bit_form [129; 254; 255; 255; 1; 2; 3; 4; 5]).
  - reflexivity.
  - vm_compute. discriminate.
Defined.

Lemma wrap_int_range (z : Z) : -2147483648 <= wrap_int z < 2147483648.
Proof.
  unfold wrap_int. change (2 ^ 31) with 2147483648. change (2 ^ 32) with 4294967296.
  pose proof (Z.mod_pos_bound (z + 2147483648) 4294967296 ltac:(lia)). lia.
Qed.

Lemma wrap_int_congruent (y c d : Z) :
  wrap_int (wrap_int y * c + d) = wrap_int (y * c + d).
Proof.
  unfold wrap_int. change (2 ^ 31) with 2147483648. change (2 ^ 32) with 4294967296.
  f_equal.
  rewrite (Z.mod_eq (y + 2147483648) 4294967296) by lia.
  set (q := (y + 2147483648) / 4294967296).
  replace ((y + 2147483648 - 4294967296 * q - 2147483648) * c + d + 2147483648)
    with (y * c + d + 2147483648 + (- q * c) * 4294967296) by ring.
  apply Z_mod_plus_full.
Qed.

Lemma lor_shiftl_byte (x b : Z) :
  is_byte b = true -> Z.lor (Z.shiftl x 8) b = x * 256 + b.
Proof.
  intros Hb. unfold is_byte in Hb. apply andb_prop in Hb. destruct Hb as [H0 H1].
  apply Z.leb_le in H0. apply Z.ltb_lt in H1.
  rewrite Z.shiftl_mul_pow2 by lia. change (2 ^ 8) with 256.
  rewrite <- Z.lxor_lor, <- Z.add_nocarry_lxor; try reflexivity;
    apply Z.bits_inj'; intros i Hi; rewrite Z.land_spec, Z.bits_0;
    change 256 with (2 ^ 8);
    (destruct (Z.ltb_spec i 8);
     [ rewrite Z.mul_pow2_bits_low by lia; reflexivity
     | replace (Z.testbit b i) with false; [apply andb_false_r|];
       symmetry; destruct (Z.eq_dec b 0) as [->|Hnz]; [apply Z.bits_0|];
       apply Z.bits_above_log2; [lia|];
       apply Z.lt_le_trans with 8; [apply Z.log2_lt_pow2; simpl; lia | lia] ]).
Qed.

Lemma low_word_negative (x b6 b7 b8 b9 : Z) :
  is_byte b6 = true -> is_byte b7 = true -> is_byte b8 = true -> is_byte b9 = true ->
  128 <= b6 ->
  wrap_int
    (Z.lor (Z.shiftl
       (wrap_int (Z.lor (Z.shiftl
          (wrap_int (Z.lor (Z.shiftl
             (wrap_int (Z.lor (Z.shiftl x 8) b6)) 8) b7)) 8) b8)) 8) b9) < 0.
Proof.
  intros H6 H7 H8 H9 Hneg.
  rewrite !lor_shiftl_byte by assumption.
  rewrite wrap_int_congruent.
  replace ((wrap_int (wrap_int (x * 256 + b6) * 256 + b7) * 256 + b8) * 256 + b9)
    with (wrap_int (wrap_int (x * 256 + b6) * 256 + b7) * 65536 + (b8 * 256 + b9))
    by ring.
  rewrite wrap_int_congruent.
  replace ((wrap_int (x * 256 + b6) * 256 + b7) * 65536 + (b8 * 256 + b9))
    with (wrap_int (x * 256 + b6) * 16777216 + (b7 * 65536 + b8 * 256 + b9))
    by ring.
  rewrite wrap_int_congruent.
  unfold is_byte in *.
  apply andb_prop in H6, H7, H8, H9.
  destruct H6 as [_ H6], H7 as [H7 H7'], H8 as [H8 H8'], H9 as [H9 H9'].
  apply Z.ltb_lt in H6, H7', H8', H9'. apply Z.leb_le in H7, H8, H9.
  unfold wrap_int. change (2 ^ 31) with 2147483648. change (2 ^ 32) with 4294967296.
  replace ((x * 256 + b6) * 16777216 + (b7 * 65536 + b8 * 256 + b9) + 2147483648)
    with ((b6 - 128) * 16777216 + b7 * 65536 + b8 * 256 + b9 + (x + 1) * 4294967296)
    by ring.
  rewrite Z_mod_plus_full, Z.mod_small; lia.
Qed.

(** X12. A buffer of at least 14 bytes that is not a close frame,
    announces the 64-bit length form and has 128 or more in byte 6 (the
    top byte of the low half of the length) takes [ws_read_frame] out of
    its buffers: the [int] length it accumulates is negative, the test
    against [bytes] passes, and the final NUL is stored before the start of
    an allocation of [len + 1] bytes. *)
Theorem ws_read_frame_negative_length (buffer : list Z) :
  all_bytes buffer = true ->
  14 <= Z.of_nat (length buffer) ->
  Z.land (byte_at buffer 0) 15 <> 8 ->
  Z.land (byte_at buffer 1) 127 = 127 ->
  128 <= byte_at buffer 6 ->
  ws_read_frame buffer = Undef.
Proof.
  intros Hbytes Hlen Hop Hform Hneg.
  unfold ws_read_frame. cbv zeta. rewrite Hform.
  change (127 =? 126) with false. change (127 =? 127) with true. cbv iota.
  cbn [fold_left].
  change (2 + 4) with 6. change (2 + 5) with 7. change (2 + 6) with 8.
  change (2 + 7) with 9.
  pose proof (low_word_negative
                (wrap_int (Z.lor (Z.shiftl
                   (wrap_int (Z.lor (Z.shiftl
                      (wrap_int (Z.lor (Z.shiftl
                         (wrap_int (Z.lor (Z.shiftl 0 8) (byte_at buffer (2 + 0))))
                         8) (byte_at buffer (2 + 1)))) 8) (byte_at buffer (2 + 2))))
                   8) (byte_at buffer (2 + 3))))
                _ _ _ _
                (byte_at_is_byte buffer 6 Hbytes) (byte_at_is_byte buffer 7 Hbytes)
                (byte_at_is_byte buffer 8 Hbytes) (byte_at_is_byte buffer 9 Hbytes)
                Hneg) as Hlow.
  match type of Hlow with ?l < 0 => set (len := l) in * end.
  assert (Hrange : -2147483648 <= len < 2147483648) by (subst len; apply wrap_int_range).
  destruct (Z.eqb_spec (Z.land (byte_at buffer 0) 15) 8); [contradiction|].
  destruct (Z.ltb_spec (Z.of_nat (length buffer)) 2); [lia|].
  destruct (Z.ltb_spec (Z.of_nat (length buffer)) 10); [lia|].
  destruct (negb (Z.land (byte_at buffer 1) 128 =? 0)).
  - destruct (Z.ltb_spec (Z.of_nat (length buffer)) (10 + 4)); [lia|].
    rewrite wrap_int_small by lia.
    destruct (Z.ltb_spec (Z.of_nat (length buffer)) (10 + 4 + len)); [lia|].
    destruct (Z.ltb_spec len 0); [reflexivity | lia].
  - rewrite wrap_int_small by lia.
    destruct (Z.ltb_spec (Z.of_nat (length buffer)) (10 + len)); [lia|].
    destruct (Z.ltb_spec len 0); [reflexivity | lia].
Qed.

Lemma ws_read_frame_negative_length_witness :
  ws_read_frame [129; 127; 0; 0; 0; 0; 255; 255; 255; 255; 1; 2; 3; 4] = Undef.
Proof.
  apply (ws_read_frame_negative_length
           [129; 127; 0; 0; 0; 0; 255; 255; 255; 255; 1; 2; 3; 4]).
  - reflexivity.
  - vm_compute. discriminate.
  - vm_compute. discriminate.
  - reflexivity.
  - vm_compute. discriminate.
Defined.

(** ** Escaping file content *)

Lemma escape_length (content : list Z) :
  (length (escape content) <= 2 * length content)%nat.
Proof.
  induction content as [|c content IH]; [reflexivity|].
  cbn [escape]. rewrite length_app. cbn [length].
  destruct ((c =? 34) || (c =? 92)); [cbn [length]; lia|].
  destruct (c =? 10); [cbn [length]; lia|].
  destruct (c =? 13); [cbn [length]; lia|].
  destruct (c =? 9); cbn [length]; lia.
Qed.

Lemma unescape_pair (n : nat) (c d : Z) (rest rest' : list Z) :
  escape_code (c :: rest) = Some (d, rest') ->
  unescape (S (S n)) (92 :: c :: rest) = d :: unescape n rest'.
Proof.
  intros H. change (unescape (S (S n)) (92 :: c :: rest))
    with (match escape_code (c :: rest) with
          | Some (decoded, r) => decoded :: unescape n r
          | None => 92 :: unescape (S n) (c :: rest)
          end).
  now rewrite H.
Qed.

Lemma unescape_plain (n : nat) (b : Z) (rest : list Z) :
  b <> 92 -> unescape (S n) (b :: rest) = b :: unescape n rest.
Proof.
  intros H. cbn [unescape]. apply Z.eqb_neq in H. now rewrite H.
Qed.

Lemma unescape_escape (content tail : list Z) :
  unescape (length (escape content)) (escape content ++ tail) = content.
Proof.
  induction content as [|c content IH]; [now destruct tail|].
  cbn [escape]. rewrite length_app, <- app_assoc.
  destruct (Z.eqb_spec c 34) as [->|H34].
  { cbn [orb app length Nat.add]. rewrite (unescape_pair _ 34 34 _ _ eq_refl).
    now rewrite IH. }
  destruct (Z.eqb_spec c 92) as [->|H92].
  { cbn [orb app length Nat.add]. rewrite (unescape_pair _ 92 92 _ _ eq_refl).
    now rewrite IH. }
  cbn [orb].
  destruct (Z.eqb_spec c 10) as [->|H10].
  { cbn [app length Nat.add]. rewrite (unescape_pair _ 110 10 _ _ eq_refl).
    now rewrite IH. }
  destruct (Z.eqb_spec c 13) as [->|H13].
  { cbn [app length Nat.add]. rewrite (unescape_pair _ 114 13 _ _ eq_refl).
    now rewrite IH. }
  destruct (Z.eqb_spec c 9) as [->|H9].
  { cbn [app length Nat.add]. rewrite (unescape_pair _ 116 9 _ _ eq_refl).
    now rewrite IH. }
  cbn [app length Nat.add]. rewrite unescape_plain by assumption. now rewrite IH.
Qed.

Lemma cstring_length (bs : list Z) : (length (cstring bs) <= length bs)%nat.
Proof.
  induction bs as [|b bs IH]; [reflexivity|].
  cbn [cstring]. destruct (b =? 0); cbn [length]; lia.
Qed.

Lemma read_file_found (w : world) (sock : Z) (filename bytes : list Z) :
  file_at w (files_path filename) = Some bytes ->
  read_file w sock filename
  = Ret (send_response sock OK_200 JSON
           (lit "{'content':'" ++ escape (cstring bytes) ++ lit "'}")).
Proof.
  intros Hfile. unfold read_file. rewrite Hfile.
  rewrite store_fits; [reflexivity|].
  rewrite !length_app.
  change (length (lit "{'content':'")) with 12%nat.
  change (length (lit "'}")) with 2%nat.
  pose proof (escape_length (cstring bytes)). pose proof (cstring_length bytes). lia.
Qed.

(** X13. What [read_file] answers. On a path that cannot be opened: 404
    and an empty content. On a regular file: 200 and the content up to its
    first NUL, escaped, between the fixed opening and closing; the escaped
    text never outgrows the allocation of twice the file size plus 1024
    bytes. On a directory, which [fopen] opens and where [fread] delivers
    nothing: 200 and an empty content when [ftell] gives 0, and no defined
    result otherwise, since the function, which tests neither [ftell] nor
    [fread], then reads bytes that were never written or stores the NUL
    outside the allocation. *)
Theorem read_file_answers (w : world) (sock : Z) (filename : list Z) :
  match file_at w (files_path filename), dir_at w (files_path filename) with
  | Some bytes, _ =>
    read_file w sock filename
    = Ret (send_response sock OK_200 JSON
             (lit "{'content':'" ++ escape (cstring bytes) ++ lit "'}"))
  | None, Some size =>
    read_file w sock filename
    = if size =? 0
      then Ret (send_response sock OK_200 JSON (lit "{'content':''}"))
      else Undef
  | None, None =>
    read_file w sock filename
    = Ret (send_response sock (lit "404 Not Found") JSON (lit "{'content':''}"))
  end.
Proof.
  destruct (file_at w (files_path filename)) as [bytes|] eqn:Hfile.
  - now apply read_file_found.
  - unfold read_file. cbv zeta. rewrite Hfile.
    destruct (dir_at w (files_path filename)) as [size|]; [|reflexivity].
    destruct (Z.eqb_spec size 0) as [->|Hsize]; reflexivity.
Qed.

(** On the sample store: the file, the directory, and a name that is
    neither. *)
Example read_file_sample :
  read_file sample_world 4 (lit "notes.md")
  = Ret (send_response 4 OK_200 JSON (lit "{'content':'say \'hi\'\n'}"))
  /\ read_file sample_world 4 (lit "tmp") = Undef
  /\ read_file sample_world 4 (lit "none.md")
     = Ret (send_response 4 (lit "404 Not Found") JSON (lit "{'content':''}")).
Proof. repeat split; vm_compute; reflexivity. Qed.

(** Where [write_file] ends the content. *)
Lemma escape_head_not_brace (s tail : list Z) :
  match s with c :: _ => (c =? 125) = false | [] => True end ->
  starts_with [125] (escape s ++ 34 :: tail) = false.
Proof.
  destruct s as [|c s]; [reflexivity|]. intros Hc. cbn [escape].
  destruct ((c =? 34) || (c =? 92)); [reflexivity|].
  destruct (c =? 10); [reflexivity|].
  destruct (c =? 13); [reflexivity|].
  destruct (c =? 9); [reflexivity|].
  cbn [app starts_with]. rewrite Z.eqb_sym, Hc. reflexivity.
Qed.

Lemma closer_after_escape (s rest : list Z) :
  quote_brace_free s = true ->
  strstr (escape s ++ 34 :: 125 :: rest) [34; 125] = Some (34 :: 125 :: rest).
Proof.
  induction s as [|c s IH]; intros Hfree.
  - cbn [escape app]. now rewrite strstr_here by reflexivity.
  - cbn [quote_brace_free] in Hfree. apply andb_prop in Hfree.
    destruct Hfree as [Hc Hfree]. apply negb_true_iff in Hc.
    specialize (IH Hfree). cbn [escape].
    destruct (Z.eqb_spec c 34) as [->|H34].
    { cbn [orb app]. rewrite strstr_skip by reflexivity.
      rewrite strstr_skip; [exact IH|].
      cbn [starts_with]. change (34 =? 34) with true. cbn [andb].
      apply escape_head_not_brace.
      destruct s as [|d s]; [exact I|].
      change (34 =? 34) with true in Hc. exact Hc. }
    assert (Hskip : forall b t, b <> 34 -> strstr (b :: t) [34; 125] = strstr t [34; 125]).
    { intros b t Hb. apply strstr_skip. cbn [starts_with].
      apply Z.eqb_neq in Hb. rewrite Z.eqb_sym, Hb. reflexivity. }
    destruct (Z.eqb_spec c 92) as [->|H92].
    { cbn [orb app]. rewrite (Hskip 92) by discriminate.
      rewrite (Hskip 92) by discriminate. exact IH. }
    cbn [orb].
    destruct (Z.eqb_spec c 10) as [->|H10].
    { cbn [app]. rewrite (Hskip 92), (Hskip 110) by discriminate. exact IH. }
    destruct (Z.eqb_spec c 13) as [->|H13].
    { cbn [app]. rewrite (Hskip 92), (Hskip 114) by discriminate. exact IH. }
    destruct (Z.eqb_spec c 9) as [->|H9].
    { cbn [app]. rewrite (Hskip 92), (Hskip 116) by discriminate. exact IH. }
    cbn [app]. rewrite (Hskip c) by assumption. exact IH.
Qed.

Section Save.

Variables filename escaped : list Z.
Hypothesis filename_plain : no_quote filename = true.

Lemma save_body_content_key :
  strstr (save_body filename escaped) (lit "'content':'")
  = Some (lit "'content':'" ++ escaped ++ lit "'}").
Proof.
  unfold save_body. eval_lits. fold dquote. scan.
  now rewrite strstr_here by reflexivity.
Qed.

Lemma save_body_filename_key :
  strstr (save_body filename escaped) (lit "'filename':'")
  = Some (lit "'filename':'" ++ filename ++ lit "','content':'" ++ escaped ++ lit "'}").
Proof.
  unfold save_body. eval_lits. fold dquote. scan.
  now rewrite strstr_here by reflexivity.
Qed.

End Save.

Lemma files_path_whole (filename : list Z) :
  Z.of_nat (length filename) < 256 ->
  files_path filename = lit "./files/" ++ filename.
Proof.
  intros H. unfold files_path. apply truncate_fits. rewrite length_app.
  change (length (lit "./files/")) with 8%nat. lia.
Qed.

Lemma write_file_saves (w : world) (sock : Z) (filename content : list Z) :
  no_quote filename = true ->
  Z.of_nat (length filename) < 256 ->
  quote_brace_free content = true ->
  writable w (lit "./files/" ++ filename) = true ->
  write_file w sock (save_body filename (escape content))
  = Ret (WriteFile (lit "./files/" ++ filename) content
           :: send_response sock OK_200 JSON (lit "{'success':true}")).
Proof.
  intros Hplain Hlen Hfree Hw. unfold write_file.
  rewrite save_body_content_key, save_body_filename_key by assumption.
  eval_lits. cbn [app skipn]. fold dquote.
  rewrite strchr_value by assumption.
  rewrite span_value, store_fits by assumption. cbn [bind].
  rewrite files_path_whole by assumption. rewrite Hw.
  unfold dquote. rewrite closer_after_escape by assumption.
  rewrite length_app. cbn [length].
  replace (length (escape content) + 2 - 2)%nat with (length (escape content)) by lia.
  now rewrite unescape_escape.
Qed.

(** X14. Saving what was read restores the content. When [read_file]
    finds a file whose content, up to its first NUL, has no double quote
    directly followed by a closing brace, the escaped text of its answer,
    posted back under a file name of fewer than 256 bytes without double
    quote that can be opened for writing, makes [write_file] write exactly
    that content to that file and answer 200. *)
Theorem saving_what_was_read_restores_it (w : world) (sock : Z)
  (source target bytes : list Z) :
  file_at w (files_path source) = Some bytes ->
  quote_brace_free (cstring bytes) = true ->
  no_quote target = true ->
  Z.of_nat (length target) < 256 ->
  writable w (lit "./files/" ++ target) = true ->
  exists escaped,
    read_file w sock source
    = Ret (send_response sock OK_200 JSON
             (lit "{'content':'" ++ escaped ++ lit "'}"))
    /\ write_file w sock (save_body target escaped)
       = Ret (WriteFile (lit "./files/" ++ target) (cstring bytes)
                :: send_response sock OK_200 JSON (lit "{'success':true}")).
Proof.
  intros Hfile Hfree Hplain Hlen Hw. exists (escape (cstring bytes)). split.
  - now apply read_file_found.
  - now apply write_file_saves.
Qed.

Lemma saving_what_was_read_restores_it_witness :
  exists escaped,
    write_file sample_world 4 (save_body (lit "copy.md") escaped)
    = Ret (WriteFile (lit "./files/copy.md") (lit "say 'hi'" ++ [10])
             :: send_response 4 OK_200 JSON (lit "{'success':true}")).
Proof.
  destruct (saving_what_was_read_restores_it sample_world 4 (lit "notes.md")
              (lit "copy.md") (lit "say 'hi'" ++ [10]))
    as (escaped & _ & H).
  - reflexivity.
  - reflexivity.
  - reflexivity.
  - vm_compute. reflexivity.
  - reflexivity.
  - exists escaped. exact H.
Defined.

(** ** Listing and writing files *)





Lemma starts_with_split (needle hay : list Z) :
  starts_with needle hay = true ->
  hay = needle ++ skipn (length needle) hay.
Proof.
  revert hay. induction needle as [|a needle IH]; intros hay H; [reflexivity|].
  destruct hay as [|b hay]; [discriminate|].
  cbn [starts_with] in H. apply andb_prop in H. destruct H as [Hab H].
  apply Z.eqb_eq in Hab. subst b. cbn [length skipn app]. f_equal. now apply IH.
Qed.

Lemma strstr_found (hay needle p : list Z) :
  strstr hay needle = Some p -> p = needle ++ skipn (length needle) p.
Proof.
  induction hay as [|b hay IH]; cbn [strstr].
  - destruct (starts_with needle []) eqn:E; [|discriminate].
    intros H. injection H as <-. now apply starts_with_split.
  - destruct (starts_with needle (b :: hay)) eqn:E; [|exact IH].
    intros H. injection H as <-. now apply starts_with_split.
Qed.

Lemma strchr_found (s e : list Z) :
  strchr s dquote = Some e ->
  exists u rest, s = u ++ dquote :: rest /\ e = dquote :: rest /\ no_quote u = true.
Proof.
  induction s as [|b s IH]; cbn [strchr]; [discriminate|].
  destruct (Z.eqb_spec b dquote) as [->|Hb].
  - intros H. injection H as <-. exists [], s. repeat split.
  - intros H. destruct (IH H) as (u & rest & -> & -> & Hu).
    exists (b :: u), rest. repeat split.
    cbn [no_quote forallb]. fold (no_quote u). rewrite Hu.
    apply Z.eqb_neq in Hb. now rewrite Hb.
Qed.

(** X16. Whatever the body, a [write_file] that completes sends one
    response (header, then body), removes nothing, and writes at most one
    file. The file it writes is named by the body: its path is [./files/]
    followed by the text, of fewer than 256 bytes, that stands between the
    first [filename] key of the body and the next double quote, taken as
    it is, dots and slashes included, so that a name may lead out of
    [./files]; and that path could be opened for writing. A body without
    the [content] or the [filename] key is answered 400 and nothing is
    written. *)
Theorem write_file_writes_the_named_file (w : world) (sock : Z)
  (body : list Z) (effs : list effect) :
  write_file w sock body = Ret effs ->
  (exists header answer, net effs = [EvSend sock header; EvSend sock answer])
  /\ removes effs = []
  /\ (writes effs = []
      \/ exists name rest content,
           strstr body (lit "'filename':'")
           = Some (lit "'filename':'" ++ name ++ dquote :: rest)
           /\ no_quote name = true
           /\ Z.of_nat (length name) < 256
           /\ writes effs = [(lit "./files/" ++ name, content)]
           /\ writable w (lit "./files/" ++ name) = true)
  /\ (strstr body (lit "'content':'") = None
      \/ strstr body (lit "'filename':'") = None ->
      effs = send_response sock (lit "400 Bad Request") JSON
               (lit "{'error':'Invalid request'}")).
Proof.
  unfold write_file, bind. intros H.
  destruct (strstr body (lit "'content':'")) as [content_start|] eqn:Hc;
    [destruct (strstr body (lit "'filename':'")) as [filename_start|] eqn:Hf|].
  - apply strstr_found in Hf.
    change (length (lit "'filename':'")) with 12%nat in Hf.
    destruct (strchr (skipn 12 filename_start) dquote) as [filename_end|] eqn:He;
      [|discriminate].
    destruct (strchr_found _ _ He) as (name & rest & Hname & -> & Hplain).
    rewrite Hname, span_value in H.
    unfold store, strlen in H.
    destruct (Z.ltb_spec (Z.of_nat (length name)) 256) as [Hlen|]; [|discriminate].
    rewrite files_path_whole in H by assumption.
    destruct (writable w (lit "./files/" ++ name)) eqn:Hw.
    + destruct (strstr (skipn 11 content_start) (lit "'}")) as [content_end|];
        [|discriminate].
      apply ret_inj in H. subst effs. split; [eexists; eexists; reflexivity|].
      split; [reflexivity|]. split; [|intros [?|?]; discriminate].
      right. exists name, rest. eexists.
      split; [rewrite Hf at 1; now rewrite Hname|].
      split; [exact Hplain|]. split; [exact Hlen|].
      split; [reflexivity | exact Hw].
    + apply ret_inj in H. subst effs. split; [eexists; eexists; reflexivity|].
      split; [reflexivity|]. split; [now left | intros [?|?]; discriminate].
  - apply ret_inj in H. subst effs. split; [eexists; eexists; reflexivity|].
    split; [reflexivity|]. split; [now left | reflexivity].
  - apply ret_inj in H. subst effs. split; [eexists; eexists; reflexivity|].
    split; [reflexivity|]. split; [now left | reflexivity].
Qed.

(** A save under the name [../notes.md] writes beside [./files], and a
    body without the [filename] key writes nothing. *)
Lemma write_file_writes_the_named_file_witness :
  (exists name rest content,
     strstr (save_body (lit "../notes.md") (lit "hi")) (lit "'filename':'")
     = Some (lit "'filename':'" ++ name ++ dquote :: rest)
     /\ no_quote name = true
     /\ writes (WriteFile (lit "./files/../notes.md") (lit "hi")
                  :: send_response 4 OK_200 JSON (lit "{'success':true}"))
        = [(lit "./files/" ++ name, content)])
  /\ removes (send_response 4 (lit "400 Bad Request") JSON
                (lit "{'error':'Invalid request'}")) = [].
Proof.
  split.
  - destruct (write_file_writes_the_named_file sample_world 4
                (save_body (lit "../notes.md") (lit "hi"))
                (WriteFile (lit "./files/../notes.md") (lit "hi")
                   :: send_response 4 OK_200 JSON (lit "{'success':true}")))
      as (_ & _ & [Hnone|(name & rest & content & Hkey & Hplain & _ & Hw & _)] & _).
    + reflexivity.
    + discriminate Hnone.
    + exists name, rest, content.
      split; [exact Hkey|]. split; [exact Hplain | exact Hw].
  - apply (write_file_writes_the_named_file sample_world 4 (lit "{'content':'x'}")).
    reflexivity.
Defined.

(** ** Requests *)

Lemma decode_encoded_byte (b : Z) :
  is_byte b = true ->
  to_uchar (strtol_hex2 (hex_char (b / 16)) (hex_char (b mod 16))) = b.
Proof.
  intros Hb. apply Z.eqb_eq.
  apply (forall_bytes
           (fun b => to_uchar (strtol_hex2 (hex_char (b / 16)) (hex_char (b mod 16)))
                     =? b));
    [vm_compute; reflexivity | assumption].
Qed.

Lemma encoded_byte_plain (b : Z) :
  is_byte b = true ->
  negb (isspace (hex_char (b / 16))) && negb (isspace (hex_char (b mod 16)))
  && negb (hex_char (b / 16) =? 38) && negb (hex_char (b mod 16) =? 38)
  && negb (hex_char (b / 16) =? 0) && negb (hex_char (b mod 16) =? 0) = true.
Proof.
  apply (forall_bytes
           (fun b =>
              negb (isspace (hex_char (b / 16))) && negb (isspace (hex_char (b mod 16)))
              && negb (hex_char (b / 16) =? 38) && negb (hex_char (b mod 16) =? 38)
              && negb (hex_char (b / 16) =? 0) && negb (hex_char (b mod 16) =? 0))).
  vm_compute. reflexivity.
Qed.

Lemma text_bytes_cons (b : Z) (s : list Z) :
  text_bytes (b :: s) = true ->
  is_byte b = true /\ b <> 0 /\ text_bytes s = true.
Proof.
  cbn [text_bytes forallb]. intros H. apply andb_prop in H. destruct H as [Hb Hs].
  apply andb_prop in Hb. destruct Hb as [Hb Hz].
  apply negb_true_iff, Z.eqb_neq in Hz. auto.
Qed.

Lemma url_decode_percent_encode (s : list Z) :
  text_bytes s = true -> url_decode (percent_encode s) = s.
Proof.
  induction s as [|b s IH]; [reflexivity|]. intros H.
  apply text_bytes_cons in H. destruct H as (Hb & _ & Hs).
  change (percent_encode (b :: s))
    with (37 :: hex_char (b / 16) :: hex_char (b mod 16) :: percent_encode s).
  cbn [url_decode]. change (37 =? 43) with false. cbv iota zeta.
  change (37 =? 37) with true. cbv iota.
  now rewrite decode_encoded_byte, IH.
Qed.

Lemma cstring_text (s : list Z) : text_bytes s = true -> cstring s = s.
Proof.
  induction s as [|b s IH]; [reflexivity|]. intros H.
  apply text_bytes_cons in H. destruct H as (_ & Hz & Hs).
  cbn [cstring]. apply Z.eqb_neq in Hz. rewrite Hz. now rewrite IH.
Qed.

Lemma percent_encode_plain (s : list Z) :
  text_bytes s = true ->
  no_space (percent_encode s) = true
  /\ scan_name (percent_encode s) = percent_encode s
  /\ no_nul (percent_encode s) = true.
Proof.
  induction s as [|b s IH]; [repeat split|]. intros H.
  apply text_bytes_cons in H. destruct H as (Hb & _ & Hs).
  destruct (IH Hs) as (IH1 & IH2 & IH3).
  pose proof (encoded_byte_plain b Hb) as Hp.
  repeat (apply andb_prop in Hp; destruct Hp as [Hp ?]).
  change (percent_encode (b :: s))
    with (37 :: hex_char (b / 16) :: hex_char (b mod 16) :: percent_encode s).
  repeat split.
  - cbn [no_space forallb]. change (negb (isspace 37)) with true.
    cbn [andb]. fold (no_space (percent_encode s)).
    now rewrite Hp, H3, IH1.
  - cbn [scan_name]. change (37 =? 38) with false. cbv iota.
    apply negb_true_iff in H1, H2. now rewrite H2, H1, IH2.
  - cbn [no_nul forallb]. change (negb (37 =? 0)) with true.
    cbn [andb]. fold (no_nul (percent_encode s)).
    now rewrite H0, H, IH3.
Qed.

Lemma percent_encode_length (s : list Z) :
  length (percent_encode s) = (3 * length s)%nat.
Proof.
  induction s as [|b s IH]; [reflexivity|].
  change (percent_encode (b :: s))
    with (37 :: hex_char (b / 16) :: hex_char (b mod 16) :: percent_encode s).
  cbn [length]. lia.
Qed.

Lemma take_word_to_space (word rest : list Z) :
  no_space word = true -> take_word (word ++ 32 :: rest) = (word, 32 :: rest).
Proof.
  induction word as [|b word IH]; [reflexivity|].
  cbn [no_space forallb]. intros H. apply andb_prop in H. destruct H as [Hb Hw].
  apply negb_true_iff in Hb. cbn [app take_word]. rewrite Hb.
  fold (no_space word) in Hw. now rewrite (IH Hw).
Qed.

Lemma no_space_app (s t : list Z) : no_space (s ++ t) = no_space s && no_space t.
Proof. apply forallb_app. Qed.

Lemma cstring_app (s t : list Z) :
  no_nul s = true -> cstring (s ++ t) = s ++ cstring t.
Proof.
  induction s as [|b s IH]; [reflexivity|].
  cbn [no_nul forallb]. intros H. apply andb_prop in H. destruct H as [Hb Hs].
  apply negb_true_iff in Hb. cbn [app cstring]. rewrite Hb. f_equal. now apply IH.
Qed.

Lemma requested_name_encoded (name : list Z) :
  text_bytes name = true ->
  name <> [] ->
  3 * Z.of_nat (length name) < 256 ->
  requested_name (file_url name) = Ret name.
Proof.
  intros Htext Hne Hlen. unfold requested_name, file_url.
  destruct (percent_encode_plain name Htext) as (_ & Hscan & _).
  eval_lits. cbn [app skipn]. rewrite Hscan.
  assert (Hfits : Z.of_nat (length (percent_encode name)) < 256).
  { rewrite percent_encode_length. lia. }
  destruct name as [|b name]; [contradiction|].
  remember (percent_encode (b :: name)) as enc eqn:Henc.
  destruct enc as [|e enc']; [discriminate Henc|].
  rewrite store_fits by exact Hfits. cbn [bind].
  rewrite Henc. now rewrite url_decode_percent_encode, cstring_text.
Qed.

Lemma skip_spaces_word (word rest : list Z) :
  no_space word = true -> word <> [] -> skip_spaces (word ++ rest) = word ++ rest.
Proof.
  destruct word as [|b word]; [contradiction|]. intros H _.
  cbn [no_space forallb] in H. apply andb_prop in H. destruct H as [Hb _].
  apply negb_true_iff in Hb. cbn [app skip_spaces]. now rewrite Hb.
Qed.

Lemma scan_word_to_space (word rest : list Z) :
  no_space word = true -> word <> [] ->
  scan_word (word ++ 32 :: rest) = (Some word, 32 :: rest).
Proof.
  intros Hsp Hne. unfold scan_word.
  rewrite skip_spaces_word, take_word_to_space by assumption.
  now destruct word.
Qed.

(** A request line with both words in place reaches the chain with
    both arrays written. *)
Lemma handle_http_client_parsed (w : world) (sock : Z) (method path rest : list Z) :
  no_space method = true -> no_nul method = true -> method <> [] ->
  Z.of_nat (length method) < 16 ->
  no_space path = true -> no_nul path = true -> path <> [] ->
  Z.of_nat (length path) < 512 ->
  handle_http_client w sock (request method path rest)
  = (answer <- route w sock (cstring (request method path rest)) method (Ret path) ;;
     Ret (answer ++ [Net (EvClose sock)])).
Proof.
  intros Hm1 Hm2 Hm3 Hm4 Hp1 Hp2 Hp3 Hp4. unfold handle_http_client.
  destruct (Z.leb_spec (Z.of_nat (length (request method path rest))) 0) as [H0|_].
  { unfold request in H0. rewrite length_app in H0. cbn [length] in H0. lia. }
  cbv zeta.
  assert (Hbuf : cstring (request method path rest)
                 = method ++ 32 :: path ++ 32 :: cstring rest).
  { unfold request. rewrite cstring_app by assumption.
    change (cstring (32 :: path ++ 32 :: rest))
      with (32 :: cstring (path ++ 32 :: rest)).
    now rewrite cstring_app by assumption. }
  rewrite Hbuf at 1. rewrite scan_word_to_space by assumption.
  change (scan_word (32 :: path ++ 32 :: cstring rest))
    with (match take_word (skip_spaces (path ++ 32 :: cstring rest)) with
          | ([], r) => (None, r)
          | (word, r) => (Some word, r)
          end).
  fold (scan_word (path ++ 32 :: cstring rest)).
  rewrite scan_word_to_space by assumption. cbn [fst].
  rewrite !store_fits by assumption. cbn [bind fst snd]. reflexivity.
Qed.

(** X17. Every file name can be asked for. For a name of 1 to 85 bytes,
    none of them NUL, the request [GET /api/file?name=] followed by the
    name with every byte written as a percent sign and two hex digits does
    what [read_file] does for exactly that name, dots and slashes
    included, and where [read_file] answers, the socket is closed after
    the answer. *)
Theorem get_file_by_encoded_name (w : world) (sock : Z) (name rest : list Z) :
  text_bytes name = true ->
  name <> [] ->
  3 * Z.of_nat (length name) < 256 ->
  handle_http_client w sock (request (lit "GET") (file_url name) rest)
  = (answer <- read_file w sock name ;; Ret (answer ++ [Net (EvClose sock)])).
Proof.
  intros Htext Hne Hlen.
  destruct (percent_encode_plain name Htext) as (Hsp & _ & Hnul).
  rewrite handle_http_client_parsed; try reflexivity; try discriminate.
  - unfold route. change (streq (lit "GET") (lit "OPTIONS")) with false.
    change (streq (lit "GET") (lit "GET")) with true. cbv iota. cbn [bind].
    assert (Hroute : streq (file_url name) (lit "/") = false
                     /\ starts_with (lit "/api/files") (file_url name) = false
                     /\ starts_with (lit "/api/file?name=") (file_url name) = true).
    { destruct name as [|b name]; [contradiction|]. repeat split; reflexivity. }
    destruct Hroute as (H1 & H2 & H3). rewrite H1, H2, H3.
    rewrite requested_name_encoded by assumption. cbn [bind]. reflexivity.
  - unfold file_url. rewrite no_space_app, Hsp. reflexivity.
  - unfold file_url. rewrite no_nul_app, Hnul. reflexivity.
  - unfold file_url. rewrite length_app, percent_encode_length.
    change (length (lit "/api/file?name=")) with 15%nat. lia.
Qed.

Lemma get_file_by_encoded_name_witness :
  handle_http_client sample_world 4
    (request (lit "GET") (file_url (lit "notes.md")) (lit "HTTP/1.1" ++ crlf ++ crlf))
  = Ret (send_response 4 OK_200 JSON (lit "{'content':'say \'hi\'\n'}")
           ++ [Net (EvClose 4)])
  /\ handle_http_client sample_world 4
       (request (lit "GET") (file_url (lit "tmp")) (lit "HTTP/1.1" ++ crlf ++ crlf))
     = Undef.
Proof.
  split.
  - rewrite (get_file_by_encoded_name sample_world 4 (lit "notes.md")
               (lit "HTTP/1.1" ++ crlf ++ crlf)).
    + vm_compute. reflexivity.
    + reflexivity.
    + discriminate.
    + vm_compute. reflexivity.
  - rewrite (get_file_by_encoded_name sample_world 4 (lit "tmp")
               (lit "HTTP/1.1" ++ crlf ++ crlf)).
    + vm_compute. reflexivity.
    + reflexivity.
    + discriminate.
    + vm_compute. reflexivity.
Defined.

(** X18. A [DELETE] of [/api/file?name=] followed by the encoded name
    removes the file of exactly that name under [./files/] when [remove]
    succeeds on it and answers 200, and otherwise removes nothing and
    answers 404; either way it writes nothing and closes the socket. *)
Theorem delete_file_by_encoded_name (w : world) (sock : Z) (name rest : list Z) :
  text_bytes name = true ->
  name <> [] ->
  3 * Z.of_nat (length name) < 256 ->
  exists effs,
    handle_http_client w sock (request (lit "DELETE") (file_url name) rest)
    = Ret (effs ++ [Net (EvClose sock)])
    /\ writes effs = []
    /\ if removable w (lit "./files/" ++ name)
       then effs = RemoveFile (lit "./files/" ++ name)
                     :: send_response sock OK_200 JSON (lit "{'success':true}")
       else effs = send_response sock (lit "404 Not Found") JSON
                     (lit "{'error':'File not found'}").
Proof.
  intros Htext Hne Hlen.
  destruct (percent_encode_plain name Htext) as (Hsp & _ & Hnul).
  exists (delete_file_handler w sock name). split; [|split].
  - rewrite handle_http_client_parsed; try reflexivity; try discriminate.
    + unfold route. change (streq (lit "DELETE") (lit "OPTIONS")) with false.
      change (streq (lit "DELETE") (lit "GET")) with false.
      change (streq (lit "DELETE") (lit "POST")) with false.
      change (streq (lit "DELETE") (lit "DELETE")) with true. cbv iota. cbn [bind].
      assert (H3 : starts_with (lit "/api/file?name=") (file_url name) = true)
        by reflexivity.
      rewrite H3. rewrite requested_name_encoded by assumption. reflexivity.
    + unfold file_url. rewrite no_space_app, Hsp. reflexivity.
    + unfold file_url. rewrite no_nul_app, Hnul. reflexivity.
    + unfold file_url. rewrite length_app, percent_encode_length.
      change (length (lit "/api/file?name=")) with 15%nat. lia.
  - unfold delete_file_handler. now destruct (removable w (files_path name)).
  - unfold delete_file_handler. rewrite files_path_whole by lia.
    now destruct (removable w (lit "./files/" ++ name)).
Qed.

Lemma delete_file_by_encoded_name_witness :
  exists effs,
    handle_http_client sample_world 4
      (request (lit "DELETE") (file_url (lit "notes.md")) (lit "HTTP/1.1" ++ crlf ++ crlf))
    = Ret (effs ++ [Net (EvClose 4)])
    /\ writes effs = [].
Proof.
  destruct (delete_file_by_encoded_name sample_world 4 (lit "notes.md")
              (lit "HTTP/1.1" ++ crlf ++ crlf)) as (effs & H1 & H2 & _).
  - reflexivity.
  - discriminate.
  - vm_compute. reflexivity.
  - exists effs. split; [exact H1 | exact H2].
Defined.

(** X19. A [POST] to a path that starts with [/api/file] whose bytes hold
    no blank line is not answered: the socket is closed with nothing sent
    and nothing written. *)
Theorem post_without_blank_line_is_dropped (w : world) (sock : Z)
  (path rest : list Z) :
  no_space path = true -> no_nul path = true ->
  Z.of_nat (length path) < 512 ->
  starts_with (lit "/api/file") path = true ->
  strstr (cstring (request (lit "POST") path rest)) (crlf ++ crlf) = None ->
  handle_http_client w sock (request (lit "POST") path rest)
  = Ret [Net (EvClose sock)].
Proof.
  intros Hsp Hnul Hlen Hpath Hblank.
  rewrite handle_http_client_parsed; try reflexivity; try discriminate;
    try assumption.
  - unfold route. change (streq (lit "POST") (lit "OPTIONS")) with false.
    change (streq (lit "POST") (lit "GET")) with false.
    change (streq (lit "POST") (lit "POST")) with true. cbv iota. cbn [bind].
    now rewrite Hpath, Hblank.
  - intros ->. discriminate Hpath.
Qed.

Lemma post_without_blank_line_is_dropped_witness :
  handle_http_client sample_world 4
    (request (lit "POST") (lit "/api/file") (lit "HTTP/1.1" ++ crlf ++ lit "Host: x"))
  = Ret [Net (EvClose 4)].
Proof.
  apply (post_without_blank_line_is_dropped sample_world 4 (lit "/api/file")
           (lit "HTTP/1.1" ++ crlf ++ lit "Host: x")); reflexivity.
Defined.

Lemma one_answer_response (sock : Z) (status content_type body : list Z) :
  one_answer sock (send_response sock status content_type body).
Proof. exists status, content_type, body. now left. Qed.

Lemma list_files_one_answer (w : world) (sock : Z) (effs : list effect) :
  list_files w sock = Ret effs -> one_answer sock effs.
Proof.
  unfold list_files. intros H. exec_inv H. exec_inv H.
  apply ret_inj in H. subst effs. apply one_answer_response.
Qed.

Lemma read_file_one_answer (w : world) (sock : Z) (filename : list Z)
  (effs : list effect) :
  read_file w sock filename = Ret effs -> one_answer sock effs.
Proof.
  unfold read_file, bind. intros H.
  break_match_in H; apply ret_inj in H; subst effs; apply one_answer_response.
Qed.

Lemma write_file_one_answer (w : world) (sock : Z) (body : list Z)
  (effs : list effect) :
  write_file w sock body = Ret effs -> one_answer sock effs.
Proof.
  unfold write_file, bind. intros H.
  break_match_in H; apply ret_inj in H; subst effs;
    try apply one_answer_response.
  eexists. eexists. eexists. right. left. eexists. eexists. reflexivity.
Qed.

Lemma delete_file_one_answer (w : world) (sock : Z) (filename : list Z) :
  one_answer sock (delete_file_handler w sock filename).
Proof.
  unfold delete_file_handler. destruct (removable w (files_path filename)).
  - eexists. eexists. eexists. right. right. eexists. reflexivity.
  - apply one_answer_response.
Qed.

Lemma send_html_one_answer (w : world) (sock : Z) : one_answer sock (send_html w sock).
Proof. unfold send_html. destruct (editor_html w); apply one_answer_response. Qed.

(** X20. A request that [handle_http_client] handles to the end is
    answered at most once and then closed: what it does is one response,
    with at most one file written or removed before it, or nothing at all,
    followed by the closing of the socket. *)
Theorem http_request_answered_once (w : world) (sock : Z) (received : list Z)
  (effs : list effect) :
  handle_http_client w sock received = Ret effs ->
  exists before,
    effs = before ++ [Net (EvClose sock)]
    /\ (before = [] \/ one_answer sock before).
Proof.
  unfold handle_http_client. intros H.
  destruct (Z.of_nat (length received) <=? 0).
  { apply ret_inj in H. subst effs. exists []. split; [reflexivity | now left]. }
  destruct (scan_word (cstring received)) as [first_word after].
  exec_inv H. destruct (fst a) as [method|]; [|discriminate].
  exec_inv H. apply ret_inj in H. subst effs.
  exists a0. split; [reflexivity|]. clear Ha.
  unfold route in Ha0.
  destruct (streq method (lit "OPTIONS")).
  { apply ret_inj in Ha0. subst a0. right. apply one_answer_response. }
  destruct (streq method (lit "GET")).
  { exec_inv Ha0. destruct (streq a1 (lit "/")).
    { apply ret_inj in Ha0. subst a0. right. apply send_html_one_answer. }
    destruct (starts_with (lit "/api/files") a1).
    { right. now apply list_files_one_answer in Ha0. }
    destruct (starts_with (lit "/api/file?name=") a1).
    { exec_inv Ha0. right. now apply read_file_one_answer in Ha0. }
    apply ret_inj in Ha0. subst a0. right. apply one_answer_response. }
  destruct (streq method (lit "POST")).
  { exec_inv Ha0. destruct (starts_with (lit "/api/file") a1).
    - destruct (strstr (cstring received) (crlf ++ crlf)).
      + right. now apply write_file_one_answer in Ha0.
      + apply ret_inj in Ha0. subst a0. now left.
    - apply ret_inj in Ha0. subst a0. right. apply one_answer_response. }
  destruct (streq method (lit "DELETE")).
  { exec_inv Ha0. destruct (starts_with (lit "/api/file?name=") a1).
    - exec_inv Ha0. apply ret_inj in Ha0. subst a0. right.
      apply delete_file_one_answer.
    - apply ret_inj in Ha0. subst a0. right. apply one_answer_response. }
  apply ret_inj in Ha0. subst a0. right. apply one_answer_response.
Qed.

Lemma http_request_answered_once_witness :
  exists before,
    send_response 4 (lit "404 Not Found") (lit "text/html")
      (lit "<h1>404 Not Found</h1>") ++ [Net (EvClose 4)]
    = before ++ [Net (EvClose 4)]
    /\ (before = [] \/ one_answer 4 before).
Proof.
  apply (http_request_answered_once sample_world 4
           (lit "PUT /api/file HTTP/1.1" ++ crlf ++ crlf)).
  reflexivity.
Defined.

(** ** Who is linked *)

Lemma others_sockets (sock s : Z) (clients : list Client) :
  In s (sockets (others sock clients)) <-> In s (sockets clients) /\ s <> sock.
Proof.
  unfold sockets, others. rewrite !in_map_iff. split.
  - intros (c & Hc & Hin). apply filter_In in Hin. destruct Hin as [Hin Hne].
    apply negb_true_iff, Z.eqb_neq in Hne. split; [now exists c | congruence].
  - intros [(c & Hc & Hin) Hne]. exists c. split; [assumption|].
    apply filter_In. split; [assumption|].
    apply negb_true_iff, Z.eqb_neq. congruence.
Qed.

Lemma perform_connected (history : list action) (clients clients' : list Client)
  (a : action) (evs : list event) :
  NoDup (sockets clients) ->
  (forall s, In s (sockets clients) <-> connected history s = true) ->
  enabled clients a = true ->
  perform clients a = Ret (clients', evs) ->
  forall s, In s (sockets clients') <-> connected (a :: history) s = true.
Proof.
  intros Hnd Hinv Hen Hrun s.
  destruct a as [sock r_name r_color|sock|sock received|sock];
    cbn [perform enabled] in Hen, Hrun; cbn [connected].
  - unfold add_client in Hrun. apply ret_inj in Hrun.
    injection Hrun as <- _. cbn [sockets map socket set_color set_active new_client].
    fold (sockets clients). rewrite orb_true_iff, Z.eqb_eq, <- Hinv.
    cbn [In]. reflexivity.
  - destruct (client_of sock clients) as [client|]; [|discriminate].
    exec_inv Hrun. apply ret_inj in Hrun. injection Hrun as <- _. apply Hinv.
  - destruct (client_of sock clients) as [client|]; [|discriminate].
    exec_inv Hrun. apply ret_inj in Hrun. injection Hrun as <- _.
    rewrite store_back_sockets. apply Hinv.
  - destruct (client_of sock clients) as [client|] eqn:Hc; [|discriminate].
    apply client_of_some in Hc. destruct Hc as [Hin Hsock].
    unfold leave in Hrun. exec_inv Hrun.
    assert (Hs : In (socket client) (sockets clients))
      by (unfold sockets; now apply in_map).
    unfold remove_client in Hrun. rewrite (unlink_others _ _ Hnd Hs) in Hrun.
    apply ret_inj in Hrun. injection Hrun as <- _.
    rewrite others_sockets, andb_true_iff, negb_true_iff, Z.eqb_neq, <- Hinv.
    rewrite Hsock. split; intros [H1 H2]; split; auto.
Qed.

(** X21. In every state the server reaches through actions that all
    have a defined result, the linked clients are on distinct sockets, and
    a socket has a linked client exactly when a connection on it was
    accepted and has not hung up since: a client that left is no longer in
    the list, and no other client is lost. Nothing is said of the list
    after an action without a defined result, such as the copy of a name
    that overruns [username[64]] or [current_file[256]]. *)
Theorem linked_are_the_connected (history : list action) (clients : list Client) :
  reach history (Ret clients) ->
  NoDup (sockets clients)
  /\ forall s, In s (sockets clients) <-> connected history s = true.
Proof.
  intros Hreach. remember (Ret clients) as state eqn:Hstate.
  revert clients Hstate.
  induction Hreach as [|history clients0 a Hreach IH Hen]; intros clients Hstate.
  - apply ret_inj in Hstate. subst clients.
    split; [constructor|]. intros s. cbn. split; [tauto | discriminate].
  - destruct (perform clients0 a) as [[clients' evs]|] eqn:Hrun; [|discriminate].
    cbn [bind fst] in Hstate. apply ret_inj in Hstate. subst clients'.
    destruct (IH clients0 eq_refl) as [IHnd IHin]. split.
    + apply reach_well_formed in Hreach.
      now destruct (perform_well_formed _ _ _ _ _ Hreach Hen Hrun).
    + eapply perform_connected; eassumption.
Qed.

Lemma linked_are_the_connected_witness :
  In 5 (sockets [first_client]) <-> connected first_history 5 = true.
Proof.
  apply (linked_are_the_connected first_history [first_client]).
  exact reach_first.
Defined.

(** Linking a client and removing it again gives back the list:
    whatever the list, [remove_client] on the socket of a client that
    [add_client] has just linked unlinks that client and no other, leaves
    the clients that were there in their order, and closes the socket. *)
Lemma add_then_remove_restores (r : Z) (client : Client) (clients : list Client) :
  remove_client (socket client) (fst (add_client r client clients))
  = (clients, [EvLock ClientsMutex; EvClose (socket client); EvUnlock ClientsMutex]).
Proof.
  unfold add_client, remove_client. cbn [fst unlink].
  cbn [socket set_color set_active]. now rewrite Z.eqb_refl.
Qed.

(** ** From frame to dispatch *)

(** X22. A complete client frame is dispatched as its payload: when the
    bytes received are a masked frame, no longer than the receive buffer,
    of a message without NUL, that turn of the loop does what the
    dispatcher does on the message, and the loop goes on. *)
Theorem loop_turn_dispatches_masked_frame (clients : list Client) (client : Client)
  (mask message : list Z) :
  length mask = 4%nat ->
  Z.of_nat (length (masked_frame mask message)) <= BUFFER_SIZE ->
  no_nul message = true ->
  loop_turn clients client (masked_frame mask message)
  = (r <- dispatch clients client message ;; Ret (Continue, fst r, snd r)).
Proof.
  intros Hmask Hfits Hnul.
  assert (Hlen : Z.of_nat (length message) + 6
                 <= Z.of_nat (length (masked_frame mask message))).
  { unfold masked_frame. rewrite !length_app, mask_from_length, Hmask.
    destruct (Z.of_nat (length message) <? 126); cbn [length]; lia. }
  unfold BUFFER_SIZE in Hfits. unfold loop_turn.
  rewrite ws_read_frame_masked_payload by (assumption || lia). cbn [bind].
  rewrite cstring_no_nul by assumption.
  destruct (Z.leb_spec (Z.of_nat (length (masked_frame mask message))) 0) as [H0|_];
    [lia | reflexivity].
Qed.

Lemma loop_turn_dispatches_masked_frame_witness :
  loop_turn three_clients (some_client 7) (masked_frame [9; 8; 7; 6] (join_msg (lit "ann")))
  = Ret (Continue, set_username (some_client 7) (lit "ann"), own_lock (some_client 7)).
Proof.
  rewrite (loop_turn_dispatches_masked_frame three_clients (some_client 7)
             [9; 8; 7; 6] (join_msg (lit "ann"))).
  - reflexivity.
  - reflexivity.
  - vm_compute. discriminate.
  - reflexivity.
Defined.

Lemma ws_read_frame_stays_inside_witness :
  Z.land (byte_at [129; 2; 104; 105] 0) 15 <> 8
  /\ Z.of_nat (length (lit "hi")) + 2 <= Z.of_nat (length [129; 2; 104; 105])
  /\ (Z.land (byte_at [129; 2; 104; 105] 1) 128 <> 0 ->
      Z.of_nat (length (lit "hi")) + 6 <= Z.of_nat (length [129; 2; 104; 105])).
Proof.
  apply (ws_read_frame_stays_inside [129; 2; 104; 105] (lit "hi")).
  reflexivity.
Defined.

(** ** Names longer than their arrays *)

Lemma loop_turn_masked (clients : list Client) (client : Client)
  (mask message : list Z) :
  length mask = 4%nat ->
  Z.of_nat (length (masked_frame mask message)) <= BUFFER_SIZE ->
  no_nul message = true ->
  loop_turn clients client (masked_frame mask message)
  = (r <- dispatch clients client message ;; Ret (Continue, fst r, snd r)).
Proof.
  intros Hmask Hfits Hnul.
  assert (Hlen : Z.of_nat (length message) + 6
                 <= Z.of_nat (length (masked_frame mask message))).
  { unfold masked_frame. rewrite !length_app, mask_from_length, Hmask.
    destruct (Z.of_nat (length message) <? 126); cbn [length]; lia. }
  unfold BUFFER_SIZE in Hfits. unfold loop_turn.
  rewrite ws_read_frame_masked_payload by (assumption || lia). cbn [bind].
  rewrite cstring_no_nul by assumption.
  destruct (Z.leb_spec (Z.of_nat (length (masked_frame mask message))) 0) as [H0|_];
    [lia | reflexivity].
Qed.

(** A handler's turn on a client frame whose message the dispatcher has
    no defined result for: the turn is enabled, and has none either. *)
Lemma receive_masked_undef (clients : list Client) (sock : Z)
  (mask message : list Z) :
  linked sock clients = true ->
  length mask = 4%nat ->
  Z.of_nat (length (masked_frame mask message)) <= BUFFER_SIZE ->
  no_nul message = true ->
  (forall client, dispatch clients client message = Undef) ->
  enabled clients (Receive sock (masked_frame mask message)) = true
  /\ perform clients (Receive sock (masked_frame mask message)) = Undef.
Proof.
  intros Hlinked Hmask Hfits Hnul Hrun. split.
  - cbn [enabled]. rewrite Hlinked. cbn [andb].
    unfold masked_frame.
    destruct (Z.of_nat (length message) <? 126); reflexivity.
  - cbn [perform]. unfold linked in Hlinked.
    destruct (client_of sock clients) as [client|]; [|discriminate].
    rewrite loop_turn_masked by assumption.
    rewrite Hrun. reflexivity.
Qed.

Lemma no_nul_lit_app (s t : list Z) :
  no_nul s = true -> no_nul t = true -> no_nul (s ++ t) = true.
Proof. intros Hs Ht. now rewrite no_nul_app, Hs, Ht. Qed.

Lemma file_change_msg_no_nul (file : list Z) :
  no_nul file = true -> no_nul (file_change_msg file) = true.
Proof.
  intros H. unfold file_change_msg.
  repeat apply no_nul_lit_app; (assumption || reflexivity).
Qed.

Lemma file_change_kind (file : list Z) :
  no_quote file = true -> kind_of (file_change_msg file) = KFileChange.
Proof.
  intros H. unfold kind_of.
  rewrite file_change_not_join, file_change_not_content_change,
    file_change_not_cursor_move by assumption.
  cbn [found]. now rewrite file_change_is_file_change.
Qed.

Lemma dispatch_file_change_overrun (clients : list Client) (client : Client)
  (file : list Z) :
  no_quote file = true ->
  256 <= Z.of_nat (length file) ->
  dispatch clients client (file_change_msg file) = Undef.
Proof.
  intros Hplain Hlen.
  rewrite (dispatch_file_change_value clients client (file_change_msg file)
             file (lit "}")).
  - now rewrite store_overrun.
  - now apply file_change_kind.
  - now apply file_change_file_key.
  - assumption.
Qed.

Lemma uint_text_no_nul (d : Decimal.uint) : no_nul (uint_text d) = true.
Proof.
  induction d;
    match goal with
    | |- context [uint_text ?d] => rewrite (uint_text_cons d)
    end; [reflexivity | cbn [no_nul forallb]; exact IHd ..].
Qed.

Lemma fmt_int_no_nul (z : Z) : no_nul (fmt_int z) = true.
Proof.
  destruct z as [|p|p].
  - reflexivity.
  - rewrite fmt_int_pos. apply uint_text_no_nul.
  - rewrite fmt_int_neg. cbn [no_nul forallb]. apply uint_text_no_nul.
Qed.

Lemma cursor_move_msg_no_nul (uname fname : list Z) (position : Z) :
  no_nul uname = true -> no_nul fname = true ->
  no_nul (cursor_move_msg uname fname position) = true.
Proof.
  intros Hu Hf. unfold cursor_move_msg.
  repeat apply no_nul_lit_app;
    (assumption || apply fmt_int_no_nul || reflexivity).
Qed.

Lemma dispatch_cursor_move_overrun (clients : list Client) (client : Client)
  (uname fname : list Z) (position : Z) :
  no_quote uname = true ->
  no_quote fname = true ->
  INT_MIN <= position <= INT_MAX ->
  256 <= Z.of_nat (length fname) ->
  dispatch clients client (cursor_move_msg uname fname position) = Undef.
Proof.
  intros Hu Hf Hrange Hlen.
  pose proof (fmt_int_plain position) as Hp.
  unfold dispatch.
  rewrite cursor_move_not_join, cursor_move_not_content_change by assumption.
  cbn [found]. rewrite cursor_move_is_cursor_move by assumption.
  unfold on_cursor_move.
  rewrite cursor_move_position_key, cursor_move_file_key, cursor_move_username_key
    by assumption.
  unfold KEY_POSITION, KEY_FILE, KEY_USERNAME. cbn [app skipn].
  rewrite atoi_fmt_int by (assumption || reflexivity). cbn [bind].
  eval_lits. cbn [app]. fold dquote.
  rewrite strchr_value by assumption.
  rewrite span_value, store_overrun by assumption. reflexivity.
Qed.

(** C9. The palette has ten entries, and in a state the server has
    reached the colour of every linked client is the palette entry drawn
    by the [add_client] that linked it: no action with a defined result
    has changed it. But the colour is not out of a handler's reach. In
    any such state a linked client may send a [file_change] frame whose
    file name has 256 bytes or more; the turn of the loop that receives it
    is enabled, and the copy of the name into [current_file[256]], which
    has no bound, runs past the end of the array into the fields that
    follow it in the client, [cursor_pos], [color] and [active]: the turn
    has no defined result, and the server is in no state of the model. *)
Theorem color_is_kept_until_a_file_name_overruns (history : list action)
  (clients : list Client) (sock : Z) (mask file : list Z) :
  reach history (Ret clients) ->
  linked sock clients = true ->
  length mask = 4%nat ->
  no_quote file = true ->
  no_nul file = true ->
  256 <= Z.of_nat (length file) ->
  Z.of_nat (length (masked_frame mask (file_change_msg file))) <= BUFFER_SIZE ->
  length colors = 10%nat
  /\ (forall c, In c clients ->
        In (color c) colors
        /\ chosen_color history (socket c) = Some (color c))
  /\ enabled clients (Receive sock (masked_frame mask (file_change_msg file))) = true
  /\ perform clients (Receive sock (masked_frame mask (file_change_msg file))) = Undef
  /\ reach (Receive sock (masked_frame mask (file_change_msg file)) :: history) Undef.
Proof.
  intros Hreach Hlinked Hmask Hplain Hnul Hlen Hfits.
  split; [reflexivity|]. split.
  { intros c Hin. apply reach_well_formed in Hreach.
    destruct Hreach as [_ Hall]. destruct (Hall c Hin) as (_ & Hpal & Hch).
    split; assumption. }
  destruct (receive_masked_undef clients sock mask (file_change_msg file))
    as [Hen Hrun]; try assumption.
  - now apply file_change_msg_no_nul.
  - intros client. now apply dispatch_file_change_overrun.
  - split; [exact Hen|]. split; [exact Hrun|].
    apply (reach_undef history clients); assumption.
Qed.

Lemma color_is_kept_until_a_file_name_overruns_witness :
  chosen_color first_history 5 = Some (lit "#FFA07A")
  /\ enabled [first_client]
       (Receive 5 (masked_frame [1; 2; 3; 4] (file_change_msg (text_of_length 276))))
     = true
  /\ reach (Receive 5 (masked_frame [1; 2; 3; 4] (file_change_msg (text_of_length 276)))
              :: first_history) Undef.
Proof.
  destruct (color_is_kept_until_a_file_name_overruns first_history [first_client] 5
              [1; 2; 3; 4] (text_of_length 276))
    as (_ & Hcolor & Hen & _ & Hreach).
  - exact reach_first.
  - reflexivity.
  - reflexivity.
  - reflexivity.
  - reflexivity.
  - vm_compute. discriminate.
  - vm_compute. discriminate.
  - split; [|split; [exact Hen | exact Hreach]].
    destruct (Hcolor first_client) as [_ Hch]; [left; reflexivity | exact Hch].
Defined.

(** C10. In a state the server has reached every linked client has
    [active = 1], so the test [curr->active] of [broadcast_message] is
    true at every node and whether a node is sent to depends on its socket
    alone: no action with a defined result has written [active]. But
    [active] is not out of a handler's reach. In any such state a linked
    client may send a [cursor_move] frame whose file name has 256 bytes or
    more; the turn of the loop that receives it is enabled, and the copy
    of the name into [current_file[256]] with the NUL stored after it runs
    past the end of the array into the fields that follow it in the
    client, [cursor_pos], [color] and [active]: the turn has no defined
    result, and the server is in no state of the model. *)
Theorem active_is_kept_until_a_file_name_overruns (history : list action)
  (clients : list Client) (sock : Z) (mask uname fname : list Z) (position : Z) :
  reach history (Ret clients) ->
  linked sock clients = true ->
  length mask = 4%nat ->
  no_quote uname = true ->
  no_nul uname = true ->
  no_quote fname = true ->
  no_nul fname = true ->
  INT_MIN <= position <= INT_MAX ->
  256 <= Z.of_nat (length fname) ->
  Z.of_nat (length (masked_frame mask (cursor_move_msg uname fname position)))
  <= BUFFER_SIZE ->
  (forall c, In c clients ->
     active c = 1 /\ forall S, recipient S c = negb (socket c =? S))
  /\ enabled clients
       (Receive sock (masked_frame mask (cursor_move_msg uname fname position)))
     = true
  /\ perform clients
       (Receive sock (masked_frame mask (cursor_move_msg uname fname position)))
     = Undef
  /\ reach (Receive sock (masked_frame mask (cursor_move_msg uname fname position))
              :: history) Undef.
Proof.
  intros Hreach Hlinked Hmask Hu Hunul Hf Hfnul Hrange Hlen Hfits.
  split.
  { intros c Hin. apply reach_well_formed in Hreach.
    destruct Hreach as [_ Hall]. destruct (Hall c Hin) as (Hact & _).
    split; [assumption|]. intros S. unfold recipient. rewrite Hact.
    apply andb_true_r. }
  destruct (receive_masked_undef clients sock mask
              (cursor_move_msg uname fname position))
    as [Hen Hrun]; try assumption.
  - now apply cursor_move_msg_no_nul.
  - intros client. now apply dispatch_cursor_move_overrun.
  - split; [exact Hen|]. split; [exact Hrun|].
    apply (reach_undef history clients); assumption.
Qed.

Lemma active_is_kept_until_a_file_name_overruns_witness :
  active first_client = 1
  /\ enabled [first_client]
       (Receive 5 (masked_frame [1; 2; 3; 4]
                     (cursor_move_msg (lit "ann") (text_of_length 276) 7)))
     = true
  /\ reach (Receive 5 (masked_frame [1; 2; 3; 4]
                         (cursor_move_msg (lit "ann") (text_of_length 276) 7))
              :: first_history) Undef.
Proof.
  destruct (active_is_kept_until_a_file_name_overruns first_history [first_client] 5
              [1; 2; 3; 4] (lit "ann") (text_of_length 276) 7)
    as (Hactive & Hen & _ & Hreach).
  - exact reach_first.
  - reflexivity.
  - reflexivity.
  - reflexivity.
  - reflexivity.
  - reflexivity.
  - reflexivity.
  - vm_compute. intuition discriminate.
  - vm_compute. discriminate.
  - vm_compute. discriminate.
  - split; [|split; [exact Hen | exact Hreach]].
    destruct (Hactive first_client) as [Hact _]; [left; reflexivity | exact Hact].
Defined.

(** ** The editor: rendering of a row *)

Lemma checked_in_range (z : Z) : INT_MIN <= z <= INT_MAX -> checked z = Ret z.
Proof.
  intros [H1 H2]. unfold checked.
  destruct (Z.leb_spec INT_MIN z); [|lia].
  destruct (Z.leb_spec z INT_MAX); [reflexivity | lia].
Qed.

Lemma count_tabs_from (cs : list Z) (acc : Z) :
  fold_left (fun tabs c => if c =? TAB then tabs + 1 else tabs) cs acc
  = acc + count_tabs cs.
Proof.
  unfold count_tabs. revert acc.
  induction cs as [|c cs IH]; intros acc; cbn [fold_left]; [lia|].
  rewrite IH, (IH (if c =? TAB then 0 + 1 else 0)).
  destruct (c =? TAB); lia.
Qed.

Lemma count_tabs_cons (c : Z) (cs : list Z) :
  count_tabs (c :: cs) = (if c =? TAB then 1 else 0) + count_tabs cs.
Proof.
  unfold count_tabs at 1. cbn [fold_left]. rewrite count_tabs_from.
  destruct (c =? TAB); reflexivity.
Qed.

Lemma count_tabs_range (cs : list Z) :
  0 <= count_tabs cs <= Z.of_nat (length cs).
Proof.
  induction cs as [|c cs IH]; [cbv; split; discriminate|].
  rewrite count_tabs_cons. cbn [length]. destruct (c =? TAB); lia.
Qed.

Lemma tab_width (i : Z) :
  0 <= i ->
  1 <= TAB_STOP - i mod TAB_STOP <= TAB_STOP
  /\ (TAB_STOP - (i + 1) mod TAB_STOP) mod TAB_STOP = TAB_STOP - i mod TAB_STOP - 1.
Proof.
  unfold TAB_STOP. intros Hi.
  pose proof (Z.mod_pos_bound i 8 ltac:(lia)) as Hm. split; [lia|].
  destruct (Z.eq_dec (i mod 8) 7) as [E7|E7].
  - assert (H : (i + 1) mod 8 = 0).
    { rewrite Z.add_mod by lia. rewrite E7. reflexivity. }
    rewrite H, E7. reflexivity.
  - assert (H : (i + 1) mod 8 = i mod 8 + 1).
    { rewrite Z.add_mod by lia. change (1 mod 8) with 1. apply Z.mod_small. lia. }
    rewrite H. rewrite Z.mod_small by lia. lia.
Qed.

Lemma fill_to_stop_spaces (rounds : nat) (cap i : Z) :
  0 <= i ->
  (Z.to_nat ((TAB_STOP - i mod TAB_STOP) mod TAB_STOP) <= rounds)%nat ->
  i + (TAB_STOP - i mod TAB_STOP) mod TAB_STOP <= cap ->
  fill_to_stop rounds cap i
  = Ret (repeat SPACE (Z.to_nat ((TAB_STOP - i mod TAB_STOP) mod TAB_STOP))).
Proof.
  revert i.
  induction rounds as [|rounds IH]; intros i Hi Hr Hcap;
    destruct (tab_width i Hi) as [Hw Hnext]; unfold TAB_STOP in *;
    pose proof (Z.mod_pos_bound i 8 ltac:(lia)) as Hm;
    cbn [fill_to_stop]; unfold TAB_STOP; rewrite Z.rem_mod_nonneg by lia;
    destruct (Z.eqb_spec (i mod 8) 0) as [E|E];
    try (rewrite E; reflexivity);
    assert (H8 : (8 - i mod 8) mod 8 = 8 - i mod 8) by (apply Z.mod_small; lia);
    rewrite H8 in *.
  - exfalso. lia.
  - destruct (Z.ltb_spec i cap); [|lia].
    rewrite IH by (rewrite ?Hnext; lia). cbn [bind]. rewrite Hnext.
    replace (Z.to_nat (8 - i mod 8)) with (S (Z.to_nat (8 - i mod 8 - 1))) by lia.
    reflexivity.
Qed.

Lemma expand_length (cs : list Z) (i : Z) :
  0 <= i ->
  Z.of_nat (length cs) <= Z.of_nat (length (expand i cs))
  /\ Z.of_nat (length (expand i cs))
     <= Z.of_nat (length cs) + count_tabs cs * (TAB_STOP - 1).
Proof.
  revert i. induction cs as [|c cs IH]; intros i Hi.
  - cbn. lia.
  - cbn [expand]. rewrite count_tabs_cons. cbn [length].
    destruct (tab_width i Hi) as [Hw _]. unfold TAB_STOP in *.
    destruct (c =? TAB).
    + rewrite length_app, repeat_length.
      specialize (IH (i + (8 - i mod 8)) ltac:(lia)). lia.
    + cbn [length]. specialize (IH (i + 1) ltac:(lia)). lia.
Qed.

Lemma render_walk_expand (cs : list Z) (cap i : Z) :
  0 <= i ->
  i + Z.of_nat (length (expand i cs)) < cap ->
  render_walk cs cap i = Ret (expand i cs).
Proof.
  revert i. induction cs as [|c cs IH]; intros i Hi Hcap.
  - cbn [render_walk expand length] in *.
    destruct (Z.ltb_spec i cap); [reflexivity | lia].
  - cbn [render_walk expand] in *.
    destruct (tab_width i Hi) as [Hw Hnext].
    destruct (c =? TAB).
    + rewrite length_app, repeat_length in Hcap.
      destruct (Z.ltb_spec i cap); [|lia].
      rewrite fill_to_stop_spaces; rewrite ?Hnext; unfold TAB_STOP in *; try lia.
      cbn [bind]. rewrite repeat_length.
      replace (i + 1 + Z.of_nat (Z.to_nat (8 - i mod 8 - 1))) with (i + (8 - i mod 8))
        by lia.
      rewrite IH by lia. cbn [bind].
      replace (Z.to_nat (8 - i mod 8)) with (S (Z.to_nat (8 - i mod 8 - 1))) by lia.
      reflexivity.
    + cbn [length] in Hcap.
      destruct (Z.ltb_spec i cap); [|lia].
      rewrite IH by lia. reflexivity.
Qed.

Lemma editorUpdateRow_updated (r : erow) :
  8 * size r < INT_MAX ->
  editorUpdateRow r = Ret (updated r).
Proof.
  intros Hsmall. unfold editorUpdateRow, updated. cbv zeta.
  pose proof (count_tabs_range (chars r)) as Ht.
  pose proof (expand_length (chars r) 0 ltac:(lia)) as [_ He].
  unfold size, TAB_STOP, INT_MAX, INT_MIN in *.
  rewrite checked_in_range by (unfold INT_MAX, INT_MIN; lia). cbn [bind].
  rewrite checked_in_range by (unfold INT_MAX, INT_MIN; lia). cbn [bind].
  rewrite checked_in_range by (unfold INT_MAX, INT_MIN; lia). cbn [bind].
  rewrite render_walk_expand by lia. reflexivity.
Qed.

Lemma updated_idempotent (r : erow) : updated (updated r) = updated r.
Proof. reflexivity. Qed.

Lemma expand_app (a b : list Z) (i : Z) :
  expand i (a ++ b) = expand i a ++ expand (i + Z.of_nat (length (expand i a))) b.
Proof.
  revert i. induction a as [|c a IH]; intros i.
  - cbn. now rewrite Z.add_0_r.
  - cbn [app expand]. destruct (c =? TAB).
    + rewrite IH, <- app_assoc, length_app, repeat_length. do 3 f_equal.
      assert (0 <= TAB_STOP - i mod TAB_STOP)
        by (unfold TAB_STOP; pose proof (Z.mod_pos_bound i 8 ltac:(lia)); lia).
      lia.
    + rewrite IH. cbn [app length]. do 3 f_equal. lia.
Qed.

Lemma expand_no_tab (cs : list Z) (i : Z) : no_tab (expand i cs) = true.
Proof.
  revert i. induction cs as [|c cs IH]; intros i; [reflexivity|].
  cbn [expand]. destruct (c =? TAB) eqn:E.
  - unfold no_tab in *. rewrite forallb_app, IH, andb_true_r.
    apply forallb_forall. intros x Hx. apply repeat_spec in Hx. now subst x.
  - unfold no_tab in *. cbn [forallb]. now rewrite E, IH.
Qed.

Lemma expand_plain (cs : list Z) (i : Z) : no_tab cs = true -> expand i cs = cs.
Proof.
  revert i. induction cs as [|c cs IH]; intros i H; [reflexivity|].
  cbn [no_tab forallb] in H. apply andb_prop in H. destruct H as [Hc H].
  cbn [expand]. apply negb_true_iff in Hc. rewrite Hc. now rewrite IH.
Qed.

Lemma rx_walk_expand (cs : list Z) (n : nat) (rx : Z) :
  (n <= length cs)%nat ->
  0 <= rx ->
  rx + Z.of_nat (length (expand rx (firstn n cs))) <= INT_MAX ->
  rx_walk cs n rx = Ret (rx + Z.of_nat (length (expand rx (firstn n cs)))).
Proof.
  revert cs rx. induction n as [|n IH]; intros cs rx Hn Hrx Hmax.
  - cbn [rx_walk firstn expand length]. f_equal. lia.
  - destruct cs as [|c cs]; [cbn in Hn; lia|].
    cbn [length] in Hn. cbn [rx_walk firstn expand] in *.
    unfold next_rx. destruct (tab_width rx Hrx) as [Hw _].
    destruct (c =? TAB).
    + rewrite length_app, repeat_length in *.
      rewrite Z.rem_mod_nonneg by (unfold TAB_STOP; lia).
      replace (rx + (TAB_STOP - 1 - rx mod TAB_STOP + 1))
        with (rx + (TAB_STOP - rx mod TAB_STOP)) by lia.
      rewrite checked_in_range by (unfold INT_MIN, INT_MAX in *; lia). cbn [bind].
      rewrite IH by lia. f_equal. lia.
    + cbn [length] in *.
      rewrite checked_in_range by (unfold INT_MIN, INT_MAX in *; lia). cbn [bind].
      rewrite IH by lia. f_equal. lia.
Qed.

(** X23. [editorUpdateRow] renders within its allocation, and the render
    column of the cursor is the place of the cursor in the rendering. For a
    row of fewer than 2^28 characters the update completes and keeps the
    characters; the rendering holds no tab, is no longer than [rsize], and
    is the characters themselves when they hold no tab; and for every
    cursor column [cx] of the row, [editorRowCxToRx] is the length of the
    rendering of the first [cx] characters, which is the start of the
    rendering of the row. *)
Theorem editorUpdateRow_renders (r : erow) :
  8 * size r < INT_MAX ->
  exists r',
    editorUpdateRow r = Ret r'
    /\ idx r' = idx r
    /\ chars r' = chars r
    /\ no_tab (render r') = true
    /\ Z.of_nat (length (render r')) <= rsize r'
    /\ (no_tab (chars r) = true -> render r' = chars r)
    /\ forall cx,
         0 <= cx <= size r ->
         exists p,
           editorUpdateRow (set_chars r (firstn (Z.to_nat cx) (chars r))) = Ret p
           /\ editorRowCxToRx r' cx = Ret (Z.of_nat (length (render p)))
           /\ render p = firstn (length (render p)) (render r').
Proof.
  intros Hsmall. exists (updated r).
  split; [now apply editorUpdateRow_updated|].
  split; [reflexivity|]. split; [reflexivity|].
  split; [apply expand_no_tab|].
  pose proof (expand_length (chars r) 0 ltac:(lia)) as [_ Hlen].
  split; [exact Hlen|].
  split; [intros Hplain; now apply expand_plain|].
  intros x Hx. unfold size in *.
  set (n := Z.to_nat x).
  assert (Hn : (n <= length (chars r))%nat) by lia.
  exists (updated (set_chars r (firstn n (chars r)))).
  split.
  - apply editorUpdateRow_updated. unfold size. cbn [chars set_chars].
    rewrite firstn_length_le by exact Hn. lia.
  - cbn [render updated chars set_chars].
    pose proof (expand_length (firstn n (chars r)) 0 ltac:(lia)) as [_ Hp].
    pose proof (count_tabs_range (firstn n (chars r))) as Hc.
    rewrite firstn_length_le in Hp, Hc by exact Hn.
    split.
    + unfold editorRowCxToRx. cbn [chars updated]. fold n.
      rewrite rx_walk_expand; [reflexivity | exact Hn | lia |].
      unfold TAB_STOP in *. lia.
    + rewrite <- (firstn_skipn n (chars r)) at 3.
      rewrite expand_app, firstn_app, Nat.sub_diag, firstn_all. cbn [firstn].
      now rewrite app_nil_r.
Qed.

Lemma editorUpdateRow_renders_witness :
  exists r',
    editorUpdateRow (mkRow 0 [97; 9; 98] 0 []) = Ret r'
    /\ editorRowCxToRx r' 2 = Ret 8.
Proof.
  destruct (editorUpdateRow_renders (mkRow 0 [97; 9; 98] 0 []))
    as (r' & Hr & _ & _ & _ & _ & _ & Hcx).
  - vm_compute. reflexivity.
  - exists r'. split; [exact Hr|].
    destruct (Hcx 2) as (p & Hp & Hrx & _).
    + vm_compute. split; discriminate.
    + rewrite Hrx. vm_compute in Hp. apply ret_inj in Hp. now subst p.
Defined.

(** ** The editor: inserting and deleting in a row *)

Lemma editorUpdateRow_result (r r' : erow) :
  editorUpdateRow r = Ret r' -> r' = updated r.
Proof.
  unfold editorUpdateRow, updated, checked. cbv zeta.
  pose proof (count_tabs_range (chars r)) as Ht.
  pose proof (expand_length (chars r) 0 ltac:(lia)) as [_ He].
  unfold size in *.
  destruct ((INT_MIN <=? count_tabs (chars r) * (TAB_STOP - 1))
            && (count_tabs (chars r) * (TAB_STOP - 1) <=? INT_MAX)); [|discriminate].
  cbn [bind].
  destruct ((INT_MIN <=? _) && (_ <=? INT_MAX)); [|discriminate]. cbn [bind].
  destruct ((INT_MIN <=? _) && (_ <=? INT_MAX)); [|discriminate]. cbn [bind].
  rewrite render_walk_expand by lia. cbn [bind].
  intros H. apply ret_inj in H. now subst r'.
Qed.

Lemma rendered_updated (r : erow) : rendered r -> updated r = r.
Proof. intros H. symmetry. now apply editorUpdateRow_result. Qed.

Lemma nth_error_put (A : Type) (l : list A) (n : nat) (a : A) :
  (n < length l)%nat ->
  nth_error (firstn n l ++ a :: skipn (S n) l) n = Some a.
Proof.
  intros H. rewrite nth_error_app2 by (rewrite firstn_length_le; lia).
  rewrite firstn_length_le by lia. now rewrite Nat.sub_diag.
Qed.

Lemma put_put (A : Type) (l : list A) (n : nat) (a b : A) :
  (n < length l)%nat ->
  firstn n (firstn n l ++ a :: skipn (S n) l)
    ++ b :: skipn (S n) (firstn n l ++ a :: skipn (S n) l)
  = firstn n l ++ b :: skipn (S n) l.
Proof.
  intros H.
  assert (Hl : length (firstn n l) = n) by (apply firstn_length_le; lia).
  rewrite firstn_app, Hl, Nat.sub_diag, firstn_all2 by lia.
  cbn [firstn]. rewrite app_nil_r.
  rewrite skipn_app, Hl, skipn_all2 by lia.
  replace (S n - n)%nat with 1%nat by lia. reflexivity.
Qed.

Lemma put_same (A : Type) (l : list A) (n : nat) (a : A) :
  nth_error l n = Some a ->
  firstn n l ++ a :: skipn (S n) l = l.
Proof.
  revert l. induction n as [|n IH]; intros [|x l] H; try discriminate.
  - cbn in *. congruence.
  - cbn [firstn skipn app nth_error] in *. f_equal. now apply IH.
Qed.

Lemma row_at_nth (E : editorConfig) (y : Z) (r : erow) :
  row_at E y = Ret r <-> 0 <= y /\ nth_error (row E) (Z.to_nat y) = Some r.
Proof.
  unfold row_at. destruct (Z.ltb_spec y 0).
  - split; [discriminate | lia].
  - destruct (nth_error (row E) (Z.to_nat y)).
    + split; [intros Hr; apply ret_inj in Hr; now subst | intros [_ Hr]; congruence].
    + split; [discriminate | intros [_ Hr]; discriminate].
Qed.

Lemma row_at_edited (E : editorConfig) (y : Z) (r : erow) (cs : list Z) (k : Z) :
  row_at E y = Ret r ->
  row_at (edited E y cs k) y = Ret (updated (set_chars r cs)).
Proof.
  intros H. apply row_at_nth in H. destruct H as [Hy Hn].
  apply row_at_nth. split; [exact Hy|].
  unfold edited. rewrite Hn. cbn [row set_dirty put_row set_row].
  apply nth_error_put. apply nth_error_Some. congruence.
Qed.

Lemma edited_edited (E : editorConfig) (y : Z) (cs cs' : list Z) (k k' : Z) :
  0 <= y ->
  edited (edited E y cs k) y cs' k' = edited E y cs' (k + k').
Proof.
  intros Hy. unfold edited at 2 3.
  destruct (nth_error (row E) (Z.to_nat y)) as [r|] eqn:Hn.
  - assert (Hlt : (Z.to_nat y < length (row E))%nat)
      by (apply nth_error_Some; congruence).
    unfold edited. cbn [row set_dirty put_row set_row].
    rewrite nth_error_put by exact Hlt.
    cbn [cx cy rx rowoff coloff screenrows screencols row dirty statusmsg
         undoStack redoStack set_dirty put_row set_row].
    unfold set_dirty, put_row, set_row.
    cbn [cx cy rx rowoff coloff screenrows screencols row dirty statusmsg
         undoStack redoStack].
    rewrite put_put by exact Hlt.
    unfold updated, set_chars. cbn [idx chars]. f_equal. lia.
  - unfold edited. now rewrite Hn.
Qed.

Lemma edited_same (E : editorConfig) (y : Z) (r : erow) (k : Z) :
  row_at E y = Ret r ->
  rendered r ->
  edited E y (chars r) k = set_dirty E (dirty E + k).
Proof.
  intros H Hr. apply row_at_nth in H. destruct H as [Hy Hn].
  unfold edited. rewrite Hn.
  replace (set_chars r (chars r)) with r by (now destruct r).
  rewrite (rendered_updated r Hr).
  destruct E. unfold put_row, set_row, set_dirty.
  cbn [cx cy rx rowoff coloff screenrows screencols row dirty statusmsg
       undoStack redoStack] in *.
  now rewrite (put_same _ _ _ _ Hn).
Qed.

Lemma edited_fields (E : editorConfig) (y : Z) (cs : list Z) (k : Z) :
  cx (edited E y cs k) = cx E
  /\ cy (edited E y cs k) = cy E
  /\ undoStack (edited E y cs k) = undoStack E
  /\ redoStack (edited E y cs k) = redoStack E
  /\ numrows (edited E y cs k) = numrows E.
Proof.
  unfold edited, numrows.
  destruct (nth_error (row E) (Z.to_nat y)) as [r|] eqn:Hn; [|tauto].
  cbn [cx cy undoStack redoStack row set_dirty put_row set_row].
  repeat split.
  assert (Hlt : (Z.to_nat y < length (row E))%nat)
    by (apply nth_error_Some; congruence).
  rewrite length_app. cbn [length]. rewrite firstn_length_le, length_skipn by lia.
  f_equal. lia.
Qed.

Lemma edited_dirty (E : editorConfig) (y : Z) (r : erow) (cs : list Z) (k : Z) :
  row_at E y = Ret r -> dirty (edited E y cs k) = dirty E + k.
Proof.
  intros H. apply row_at_nth in H. destruct H as [_ Hn].
  unfold edited. now rewrite Hn.
Qed.

Lemma touch_edited (E : editorConfig) (y : Z) (r : erow) (cs : list Z) :
  row_at E y = Ret r ->
  INT_MIN <= dirty E + 1 <= INT_MAX ->
  touch (put_row E y (updated (set_chars r cs))) = Ret (edited E y cs 1).
Proof.
  intros H Hd. apply row_at_nth in H. destruct H as [_ Hn].
  unfold touch, edited. rewrite Hn. cbn [dirty put_row set_row].
  now rewrite checked_in_range.
Qed.

Lemma editorRowInsertChar_edited (E : editorConfig) (y at_ c : Z) (r : erow) :
  row_at E y = Ret r ->
  0 <= at_ <= size r ->
  8 * (size r + 1) < INT_MAX ->
  INT_MIN <= dirty E + 1 <= INT_MAX ->
  editorRowInsertChar y at_ c E
  = Ret (edited E y (firstn (Z.to_nat at_) (chars r) ++ to_char c
                       :: skipn (Z.to_nat at_) (chars r)) 1).
Proof.
  intros H Hat Hsmall Hd. unfold editorRowInsertChar. rewrite H. cbn [bind].
  destruct (Z.ltb_spec at_ 0); [lia|].
  destruct (Z.ltb_spec (size r) at_); [lia|]. cbn [orb]. cbv zeta.
  rewrite editorUpdateRow_updated.
  - cbn [bind]. now apply touch_edited.
  - unfold size in *. cbn [chars set_chars].
    rewrite length_app. cbn [length]. rewrite firstn_length_le, length_skipn by lia.
    lia.
Qed.

Lemma editorRowDelChar_edited (E : editorConfig) (y at_ : Z) (r : erow) :
  row_at E y = Ret r ->
  0 <= at_ < size r ->
  8 * size r < INT_MAX ->
  INT_MIN <= dirty E + 1 <= INT_MAX ->
  editorRowDelChar y at_ E
  = Ret (edited E y (firstn (Z.to_nat at_) (chars r)
                       ++ skipn (S (Z.to_nat at_)) (chars r)) 1).
Proof.
  intros H Hat Hsmall Hd. unfold editorRowDelChar. rewrite H. cbn [bind].
  destruct (Z.ltb_spec at_ 0); [lia|].
  destruct (Z.leb_spec (size r) at_); [lia|]. cbn [orb]. cbv zeta.
  rewrite editorUpdateRow_updated.
  - cbn [bind]. now apply touch_edited.
  - unfold size in *. cbn [chars set_chars].
    rewrite length_app. rewrite firstn_length_le, length_skipn by lia.
    lia.
Qed.

(** Inserting [s] behind the [x] characters [a] of a row [a ++ b]. *)
Lemma insert_from_edited (s a m b : list Z) (E : editorConfig) (y x : Z) (r : erow) :
  row_at E y = Ret r ->
  chars r = a ++ m ++ b ->
  Z.of_nat (length a) = x ->
  0 <= dirty E ->
  8 * (size r + Z.of_nat (length s)) < INT_MAX ->
  dirty E + Z.of_nat (length s) <= INT_MAX ->
  s <> [] ->
  insert_from y x (Z.of_nat (length m)) s E
  = Ret (edited E y (a ++ (m ++ map to_char s) ++ b) (Z.of_nat (length s))).
Proof.
  revert m E r. induction s as [|c s IH]; intros m E r H Hc Ha Hd Hsmall Hmax Hs;
    [congruence|].
  cbn [insert_from length map] in *.
  assert (Hy : 0 <= y) by (apply row_at_nth in H; tauto).
  assert (Hsize : size r = x + Z.of_nat (length m) + Z.of_nat (length b)).
  { unfold size. rewrite Hc, !length_app. lia. }
  rewrite checked_in_range by (unfold INT_MIN, INT_MAX in *; lia). cbn [bind].
  rewrite (editorRowInsertChar_edited E y _ c r H)
    by (unfold INT_MIN, INT_MAX in *; lia).
  cbn [bind].
  assert (Hins : firstn (Z.to_nat (x + Z.of_nat (length m))) (chars r) ++ to_char c
                   :: skipn (Z.to_nat (x + Z.of_nat (length m))) (chars r)
                 = a ++ (m ++ [to_char c]) ++ b).
  { rewrite Hc, app_assoc.
    replace (Z.to_nat (x + Z.of_nat (length m))) with (length (a ++ m) + 0)%nat
      by (rewrite length_app; lia).
    rewrite firstn_app_2, skipn_app, skipn_all2, Nat.add_0_r, Nat.sub_diag by lia.
    cbn [firstn skipn app]. rewrite app_nil_r, <- !app_assoc. reflexivity. }
  rewrite Hins.
  destruct s as [|c' s].
  - cbn [insert_from map length]. reflexivity.
  - replace (Z.of_nat (length m) + 1) with (Z.of_nat (length (m ++ [to_char c])))
      by (rewrite length_app; cbn [length]; lia).
    rewrite (IH (m ++ [to_char c]) _ (updated (set_chars r (a ++ (m ++ [to_char c]) ++ b)))).
    + rewrite edited_edited by exact Hy. rewrite <- !app_assoc. cbn [app].
      do 2 f_equal. cbn [length]. lia.
    + now apply row_at_edited.
    + reflexivity.
    + exact Ha.
    + rewrite (edited_dirty _ _ _ _ _ H). lia.
    + unfold size in *. cbn [chars updated set_chars].
      rewrite Hc in Hsmall. rewrite !length_app in *. cbn [length] in *. lia.
    + rewrite (edited_dirty _ _ _ _ _ H). cbn [length] in *. lia.
    + discriminate.
Qed.

Lemma delete_times_edited (n : nat) (a m b : list Z) (E : editorConfig) (y x : Z)
  (r : erow) :
  row_at E y = Ret r ->
  chars r = a ++ m ++ b ->
  Z.of_nat (length a) = x ->
  length m = n ->
  0 <= dirty E ->
  8 * size r < INT_MAX ->
  dirty E + Z.of_nat n <= INT_MAX ->
  n <> O ->
  delete_times y x n E = Ret (edited E y (a ++ b) (Z.of_nat n)).
Proof.
  revert m E r. induction n as [|n IH]; intros m E r H Hc Ha Hm Hd Hsmall Hmax Hn;
    [congruence|].
  destruct m as [|c m]; [discriminate|]. cbn [length] in Hm.
  assert (Hy : 0 <= y) by (apply row_at_nth in H; tauto).
  assert (Hsize : size r = x + Z.of_nat (S (length m)) + Z.of_nat (length b)).
  { unfold size. rewrite Hc, !length_app. cbn [length]. lia. }
  cbn [delete_times].
  rewrite (editorRowDelChar_edited E y x r H) by (unfold INT_MIN, INT_MAX in *; lia).
  cbn [bind].
  assert (Hdel : firstn (Z.to_nat x) (chars r) ++ skipn (S (Z.to_nat x)) (chars r)
                 = a ++ m ++ b).
  { rewrite Hc.
    replace (Z.to_nat x) with (length a + 0)%nat by lia.
    rewrite firstn_app_2. cbn [firstn]. rewrite app_nil_r.
    replace (S (length a + 0)) with (length a + 1)%nat by lia.
    rewrite skipn_app, skipn_all2 by lia.
    replace (length a + 1 - length a)%nat with 1%nat by lia. reflexivity. }
  rewrite Hdel.
  destruct n as [|n].
  - cbn [delete_times]. destruct m; [reflexivity | discriminate].
  - rewrite (IH m _ (updated (set_chars r (a ++ m ++ b)))).
    + rewrite edited_edited by exact Hy.
      replace (1 + Z.of_nat (S n)) with (Z.of_nat (S (S n))) by lia. reflexivity.
    + now apply row_at_edited.
    + reflexivity.
    + exact Ha.
    + lia.
    + rewrite (edited_dirty _ _ _ _ _ H). lia.
    + unfold size in *. cbn [chars updated set_chars].
      rewrite Hc in Hsmall. rewrite !length_app in *. cbn [length] in *. lia.
    + rewrite (edited_dirty _ _ _ _ _ H). lia.
    + discriminate.
Qed.

Lemma updated_rendered (r : erow) :
  8 * size r < INT_MAX -> rendered (updated r).
Proof.
  intros H. unfold rendered.
  now rewrite editorUpdateRow_updated by exact H.
Qed.

Lemma row_at_numrows (E : editorConfig) (y : Z) (r : erow) :
  row_at E y = Ret r -> 0 <= y < numrows E.
Proof.
  intros H. apply row_at_nth in H. destruct H as [Hy Hn].
  assert (Z.to_nat y < length (row E))%nat by (apply nth_error_Some; congruence).
  unfold numrows. lia.
Qed.

Lemma editorInsertCharsAt_edited (E : editorConfig) (y x : Z) (s : list Z) (r : erow) :
  row_at E y = Ret r ->
  0 <= x <= size r ->
  s <> [] ->
  8 * (size r + Z.of_nat (length s)) < INT_MAX ->
  0 <= dirty E ->
  dirty E + Z.of_nat (length s) <= INT_MAX ->
  editorInsertCharsAt y x s E
  = Ret (edited E y (firstn (Z.to_nat x) (chars r) ++ map to_char s
                       ++ skipn (Z.to_nat x) (chars r)) (Z.of_nat (length s))).
Proof.
  intros H Hx Hs Hsmall Hd Hmax. pose proof (row_at_numrows _ _ _ H) as Hy.
  unfold editorInsertCharsAt.
  destruct (Z.ltb_spec y 0); [lia|].
  destruct (Z.ltb_spec (numrows E) y); [lia|]. cbn [orb].
  destruct (Z.eqb_spec y (numrows E)); [lia|]. cbn [bind].
  change 0 with (Z.of_nat (length (@nil Z))).
  rewrite (insert_from_edited s (firstn (Z.to_nat x) (chars r)) []
             (skipn (Z.to_nat x) (chars r)) E y x r); try assumption.
  - reflexivity.
  - cbn [app]. now rewrite firstn_skipn.
  - unfold size in Hx. rewrite firstn_length_le; lia.
Qed.

Lemma editorDelCharsAt_edited (E : editorConfig) (y x : Z) (a m b : list Z) (r : erow) :
  row_at E y = Ret r ->
  chars r = a ++ m ++ b ->
  Z.of_nat (length a) = x ->
  m <> [] ->
  8 * size r < INT_MAX ->
  0 <= dirty E ->
  dirty E + Z.of_nat (length m) <= INT_MAX ->
  editorDelCharsAt y x (Z.of_nat (length m)) E
  = Ret (Some m, edited E y (a ++ b) (Z.of_nat (length m))).
Proof.
  intros H Hc Ha Hm Hsmall Hd Hmax. pose proof (row_at_numrows _ _ _ H) as Hy.
  assert (Hsize : size r = x + Z.of_nat (length m) + Z.of_nat (length b)).
  { unfold size. rewrite Hc, !length_app. lia. }
  assert (Hpos : 0 < Z.of_nat (length m)) by (destruct m; [congruence | cbn [length]; lia]).
  unfold editorDelCharsAt.
  destruct (Z.ltb_spec y 0); [lia|].
  destruct (Z.leb_spec (numrows E) y); [lia|]. cbn [orb].
  rewrite H. cbn [bind].
  destruct (Z.ltb_spec x 0); [lia|].
  destruct (Z.leb_spec (size r) x); [lia|]. cbn [orb].
  destruct (Z.leb_spec (Z.of_nat (length m)) 0); [lia|].
  rewrite checked_in_range by (unfold INT_MIN, INT_MAX in *; lia). cbn [bind].
  destruct (Z.ltb_spec (size r) (x + Z.of_nat (length m))); [lia|].
  rewrite Nat2Z.id.
  rewrite (delete_times_edited (length m) a m b E y x r); try assumption;
    try reflexivity.
  - cbn [bind]. do 3 f_equal. rewrite Hc.
    replace (Z.to_nat x) with (length a) by lia.
    rewrite skipn_app, skipn_all, Nat.sub_diag. cbn [skipn app].
    rewrite firstn_app, firstn_all, Nat.sub_diag. cbn [firstn].
    now rewrite app_nil_r.
  - lia.
Qed.

(** X24. Deleting what was inserted restores the row. On a row that
    exists and is rendered, inserting a text at a column of the row and
    then deleting as many characters at the same place completes, returns
    the text inserted (as [char]s), and leaves every row and the cursor as
    they were; only the change counter has grown, by two for each
    character. *)
Theorem insert_then_delete_restores (E : editorConfig) (y x : Z) (s : list Z)
  (r : erow) :
  row_at E y = Ret r ->
  rendered r ->
  0 <= x <= size r ->
  s <> [] ->
  8 * (size r + Z.of_nat (length s)) < INT_MAX ->
  0 <= dirty E ->
  dirty E + 2 * Z.of_nat (length s) <= INT_MAX ->
  exists E1 r1,
    editorInsertCharsAt y x s E = Ret E1
    /\ row_at E1 y = Ret r1
    /\ chars r1 = firstn (Z.to_nat x) (chars r) ++ map to_char s
                    ++ skipn (Z.to_nat x) (chars r)
    /\ editorDelCharsAt y x (Z.of_nat (length s)) E1
       = Ret (Some (map to_char s),
              set_dirty E (dirty E + 2 * Z.of_nat (length s))).
Proof.
  intros H Hr Hx Hs Hsmall Hd Hmax.
  pose proof (row_at_numrows _ _ _ H) as Hy.
  set (a := firstn (Z.to_nat x) (chars r)).
  set (b := skipn (Z.to_nat x) (chars r)).
  exists (edited E y (a ++ map to_char s ++ b) (Z.of_nat (length s))).
  exists (updated (set_chars r (a ++ map to_char s ++ b))).
  split; [apply editorInsertCharsAt_edited; assumption || lia|].
  split; [now apply row_at_edited|].
  split; [reflexivity|].
  assert (Hab : a ++ b = chars r) by apply firstn_skipn.
  assert (Hla : Z.of_nat (length a) = x).
  { subst a. unfold size in Hx. rewrite firstn_length_le; lia. }
  rewrite <- (length_map to_char s).
  rewrite (editorDelCharsAt_edited _ y x a (map to_char s) b
             (updated (set_chars r (a ++ map to_char s ++ b)))).
  - rewrite edited_edited by lia. rewrite Hab, length_map.
    rewrite (edited_same E y r _ H Hr). do 3 f_equal. lia.
  - now apply row_at_edited.
  - reflexivity.
  - exact Hla.
  - destruct s; [congruence | discriminate].
  - unfold size in *. cbn [chars updated set_chars].
    rewrite !length_app, length_map. rewrite <- Hab, length_app in Hsmall. lia.
  - rewrite (edited_dirty _ _ _ _ _ H). lia.
  - rewrite (edited_dirty _ _ _ _ _ H), length_map. lia.
Qed.

Lemma insert_then_delete_restores_witness :
  exists E1 r1,
    editorInsertCharsAt 0 1 [42; 42] sample_editor = Ret E1
    /\ row_at E1 0 = Ret r1
    /\ chars r1 = [104; 42; 42; 9; 105]
    /\ editorDelCharsAt 0 1 2 E1 = Ret (Some [42; 42], set_dirty sample_editor 4).
Proof.
  apply (insert_then_delete_restores sample_editor 0 1 [42; 42] sample_row).
  - reflexivity.
  - reflexivity.
  - vm_compute. split; discriminate.
  - discriminate.
  - vm_compute. reflexivity.
  - vm_compute. discriminate.
  - vm_compute. discriminate.
Defined.

(** ** The editor: typing and undo *)

Lemma undo_times_last (n : nat) (E : editorConfig) :
  undo_times (S n) E = (E' <- undo_times n E ;; editorUndo E').
Proof.
  revert E. induction n as [|n IH]; intros E.
  - cbn [undo_times bind]. destruct (editorUndo E); reflexivity.
  - change (undo_times (S (S n)) E) with (E' <- editorUndo E ;; undo_times (S n) E').
    cbn [undo_times]. destruct (editorUndo E) as [E'|]; [|reflexivity].
    cbn [bind]. apply IH.
Qed.

Lemma editorInsertChar_edited (E : editorConfig) (c : Z) (r : erow) :
  row_at E (cy E) = Ret r ->
  0 <= cx E <= size r ->
  8 * (size r + 1) < INT_MAX ->
  0 <= dirty E ->
  dirty E + 1 <= INT_MAX ->
  editorInsertChar c E
  = Ret (set_cx
           (push_undo_insert (cy E) (cx E) [to_char c]
              (edited E (cy E)
                 (firstn (Z.to_nat (cx E)) (chars r) ++ to_char c
                    :: skipn (Z.to_nat (cx E)) (chars r)) 1))
           (cx E + 1)).
Proof.
  intros H Hx Hsmall Hd Hmax. pose proof (row_at_numrows _ _ _ H) as Hy.
  unfold editorInsertChar.
  destruct (Z.eqb_spec (cy E) (numrows E)); [lia|]. cbn [bind].
  rewrite (editorRowInsertChar_edited E (cy E) (cx E) c r H)
    by (unfold INT_MIN, INT_MAX in *; lia).
  cbn [bind]. cbv zeta.
  destruct (edited_fields E (cy E)
              (firstn (Z.to_nat (cx E)) (chars r) ++ to_char c
                 :: skipn (Z.to_nat (cx E)) (chars r)) 1) as (Ex & Ey & _).
  rewrite Ex, Ey.
  replace (cx (push_undo_insert (cy E) (cx E) [to_char c] _)) with (cx E)
    by (unfold push_undo_insert; cbn [cx set_redo set_undo]; now rewrite Ex).
  rewrite checked_in_range by (unfold INT_MIN, INT_MAX, size in *; lia).
  reflexivity.
Qed.

Lemma editor_ext (E1 E2 : editorConfig) :
  cx E1 = cx E2 -> cy E1 = cy E2 -> rx E1 = rx E2 ->
  rowoff E1 = rowoff E2 -> coloff E1 = coloff E2 ->
  screenrows E1 = screenrows E2 -> screencols E1 = screencols E2 ->
  row E1 = row E2 -> dirty E1 = dirty E2 -> statusmsg E1 = statusmsg E2 ->
  undoStack E1 = undoStack E2 -> redoStack E1 = redoStack E2 ->
  E1 = E2.
Proof.
  destruct E1, E2.
  cbn [cx cy rx rowoff coloff screenrows screencols row dirty statusmsg
       undoStack redoStack].
  intros. subst. reflexivity.
Qed.

Lemma edited_set_cx (E : editorConfig) (v y : Z) (cs : list Z) (k : Z) :
  edited (set_cx E v) y cs k = set_cx (edited E y cs k) v.
Proof.
  unfold edited. cbn [row set_cx].
  destruct (nth_error (row E) (Z.to_nat y)); reflexivity.
Qed.

Lemma edited_set_undo (E : editorConfig) (v : list EditorAction) (y : Z)
  (cs : list Z) (k : Z) :
  edited (set_undo E v) y cs k = set_undo (edited E y cs k) v.
Proof.
  unfold edited. cbn [row set_undo].
  destruct (nth_error (row E) (Z.to_nat y)); reflexivity.
Qed.

Lemma edited_set_redo (E : editorConfig) (v : list EditorAction) (y : Z)
  (cs : list Z) (k : Z) :
  edited (set_redo E v) y cs k = set_redo (edited E y cs k) v.
Proof.
  unfold edited. cbn [row set_redo].
  destruct (nth_error (row E) (Z.to_nat y)); reflexivity.
Qed.

Lemma edited_set_dirty (E : editorConfig) (d y : Z) (cs : list Z) (k : Z) (r : erow) :
  row_at E y = Ret r ->
  edited (set_dirty E d) y cs k = set_dirty (edited E y cs k) (d + k).
Proof.
  intros H. apply row_at_nth in H. destruct H as [_ Hn].
  unfold edited. cbn [row set_dirty]. rewrite Hn. reflexivity.
Qed.

Lemma type_then_undo (s : list Z) (E : editorConfig) (r : erow) :
  row_at E (cy E) = Ret r ->
  rendered r ->
  0 <= cx E <= size r ->
  redoStack E = [] ->
  8 * (size r + Z.of_nat (length s)) < INT_MAX ->
  0 <= dirty E ->
  dirty E + 2 * Z.of_nat (length s) <= INT_MAX ->
  exists E1,
    type_all s E = Ret E1
    /\ undo_times (length s) E1
       = Ret (set_redo
                (set_cx (set_dirty E (dirty E + 2 * Z.of_nat (length s)))
                   (cx E + Z.of_nat (length s)))
                (undone (cy E) (cx E) s)).
Proof.
  revert E r. induction s as [|c s IH]; intros E r H Hr Hx Hredo Hsmall Hd Hmax.
  - exists E. split; [reflexivity|]. cbn [undo_times length undone].
    destruct E as [x0 y0 rx0 ro co sr sc rows0 d0 msg us rs].
    cbn [redoStack] in Hredo. subst rs.
    unfold set_redo, set_cx, set_dirty.
    cbn [cx cy rx rowoff coloff screenrows screencols row dirty statusmsg
         undoStack redoStack].
    replace (d0 + 2 * Z.of_nat 0) with d0 by lia.
    replace (x0 + Z.of_nat 0) with x0 by lia. reflexivity.
  - cbn [length] in *.
    pose proof (row_at_numrows _ _ _ H) as Hy.
    set (a := firstn (Z.to_nat (cx E)) (chars r)).
    set (b := skipn (Z.to_nat (cx E)) (chars r)).
    set (Ea := edited E (cy E) (a ++ to_char c :: b) 1).
    set (Ec := set_cx (push_undo_insert (cy E) (cx E) [to_char c] Ea) (cx E + 1)).
    set (r' := updated (set_chars r (a ++ to_char c :: b))).
    assert (Hab : a ++ b = chars r) by apply firstn_skipn.
    assert (Hla : Z.of_nat (length a) = cx E).
    { subst a. unfold size in Hx. rewrite firstn_length_le; lia. }
    assert (Hsize' : size r' = size r + 1).
    { unfold size. subst r'. cbn [chars updated set_chars].
      rewrite <- Hab, !length_app. cbn [length]. lia. }
    destruct (edited_fields E (cy E) (a ++ to_char c :: b) 1)
      as (Ex & Ey & Eu & Ered & En).
    assert (Hcy : cy Ec = cy E) by exact Ey.
    assert (Hrow' : row_at Ec (cy Ec) = Ret r').
    { rewrite Hcy. change (row_at Ec (cy E)) with (row_at Ea (cy E)).
      apply (row_at_edited E (cy E) r (a ++ to_char c :: b) 1 H). }
    destruct (IH Ec r') as (E1 & Htype & Hundo).
    + exact Hrow'.
    + apply updated_rendered. unfold size. cbn [chars set_chars].
      unfold size in Hsmall. rewrite <- Hab in Hsmall.
      rewrite !length_app in *. cbn [length]. lia.
    + subst Ec. cbn [cx set_cx]. lia.
    + reflexivity.
    + lia.
    + subst Ec. unfold push_undo_insert. cbn [dirty set_cx set_redo set_undo].
      fold Ea. subst Ea. rewrite (edited_dirty _ _ _ _ _ H). lia.
    + subst Ec. unfold push_undo_insert. cbn [dirty set_cx set_redo set_undo].
      fold Ea. subst Ea. rewrite (edited_dirty _ _ _ _ _ H). lia.
    + exists E1. split.
      * cbn [type_all].
        rewrite (editorInsertChar_edited E c r H) by lia.
        cbn [bind]. exact Htype.
      * rewrite undo_times_last, Hundo. cbn [bind].
        set (n := Z.of_nat (length s)) in *.
        assert (Hdc : dirty Ec = dirty E + 1)
          by exact (edited_dirty E (cy E) r (a ++ to_char c :: b) 1 H).
        assert (Hxc : cx Ec = cx E + 1) by reflexivity.
        rewrite Hcy, Hdc, Hxc.
        unfold editorUndo.
        change (undoStack (set_redo (set_cx (set_dirty Ec (dirty E + 1 + 2 * n))
                                       (cx E + 1 + n))
                             (undone (cy E) (cx E + 1) s)))
          with (mkAction ACT_INSERT (cy E) (cx E) (Some [to_char c]) 1 (cy Ea) (cx Ea)
                  :: undoStack Ea).
        cbv zeta. cbn [type ay ax data_len prev_cy prev_cx].
        subst Ea. rewrite Ex, Ey, Eu.
        set (Ea := edited E (cy E) (a ++ to_char c :: b) 1) in *.
        set (E0 := set_undo _ (undoStack E)).
        assert (Hrow0 : row_at E0 (cy E) = Ret r')
          by (rewrite <- Hcy; exact Hrow').
        pose proof (editorDelCharsAt_edited E0 (cy E) (cx E) a [to_char c] b r' Hrow0)
          as Hdel.
        change (Z.of_nat (length [to_char c])) with 1 in Hdel.
        rewrite Hdel.
        -- cbn [bind fst snd]. unfold read_bytes.
           change (1 <=? Z.of_nat (length [to_char c])) with true. cbv iota.
           change (firstn (Z.to_nat 1) [to_char c]) with [to_char c].
           cbn [bind fst snd]. f_equal.
           subst E0 Ec. unfold push_undo_insert.
           rewrite edited_set_undo, edited_set_redo, edited_set_cx.
           rewrite (edited_set_dirty _ _ _ _ _ r').
           2:{ exact (row_at_edited E (cy E) r (a ++ to_char c :: b) 1 H). }
           rewrite edited_set_cx, edited_set_redo, edited_set_undo.
           subst Ea. rewrite edited_edited by lia. rewrite Hab.
           rewrite (edited_same E (cy E) r _ H Hr).
           apply editor_ext;
             cbn [cx cy rx rowoff coloff screenrows screencols row dirty statusmsg
                  undoStack redoStack set_redo set_cx set_dirty set_undo undone];
             try reflexivity; subst n; lia.
        -- reflexivity.
        -- exact Hla.
        -- discriminate.
        -- rewrite Hsize'. lia.
        -- subst E0. cbn [dirty set_undo set_redo set_cx set_dirty]. lia.
        -- subst E0. cbn [dirty set_undo set_redo set_cx set_dirty length]. lia.
Qed.


Lemma type_all_row (s : list Z) (E : editorConfig) (r : erow) :
  row_at E (cy E) = Ret r ->
  0 <= cx E <= size r ->
  8 * (size r + Z.of_nat (length s)) < INT_MAX ->
  0 <= dirty E ->
  dirty E + Z.of_nat (length s) <= INT_MAX ->
  exists E1 r1,
    type_all s E = Ret E1
    /\ cy E1 = cy E
    /\ row_at E1 (cy E) = Ret r1
    /\ chars r1 = firstn (Z.to_nat (cx E)) (chars r) ++ map to_char s
                    ++ skipn (Z.to_nat (cx E)) (chars r).
Proof.
  revert E r. induction s as [|c s IH]; intros E r H Hx Hsmall Hd Hmax.
  - exists E, r. cbn [type_all map app]. now rewrite firstn_skipn.
  - cbn [length] in *.
    set (a := firstn (Z.to_nat (cx E)) (chars r)).
    set (b := skipn (Z.to_nat (cx E)) (chars r)).
    set (Ea := edited E (cy E) (a ++ to_char c :: b) 1).
    set (Ec := set_cx (push_undo_insert (cy E) (cx E) [to_char c] Ea) (cx E + 1)).
    set (r' := updated (set_chars r (a ++ to_char c :: b))).
    assert (Hab : a ++ b = chars r) by apply firstn_skipn.
    assert (Hla : length a = Z.to_nat (cx E)).
    { subst a. unfold size in Hx. rewrite firstn_length_le; lia. }
    assert (Hsize' : size r' = size r + 1).
    { unfold size. subst r'. cbn [chars updated set_chars].
      rewrite <- Hab, !length_app. cbn [length]. lia. }
    destruct (edited_fields E (cy E) (a ++ to_char c :: b) 1) as (Ex & Ey & _).
    assert (Hcy : cy Ec = cy E) by exact Ey.
    assert (Hrow' : row_at Ec (cy Ec) = Ret r').
    { rewrite Hcy. change (row_at Ec (cy E)) with (row_at Ea (cy E)).
      apply (row_at_edited E (cy E) r (a ++ to_char c :: b) 1 H). }
    assert (Hdc : dirty Ec = dirty E + 1)
      by exact (edited_dirty E (cy E) r (a ++ to_char c :: b) 1 H).
    destruct (IH Ec r') as (E1 & r1 & Htype & Hy1 & Hr1 & Hc1).
    + exact Hrow'.
    + change (cx Ec) with (cx E + 1). lia.
    + lia.
    + lia.
    + lia.
    + exists E1, r1. split; [|split; [congruence|split; [congruence|]]].
      * cbn [type_all]. rewrite (editorInsertChar_edited E c r H) by lia.
        cbn [bind]. exact Htype.
      * rewrite Hc1. change (cx Ec) with (cx E + 1).
        subst r'. cbn [chars updated set_chars map].
        replace (Z.to_nat (cx E + 1)) with (length (a ++ [to_char c]) + 0)%nat
          by (rewrite length_app; cbn [length]; lia).
        replace (a ++ to_char c :: b) with ((a ++ [to_char c]) ++ b)
          by (now rewrite <- app_assoc).
        rewrite firstn_app_2, skipn_app, skipn_all2, Nat.add_0_r, Nat.sub_diag by lia.
        cbn [firstn skipn app]. rewrite app_nil_r, <- !app_assoc. reflexivity.
Qed.

Lemma editorInsertChar_clears_redo (E : editorConfig) (c : Z) (r : erow) :
  row_at E (cy E) = Ret r ->
  0 <= cx E <= size r ->
  8 * (size r + 1) < INT_MAX ->
  0 <= dirty E ->
  dirty E + 1 <= INT_MAX ->
  editorInsertChar c (set_redo E []) = editorInsertChar c E.
Proof.
  intros H Hx Hsmall Hd Hmax.
  rewrite (editorInsertChar_edited E c r H) by lia.
  rewrite (editorInsertChar_edited (set_redo E []) c r) by (exact H || assumption).
  f_equal. cbn [cx cy set_redo]. rewrite edited_set_redo.
  apply editor_ext; reflexivity.
Qed.

(** X25. Undo takes back what was typed. With the cursor on a rendered
    row, at one of its columns, typing a text character by character puts
    it into the row at the cursor, and asking for undo as many times then
    completes and leaves every row as it was before the typing, the undo
    stack as it was, and one record per character for redo. The cursor is
    not taken back: it stays behind the place of the last character. *)
Theorem undo_restores_typed_text (E : editorConfig) (s : list Z) (r : erow) :
  row_at E (cy E) = Ret r ->
  rendered r ->
  0 <= cx E <= size r ->
  s <> [] ->
  8 * (size r + Z.of_nat (length s)) < INT_MAX ->
  0 <= dirty E ->
  dirty E + 2 * Z.of_nat (length s) <= INT_MAX ->
  exists E1 r1 E2,
    type_all s E = Ret E1
    /\ row_at E1 (cy E) = Ret r1
    /\ chars r1 = firstn (Z.to_nat (cx E)) (chars r) ++ map to_char s
                    ++ skipn (Z.to_nat (cx E)) (chars r)
    /\ undo_times (length s) E1 = Ret E2
    /\ row E2 = row E
    /\ undoStack E2 = undoStack E
    /\ redoStack E2 = undone (cy E) (cx E) s
    /\ cy E2 = cy E
    /\ cx E2 = cx E + Z.of_nat (length s).
Proof.
  intros H Hr Hx Hs Hsmall Hd Hmax.
  destruct (type_all_row s E r H Hx Hsmall Hd ltac:(lia))
    as (E1 & r1 & Htype & _ & Hr1 & Hc1).
  destruct (type_then_undo s (set_redo E []) r H Hr Hx eq_refl Hsmall Hd Hmax)
    as (E1' & Htype' & Hundo).
  assert (Hsame : type_all s (set_redo E []) = type_all s E).
  { destruct s as [|c s]; [congruence|]. cbn [type_all length] in *.
    rewrite (editorInsertChar_clears_redo E c r H) by lia. reflexivity. }
  rewrite Hsame, Htype in Htype'. apply ret_inj in Htype'. subst E1'.
  exists E1, r1. eexists. split; [exact Htype|].
  split; [exact Hr1|]. split; [exact Hc1|]. split; [exact Hundo|].
  repeat split.
Qed.

Lemma undo_restores_typed_text_witness :
  exists E1 r1 E2,
    type_all [111; 107] sample_editor = Ret E1
    /\ row_at E1 0 = Ret r1
    /\ chars r1 = [104; 111; 107; 9; 105]
    /\ undo_times 2 E1 = Ret E2
    /\ row E2 = [sample_row]
    /\ undoStack E2 = []
    /\ redoStack E2 = undone 0 1 [111; 107]
    /\ cy E2 = 0
    /\ cx E2 = 3.
Proof.
  apply (undo_restores_typed_text sample_editor [111; 107] sample_row).
  - reflexivity.
  - reflexivity.
  - vm_compute. split; discriminate.
  - discriminate.
  - vm_compute. reflexivity.
  - vm_compute. discriminate.
  - vm_compute. discriminate.
Defined.

(** ** The editor: saving and opening *)

Lemma saved_length_nonneg (rs : list erow) : 0 <= saved_length rs.
Proof.
  induction rs as [|r rs IH]; cbn [saved_length fold_right]; [lia|].
  fold (saved_length rs). unfold size. lia.
Qed.

Lemma totlen_sum (rs : list erow) (acc : Z) :
  0 <= acc ->
  acc + saved_length rs <= INT_MAX ->
  fold_left (fun acc r => t <- acc ;; n <- checked (size r + 1) ;; checked (t + n))
    rs (Ret acc)
  = Ret (acc + saved_length rs).
Proof.
  revert acc. induction rs as [|r rs IH]; intros acc Hacc Hmax.
  - cbn. f_equal. lia.
  - cbn [fold_left saved_length fold_right bind] in *. fold (saved_length rs) in *.
    pose proof (saved_length_nonneg rs) as Hs.
    assert (0 <= size r) by (unfold size; lia).
    rewrite checked_in_range by (unfold INT_MIN, INT_MAX in *; lia). cbn [bind].
    rewrite checked_in_range by (unfold INT_MIN, INT_MAX in *; lia).
    rewrite IH by lia. f_equal. lia.
Qed.

Lemma getlines_line (cs cur rest : list Z) :
  forallb (fun c => negb (c =? NEWLINE)) cs = true ->
  getlines cur (cs ++ NEWLINE :: rest)
  = (rev cur ++ cs ++ [NEWLINE]) :: getlines [] rest.
Proof.
  revert cur. induction cs as [|c cs IH]; intros cur H.
  - cbn [app getlines]. rewrite Z.eqb_refl. cbn [rev]. reflexivity.
  - cbn [forallb] in H. apply andb_prop in H. destruct H as [Hc H].
    apply negb_true_iff in Hc. cbn [app getlines]. rewrite Hc.
    rewrite IH by exact H. cbn [rev]. now rewrite <- app_assoc.
Qed.

Lemma getlines_saved (texts : list (list Z)) :
  Forall (fun cs => line_text cs = true) texts ->
  getlines [] (concat (map (fun cs => cs ++ [NEWLINE]) texts))
  = map (fun cs => cs ++ [NEWLINE]) texts.
Proof.
  induction 1 as [|cs texts Hcs _ IH]; [reflexivity|].
  cbn [map concat]. rewrite <- app_assoc. cbn [app].
  unfold line_text in Hcs. apply andb_prop in Hcs. destruct Hcs as [Hn _].
  rewrite getlines_line by exact Hn. cbn [rev app]. now rewrite IH.
Qed.

Lemma drop_line_end_saved (cs : list Z) :
  line_text cs = true ->
  rev (drop_line_end (rev (cs ++ [NEWLINE]))) = cs.
Proof.
  unfold line_text. intros H. apply andb_prop in H. destruct H as [Hn He].
  rewrite rev_app_distr. cbn [rev app drop_line_end].
  rewrite Z.eqb_refl. cbn [orb].
  destruct (rev cs) as [|b t] eqn:Hrev.
  - cbn [drop_line_end rev]. apply (f_equal (@rev Z)) in Hrev.
    now rewrite rev_involutive in Hrev.
  - assert (Hb : In b cs) by (apply in_rev; rewrite Hrev; now left).
    rewrite forallb_forall in Hn. specialize (Hn b Hb).
    apply negb_true_iff in Hn. apply negb_true_iff in He.
    cbn [drop_line_end]. rewrite Hn, He. cbn [orb].
    rewrite <- Hrev. apply rev_involutive.
Qed.

Lemma editorUpdateRow_ext (r1 r2 : erow) :
  idx r1 = idx r2 -> chars r1 = chars r2 ->
  editorUpdateRow r1 = editorUpdateRow r2.
Proof.
  intros Hi Hc. unfold editorUpdateRow, size. now rewrite Hi, Hc.
Qed.

Lemma editorInsertRow_at_end (E : editorConfig) (r : erow) :
  rendered r ->
  idx r = numrows E ->
  INT_MIN <= dirty E + 1 <= INT_MAX ->
  editorInsertRow (numrows E) (chars r) E
  = Ret (set_dirty (set_row E (row E ++ [r])) (dirty E + 1)).
Proof.
  intros Hr Hi Hd. unfold editorInsertRow.
  assert (0 <= numrows E) by (unfold numrows; lia).
  destruct (Z.ltb_spec (numrows E) 0); [lia|].
  destruct (Z.ltb_spec (numrows E) (numrows E)); [lia|]. cbn [orb]. cbv zeta.
  rewrite (editorUpdateRow_ext _ r) by (cbn [idx chars]; congruence).
  rewrite Hr. cbn [bind]. unfold numrows. rewrite Nat2Z.id.
  rewrite firstn_all, skipn_all. cbn [map].
  unfold touch. cbn [dirty set_row]. now rewrite checked_in_range.
Qed.

Lemma insert_lines_saved (rs : list erow) (E : editorConfig) :
  Forall rendered rs ->
  numbered (numrows E) rs ->
  Forall (fun r => line_text (chars r) = true) rs ->
  0 <= dirty E ->
  dirty E + Z.of_nat (length rs) <= INT_MAX ->
  insert_lines (map (fun r => chars r ++ [NEWLINE]) rs) E
  = Ret (set_dirty (set_row E (row E ++ rs)) (dirty E + Z.of_nat (length rs))).
Proof.
  revert E. induction rs as [|r rs IH]; intros E Hr Hn Ht Hd Hmax.
  - cbn [map insert_lines length]. f_equal. rewrite app_nil_r.
    apply editor_ext; cbn [cx cy rx rowoff coloff screenrows screencols row dirty
                            statusmsg undoStack redoStack set_dirty set_row];
      try reflexivity. lia.
  - cbn [map insert_lines length numbered] in *.
    inversion Hr as [|? ? Hr1 Hr2]; subst. inversion Ht as [|? ? Ht1 Ht2]; subst.
    destruct Hn as [Hi Hn].
    rewrite drop_line_end_saved by exact Ht1.
    rewrite editorInsertRow_at_end by (assumption || unfold INT_MIN, INT_MAX in *; lia).
    cbn [bind]. rewrite IH.
    + f_equal.
      apply editor_ext; cbn [cx cy rx rowoff coloff screenrows screencols row dirty
                              statusmsg undoStack redoStack set_dirty set_row];
        try reflexivity; [now rewrite <- app_assoc | lia].
    + exact Hr2.
    + unfold numrows in *. cbn [row set_dirty set_row]. rewrite length_app.
      cbn [length]. replace (Z.of_nat (length (row E) + 1)) with (Z.of_nat (length (row E)) + 1) by lia.
      exact Hn.
    + exact Ht2.
    + cbn [dirty set_dirty]. lia.
    + cbn [dirty set_dirty]. lia.
Qed.

Lemma saved_length_concat (rs : list erow) :
  Z.of_nat (length (concat (map (fun r => chars r ++ [NEWLINE]) rs)))
  = saved_length rs.
Proof.
  induction rs as [|r rs IH]; [reflexivity|].
  cbn [map concat saved_length fold_right]. fold (saved_length rs).
  rewrite !length_app. cbn [length]. unfold size. lia.
Qed.

Lemma saved_length_rows (rs : list erow) : Z.of_nat (length rs) <= saved_length rs.
Proof.
  induction rs as [|r rs IH]; cbn [saved_length fold_right length]; [lia|].
  fold (saved_length rs). unfold size. lia.
Qed.

(** X26. Opening what was saved gives the rows back. When the rows are
    rendered and numbered from 0, no row holds a newline or ends in a
    carriage return, and the text is short enough for its length to be an
    [int], [editorRowsToString] gives each row followed by a newline, and
    [editorOpen] on a file of that text, in an editor just initialised,
    builds exactly those rows again and leaves the editor unmodified
    ([dirty = 0]). *)
Theorem open_restores_saved_rows (E : editorConfig) (ws : option (Z * Z)) :
  Forall rendered (row E) ->
  numbered 0 (row E) ->
  Forall (fun r => line_text (chars r) = true) (row E) ->
  saved_length (row E) <= INT_MAX ->
  exists text E',
    editorRowsToString E = Ret text
    /\ text = concat (map (fun r => chars r ++ [NEWLINE]) (row E))
    /\ Z.of_nat (length text) = saved_length (row E)
    /\ editorOpen (Some text) (initEditor ws) = Ret E'
    /\ row E' = row E
    /\ dirty E' = 0.
Proof.
  intros Hr Hn Ht Hmax.
  pose proof (saved_length_rows (row E)) as Hrows.
  exists (concat (map (fun r => chars r ++ [NEWLINE]) (row E))).
  eexists. split.
  { unfold editorRowsToString. rewrite totlen_sum by lia. reflexivity. }
  split; [reflexivity|]. split; [apply saved_length_concat|].
  unfold editorOpen.
  replace (map (fun r => chars r ++ [NEWLINE]) (row E))
    with (map (fun cs => cs ++ [NEWLINE]) (map chars (row E)))
    by (rewrite map_map; reflexivity).
  rewrite getlines_saved by (apply Forall_map; exact Ht).
  rewrite map_map.
  rewrite insert_lines_saved.
  - cbn [bind]. split; [reflexivity|]. split; [|reflexivity].
    destruct ws as [[ws_row ws_col]|]; reflexivity.
  - exact Hr.
  - destruct ws as [[ws_row ws_col]|]; exact Hn.
  - exact Ht.
  - destruct ws as [[ws_row ws_col]|]; cbn; lia.
  - destruct ws as [[ws_row ws_col]|]; cbn [dirty initEditor]; lia.
Qed.

Lemma open_restores_saved_rows_witness :
  exists text E',
    editorRowsToString sample_editor = Ret text
    /\ text = [104; 9; 105; 10]
    /\ Z.of_nat (length text) = 4
    /\ editorOpen (Some text) (initEditor None) = Ret E'
    /\ row E' = [sample_row]
    /\ dirty E' = 0.
Proof.
  apply (open_restores_saved_rows sample_editor None).
  - repeat constructor.
  - cbn. tauto.
  - repeat constructor.
  - vm_compute. discriminate.
Defined.

(** ** The editor: cursor and window *)

Lemma line_length_row (E : editorConfig) (y : Z) :
  0 <= y < numrows E ->
  exists r, row_at E y = Ret r /\ size r = line_length E y /\ In r (row E).
Proof.
  intros Hy. unfold row_at, line_length, numrows in *.
  destruct (Z.ltb_spec y 0); [lia|].
  destruct (nth_error (row E) (Z.to_nat y)) as [r|] eqn:Hn.
  - exists r. repeat split. now apply nth_error_In in Hn.
  - apply nth_error_None in Hn. lia.
Qed.

Lemma line_length_end (E : editorConfig) : line_length E (numrows E) = 0.
Proof.
  unfold line_length, numrows. rewrite Nat2Z.id.
  now rewrite (proj2 (nth_error_None (row E) (length (row E))) (Nat.le_refl _)).
Qed.

Lemma line_length_range (E : editorConfig) (y : Z) :
  representable E -> 0 <= line_length E y /\ 8 * line_length E y < INT_MAX.
Proof.
  intros [_ Hall]. unfold line_length.
  destruct (nth_error (row E) (Z.to_nat y)) as [r|] eqn:Hn.
  - apply nth_error_In in Hn. rewrite Forall_forall in Hall.
    specialize (Hall r Hn). unfold size in *. lia.
  - unfold INT_MAX. lia.
Qed.

Lemma row_size_or_0_line_length (E : editorConfig) (y : Z) :
  0 <= y <= numrows E ->
  row_size_or_0 E y = Ret (line_length E y).
Proof.
  intros Hy. unfold row_size_or_0.
  destruct (Z.leb_spec (numrows E) y).
  - replace y with (numrows E) by lia. now rewrite line_length_end.
  - destruct (line_length_row E y ltac:(lia)) as (r & Hr & Hs & _).
    rewrite Hr. cbn [bind]. now rewrite Hs.
Qed.

(** What [editorMoveCursor] does after the [switch]. *)
Lemma move_finish (E E1 : editorConfig) :
  row E1 = row E ->
  undoStack E1 = undoStack E ->
  dirty E1 = dirty E ->
  0 <= cy E1 <= numrows E ->
  0 <= cx E1 ->
  exists E',
    (rowlen <- row_size_or_0 E1 (cy E1) ;;
     Ret (push_undo_move (cy E) (cx E)
            (if rowlen <? cx E1 then set_cx E1 rowlen else E1))) = Ret E'
    /\ cursor_inside E'
    /\ row E' = row E
    /\ dirty E' = dirty E
    /\ undoStack E'
       = mkAction ACT_MOVE (cy E') (cx E') None 0 (cy E) (cx E) :: undoStack E
    /\ redoStack E' = [].
Proof.
  intros Hrow Hundo Hdirty Hy Hx.
  assert (Hnum : numrows E1 = numrows E) by (unfold numrows; now rewrite Hrow).
  rewrite row_size_or_0_line_length by lia. cbn [bind].
  eexists. split; [reflexivity|].
  assert (Hlen : 0 <= line_length E1 (cy E1)).
  { unfold line_length. destruct (nth_error _ _); unfold size; lia. }
  destruct (Z.ltb_spec (line_length E1 (cy E1)) (cx E1));
    unfold cursor_inside, push_undo_move, numrows, line_length in *;
    cbn [cx cy row dirty undoStack redoStack set_cx set_redo set_undo] in *;
    rewrite ?Hrow, ?Hundo in *; repeat split; try lia; try assumption.
Qed.

(** X27. The cursor stays inside the text, and undo takes a move back.
    From a cursor inside the text, [editorMoveCursor] completes for every
    key, leaves the cursor inside the text, changes no row, and records
    the move; undo right after it puts the cursor back where it was, and
    redo after that leaves the cursor there: it does not repeat the
    move. *)
Theorem editorMoveCursor_stays_inside (E : editorConfig) (key : Z) :
  cursor_inside E ->
  representable E ->
  exists E' E'' E''',
    editorMoveCursor key E = Ret E'
    /\ cursor_inside E'
    /\ row E' = row E
    /\ dirty E' = dirty E
    /\ editorUndo E' = Ret E''
    /\ cx E'' = cx E /\ cy E'' = cy E
    /\ row E'' = row E
    /\ undoStack E'' = undoStack E
    /\ editorRedo E'' = Ret E'''
    /\ cx E''' = cx E /\ cy E''' = cy E
    /\ row E''' = row E.
Proof.
  intros [Hy Hx] Hrep.
  pose proof (line_length_range E (cy E) Hrep) as Hlen.
  destruct Hrep as [Hnum Hall].
  assert (Hmove : exists E',
             editorMoveCursor key E = Ret E'
             /\ cursor_inside E'
             /\ row E' = row E
             /\ dirty E' = dirty E
             /\ undoStack E'
                = mkAction ACT_MOVE (cy E') (cx E') None 0 (cy E) (cx E) :: undoStack E
             /\ redoStack E' = []).
  { unfold editorMoveCursor. cbv zeta.
    destruct (key =? ARROW_LEFT).
    - destruct (Z.eqb_spec (cx E) 0) as [E0|E0]; cbn [negb].
      + destruct (Z.ltb_spec 0 (cy E)).
        * rewrite checked_in_range by (unfold INT_MIN, INT_MAX in *; lia).
          cbn [bind].
          destruct (line_length_row E (cy E - 1) ltac:(lia)) as (r & Hr & Hs & _).
          rewrite Hr. cbn [bind].
          apply move_finish; cbn [row undoStack dirty cx cy set_cx set_cy];
            try reflexivity; unfold size; lia.
        * cbn [bind]. apply move_finish; try reflexivity; lia.
      + rewrite checked_in_range by (unfold INT_MIN, INT_MAX in *; lia).
        cbn [bind].
        apply move_finish; cbn [row undoStack dirty cx cy set_cx set_cy];
          try reflexivity; lia.
    - destruct (key =? ARROW_RIGHT).
      + destruct (Z.leb_spec (numrows E) (cy E)).
        * cbn [bind]. apply move_finish; try reflexivity; lia.
        * destruct (line_length_row E (cy E) ltac:(lia)) as (r & Hr & Hs & _).
          rewrite Hr. cbn [bind]. rewrite Hs.
          destruct (Z.ltb_spec (cx E) (line_length E (cy E))).
          -- rewrite checked_in_range by (unfold INT_MIN, INT_MAX in *; lia).
             cbn [bind].
             apply move_finish; cbn [row undoStack dirty cx cy set_cx set_cy];
               try reflexivity; lia.
          -- destruct (Z.eqb_spec (cx E) (line_length E (cy E))).
             ++ rewrite checked_in_range by (unfold INT_MIN, INT_MAX in *; lia).
                cbn [bind].
                apply move_finish; cbn [row undoStack dirty cx cy set_cx set_cy];
                  try reflexivity; lia.
             ++ cbn [bind]. apply move_finish; try reflexivity; lia.
      + destruct (key =? ARROW_UP).
        * destruct (Z.eqb_spec (cy E) 0); cbn [negb].
          -- cbn [bind]. apply move_finish; try reflexivity; lia.
          -- rewrite checked_in_range by (unfold INT_MIN, INT_MAX in *; lia).
             cbn [bind].
             apply move_finish; cbn [row undoStack dirty cx cy set_cx set_cy];
               try reflexivity; lia.
        * destruct (key =? ARROW_DOWN).
          -- destruct (Z.ltb_spec (cy E) (numrows E)).
             ++ rewrite checked_in_range by (unfold INT_MIN, INT_MAX in *; lia).
                cbn [bind].
                apply move_finish; cbn [row undoStack dirty cx cy set_cx set_cy];
                  try reflexivity; lia.
             ++ cbn [bind]. apply move_finish; try reflexivity; lia.
          -- cbn [bind]. apply move_finish; try reflexivity; lia. }
  destruct Hmove as (E' & Hrun & Hin & Hrow & Hdirty & Hundo & Hredo).
  exists E'. eexists. eexists.
  split; [exact Hrun|]. split; [exact Hin|]. split; [exact Hrow|].
  split; [exact Hdirty|].
  unfold editorUndo. rewrite Hundo. cbv zeta. cbn [type bind fst snd prev_cy prev_cx].
  split; [reflexivity|].
  cbn [cx cy row undoStack set_redo set_cx set_cy set_undo].
  split; [reflexivity|]. split; [reflexivity|]. split; [exact Hrow|].
  split; [reflexivity|].
  unfold editorRedo. cbn [redoStack set_redo]. cbv zeta.
  cbn [type bind fst snd prev_cy prev_cx].
  split; [reflexivity|].
  cbn [cx cy row set_redo set_cx set_cy set_undo].
  repeat split. exact Hrow.
Qed.

Lemma editorMoveCursor_stays_inside_witness :
  exists E' E'' E''',
    editorMoveCursor ARROW_DOWN sample_editor = Ret E'
    /\ cursor_inside E'
    /\ row E' = [sample_row]
    /\ dirty E' = 0
    /\ editorUndo E' = Ret E''
    /\ cx E'' = 1 /\ cy E'' = 0
    /\ row E'' = [sample_row]
    /\ undoStack E'' = []
    /\ editorRedo E'' = Ret E'''
    /\ cx E''' = 1 /\ cy E''' = 0
    /\ row E''' = [sample_row].
Proof.
  apply (editorMoveCursor_stays_inside sample_editor ARROW_DOWN).
  - vm_compute. repeat split; discriminate.
  - split; [vm_compute; discriminate|]. repeat constructor.
Defined.

(** X28. After [editorScroll] the cursor is inside the window. With the
    cursor inside the text and a window of at least one row and one
    column whose offsets are not negative, [editorScroll] completes; it
    moves neither the cursor nor the text, sets [rx] to the render column
    of the cursor (0 on the line behind the last row), and leaves
    [rowoff <= cy < rowoff + screenrows] and
    [coloff <= rx < coloff + screencols]. *)
Theorem editorScroll_shows_cursor (E : editorConfig) :
  cursor_inside E ->
  representable E ->
  0 < screenrows E -> 0 < screencols E ->
  0 <= rowoff E -> 0 <= coloff E ->
  rowoff E + screenrows E <= INT_MAX ->
  coloff E + screencols E <= INT_MAX ->
  exists E',
    editorScroll E = Ret E'
    /\ cx E' = cx E /\ cy E' = cy E /\ row E' = row E
    /\ (if cy E <? numrows E
        then exists r, row_at E (cy E) = Ret r /\ editorRowCxToRx r (cx E) = Ret (rx E')
        else rx E' = 0)
    /\ rowoff E' <= cy E' < rowoff E' + screenrows E'
    /\ coloff E' <= rx E' < coloff E' + screencols E'.
Proof.
  intros [Hy Hx] Hrep Hsr Hsc Hro Hco Hrmax Hcmax.
  pose proof (line_length_range E (cy E) Hrep) as Hlen.
  destruct Hrep as [Hnum Hall].
  assert (Hrx : exists x,
             (if cy E <? numrows E
              then r <- row_at E (cy E) ;; x <- editorRowCxToRx r (cx E) ;; Ret (set_rx E x)
              else Ret (set_rx E 0)) = Ret (set_rx E x)
             /\ 0 <= x < INT_MAX
             /\ (if cy E <? numrows E
                 then exists r, row_at E (cy E) = Ret r
                                /\ editorRowCxToRx r (cx E) = Ret x
                 else x = 0)).
  { destruct (Z.ltb_spec (cy E) (numrows E)).
    - destruct (line_length_row E (cy E) ltac:(lia)) as (r & Hr & Hs & _).
      rewrite Hr. cbn [bind].
      pose proof (expand_length (firstn (Z.to_nat (cx E)) (chars r)) 0 ltac:(lia))
        as [_ He].
      pose proof (count_tabs_range (firstn (Z.to_nat (cx E)) (chars r))) as Hc.
      assert (Hn : (Z.to_nat (cx E) <= length (chars r))%nat) by (unfold size in Hs; lia).
      rewrite firstn_length_le in He, Hc by exact Hn.
      unfold TAB_STOP in He.
      assert (Hcx : editorRowCxToRx r (cx E)
                    = Ret (0 + Z.of_nat (length (expand 0 (firstn (Z.to_nat (cx E))
                                                             (chars r))))))
        by (unfold editorRowCxToRx;
            apply rx_walk_expand; (exact Hn || unfold size in *; lia)).
      rewrite Hcx. cbn [bind]. eexists. split; [reflexivity|].
      split; [unfold size in *; lia|]. exists r. split; [reflexivity | exact Hcx].
    - exists 0. split; [reflexivity|]. split; [unfold INT_MAX; lia | reflexivity]. }
  destruct Hrx as (x & Hrun & Hxr & Hspec).
  unfold editorScroll. rewrite Hrun. cbn [bind]. cbv zeta.
  set (E2 := if cy (set_rx E x) <? rowoff (set_rx E x)
             then set_rowoff (set_rx E x) (cy (set_rx E x)) else set_rx E x).
  assert (H2 : cx E2 = cx E /\ cy E2 = cy E /\ row E2 = row E /\ rx E2 = x
               /\ coloff E2 = coloff E /\ screenrows E2 = screenrows E
               /\ screencols E2 = screencols E
               /\ 0 <= rowoff E2 <= rowoff E /\ rowoff E2 <= cy E).
  { subst E2. cbn [cy rowoff set_rx].
    destruct (Z.ltb_spec (cy E) (rowoff E));
      cbn [cx cy row rx rowoff coloff screenrows screencols set_rx set_rowoff];
      repeat split; try assumption; lia. }
  destruct H2 as (Hx2 & Hy2 & Hrow2 & Hrx2 & Hco2 & Hsr2 & Hsc2 & Hro2 & Hle2).
  rewrite checked_in_range by (unfold INT_MIN, INT_MAX in *; lia). cbn [bind].
  set (E3m := if rowoff E2 + screenrows E2 <=? cy E2
              then d <- checked (cy E2 - screenrows E2) ;;
                   o <- checked (d + 1) ;; Ret (set_rowoff E2 o)
              else Ret E2).
  assert (H3 : exists E3,
             E3m = Ret E3
             /\ cx E3 = cx E /\ cy E3 = cy E /\ row E3 = row E /\ rx E3 = x
             /\ coloff E3 = coloff E /\ screenrows E3 = screenrows E
             /\ screencols E3 = screencols E
             /\ rowoff E3 <= cy E < rowoff E3 + screenrows E).
  { subst E3m. destruct (Z.leb_spec (rowoff E2 + screenrows E2) (cy E2)).
    - rewrite checked_in_range by (unfold INT_MIN, INT_MAX in *; lia). cbn [bind].
      rewrite checked_in_range by (unfold INT_MIN, INT_MAX in *; lia). cbn [bind].
      eexists. split; [reflexivity|].
      cbn [cx cy row rx rowoff coloff screenrows screencols set_rowoff].
      repeat split; try assumption; lia.
    - exists E2. split; [reflexivity|]. repeat split; try assumption; lia. }
  destruct H3 as (E3 & Hrun3 & Hx3 & Hy3 & Hrow3 & Hrx3 & Hco3 & Hsr3 & Hsc3 & Hwin3).
  rewrite Hrun3. cbn [bind].
  set (E4 := if rx E3 <? coloff E3 then set_coloff E3 (rx E3) else E3).
  assert (H4 : cx E4 = cx E /\ cy E4 = cy E /\ row E4 = row E /\ rx E4 = x
               /\ rowoff E4 = rowoff E3 /\ screenrows E4 = screenrows E
               /\ screencols E4 = screencols E
               /\ 0 <= coloff E4 <= coloff E /\ coloff E4 <= x).
  { subst E4.
    destruct (Z.ltb_spec (rx E3) (coloff E3));
      cbn [cx cy row rx rowoff coloff screenrows screencols set_coloff];
      repeat split; try assumption; lia. }
  destruct H4 as (Hx4 & Hy4 & Hrow4 & Hrx4 & Hro4 & Hsr4 & Hsc4 & Hco4 & Hle4).
  rewrite checked_in_range by (unfold INT_MIN, INT_MAX in *; lia). cbn [bind].
  destruct (Z.leb_spec (coloff E4 + screencols E4) (rx E4)).
  - rewrite checked_in_range by (unfold INT_MIN, INT_MAX in *; lia). cbn [bind].
    rewrite checked_in_range by (unfold INT_MIN, INT_MAX in *; lia). cbn [bind].
    eexists. split; [reflexivity|].
    cbn [cx cy row rx rowoff coloff screenrows screencols set_coloff].
    rewrite Hrx4. repeat split; try lia; try assumption.
  - exists E4. split; [reflexivity|]. rewrite Hrx4.
    repeat split; try lia; try assumption.
Qed.

Lemma editorScroll_shows_cursor_witness :
  exists E',
    editorScroll (set_coloff (set_cx sample_editor 2) 9) = Ret E'
    /\ cx E' = 2 /\ cy E' = 0 /\ row E' = [sample_row]
    /\ (exists r, row_at (set_coloff (set_cx sample_editor 2) 9) 0 = Ret r
                  /\ editorRowCxToRx r 2 = Ret (rx E'))
    /\ rowoff E' <= cy E' < rowoff E' + screenrows E'
    /\ coloff E' <= rx E' < coloff E' + screencols E'.
Proof.
  apply (editorScroll_shows_cursor (set_coloff (set_cx sample_editor 2) 9)).
  - vm_compute. repeat split; discriminate.
  - split; [vm_compute; discriminate|]. repeat constructor.
  - reflexivity.
  - reflexivity.
  - vm_compute. discriminate.
  - vm_compute. discriminate.
  - vm_compute. discriminate.
  - vm_compute. discriminate.
Defined.

(** ** The editor: backspace *)

Lemma text_of_app (a b : list erow) : text_of (a ++ b) = text_of a ++ text_of b.
Proof. unfold text_of. now rewrite map_app, concat_app. Qed.

Lemma text_of_length (rs : list erow) : Z.of_nat (length (text_of rs)) = saved_length rs.
Proof. apply saved_length_concat. Qed.

Lemma text_of_renumber (rs : list erow) (j : Z) : text_of (renumber j rs) = text_of rs.
Proof.
  revert j. induction rs as [|r rs IH]; intros j; [reflexivity|].
  cbn [renumber]. change (text_of (?x :: ?l)) with ((chars x ++ [NEWLINE]) ++ text_of l).
  now rewrite IH.
Qed.

Lemma rows_split (E : editorConfig) (y : Z) (r : erow) :
  row_at E y = Ret r ->
  row E = firstn (Z.to_nat y) (row E) ++ r :: skipn (S (Z.to_nat y)) (row E).
Proof.
  intros H. apply row_at_nth in H. destruct H as [_ Hn].
  symmetry. now apply put_same.
Qed.

Lemma edited_row (E : editorConfig) (y : Z) (r : erow) (cs : list Z) (k : Z) :
  row_at E y = Ret r ->
  row (edited E y cs k)
  = firstn (Z.to_nat y) (row E) ++ updated (set_chars r cs)
      :: skipn (S (Z.to_nat y)) (row E).
Proof.
  intros H. apply row_at_nth in H. destruct H as [_ Hn].
  unfold edited. rewrite Hn. reflexivity.
Qed.

Lemma remove_at (A : Type) (a b : list A) (c : A) :
  firstn (length a) (a ++ c :: b) ++ skipn (S (length a)) (a ++ c :: b) = a ++ b.
Proof.
  replace (length a) with (length a + 0)%nat at 1 by lia.
  rewrite firstn_app_2. cbn [firstn]. rewrite app_nil_r.
  replace (S (length a)) with (length a + 1)%nat by lia.
  rewrite skipn_app, skipn_all2 by lia.
  replace (length a + 1 - length a)%nat with 1%nat by lia. reflexivity.
Qed.

Lemma editorRowAppendString_edited (E : editorConfig) (y : Z) (s : list Z) (r : erow) :
  row_at E y = Ret r ->
  8 * (size r + Z.of_nat (length s)) < INT_MAX ->
  INT_MIN <= dirty E + 1 <= INT_MAX ->
  editorRowAppendString y s E = Ret (edited E y (chars r ++ s) 1).
Proof.
  intros H Hsmall Hd. unfold editorRowAppendString. rewrite H. cbn [bind].
  rewrite editorUpdateRow_updated.
  - cbn [bind]. now apply touch_edited.
  - unfold size in *. cbn [chars set_chars]. rewrite length_app. lia.
Qed.

Lemma saved_length_app (a b : list erow) :
  saved_length (a ++ b) = saved_length a + saved_length b.
Proof.
  rewrite <- !text_of_length, text_of_app, length_app. lia.
Qed.

Lemma saved_length_cons (r : erow) (rs : list erow) :
  saved_length (r :: rs) = size r + 1 + saved_length rs.
Proof. reflexivity. Qed.

(** X29. Backspace removes the character before the cursor. With the
    cursor on a row and not at the very start of the text, [editorDelChar]
    completes and removes from the text of the rows, as it would be
    saved, exactly the one character before the cursor, be it a character
    of the row or the line end before it (the row is then joined to the
    one above); the cursor moves back with it and stays inside the text. *)
Theorem editorDelChar_deletes_before_cursor (E : editorConfig) :
  cursor_inside E ->
  cy E < numrows E ->
  0 < offset E ->
  8 * saved_length (row E) < INT_MAX ->
  0 <= dirty E -> dirty E + 2 <= INT_MAX ->
  exists E',
    editorDelChar E = Ret E'
    /\ text_of (row E')
       = firstn (Z.to_nat (offset E - 1)) (text_of (row E))
           ++ skipn (Z.to_nat (offset E)) (text_of (row E))
    /\ offset E' = offset E - 1
    /\ cursor_inside E'.
Proof.
  intros [Hy Hx] Hrow Hoff Hsmall Hd Hmax.
  destruct (line_length_row E (cy E) ltac:(lia)) as (r & Hr & Hs & _).
  pose proof (rows_split E (cy E) r Hr) as Hsplit.
  set (R1 := firstn (Z.to_nat (cy E)) (row E)) in *.
  set (R2 := skipn (S (Z.to_nat (cy E))) (row E)) in *.
  assert (HlenR1 : length R1 = Z.to_nat (cy E)).
  { subst R1. apply firstn_length_le. unfold numrows in *. lia. }
  assert (Htotal : saved_length (row E) = saved_length R1 + (size r + 1) + saved_length R2).
  { rewrite Hsplit at 1. rewrite saved_length_app, saved_length_cons. lia. }
  pose proof (saved_length_nonneg R1) as HR1.
  pose proof (saved_length_nonneg R2) as HR2.
  assert (Hsz : 0 <= size r) by (unfold size; lia).
  assert (Hnum : numrows E <= saved_length (row E)) by apply saved_length_rows.
  unfold editorDelChar.
  destruct (Z.eqb_spec (cy E) (numrows E)); [lia|].
  unfold offset in *. fold R1 in Hoff |- *.
  destruct (Z.eqb_spec (cx E) 0) as [Hx0|Hx0].
  - (* at the start of a row: join with the row above *)
    destruct (Z.eqb_spec (cy E) 0) as [Hy0|Hy0].
    { exfalso. subst R1. rewrite Hy0 in Hoff. cbn in Hoff. lia. }
    cbn [andb]. destruct (Z.ltb_spec 0 (cx E)); [lia|].
    rewrite Hr. cbn [bind].
    rewrite checked_in_range by (unfold INT_MIN, INT_MAX in *; lia). cbn [bind].
    destruct (line_length_row E (cy E - 1) ltac:(lia)) as (p & Hp & Hps & _).
    rewrite Hp. cbn [bind].
    pose proof (rows_split E (cy E - 1) p Hp) as Hsplit1.
    set (R0 := firstn (Z.to_nat (cy E - 1)) (row E)) in *.
    assert (HlenR0 : length R0 = Z.to_nat (cy E - 1)).
    { subst R0. apply firstn_length_le. unfold numrows in *. lia. }
    assert (HR1' : R1 = R0 ++ [p]).
    { subst R1. rewrite Hsplit1.
      replace (Z.to_nat (cy E)) with (length R0 + 1)%nat by lia.
      rewrite firstn_app_2. reflexivity. }
    assert (Hskip : skipn (S (Z.to_nat (cy E - 1))) (row E) = r :: R2).
    { replace (S (Z.to_nat (cy E - 1))) with (Z.to_nat (cy E)) by lia.
      rewrite Hsplit at 1. rewrite <- HlenR1.
      rewrite skipn_app, skipn_all, Nat.sub_diag. reflexivity. }
    rewrite Hskip in Hsplit1.
    assert (Hpsz : 0 <= size p) by (unfold size; lia).
    assert (HsR1 : saved_length R1 = saved_length R0 + (size p + 1)).
    { rewrite HR1', saved_length_app, saved_length_cons.
      change (saved_length []) with 0. lia. }
    pose proof (saved_length_nonneg R0) as HR0.
    rewrite (editorRowAppendString_edited E (cy E - 1) (chars r) p Hp)
      by (unfold size, INT_MIN, INT_MAX in *; lia).
    cbn [bind]. cbv zeta.
    set (Ea := edited E (cy E - 1) (chars p ++ chars r) 1).
    destruct (edited_fields E (cy E - 1) (chars p ++ chars r) 1)
      as (Eax & Eay & _ & _ & Ean).
    fold Ea in Eax, Eay, Ean.
    assert (HrowEa : row Ea = R0 ++ updated (set_chars p (chars p ++ chars r)) :: r :: R2).
    { subst Ea. rewrite (edited_row E (cy E - 1) p _ 1 Hp). fold R0.
      now rewrite Hskip. }
    unfold editorDelRow.
    change (cy (push_undo_delete (cy Ea) 0 [] Ea)) with (cy Ea).
    change (numrows (push_undo_delete (cy Ea) 0 [] Ea)) with (numrows Ea).
    rewrite Eay, Ean.
    destruct (Z.ltb_spec (cy E) 0); [lia|].
    destruct (Z.leb_spec (numrows E) (cy E)); [lia|]. cbn [orb]. cbv zeta.
    unfold touch.
    change (dirty (set_row (push_undo_delete (cy E) 0 [] Ea) _)) with (dirty Ea).
    subst Ea. rewrite (edited_dirty E (cy E - 1) p _ 1 Hp).
    set (Ea := edited E (cy E - 1) (chars p ++ chars r) 1) in *.
    rewrite checked_in_range by (unfold INT_MIN, INT_MAX in *; lia). cbn [bind].
    eexists. split; [reflexivity|].
    cbn [cx cy row set_cx set_cy set_dirty set_row push_undo_delete set_redo set_undo].
    rewrite HrowEa.
    assert (Hf : firstn (Z.to_nat (cy E)) (R0 ++ updated (set_chars p (chars p ++ chars r))
                                            :: r :: R2)
                 = R0 ++ [updated (set_chars p (chars p ++ chars r))]).
    { replace (Z.to_nat (cy E)) with (length R0 + 1)%nat by lia.
      rewrite firstn_app_2. reflexivity. }
    assert (Hk : skipn (S (Z.to_nat (cy E))) (R0 ++ updated (set_chars p (chars p ++ chars r))
                                                :: r :: R2)
                 = R2).
    { replace (S (Z.to_nat (cy E))) with (length R0 + 2)%nat by lia.
      rewrite skipn_app, skipn_all2 by lia.
      replace (length R0 + 2 - length R0)%nat with 2%nat by lia. reflexivity. }
    rewrite Hf, Hk.
    split; [|split].
    + rewrite !text_of_app, text_of_renumber.
      rewrite Hsplit1 at 1 2. rewrite !text_of_app.
      change (text_of [updated (set_chars p (chars p ++ chars r))])
        with (((chars p ++ chars r) ++ [NEWLINE]) ++ []).
      change (text_of (p :: r :: R2))
        with ((chars p ++ [NEWLINE]) ++ (chars r ++ [NEWLINE]) ++ text_of R2).
      rewrite app_nil_r.
      set (T0 := text_of R0). set (T2 := text_of R2).
      assert (HT0 : Z.of_nat (length T0) = saved_length R0) by apply text_of_length.
      rewrite Hx0, HsR1.
      replace (Z.to_nat (saved_length R0 + (size p + 1) + 0 - 1))
        with (length (T0 ++ chars p) + 0)%nat
        by (rewrite length_app; unfold size; lia).
      replace (Z.to_nat (saved_length R0 + (size p + 1) + 0))
        with (S (length (T0 ++ chars p)))
        by (rewrite length_app; unfold size; lia).
      replace (T0 ++ (chars p ++ [NEWLINE]) ++ (chars r ++ [NEWLINE]) ++ T2)
        with ((T0 ++ chars p) ++ NEWLINE :: (chars r ++ [NEWLINE]) ++ T2)
        by (rewrite <- !app_assoc; reflexivity).
      rewrite Nat.add_0_r, remove_at. rewrite <- !app_assoc. reflexivity.
    + replace (Z.to_nat (cy E - 1)) with (length R0) by lia.
      rewrite <- app_assoc. cbn [app]. rewrite firstn_app, firstn_all, Nat.sub_diag.
      cbn [firstn]. rewrite app_nil_r. rewrite Hx0, HsR1. lia.
    + unfold cursor_inside, line_length, numrows.
      cbn [cx cy row set_cx set_cy set_dirty set_row].
      rewrite <- app_assoc. cbn [app].
      replace (Z.to_nat (cy E - 1)) with (length R0 + 0)%nat by lia.
      rewrite nth_error_app2, Nat.add_comm, Nat.add_sub by lia. cbn [nth_error].
      unfold size. cbn [chars updated set_chars]. rewrite !length_app. cbn [length].
      unfold numrows in *. lia.
  - (* inside a row: delete the character before the cursor *)
    replace ((cx E =? 0) && (cy E =? 0)) with false
      by (symmetry; apply andb_false_iff; left; now apply Z.eqb_neq).
    destruct (Z.ltb_spec 0 (cx E)); [|lia].
    rewrite checked_in_range by (unfold INT_MIN, INT_MAX in *; lia). cbn [bind].
    set (a := firstn (Z.to_nat (cx E - 1)) (chars r)).
    set (b := skipn (Z.to_nat (cx E)) (chars r)).
    assert (Hla : Z.of_nat (length a) = cx E - 1).
    { subst a. unfold size in *. rewrite firstn_length_le; lia. }
    assert (Hc : exists c, chars r = a ++ [c] ++ b).
    { destruct (nth_error (chars r) (Z.to_nat (cx E - 1))) as [c|] eqn:Hn.
      - exists c. subst a b. cbn [app].
        replace (Z.to_nat (cx E)) with (S (Z.to_nat (cx E - 1))) by lia.
        symmetry. now apply put_same.
      - apply nth_error_None in Hn. unfold size in *. lia. }
    destruct Hc as (c & Hc).
    pose proof (editorDelCharsAt_edited E (cy E) (cx E - 1) a [c] b r Hr Hc Hla) as Hdel.
    change (Z.of_nat (length [c])) with 1 in Hdel.
    rewrite Hdel by (discriminate || unfold size, INT_MIN, INT_MAX in *; lia).
    cbn [bind fst snd].
    eexists. split; [reflexivity|].
    cbn [cx cy row set_cx push_undo_delete set_redo set_undo].
    destruct (edited_fields E (cy E) (a ++ b) 1) as (_ & Eay & _).
    rewrite (edited_row E (cy E) r _ 1 Hr). fold R1 R2.
    split; [|split].
    + rewrite Hsplit at 1 2. rewrite !text_of_app.
      change (text_of (?x :: ?l)) with ((chars x ++ [NEWLINE]) ++ text_of l).
      cbn [chars updated set_chars]. rewrite Hc.
      set (T1 := text_of R1). set (T2 := text_of R2).
      assert (HT1 : Z.of_nat (length T1) = saved_length R1) by apply text_of_length.
      replace (Z.to_nat (saved_length R1 + cx E - 1)) with (length (T1 ++ a) + 0)%nat
        by (rewrite length_app; lia).
      replace (Z.to_nat (saved_length R1 + cx E)) with (S (length (T1 ++ a)))
        by (rewrite length_app; lia).
      replace (T1 ++ ((a ++ [c] ++ b) ++ [NEWLINE]) ++ T2)
        with ((T1 ++ a) ++ c :: (b ++ [NEWLINE]) ++ T2)
        by (rewrite <- !app_assoc; reflexivity).
      rewrite Nat.add_0_r, remove_at. rewrite <- !app_assoc. reflexivity.
    + rewrite Eay, <- HlenR1, firstn_app, firstn_all, Nat.sub_diag. cbn [firstn].
      rewrite app_nil_r. lia.
    + unfold cursor_inside, line_length, numrows.
      cbn [cx cy row set_cx push_undo_delete set_redo set_undo].
      rewrite (edited_row E (cy E) r _ 1 Hr). fold R1 R2. rewrite Eay.
      rewrite <- HlenR1.
      rewrite nth_error_app2, Nat.sub_diag by lia. cbn [nth_error].
      unfold size. cbn [chars updated set_chars].
      rewrite length_app. cbn [length]. unfold numrows in *.
      rewrite Hsplit in Hrow. rewrite !length_app in *. cbn [length] in *.
      assert (Z.of_nat (length b) = size r - cx E).
      { subst b. rewrite length_skipn. unfold size in *. lia. }
      unfold size in *. lia.
Qed.

(** ** The editor: formatting marks *)

Lemma word_start_spec (r : erow) (n : nat) :
  (n <= length (chars r))%nat ->
  exists left : nat,
    word_start r n = Ret (Z.of_nat left)
    /\ (left <= n)%nat
    /\ forallb not_space (firstn (n - left) (skipn left (chars r))) = true
    /\ (left = O
        \/ exists c, nth_error (chars r) (left - 1) = Some c /\ isspace (to_uchar c) = true).
Proof.
  induction n as [|n IH]; intros Hn.
  - exists O. cbn [word_start]. repeat split; auto.
  - cbn [word_start]. unfold char_at.
    destruct (Z.ltb_spec (Z.of_nat n) 0); [lia|]. rewrite Nat2Z.id.
    destruct (nth_error (chars r) n) as [c|] eqn:Hc;
      [|apply nth_error_None in Hc; lia].
    cbn [bind]. destruct (isspace (to_uchar c)) eqn:Hsp.
    + exists (S n). split; [reflexivity|]. split; [lia|].
      rewrite Nat.sub_diag. split; [reflexivity|]. right. exists c.
      replace (S n - 1)%nat with n by lia. now split.
    + destruct (IH ltac:(lia)) as (left & Hrun & Hle & Hword & Hedge).
      exists left. split; [exact Hrun|]. split; [lia|]. split; [|exact Hedge].
      replace (S n - left)%nat with ((n - left) + 1)%nat by lia.
      assert (Hsplit : skipn left (chars r)
                       = firstn (n - left) (skipn left (chars r))
                           ++ c :: skipn (S n) (chars r)).
      { rewrite <- (firstn_skipn (n - left) (skipn left (chars r))) at 1.
        f_equal. rewrite skipn_skipn.
        replace (n - left + left)%nat with n by lia.
        rewrite <- (firstn_skipn 1 (skipn n (chars r))) at 1.
        rewrite skipn_skipn. replace (1 + n)%nat with (S n) by lia.
        assert (H1 : firstn 1 (skipn n (chars r)) = [c]).
        { rewrite <- (firstn_skipn n (chars r)) in Hc.
          rewrite nth_error_app2 in Hc by (rewrite firstn_length_le; lia).
          rewrite firstn_length_le, Nat.sub_diag in Hc by lia.
          destruct (skipn n (chars r)) as [|x t]; [discriminate|].
          cbn in Hc. injection Hc as ->. reflexivity. }
        rewrite H1. reflexivity. }
      rewrite Hsplit.
      assert (Hl : length (firstn (n - left) (skipn left (chars r))) = (n - left)%nat).
      { rewrite firstn_length_le; [reflexivity|]. rewrite length_skipn. lia. }
      rewrite <- Hl at 1. rewrite firstn_app_2. cbn [firstn].
      rewrite forallb_app. rewrite Hsplit in Hword.
      rewrite <- Hl in Hword at 1.
      rewrite firstn_app, Nat.sub_diag, firstn_all in Hword. cbn [firstn] in Hword.
      rewrite app_nil_r in Hword. rewrite Hword. cbn [forallb andb].
      unfold not_space. now rewrite Hsp.
Qed.

Lemma word_end_spec (rest : list Z) (right : Z) :
  exists k : nat,
    word_end rest right = right + Z.of_nat k
    /\ (k <= length rest)%nat
    /\ forallb not_space (firstn k rest) = true
    /\ (k = length rest
        \/ exists c, nth_error rest k = Some c /\ isspace (to_uchar c) = true).
Proof.
  revert right. induction rest as [|c rest IH]; intros right.
  - exists O. cbn. repeat split; auto. lia.
  - cbn [word_end]. destruct (isspace (to_uchar c)) eqn:Hsp.
    + exists O. split; [lia|]. split; [cbn; lia|]. split; [reflexivity|].
      right. exists c. now split.
    + destruct (IH (right + 1)) as (k & Hrun & Hle & Hword & Hedge).
      exists (S k). split; [rewrite Hrun; lia|]. split; [cbn [length]; lia|].
      split.
      * cbn [firstn forallb]. unfold not_space at 1. now rewrite Hsp.
      * destruct Hedge as [Hk|Hk]; [left; cbn [length]; lia | right; exact Hk].
Qed.

Lemma strncmp_eq_space (p m : list Z) (c m0 : Z) (n : nat) :
  isspace (to_uchar c) = true -> isspace (to_uchar m0) = false -> n <> O ->
  strncmp_eq (c :: p) (m0 :: m) n = false.
Proof.
  intros Hc Hm Hn. destruct n as [|n]; [congruence|].
  cbn [strncmp_eq hd]. destruct (Z.eqb_spec c m0); [congruence | reflexivity].
Qed.

Lemma firstn_insert (A : Type) (l m : list A) (i j : nat) :
  (i <= j)%nat -> (j <= length l)%nat ->
  firstn i (firstn j l ++ m ++ skipn j l) = firstn i l.
Proof.
  intros Hij Hj. rewrite firstn_app, firstn_firstn.
  rewrite firstn_length_le by lia.
  replace (i - j)%nat with O by lia. cbn [firstn].
  rewrite app_nil_r. now rewrite Nat.min_l by lia.
Qed.

Lemma skipn_insert (A : Type) (l m : list A) (i j : nat) :
  (i <= j)%nat -> (j <= length l)%nat ->
  skipn i (firstn j l ++ m ++ skipn j l)
  = firstn (j - i) (skipn i l) ++ m ++ skipn j l.
Proof.
  intros Hij Hj. rewrite skipn_app, firstn_length_le by lia.
  replace (i - j)%nat with O by lia. cbn [skipn]. f_equal.
  apply skipn_firstn_comm.
Qed.

Lemma is_mark_cons (mark : list Z) :
  is_mark mark = true ->
  exists m0 rest,
    mark = m0 :: rest /\ isspace (to_uchar m0) = false /\ Z.of_nat (length mark) <= 8.
Proof.
  destruct mark as [|m0 rest]; [discriminate|]. intros H.
  unfold is_mark in H. apply andb_prop in H. destruct H as [H1 H2].
  exists m0, rest. split; [reflexivity|]. split.
  - unfold not_space in H1. now apply negb_true_iff in H1.
  - now apply Z.leb_le.
Qed.

Lemma split_at_length (A : Type) (a b : list A) (n : nat) :
  n = length a -> firstn n (a ++ b) = a /\ skipn n (a ++ b) = b.
Proof.
  intros ->. split.
  - rewrite firstn_app, Nat.sub_diag, firstn_all. cbn [firstn]. apply app_nil_r.
  - rewrite skipn_app, Nat.sub_diag, skipn_all. reflexivity.
Qed.

Lemma insert_twice (E : editorConfig) (mark : list Z) (r : erow) (left right : nat) :
  row_at E (cy E) = Ret r ->
  (left <= right)%nat -> (right <= length (chars r))%nat ->
  mark <> [] ->
  8 * (size r + 2 * Z.of_nat (length mark)) < INT_MAX ->
  0 <= dirty E ->
  dirty E + 2 * Z.of_nat (length mark) <= INT_MAX ->
  exists E1,
    editorInsertCharsAt (cy E) (Z.of_nat right) mark E = Ret E1
    /\ cy E1 = cy E /\ cx E1 = cx E
    /\ editorInsertCharsAt (cy E) (Z.of_nat left) mark E1
       = Ret (edited E (cy E) (marked (chars r) mark left right)
                (2 * Z.of_nat (length mark))).
Proof.
  intros H Hlr Hr Hm Hsmall Hd Hmax.
  pose proof (row_at_numrows _ _ _ H) as Hy.
  set (M := map to_char mark).
  set (c1 := firstn right (chars r) ++ M ++ skipn right (chars r)).
  exists (edited E (cy E) c1 (Z.of_nat (length mark))).
  destruct (edited_fields E (cy E) c1 (Z.of_nat (length mark))) as (Ex & Ey & _).
  split.
  { rewrite (editorInsertCharsAt_edited E (cy E) (Z.of_nat right) mark r H)
      by (assumption || (unfold size in *; lia)).
    rewrite Nat2Z.id. reflexivity. }
  split; [exact Ey|]. split; [exact Ex|].
  rewrite (editorInsertCharsAt_edited _ (cy E) (Z.of_nat left) mark
             (updated (set_chars r c1))).
  - rewrite edited_edited by lia. rewrite Nat2Z.id.
    cbn [chars updated set_chars]. subst c1. fold M.
    rewrite firstn_insert, skipn_insert by lia.
    unfold marked. fold M. f_equal. f_equal. lia.
  - now apply row_at_edited.
  - unfold size. cbn [chars updated set_chars]. subst c1.
    rewrite !length_app, firstn_length_le by lia. lia.
  - exact Hm.
  - unfold size in *. cbn [chars updated set_chars]. subst c1 M.
    rewrite !length_app, length_map, firstn_length_le, length_skipn by lia. lia.
  - rewrite (edited_dirty _ _ _ _ _ H). lia.
  - rewrite (edited_dirty _ _ _ _ _ H). lia.
Qed.

Lemma insert_pair_at (E : editorConfig) (mark : list Z) (r : erow) (x : nat) :
  row_at E (cy E) = Ret r ->
  (x <= length (chars r))%nat ->
  mark <> [] ->
  8 * (size r + 2 * Z.of_nat (length mark)) < INT_MAX ->
  0 <= dirty E ->
  dirty E + 2 * Z.of_nat (length mark) <= INT_MAX ->
  exists E1,
    editorInsertCharsAt (cy E) (Z.of_nat x) mark E = Ret E1
    /\ cy E1 = cy E /\ cx E1 = cx E
    /\ editorInsertCharsAt (cy E) (Z.of_nat x + Z.of_nat (length mark)) mark E1
       = Ret (edited E (cy E) (marked (chars r) mark x x)
                (2 * Z.of_nat (length mark))).
Proof.
  intros H Hx Hm Hsmall Hd Hmax.
  pose proof (row_at_numrows _ _ _ H) as Hy.
  set (M := map to_char mark).
  set (c1 := firstn x (chars r) ++ M ++ skipn x (chars r)).
  exists (edited E (cy E) c1 (Z.of_nat (length mark))).
  destruct (edited_fields E (cy E) c1 (Z.of_nat (length mark))) as (Ex & Ey & _).
  split.
  { rewrite (editorInsertCharsAt_edited E (cy E) (Z.of_nat x) mark r H)
      by (assumption || (unfold size in *; lia)).
    rewrite Nat2Z.id. reflexivity. }
  split; [exact Ey|]. split; [exact Ex|].
  assert (HlM : length M = length mark) by apply length_map.
  rewrite (editorInsertCharsAt_edited _ (cy E) _ mark (updated (set_chars r c1))).
  - rewrite edited_edited by lia.
    cbn [chars updated set_chars]. subst c1.
    rewrite (app_assoc (firstn x (chars r)) M (skipn x (chars r))).
    destruct (split_at_length _ (firstn x (chars r) ++ M) (skipn x (chars r))
                (Z.to_nat (Z.of_nat x + Z.of_nat (length mark)))) as [Hf Hs].
    { rewrite length_app, firstn_length_le; lia. }
    rewrite Hf, Hs.
    unfold marked. fold M. rewrite Nat.sub_diag. cbn [firstn app].
    rewrite <- !app_assoc. f_equal. f_equal. lia.
  - now apply row_at_edited.
  - unfold size. cbn [chars updated set_chars]. subst c1.
    rewrite !length_app, firstn_length_le, length_skipn by lia. lia.
  - exact Hm.
  - unfold size in *. cbn [chars updated set_chars]. subst c1 M.
    rewrite !length_app, length_map, firstn_length_le, length_skipn by lia. lia.
  - rewrite (edited_dirty _ _ _ _ _ H). lia.
  - rewrite (edited_dirty _ _ _ _ _ H). lia.
Qed.

Lemma editorToggleFormat_toggled (E : editorConfig) (mark : list Z) (r : erow) :
  row_at E (cy E) = Ret r ->
  0 <= cx E <= size r ->
  is_mark mark = true ->
  8 * (size r + 2 * Z.of_nat (length mark)) < INT_MAX ->
  0 <= dirty E ->
  dirty E + 2 * Z.of_nat (length mark) <= INT_MAX ->
  exists left right : nat,
    editorToggleFormat mark E = Ret (toggled E mark r left right)
    /\ (left <= Z.to_nat (cx E) <= right)%nat
    /\ (right <= length (chars r))%nat
    /\ forallb not_space (firstn (right - left) (skipn left (chars r))) = true
    /\ (left = O
        \/ exists c, nth_error (chars r) (left - 1) = Some c /\ isspace (to_uchar c) = true)
    /\ (right = length (chars r)
        \/ exists c, nth_error (chars r) right = Some c /\ isspace (to_uchar c) = true).
Proof.
  intros H Hx Hmark Hsmall Hd Hmax.
  pose proof (row_at_numrows _ _ _ H) as Hy.
  destruct (is_mark_cons mark Hmark) as (m0 & mrest & Hm & Hm0 & Hm8).
  assert (Hne : mark <> []) by (rewrite Hm; discriminate).
  assert (Hmlen : 1 <= Z.of_nat (length mark)) by (rewrite Hm; cbn [length]; lia).
  set (n := Z.to_nat (cx E)).
  assert (Hn : (n <= length (chars r))%nat) by (unfold size in Hx; lia).
  destruct (word_start_spec r n Hn) as (left & Hleft & Hle & Hw1 & Hedge1).
  destruct (word_end_spec (skipn n (chars r)) (cx E)) as (k & Hright & Hk & Hw2 & Hedge2).
  rewrite length_skipn in Hk, Hedge2.
  set (right := (n + k)%nat).
  assert (Hright' : word_end (skipn n (chars r)) (cx E) = Z.of_nat right)
    by (rewrite Hright; subst right n; lia).
  exists left, right.
  assert (Hword : forallb not_space (firstn (right - left) (skipn left (chars r))) = true).
  { replace (right - left)%nat with ((n - left) + k)%nat by (subst right; lia).
    rewrite <- (firstn_skipn (n - left) (skipn left (chars r))).
    rewrite skipn_skipn. replace (n - left + left)%nat with n by lia.
    assert (Hl : length (firstn (n - left) (skipn left (chars r))) = (n - left)%nat).
    { rewrite firstn_length_le; [reflexivity|]. rewrite length_skipn. lia. }
    rewrite <- Hl at 1. rewrite firstn_app_2, forallb_app, Hw1, Hw2. reflexivity. }
  assert (Hedge2' : right = length (chars r)
                    \/ exists c, nth_error (chars r) right = Some c /\ isspace (to_uchar c) = true).
  { destruct Hedge2 as [Hk'|(c & Hc & Hsp)]; [left; subst right; lia|].
    right. exists c. split; [|exact Hsp].
    rewrite nth_error_skipn in Hc. subst right. exact Hc. }
  split; [|repeat split; (assumption || subst right; lia)].
  unfold editorToggleFormat. cbv zeta.
  destruct (Z.leb_spec (numrows E) (cy E)); [lia|].
  rewrite H. cbn [bind].
  destruct (Z.ltb_spec (cx E) 0); [lia|].
  fold n. rewrite Hleft. cbn [bind]. rewrite Hright'.
  destruct (Z.ltb_spec (Z.of_nat left) (Z.of_nat right)) as [Hlt|Hge].
  - (* a word around the cursor *)
    rewrite checked_in_range by (unfold INT_MIN, INT_MAX, size in *; lia).
    cbn [bind].
    rewrite checked_in_range by (unfold INT_MIN, INT_MAX, size in *; subst right; lia).
    cbn [bind].
    assert (Hclose : (if Z.of_nat right + Z.of_nat (length mark) <=? size r
                      then strncmp_eq (skipn (Z.to_nat (Z.of_nat right)) (chars r)) mark
                             (length mark)
                      else false) = false).
    { destruct (Z.leb_spec (Z.of_nat right + Z.of_nat (length mark)) (size r));
        [|reflexivity].
      destruct Hedge2' as [Hend|(c & Hc & Hsp)]; [unfold size in *; lia|].
      rewrite Nat2Z.id.
      assert (Hs : skipn right (chars r) = c :: skipn (S right) (chars r)).
      { rewrite <- (firstn_skipn right (chars r)) in Hc.
        assert (Hfl : length (firstn right (chars r)) = right)
          by (apply firstn_length_le; subst right; lia).
        rewrite nth_error_app2, Hfl, Nat.sub_diag in Hc by lia.
        destruct (skipn right (chars r)) as [|x t] eqn:Hsk; [discriminate|].
        cbn in Hc. injection Hc as ->. f_equal.
        replace (S right) with (1 + right)%nat by lia.
        rewrite <- skipn_skipn, Hsk. reflexivity. }
      rewrite Hs, Hm. apply strncmp_eq_space; [exact Hsp | exact Hm0 | discriminate]. }
    rewrite Hclose, andb_false_r.
    destruct (insert_twice E mark r left right H) as (E1 & Hi1 & Hy1 & Hx1 & Hi2);
      try assumption; try lia.
    rewrite Hi1. cbn [bind]. rewrite Hy1, Hi2. cbn [bind].
    destruct (edited_fields E (cy E) (marked (chars r) mark left right)
                (2 * Z.of_nat (length mark))) as (_ & Ey & _).
    rewrite Ey.
    change (cy (push_undo_insert (cy E) (Z.of_nat left) mark ?X)) with (cy X).
    rewrite Ey. reflexivity.
  - (* no word: the pair goes in at the cursor *)
    assert (Hl : left = n) by (subst right; lia).
    assert (Hr : right = n) by (subst right; lia).
    assert (Hcx : cx E = Z.of_nat n) by (subst n; lia).
    rewrite Hl, Hr. clear Hword Hedge2'.
    destruct (insert_pair_at E mark r n H) as (E1 & Hi1 & Hy1 & Hx1 & Hi2);
      try assumption; try lia.
    rewrite Hcx at 1. rewrite Hi1. cbn [bind].
    unfold close_copy. destruct (Z.leb_spec (Z.of_nat (length mark)) 8); [|lia].
    cbn [bind]. rewrite Hx1, Hy1, Hcx.
    rewrite checked_in_range by (unfold INT_MIN, INT_MAX, size in *; lia).
    cbn [bind]. rewrite Hi2. cbn [bind].
    destruct (edited_fields E (cy E) (marked (chars r) mark n n)
                (2 * Z.of_nat (length mark))) as (Ex & Ey & _).
    rewrite Ex, Ey, Hcx.
    change (cx (push_undo_insert (cy E) (Z.of_nat n) mark ?X)) with (cx X).
    rewrite Ex, Hcx.
    rewrite checked_in_range by (unfold INT_MIN, INT_MAX, size in *; lia).
    cbn [bind].
    change (cy (push_undo_insert (cy E) (Z.of_nat n) mark ?X)) with (cy X).
    rewrite Ey.
    change (cx (push_undo_insert (cy E) ?a mark (push_undo_insert (cy E) ?b mark ?X)))
      with (cx X).
    rewrite Ex, Hcx.
    rewrite checked_in_range by (unfold INT_MIN, INT_MAX, size in *; lia).
    reflexivity.
Qed.

Lemma row_at_ext (E1 E2 : editorConfig) (y : Z) :
  row E1 = row E2 -> row_at E1 y = row_at E2 y.
Proof. intros H. unfold row_at. now rewrite H. Qed.

Lemma rows_edit_chain (E0 E : editorConfig) (y : Z) (r : erow) (cs0 cs : list Z)
  (k0 k k' : Z) :
  row_at E y = Ret r ->
  row E0 = row (edited E y cs0 k0) ->
  row (edited E0 y cs k) = row (edited E y cs k').
Proof.
  intros H H0. pose proof H as Hn. apply row_at_nth in Hn. destruct Hn as [_ Hn].
  assert (Hlt : (Z.to_nat y < length (row E))%nat)
    by (apply nth_error_Some; congruence).
  rewrite (edited_row E y r cs0 k0 H) in H0.
  unfold edited. rewrite H0, Hn, nth_error_put by exact Hlt.
  cbn [row set_dirty put_row set_row]. rewrite H0. now rewrite put_put.
Qed.

(** Undoing an insertion of [m] that sits in the row behind [a]. *)
Lemma editorUndo_insert (E : editorConfig) (y x : Z) (mark a m b : list Z) (r : erow)
  (py px : Z) (below : list EditorAction) :
  undoStack E = mkAction ACT_INSERT y x (Some mark) (Z.of_nat (length m)) py px :: below ->
  row_at E y = Ret r ->
  chars r = a ++ m ++ b ->
  Z.of_nat (length a) = x ->
  m <> [] ->
  8 * size r < INT_MAX ->
  0 <= dirty E ->
  dirty E + Z.of_nat (length m) <= INT_MAX ->
  exists E',
    editorUndo E = Ret E'
    /\ row E' = row (edited E y (a ++ b) (Z.of_nat (length m)))
    /\ dirty E' = dirty E + Z.of_nat (length m)
    /\ undoStack E' = below
    /\ cx E' = cx E /\ cy E' = cy E.
Proof.
  intros Hu H Hc Ha Hm Hsmall Hd Hmax.
  unfold editorUndo. rewrite Hu. cbv zeta. cbn [type ay ax data_len prev_cy prev_cx].
  set (E0 := set_undo E below).
  assert (H0 : row_at E0 y = Ret r) by exact H.
  rewrite (editorDelCharsAt_edited E0 y x a m b r H0 Hc Ha Hm Hsmall) by assumption.
  cbn [bind fst snd]. unfold read_bytes.
  destruct (Z.leb_spec (Z.of_nat (length m)) (Z.of_nat (length m))); [|lia].
  cbn [bind fst snd]. eexists. split; [reflexivity|].
  cbn [row dirty undoStack cx cy set_redo].
  destruct (edited_fields E0 y (a ++ b) (Z.of_nat (length m))) as (Ex & Ey & Eu & _).
  rewrite Ex, Ey, Eu, (edited_dirty _ _ _ _ _ H0).
  split; [|repeat split].
  subst E0. now rewrite edited_set_undo.
Qed.

Lemma marked_length (cs mark : list Z) (left right : nat) :
  (left <= right)%nat -> (right <= length cs)%nat ->
  length (marked cs mark left right) = (length cs + 2 * length mark)%nat.
Proof.
  intros Hlr Hr. unfold marked.
  rewrite !length_app, !length_map, !firstn_length_le, length_skipn
    by (rewrite ?length_skipn; lia).
  lia.
Qed.

(** X30. A format key puts its mark around the word at the cursor, and
    never takes a mark away. With the cursor on a rendered row, at one of
    its columns, [editorToggleFormat] with a mark of at most 8 bytes that
    starts with no white space completes: it finds the longest run of
    characters without white space around the cursor (none when the cursor
    stands between white space) and puts the mark before it and behind it,
    whatever stands around the run, also the same mark. The cursor goes
    before the second mark, and asking for undo twice gives the rows
    back. *)
Theorem editorToggleFormat_wraps_the_word (E : editorConfig) (mark : list Z)
  (r : erow) :
  row_at E (cy E) = Ret r ->
  rendered r ->
  0 <= cx E <= size r ->
  is_mark mark = true ->
  8 * (size r + 2 * Z.of_nat (length mark)) < INT_MAX ->
  0 <= dirty E ->
  dirty E + 4 * Z.of_nat (length mark) <= INT_MAX ->
  exists (left right : nat) (E' : editorConfig) (r' : erow) (E'' : editorConfig),
    editorToggleFormat mark E = Ret E'
    /\ (left <= Z.to_nat (cx E) <= right)%nat
    /\ (right <= length (chars r))%nat
    /\ forallb not_space (firstn (right - left) (skipn left (chars r))) = true
    /\ (left = O
        \/ exists c, nth_error (chars r) (left - 1) = Some c /\ isspace (to_uchar c) = true)
    /\ (right = length (chars r)
        \/ exists c, nth_error (chars r) right = Some c /\ isspace (to_uchar c) = true)
    /\ row_at E' (cy E) = Ret r'
    /\ chars r' = firstn left (chars r) ++ map to_char mark
                    ++ firstn (right - left) (skipn left (chars r))
                    ++ map to_char mark ++ skipn right (chars r)
    /\ cy E' = cy E
    /\ cx E' = Z.of_nat right + Z.of_nat (length mark)
    /\ undo_times 2 E' = Ret E''
    /\ row E'' = row E.
Proof.
  intros H Hr Hx Hmark Hsmall Hd Hmax.
  pose proof (row_at_numrows _ _ _ H) as Hy.
  destruct (is_mark_cons mark Hmark) as (m0 & mrest & Hm & Hm0 & Hm8).
  assert (Hmlen : 1 <= Z.of_nat (length mark)) by (rewrite Hm; cbn [length]; lia).
  destruct (editorToggleFormat_toggled E mark r H Hx Hmark Hsmall Hd ltac:(lia))
    as (left & right & Hrun & Hlr & Hrl & Hword & Hedge1 & Hedge2).
  set (mlen := Z.of_nat (length mark)) in *.
  set (M := map to_char mark).
  assert (HlM : Z.of_nat (length M) = mlen) by (subst M mlen; now rewrite length_map).
  assert (HM : M <> []) by (subst M; rewrite Hm; discriminate).
  set (A := firstn left (chars r)).
  set (W := firstn (right - left) (skipn left (chars r))).
  set (B := skipn right (chars r)).
  assert (HlA : length A = left) by (subst A; apply firstn_length_le; lia).
  assert (HlW : length W = (right - left)%nat).
  { subst W. apply firstn_length_le. rewrite length_skipn. lia. }
  assert (Hchars : chars r = A ++ W ++ B).
  { subst A W B. rewrite <- (firstn_skipn left (chars r)) at 1. f_equal.
    rewrite <- (firstn_skipn (right - left) (skipn left (chars r))) at 1. f_equal.
    rewrite skipn_skipn. f_equal. lia. }
  set (Ef := edited E (cy E) (marked (chars r) mark left right) (2 * mlen)).
  set (r1 := updated (set_chars r (marked (chars r) mark left right))).
  assert (Hsize1 : size r1 = size r + 2 * mlen).
  { unfold size. subst r1. cbn [chars updated set_chars].
    rewrite marked_length by lia. subst mlen. lia. }
  destruct (edited_fields E (cy E) (marked (chars r) mark left right) (2 * mlen))
    as (Ex & Ey & Eu & _).
  fold Ef in Ex, Ey, Eu.
  set (E' := toggled E mark r left right) in *.
  assert (Hrow' : row_at E' (cy E) = Ret r1)
    by exact (row_at_edited E (cy E) r _ (2 * mlen) H).
  assert (Hdirty' : dirty E' = dirty E + 2 * mlen)
    by exact (edited_dirty E (cy E) r _ (2 * mlen) H).
  (* the first undo takes the second mark out *)
  destruct (editorUndo_insert E' (cy E) (Z.of_nat right + mlen) mark
              (A ++ M ++ W) M B r1 (cy Ef) (cx Ef)
              (mkAction ACT_INSERT (cy E) (Z.of_nat left) (Some mark) mlen
                 (cy Ef) (cx Ef) :: undoStack Ef))
    as (E1 & Hundo1 & Hrow1 & Hdirty1 & Hstack1 & _).
  { rewrite HlM. reflexivity. }
  { exact Hrow'. }
  { subst r1. cbn [chars updated set_chars]. unfold marked. fold M A W B.
    now rewrite <- !app_assoc. }
  { rewrite !length_app, HlA, HlW. lia. }
  { exact HM. }
  { rewrite Hsize1. lia. }
  { lia. }
  { lia. }
  assert (Hrow1' : row E1 = row (edited E (cy E) (A ++ M ++ W ++ B) 0)).
  { rewrite Hrow1. rewrite <- !app_assoc.
    apply (rows_edit_chain E' E (cy E) r (marked (chars r) mark left right) _
             (2 * mlen) _ 0 H).
    reflexivity. }
  set (r2 := updated (set_chars r (A ++ M ++ W ++ B))).
  assert (Hrow_at1 : row_at E1 (cy E) = Ret r2).
  { rewrite (row_at_ext E1 _ (cy E) Hrow1'). now apply row_at_edited. }
  (* the second undo takes the first mark out *)
  destruct (editorUndo_insert E1 (cy E) (Z.of_nat left) mark A M (W ++ B) r2
              (cy Ef) (cx Ef) (undoStack Ef))
    as (E2 & Hundo2 & Hrow2 & _).
  { rewrite HlM. exact Hstack1. }
  { exact Hrow_at1. }
  { reflexivity. }
  { lia. }
  { exact HM. }
  { unfold size in *. subst r2. cbn [chars updated set_chars].
    rewrite Hchars in Hsmall. rewrite !length_app in *. lia. }
  { lia. }
  { lia. }
  exists left, right, E', r1, E2.
  split; [exact Hrun|]. split; [exact Hlr|]. split; [exact Hrl|].
  split; [exact Hword|]. split; [exact Hedge1|]. split; [exact Hedge2|].
  split; [exact Hrow'|]. split; [reflexivity|].
  split; [exact Ey|]. split; [reflexivity|].
  split.
  - cbn [undo_times]. rewrite Hundo1. cbn [bind]. rewrite Hundo2. reflexivity.
  - rewrite Hrow2.
    rewrite (rows_edit_chain E1 E (cy E) r (A ++ M ++ W ++ B) (A ++ W ++ B) 0 _ 0 H Hrow1').
    rewrite <- Hchars. now rewrite (edited_same E (cy E) r _ H Hr).
Qed.

Lemma editorToggleFormat_wraps_the_word_witness :
  exists (left right : nat) (E' : editorConfig) (r' : erow) (E'' : editorConfig),
    editorToggleFormat [42; 42] sample_editor = Ret E'
    /\ (left <= 1 <= right)%nat
    /\ (right <= 3)%nat
    /\ forallb not_space (firstn (right - left) (skipn left [104; 9; 105])) = true
    /\ (left = O
        \/ exists c, nth_error [104; 9; 105] (left - 1) = Some c /\ isspace (to_uchar c) = true)
    /\ (right = 3%nat
        \/ exists c, nth_error [104; 9; 105] right = Some c /\ isspace (to_uchar c) = true)
    /\ row_at E' 0 = Ret r'
    /\ chars r' = firstn left [104; 9; 105] ++ [42; 42]
                    ++ firstn (right - left) (skipn left [104; 9; 105])
                    ++ [42; 42] ++ skipn right [104; 9; 105]
    /\ cy E' = 0
    /\ cx E' = Z.of_nat right + 2
    /\ undo_times 2 E' = Ret E''
    /\ row E'' = [sample_row].
Proof.
  apply (editorToggleFormat_wraps_the_word sample_editor [42; 42] sample_row).
  - reflexivity.
  - reflexivity.
  - vm_compute. split; discriminate.
  - reflexivity.
  - vm_compute. reflexivity.
  - vm_compute. discriminate.
  - vm_compute. discriminate.
Defined.


Lemma editorDelChar_deletes_before_cursor_witness :
  exists E',
    editorDelChar sample_editor = Ret E'
    /\ text_of (row E') = [9; 105; 10]
    /\ offset E' = 0
    /\ cursor_inside E'.
Proof.
  apply (editorDelChar_deletes_before_cursor sample_editor).
  - vm_compute. repeat split; discriminate.
  - reflexivity.
  - reflexivity.
  - vm_compute. reflexivity.
  - vm_compute. discriminate.
  - vm_compute. discriminate.
Defined.
